(* ===== verification/_CoqProject ===== *)
-Q . S2P
Prelude.v
GoStd.v
Sha256.v
Json.v
Duration.v
Rfc3339.v
Base64.v
JsonDecode.v
JsonAny.v
Http.v
Domain.v
Contract.v
Loader.v
Kahn.v
Planner.v
Budget.v
Waves.v
Breaker.v
Scheduler.v
Protocol.v
Grant.v
Wire.v
Identity.v
Oidc.v
Adapter.v
GitHub.v
Brokers.v
Store.v
Policy.v
Bundle.v
Runner.v
Executor.v
Datadog.v
RunnerSettings.v
Engine.v
Verification.v
Durable.v
Postgres.v
Activities.v
Application.v
ControlPlane.v
Api.v
Cli.v
Mcp.v
Ui.v
Workflow.v
Production.v
