(* ===== verification/Prelude.v ===== *)
(** * Themisy: a verification development

    Themisy (src/, a Go program) stands between agents that want to change production and
    the systems that are changed.  A release intent is planned, authorized by policy and by
    people, scheduled, executed step by step and verified; an action that leaves the control
    plane travels as a signed grant to a runner on the customer's side, which checks
    everything again before it calls an adapter.

    ** Parts, and the files that model them

    Foundations:
    - Prelude.v (this file): record update, results, the state monad, sorting, maps in an
      arbitrary iteration order ([MapOrder]), 64-bit wrap-around, shared lemmas and tactics.
    - GoStd.v, Sha256.v, Json.v, Duration.v, Rfc3339.v, Base64.v: what the program uses of the
      Go library: errors with wrapping, strings, SHA-256, JSON encoding, durations, instants as
      text, base64.  JsonDecode.v and JsonAny.v: the JSON parser and decoding into Go values.
      Http.v: outgoing requests, escaping, limited bodies.  They are definitions, not
      assumptions.
    - Domain.v: src/internal/domain.

    Planning and scheduling:
    - Contract.v: contracts and profiles with validation and content hash
      (src/internal/contract, src/internal/profile).  Loader.v: what is read at start
      (the loaders of contracts and profiles, src/internal/catalog, src/internal/config).
    - Kahn.v, Planner.v: src/internal/planner/planner.go.  Kahn.v has the worklist algorithm
      once, over an interface; the planner uses it with a queue and with a stack.
    - Budget.v, Waves.v, Breaker.v, Scheduler.v: src/internal/scheduler and the scheduling
      activities of src/internal/workflow/activities.go.

    State:
    - Store.v: src/internal/store/store.go and memory.go.  Durable.v: the interface
      [DurableStore] its clients use, with the laws they rely on and the in-memory store as an
      instance.
    - Postgres.v: src/internal/store/postgres, the tables with their constraints, each statement
      as a function on them and each method as its statements with faults between them.
      Production.v: it is an instance of [DurableStore], and the workers run over it.

    Authorization:
    - Policy.v: src/internal/policy and src/policies/baseline/main.rego.  Bundle.v: signed
      policy bundles.
    - Protocol.v, Grant.v, Wire.v: src/pkg/protocol and src/internal/grant.  Identity.v, Oidc.v:
      src/internal/identity (subjects, delegations and JSON web tokens).

    Execution:
    - Adapter.v, Executor.v, Verification.v: src/pkg/adapter, src/pkg/credentials,
      src/internal/executor, src/internal/verification.
    - Engine.v: the in-process engine, src/internal/engine/engine.go.
    - Activities.v, Workflow.v: the durable path, src/internal/workflow.  The workflow works
      against the interface [ActivityClient]; the worker that serves the activities of
      Activities.v and Scheduler.v discharges its laws.
    - Application.v: the use cases behind the API, src/internal/application.
    - Runner.v: src/internal/runner.  RunnerSettings.v: its configuration, src/cmd/runner.
    - GitHub.v, Datadog.v, Brokers.v: src/adapters and the brokers of src/pkg/credentials, what
      a runner reaches the outside with.

    Surfaces:
    - ControlPlane.v: the use cases as an interface, on which a handler is a program that asks;
      Application.v answers.  Api.v: src/internal/api.  Mcp.v: src/internal/mcp.  Ui.v:
      src/internal/ui.  Cli.v: src/cmd/themisyctl, whose requests are followed into Api.v.

    A method of a Go type becomes a function on a record of its fields; code with effects is
    written in a state monad over a world of store, clock readings, fresh identifiers and
    external calls, and leaves a trace of the calls.  Errors are values.  Integers are Z, with
    [int64] where the code can wrap.  Values that the code shares by pointer and then clones
    are plain values; the model follows the clones of the code.

    ** What the theorems show

    - No write without authorization: [deployments_authorized], [advance_refines] and
      [approval_guarded] (engine), [workflow_deploys_authorized] (workflow),
      [runner_executes_authorized] (runner), [approval_signals_guarded] (application),
      [github_dispatches_allowlisted] and [check_settings_spec] (what a runner can reach).
      A policy decision is a string; the engine and the workflow stop for a denial and for a
      missing approval, so a fourth string would pass, which the repository's evaluators never
      answer ([stock_engine_decides]).
    - No write twice: [activities_write_once] over interleavings, crashes and retries,
      [production_write_once] over PostgreSQL with outages and lost acknowledgements,
      [runner_action_reserved_once], [runner_executes_once], and the idempotence of repeated
      calls ([deploy_retry_idempotent], [persist_retry_idempotent], [runner_replay_idempotent]).
    - The answer is right: [start_success_complete], [workflow_success_complete],
      [workflow_completes_reservations], [workflow_returns_or_waits],
      [datadog_passes_exactly], [github_reconcile_sound].
    - Surfaces: [api_isolation], [api_steers_as_principal], [mcp_authority], [mcp_tools_exact],
      [console_decides_with_token], [cli_reaches_use_case].
    - Planning: [PlanIntent_sound], [PlanIntent_total], [ValidatePlan_roundtrip],
      [plan_hash_binds], [contract_validate_iff].
    - Scheduling: [BuildWaves_schedule], [budget_limits_respected], [activities_budget_exact],
      [breaker_refines_history], [breaker_default_threshold].
    - Storage: [pg_all_or_nothing], [pg_schema_invariant], [update_no_lost_update], [store_replay_faithful], [created_release_starts],
      [one_workflow_per_request].
    - Separation: [tenant_isolation], [grant_tampering_detected].  Planning and starting are outside the
      first: a request id that another tenant used answers with that tenant's run.
    - What is written is read back: [grant_sign_verify], [grant_wire_roundtrip],
      [oidc_token_roundtrip], [bundle_sign_verify].  Where JSON text is signed or hashed the
      theorems are about valid UTF-8, since json.Marshal replaces other bytes.
    - Policy: [baseline_decides], [opa_fails_closed], [policy_inputs_agree];
      [baseline_ignores_delegation] shows a rule that cannot fire.

    ** Bounds

    Recursions that are not structural take fuel: the planner's worklist (the number of
    services), [BuildWaves] (the number of steps), [ParseDuration], [path.Match], the RFC
    3339 reader and the escaping of text (the length of the text), the JSON parser (twice the length and two).  For each a lemma shows the fuel is enough, and the
    properties are stated for the fuelled definition with that amount.  Waiting for signals
    in the workflow is a recursion over the list of signals that arrive.

    ** Parameters

    What is not in the sources is an argument of the definitions: Ed25519 (class [Ed25519],
    with the law that a signature verifies) and RSA, the value an OPA query returns, the JSON
    text of evidence (which contains floating-point numbers) and of other untyped values, the
    texts of the errors of encoding/json, the constructor of a Temporal application error, the
    workflow service, the subject verifier and the resolver of keys, adapters and credential
    brokers where a part is generic in them, the network behind an HTTP client, the file
    system, the environment and the YAML decoder, what a faulty database does, the order that
    an unstable sort leaves equal elements in, clock readings and random identifiers.  SHA-256
    is computed and never assumed injective.

    ** Not modelled

    The main functions, which construct and run what is modelled until a signal; the Temporal
    client and worker registration; opening the connection pool and running migrations; the
    tickers between passes of a loop; parsing of flags; HTML templates, the bytes of JSON answers (an answer
    is the value that is written) and logging; cancelling through a context. *)
From stdpp Require Export prelude gmap sorting strings relations pretty.
From Stdlib Require Export ZArith.

(** ** Record update

    Go assigns struct fields one at a time ([step.Status = ...]).  A record
    declares its eta-expansion once ([Eta]) and every field then has an update
    [x <| field := v |>], derived by abstracting the field in that expansion. *)

Class Eta (R : Type) := eta_of : R → R.

Class FieldUpdate {R E : Type} (field : R → E) := { modify : (E → E) → R → R }.

Ltac derive_update R E field :=
  let e := eval hnf in (_ : Eta R) in
  let e := eval cbv beta in e in
  lazymatch (eval pattern field in e) with
  | ?ctx field =>
      let u := eval cbv beta in (λ g : E → E, ctx (λ r : R, g (field r))) in
      exact {| modify := u |}
  end.

#[export] Hint Extern 0 (@FieldUpdate ?R ?E ?field) =>
  derive_update R E field : typeclass_instances.

Declare Scope update_scope.
Delimit Scope update_scope with upd.
Open Scope update_scope.

Notation "x <| f := v |>" := (modify (field:=f) (λ _, v) x)
  (at level 1, left associativity, f at level 9, v at level 99,
   format "x  <| f  :=  v |>") : update_scope.
Notation "x <| f ::= g |>" := (modify (field:=f) g x)
  (at level 1, left associativity, f at level 9, g at level 99,
   format "x  <| f  ::=  g |>") : update_scope.

(** ** Results: a value or an error, as Go's [(T, error)] pairs *)

Inductive result (E A : Type) : Type :=
| Ok (a : A)
| Err (e : E).
Arguments Ok {E A} a.
Arguments Err {E A} e.

Definition is_ok {E A} (r : result E A) : bool :=
  match r with Ok _ => true | Err _ => false end.

#[export] Instance result_ret E : MRet (result E) := λ A a, Ok a.
#[export] Instance result_bind E : MBind (result E) := λ A B f r,
  match r with Ok a => f a | Err e => Err e end.

(** ** Stateful code: a state transformer that returns a value *)

Definition ST (S A : Type) : Type := S → S * A.

#[export] Instance st_ret S : MRet (ST S) := λ A a s, (s, a).
#[export] Instance st_bind S : MBind (ST S) := λ A B f m s,
  let '(s', a) := m s in f a s'.

Lemma st_bind_inv {S A B} (m : ST S A) (f : A → ST S B) w w' b :
  (m ≫= f) w = (w', b) → ∃ w1 a, m w = (w1, a) ∧ f a w1 = (w', b).
Proof. unfold mbind, st_bind. destruct (m w) as [w1 a]. eauto. Qed.

(** ** Machine integers: Go's [int64] *)

Definition int64_min : Z := - 2 ^ 63.
Definition int64_max : Z := 2 ^ 63 - 1.

(** Two's complement wrap-around of an exact result. *)
Definition int64 (z : Z) : Z := (z + 2 ^ 63) `mod` 2 ^ 64 - 2 ^ 63.

Definition in_int64 (z : Z) : Prop := (int64_min ≤ z ≤ int64_max)%Z.

Lemma int64_id z : in_int64 z → int64 z = z.
Proof.
  unfold in_int64, int64, int64_min, int64_max. intros Hz.
  rewrite Z.mod_small; lia.
Qed.

Lemma int64_range z : in_int64 (int64 z).
Proof.
  unfold in_int64, int64, int64_min, int64_max.
  pose proof (Z.mod_pos_bound (z + 2 ^ 63) (2 ^ 64)). lia.
Qed.

Lemma int64_succ_neq z : in_int64 z → int64 (z + 1) ≠ z.
Proof.
  intros Hz. destruct (decide (z = int64_max)) as [->|Hne].
  - vm_compute. discriminate.
  - rewrite int64_id; [lia|]. unfold in_int64, int64_max in *. lia.
Qed.

(** ** Sorting

    [sort.Slice] and [sort.Strings] are modelled by stdpp's merge sort.  Go's
    sort is not stable; where the comparison is a total order on the elements
    the sorted list is unique ([sort_total_perm]), so the choice is immaterial. *)

(** [sort.Slice(l, less)]: no element is [less] than one before it. *)
Definition slice_le {A} (less : A → A → bool) (x y : A) : Prop := less y x = false.

#[export] Instance slice_le_dec {A} (less : A → A → bool) : RelDecision (slice_le less).
Proof. intros x y. unfold slice_le. apply _. Defined.

Definition sort_Slice {A} (less : A → A → bool) (l : list A) : list A :=
  merge_sort (slice_le less) l.

Definition sort_Strings (l : list string) : list string := merge_sort String.le l.

Definition sort_Ints (l : list Z) : list Z := merge_sort Z.le l.

Section sort_facts.
Context {A : Type} (R : relation A) `{!RelDecision R, !PartialOrder R, !Total R}.

Lemma sort_total_perm l1 l2 : l1 ≡ₚ l2 → merge_sort R l1 = merge_sort R l2.
Proof.
  intros Hp. apply (Sorted_unique R).
  - apply Sorted_merge_sort; apply _.
  - apply Sorted_merge_sort; apply _.
  - by rewrite !merge_sort_Permutation.
Qed.

Lemma sort_total_id l : StronglySorted R l → merge_sort R l = l.
Proof.
  intros Hl. apply (Sorted_unique R).
  - apply Sorted_merge_sort; apply _.
  - by apply StronglySorted_Sorted.
  - by rewrite merge_sort_Permutation.
Qed.
End sort_facts.

Lemma sort_Strings_perm l : sort_Strings l ≡ₚ l.
Proof. apply merge_sort_Permutation. Qed.

Lemma sort_Strings_canonical l1 l2 : l1 ≡ₚ l2 → sort_Strings l1 = sort_Strings l2.
Proof. apply sort_total_perm; apply _. Qed.

Lemma sort_Strings_idem l : sort_Strings (sort_Strings l) = sort_Strings l.
Proof. apply sort_Strings_canonical, sort_Strings_perm. Qed.

Lemma elem_of_sort_Strings x l : x ∈ sort_Strings l ↔ x ∈ l.
Proof. by rewrite sort_Strings_perm. Qed.

Lemma sort_Ints_perm l : sort_Ints l ≡ₚ l.
Proof. apply merge_sort_Permutation. Qed.

Lemma sort_Ints_canonical l1 l2 : l1 ≡ₚ l2 → sort_Ints l1 = sort_Ints l2.
Proof. apply sort_total_perm; apply _. Qed.

Lemma sort_Slice_perm {A} (less : A → A → bool) l : sort_Slice less l ≡ₚ l.
Proof. apply merge_sort_Permutation. Qed.

Lemma elem_of_sort_Slice {A} (less : A → A → bool) x l : x ∈ sort_Slice less l ↔ x ∈ l.
Proof. by rewrite sort_Slice_perm. Qed.

(** A comparison that sorts uniquely: [slice_le less] is a total order. *)
Class StrictOrderBool {A} (less : A → A → bool) : Prop := {
  less_irrefl x : less x x = false;
  less_trans x y z : less y x = false → less z y = false → less z x = false;
  less_total x y : less x y = false → less y x = false → x = y;
  less_asym x y : less x y = true → less y x = false;
}.

Section strict_order_bool.
Context {A : Type} (less : A → A → bool) `{!StrictOrderBool less}.

#[export] Instance slice_le_po : PartialOrder (slice_le less).
Proof.
  unfold slice_le. split; [split|].
  - intros x. apply less_irrefl.
  - intros x y z. apply less_trans.
  - intros x y H1 H2. by apply less_total.
Qed.

#[export] Instance slice_le_total : Total (slice_le less).
Proof.
  intros x y. unfold slice_le.
  destruct (less y x) eqn:E; [right|by left]. by apply less_asym.
Qed.

Lemma sort_Slice_canonical l1 l2 : l1 ≡ₚ l2 → sort_Slice less l1 = sort_Slice less l2.
Proof. apply sort_total_perm; apply _. Qed.

Lemma sort_Slice_sorted l : StronglySorted (slice_le less) (sort_Slice less l).
Proof. apply StronglySorted_merge_sort; apply _. Qed.
End strict_order_bool.

(** Sorting by a key: elements with distinct keys have one sorted order. *)
Lemma fmap_perm_unique {A B} (f : A → B) l1 l2 :
  NoDup (f <$> l1) → l1 ≡ₚ l2 → f <$> l1 = f <$> l2 → l1 = l2.
Proof.
  revert l2. induction l1 as [|x l1 IH]; intros [|y l2] Hnd Hp Hf; try done.
  csimpl in *. apply NoDup_cons in Hnd as [Hx Hnd]. injection Hf as Hxy Hf.
  assert (x = y) as <-.
  { assert (Hin : y ∈ x :: l1) by (rewrite Hp; left).
    apply elem_of_cons in Hin as [->|Hin]; [done|].
    destruct Hx. rewrite Hxy. by apply list_elem_of_fmap_2. }
  f_equal. apply IH; [done| |done]. by apply (inj (cons x)) in Hp.
Qed.

Lemma StronglySorted_impl {A} (R1 R2 : relation A) l :
  (∀ x y, R1 x y → R2 x y) → StronglySorted R1 l → StronglySorted R2 l.
Proof. intros Hi Hl. rewrite <-(list_fmap_id l). by eapply StronglySorted_fmap. Qed.

Section sort_by_key.
Context {A K : Type} (key : A → K) (lessK : K → K → bool) `{!StrictOrderBool lessK}.

Definition less_on (x y : A) : bool := lessK (key x) (key y).

Lemma sort_on_sorted l : StronglySorted (slice_le less_on) (sort_Slice less_on l).
Proof.
  apply StronglySorted_merge_sort; unfold slice_le, less_on.
  - intros x y z. apply less_trans.
  - intros x y. destruct (lessK (key y) (key x)) eqn:E; [right|by left]. by apply less_asym.
Qed.

Lemma sort_on_canonical l1 l2 :
  NoDup (key <$> l1) → l1 ≡ₚ l2 → sort_Slice less_on l1 = sort_Slice less_on l2.
Proof.
  intros Hnd Hp.
  assert (Hs : ∀ l, Sorted (slice_le lessK) (key <$> sort_Slice less_on l)).
  { intros l. apply StronglySorted_Sorted.
    pose proof (sort_on_sorted l) as Hl. induction Hl as [|x l' Hl IH Hx]; csimpl; constructor; [done|].
    apply Forall_fmap. by eapply Forall_impl; [exact Hx|]. }
  apply (fmap_perm_unique key).
  - by rewrite sort_Slice_perm.
  - by rewrite !sort_Slice_perm.
  - apply (Sorted_unique (slice_le lessK)); [apply Hs..|]. by rewrite !sort_Slice_perm, Hp.
Qed.
End sort_by_key.

#[export] Instance string_ltb_strict : StrictOrderBool String.ltb.
Proof.
  assert (Hltb : ∀ x y, String.ltb x y = negb (String.leb y x)).
  { intros x y. unfold String.ltb, String.leb.
    rewrite (String.compare_antisym x y). by destruct (String.compare y x). }
  assert (Hle : ∀ x y, String.ltb x y = false ↔ String.le y x).
  { intros x y. rewrite Hltb, negb_false_iff. unfold String.le. by rewrite Is_true_true. }
  split.
  - intros x. apply Hle. reflexivity.
  - intros x y z. rewrite !Hle. intros. by transitivity y.
  - intros x y. rewrite !Hle. intros. by apply (anti_symm String.le).
  - intros x y. rewrite Hltb, negb_true_iff. intros Hf.
    apply Hle. destruct (total String.le x y) as [?|Hyx]; [done|].
    apply Is_true_true in Hyx. congruence.
Qed.

#[export] Instance Z_ltb_strict : StrictOrderBool Z.ltb.
Proof. split; intros; rewrite ?Z.ltb_lt, ?Z.ltb_ge in *; lia. Qed.

(** Comparison by a first key, then by a second one. *)
Definition lex_less {A B} `{!EqDecision A} (lessA : A → A → bool) (lessB : B → B → bool)
    (x y : A * B) : bool :=
  if bool_decide (x.1 = y.1) then lessB x.2 y.2 else lessA x.1 y.1.

#[export] Instance lex_less_strict {A B} `{!EqDecision A} (lessA : A → A → bool)
    (lessB : B → B → bool) `{!StrictOrderBool lessA, !StrictOrderBool lessB} :
  StrictOrderBool (lex_less lessA lessB).
Proof.
  unfold lex_less. split.
  - intros [a b]. rewrite bool_decide_true by done. apply less_irrefl.
  - intros [a1 b1] [a2 b2] [a3 b3]; simpl. repeat case_bool_decide; subst; intros ? ?; try done.
    + by eapply less_trans.
    + exfalso. match goal with Hne : _ ≠ _ |- _ => apply Hne end.
      by apply (less_total (less:=lessA)).
    + by eapply less_trans.
  - intros [a1 b1] [a2 b2]; simpl. case_bool_decide as Ha; subst.
    + rewrite bool_decide_true by done. intros. f_equal. by apply (less_total (less:=lessB)).
    + rewrite bool_decide_false by done. intros. by destruct Ha; apply (less_total (less:=lessA)).
  - intros [a1 b1] [a2 b2]; simpl. case_bool_decide; subst.
    + rewrite bool_decide_true by done. apply less_asym.
    + rewrite bool_decide_false by done. apply less_asym.
Qed.

(** A comparison read through an injective key. *)
Lemma less_on_strict {A K} (key : A → K) (lessK : K → K → bool) `{!StrictOrderBool lessK} :
  Inj (=) (=) key → StrictOrderBool (less_on key lessK).
Proof.
  intros Hinj. unfold less_on. split; intros *.
  - apply less_irrefl.
  - apply less_trans.
  - intros. apply Hinj. by apply (less_total (less:=lessK)).
  - apply less_asym.
Qed.

Lemma StrictOrderBool_ext {A} (less less' : A → A → bool) :
  (∀ x y, less' x y = less x y) → StrictOrderBool less → StrictOrderBool less'.
Proof.
  intros Heq [Hi Ht Htot Ha].
  split; intros *; rewrite !Heq; [apply Hi|apply Ht|apply Htot|apply Ha].
Qed.

(** ** Lists *)

Lemma NoDup_fmap_elem_eq {A B} (f : A → B) l x y :
  NoDup (f <$> l) → x ∈ l → y ∈ l → f x = f y → x = y.
Proof.
  induction l as [|z l IH]; csimpl; [set_solver|].
  rewrite NoDup_cons. intros [Hz Hl] Hx Hy Hf.
  apply elem_of_cons in Hx as [->|Hx], Hy as [->|Hy]; try done.
  - exfalso. apply Hz. rewrite Hf. by apply list_elem_of_fmap_2.
  - exfalso. apply Hz. rewrite <-Hf. by apply list_elem_of_fmap_2.
  - by apply IH.
Qed.

Lemma filter_none {A} (P : A → Prop) `{!∀ x, Decision (P x)} (l : list A) :
  (∀ x, x ∈ l → ¬ P x) → filter P l = [].
Proof.
  induction l as [|x l IH]; [done|]. intros Hno. rewrite filter_cons, decide_False.
  - apply IH. intros y Hy. apply Hno. by right.
  - apply Hno. left.
Qed.

Lemma filter_all {A} (P : A → Prop) `{!∀ x, Decision (P x)} (l : list A) :
  (∀ x, x ∈ l → P x) → filter P l = l.
Proof.
  induction l as [|x l IH]; [done|]. intros Hall. rewrite filter_cons, decide_True.
  - f_equal. apply IH. intros y Hy. apply Hall. by right.
  - apply Hall. left.
Qed.

(** Number of occurrences. *)
Definition occ {A} `{!EqDecision A} (x : A) (l : list A) : nat :=
  length (filter (λ y, y = x) l).

Section occ_facts.
Context {A : Type} `{!EqDecision A}.
Implicit Types (x y : A) (l : list A).

Lemma occ_nil x : occ x [] = 0.
Proof. done. Qed.

Lemma occ_cons x y l : occ x (y :: l) = (if decide (y = x) then 1 else 0) + occ x l.
Proof. unfold occ. rewrite filter_cons. by case_decide. Qed.

Lemma occ_app x l1 l2 : occ x (l1 ++ l2) = occ x l1 + occ x l2.
Proof. unfold occ. by rewrite filter_app, length_app. Qed.

Lemma occ_perm x l1 l2 : l1 ≡ₚ l2 → occ x l1 = occ x l2.
Proof. intros Hp. unfold occ. by rewrite Hp. Qed.

Lemma occ_pos x l : 0 < occ x l ↔ x ∈ l.
Proof.
  induction l as [|y l IH]; [rewrite occ_nil, elem_of_nil; lia|].
  rewrite occ_cons, elem_of_cons. case_decide as Hyx; [subst; split; [by left|lia]|].
  rewrite Nat.add_0_l, IH. split; [by right|by intros [<-|?]].
Qed.

Lemma occ_not_elem x l : x ∉ l → occ x l = 0.
Proof. rewrite <-occ_pos. lia. Qed.

Lemma occ_NoDup x l : NoDup l → occ x l ≤ 1.
Proof.
  induction 1 as [|y l Hy Hl IH]; [rewrite occ_nil; lia|].
  rewrite occ_cons. case_decide; [|lia]. subst. rewrite occ_not_elem; [lia|done].
Qed.
End occ_facts.

Create HintDb themisy.
Create Rewrite HintDb themisy.
#[export] Hint Rewrite @occ_nil @occ_cons @occ_app : themisy.

(** ** Automation *)

(** Case analysis on the first test of the goal, keeping its equation. *)
Ltac split_if :=
  match goal with
  | |- context [if ?b then _ else _] => destruct b eqn:?
  | H : context [if ?b then _ else _] |- _ => destruct b eqn:?
  end.

(** Case analysis on the scrutinee of a match in a hypothesis. *)
Ltac split_match :=
  match goal with
  | H : context [match ?x with _ => _ end] |- _ =>
      lazymatch x with context [match _ with _ => _ end] => fail | _ => destruct x eqn:? end
  end.

(** Boolean connectives as propositions. *)
Ltac reflect_bools :=
  repeat match goal with
  | H : _ && _ = true |- _ => apply andb_true_iff in H as [? ?]
  | H : _ || _ = false |- _ => apply orb_false_iff in H as [? ?]
  | H : negb _ = true |- _ => apply negb_true_iff in H
  | H : negb _ = false |- _ => apply negb_false_iff in H
  | H : (_ <=? _)%Z = true |- _ => apply Z.leb_le in H
  | H : (_ <=? _)%Z = false |- _ => apply Z.leb_gt in H
  | H : (_ <? _)%Z = true |- _ => apply Z.ltb_lt in H
  | H : (_ <? _)%Z = false |- _ => apply Z.ltb_ge in H
  | H : (_ =? _)%Z = true |- _ => apply Z.eqb_eq in H
  | H : (_ =? _)%Z = false |- _ => apply Z.eqb_neq in H
  | H : bool_decide _ = true |- _ => apply bool_decide_eq_true in H
  | H : bool_decide _ = false |- _ => apply bool_decide_eq_false in H
  end.

(** ** Iteration over Go maps

    [for k, v := range m] visits the entries in an unspecified order.  A model
    that iterates is parameterized by the order taken at each [range] statement
    ([site]); [range_perm] is all the language guarantees, and the determinism
    theorems compare two arbitrary orders. *)

Class MapOrder := {
  range {A : Type} (site : nat) (m : gmap string A) : list (string * A);
  range_perm {A : Type} site (m : gmap string A) : range site m ≡ₚ map_to_list m;
}.

Definition range_keys `{!MapOrder} {A} (site : nat) (m : gmap string A) : list string :=
  (range site m).*1.

Definition range_values `{!MapOrder} {A} (site : nat) (m : gmap string A) : list A :=
  (range site m).*2.

(** The order in which [map_to_list] enumerates: used to evaluate examples. *)
Definition canonical_order : MapOrder :=
  {| range := λ A _ m, map_to_list m; range_perm := λ A _ m, reflexivity _ |}.

(** Another order: the reverse. *)
Program Definition reversed_order : MapOrder :=
  {| range := λ A _ m, reverse (map_to_list m) |}.
Next Obligation. intros. apply reverse_Permutation. Qed.

Section range_facts.
Context `{!MapOrder} {A : Type}.
Implicit Types m : gmap string A.

Lemma elem_of_range site m k x : (k, x) ∈ range site m ↔ m !! k = Some x.
Proof. rewrite range_perm. apply elem_of_map_to_list. Qed.

Lemma elem_of_range_values site m x : x ∈ range_values site m ↔ ∃ k, m !! k = Some x.
Proof.
  unfold range_values. rewrite list_elem_of_fmap. split.
  - intros ([k x'] & -> & Hin%elem_of_range). by exists k.
  - intros [k Hk]. exists (k, x). by rewrite elem_of_range.
Qed.

Lemma NoDup_range_keys site m : NoDup (range_keys site m).
Proof. unfold range_keys. rewrite range_perm. apply NoDup_fst_map_to_list. Qed.

Lemma elem_of_range_keys site m k : k ∈ range_keys site m ↔ is_Some (m !! k).
Proof.
  unfold range_keys. rewrite list_elem_of_fmap. split.
  - intros [[k' x] [-> Hin]]. apply elem_of_range in Hin. by eexists.
  - intros [x Hx]. exists (k, x). by rewrite elem_of_range.
Qed.

Lemma length_range site m : length (range site m) = size m.
Proof. rewrite range_perm. apply length_map_to_list. Qed.
End range_facts.

#[export] Hint Resolve NoDup_range_keys : themisy.

(** Reading a Go map: the zero value when the key is absent. *)
Definition get {K A} `{Countable K} (zero : A) (m : gmap K A) (k : K) : A := default zero (m !! k).

Lemma get_insert {K A} `{Countable K} (zero : A) (m : gmap K A) i j x :
  get zero (<[i:=x]> m) j = if decide (i = j) then x else get zero m j.
Proof. unfold get. rewrite lookup_insert. by case_decide. Qed.

Lemma get_insert_eq {K A} `{Countable K} (zero : A) (m : gmap K A) i x :
  get zero (<[i:=x]> m) i = x.
Proof. rewrite get_insert. by rewrite decide_True. Qed.

Lemma get_insert_ne {K A} `{Countable K} (zero : A) (m : gmap K A) i j x :
  i ≠ j → get zero (<[i:=x]> m) j = get zero m j.
Proof. intros. rewrite get_insert. by rewrite decide_False. Qed.

Lemma get_empty {K A} `{Countable K} (zero : A) (i : K) : get zero (∅ : gmap K A) i = zero.
Proof. unfold get. by rewrite lookup_empty. Qed.

#[export] Hint Rewrite @get_insert_eq @get_empty : themisy.

(** Two orders visit the same entries. *)
Lemma range_canonical (o1 o2 : MapOrder) {A} site1 site2 (m : gmap string A) :
  @range o1 _ site1 m ≡ₚ @range o2 _ site2 m.
Proof. by rewrite !range_perm. Qed.

(** ** Filling a map from a list

    The loops [for _, x := range l { ...; m[key(x)] = f(x) }] that refuse a
    duplicate key. *)

Definition index_by {A B} (key : A → string) (f : A → B) (l : list A) (m : gmap string B) :
    gmap string B :=
  foldl (λ m x, <[key x := f x]> m) m l.

Section index_by.
Context {A B : Type} (key : A → string) (f : A → B).
Implicit Types (l : list A) (m : gmap string B).

Lemma lookup_index_by l m k y :
  NoDup (key <$> l) → (∀ x, x ∈ l → m !! key x = None) →
  index_by key f l m !! k = Some y ↔ m !! k = Some y ∨ ∃ x, x ∈ l ∧ key x = k ∧ f x = y.
Proof.
  unfold index_by. revert m. induction l as [|x l IH]; intros m Hnd Hfresh; csimpl in *; [set_solver|].
  apply NoDup_cons in Hnd as [Hnot Hnd]. rewrite IH; [|done|].
  - rewrite lookup_insert_Some. setoid_rewrite elem_of_cons. specialize (Hfresh x). split.
    + intros [[[<- <-]|[? ?]]|(z & ? & ? & ?)]; naive_solver.
    + intros [Hm|(z & [->|Hz] & Hk & Hy)]; [|naive_solver|naive_solver].
      left. right. split; [|done]. intros <-. rewrite Hfresh in Hm by by left. done.
  - intros z Hz. rewrite lookup_insert_ne; [apply Hfresh; by right|].
    intros Heq. apply Hnot. rewrite Heq. by apply list_elem_of_fmap_2.
Qed.

Lemma lookup_index_by_empty l k y :
  NoDup (key <$> l) → index_by key f l ∅ !! k = Some y ↔ ∃ x, x ∈ l ∧ key x = k ∧ f x = y.
Proof.
  intros Hnd. rewrite lookup_index_by; [|done|intros; apply lookup_empty].
  rewrite lookup_empty. naive_solver.
Qed.

Lemma index_by_perm l1 l2 :
  NoDup (key <$> l1) → l1 ≡ₚ l2 → index_by key f l1 ∅ = index_by key f l2 ∅.
Proof.
  intros Hnd Hp. apply map_eq. intros k. apply option_eq. intros y.
  rewrite !lookup_index_by_empty; [by setoid_rewrite Hp| |done]. by rewrite <-Hp.
Qed.

Lemma index_by_keys l k :
  NoDup (key <$> l) → is_Some (index_by key f l ∅ !! k) ↔ k ∈ key <$> l.
Proof.
  intros Hnd. unfold is_Some. setoid_rewrite lookup_index_by_empty; [|done].
  rewrite list_elem_of_fmap. naive_solver.
Qed.

Lemma size_index_by l : NoDup (key <$> l) → size (index_by key f l ∅) = length l.
Proof.
  intros Hnd. rewrite <-length_map_to_list, <-(length_fmap fst), <-(length_fmap key).
  apply Permutation_length, NoDup_Permutation; [apply NoDup_fst_map_to_list|done|].
  intros k. rewrite <-(index_by_keys l k Hnd), list_elem_of_fmap. split.
  - intros ([k' y] & -> & Hin%elem_of_map_to_list). by eexists.
  - intros [y Hy]. exists (k, y). by rewrite elem_of_map_to_list.
Qed.
End index_by.
