(* ===== verification/GoStd.v ===== *)
(** * The parts of Go and its standard library the program uses

    [error] values with wrapping ([errors.Is], [errors.As], [Unwrap]),
    [strings.TrimSpace], [strings.HasPrefix], [strings.Cut], [strings.Split],
    [%q] quoting, [time.Time] as nanoseconds since the zero time, and the
    untyped values of [map[string]any]. *)
From S2P Require Import Prelude.
From Stdlib Require Import Ascii SpecFloat.

(** ** time.Time and time.Duration

    An instant is the number of nanoseconds since Go's zero time, so that
    [IsZero] is equality with [0]; [UTC] only changes the presentation. *)

Abbreviation time := Z (only parsing).
Abbreviation duration := Z (only parsing).

Definition IsZero (t : time) : bool := (t =? 0)%Z.
Definition Before (t u : time) : bool := (t <? u)%Z.
Definition After (t u : time) : bool := (u <? t)%Z.
Definition Add (t : time) (d : duration) : time := (t + d)%Z.

Definition Nanosecond : duration := 1.
Definition Second : duration := 1000000000.
Definition Minute : duration := 60 * Second.
Definition Hour : duration := 60 * Minute.

(** ** Strings as byte sequences *)

Definition byte_in (lo hi : nat) (c : ascii) : bool :=
  (lo <=? nat_of_ascii c)%nat && (nat_of_ascii c <=? hi)%nat.

Definition is_digit (c : ascii) : bool := byte_in 48 57 c.
Definition is_upper (c : ascii) : bool := byte_in 65 90 c.
Definition is_lower (c : ascii) : bool := byte_in 97 122 c.

(** [encoding/hex]: the characters [hex.DecodeString] accepts. *)
Definition is_hex (c : ascii) : bool := is_digit c || byte_in 65 70 c || byte_in 97 102 c.

Definition bytes (l : list nat) : string := String.string_of_list_ascii (ascii_of_nat <$> l).

(** The encodings of the runes [unicode.IsSpace] accepts. *)
Definition space_runes : list string :=
  (bytes <$> [[9]; [10]; [11]; [12]; [13]; [32]; [194; 133]; [194; 160]; [225; 154; 128];
    [226; 128; 168]; [226; 128; 169]; [226; 128; 175]; [226; 129; 159]; [227; 128; 128]]) ++
  ((λ k, bytes [226; 128; 128 + k]) <$> seq 0 11).

Fixpoint HasPrefix (s prefix : string) : bool :=
  match prefix, s with
  | EmptyString, _ => true
  | String c p, String d t => Ascii.eqb c d && HasPrefix t p
  | String _ _, EmptyString => false
  end.

Fixpoint drop_bytes (n : nat) (s : string) : string :=
  match n, s with
  | S n, String _ t => drop_bytes n t
  | _, _ => s
  end.

(** Width of the space rune at the head of [s], given the encodings. *)
Definition space_width (runes : list string) (s : string) : nat :=
  match list_find (λ r, HasPrefix s r = true) runes with
  | Some (_, r) => String.length r
  | None => 0
  end.

(** Fuel [String.length s] is enough: every round drops at least one byte. *)
Fixpoint trim_left (fuel : nat) (runes : list string) (s : string) : string :=
  match fuel with
  | O => s
  | S fuel =>
      match space_width runes s with
      | O => s
      | w => trim_left fuel runes (drop_bytes w s)
      end
  end.

(** [strings.TrimSpace] *)
Definition TrimSpace (s : string) : string :=
  let l := trim_left (String.length s) space_runes s in
  String.rev
    (trim_left (String.length l) (String.rev <$> space_runes) (String.rev l)).

(** [strings.TrimPrefix] *)
Definition TrimPrefix (s prefix : string) : string :=
  if HasPrefix s prefix then drop_bytes (String.length prefix) s else s.

(** [strings.Cut(s, sep)] for a one-byte separator. *)
Fixpoint Cut (s : string) (sep : ascii) : string * string * bool :=
  match s with
  | EmptyString => (EmptyString, EmptyString, false)
  | String c t =>
      if Ascii.eqb c sep then (EmptyString, t, true)
      else let '(before, after, found) := Cut t sep in
           if found then (String c before, after, true) else (s, EmptyString, false)
  end.

(** [strings.Split(s, sep)] for a one-byte separator. *)
Fixpoint Split (s : string) (sep : ascii) : list string :=
  match s with
  | EmptyString => [EmptyString]
  | String c t =>
      if Ascii.eqb c sep then EmptyString :: Split t sep
      else match Split t sep with
           | [] => [String c EmptyString]
           | h :: r => String c h :: r
           end
  end.

(** [strings.Join] *)
Fixpoint Join (parts : list string) (sep : string) : string :=
  match parts with
  | [] => EmptyString
  | [p] => p
  | p :: rest => p +:+ sep +:+ Join rest sep
  end.

Fixpoint string_forall (p : ascii → bool) (s : string) : bool :=
  match s with
  | EmptyString => true
  | String c t => p c && string_forall p t
  end.

(** [hex.DecodeString] succeeds: an even number of hexadecimal digits. *)
Definition hex_decodable (s : string) : bool :=
  Nat.even (String.length s) && string_forall is_hex s.

Definition NUL : string := String "000"%char EmptyString.
Definition dquote : string := String "034"%char EmptyString.

(** [%d] of an [int]. *)
Definition itoa (z : Z) : string := pretty z.

Definition hexdigit (n : nat) : ascii :=
  if (n <? 10)%nat then ascii_of_nat (48 + n) else ascii_of_nat (87 + n).

(** One byte of a [%q] string; bytes above 127 are parts of printable runes. *)
Definition quote_byte (c : ascii) : string :=
  let n := nat_of_ascii c in
  if bool_decide (n = 34) || bool_decide (n = 92) then String "\" (String c EmptyString)
  else match n with
  | 7 => "\a" | 8 => "\b" | 9 => "\t" | 10 => "\n" | 11 => "\v" | 12 => "\f" | 13 => "\r"
  | _ => if (n <? 32)%nat || (n =? 127)%nat
         then "\x" +:+ String (hexdigit (n / 16)) (String (hexdigit (n mod 16)) EmptyString)
         else String c EmptyString
  end.

(** [%q] *)
Definition quote (s : string) : string :=
  dquote +:+ Join (quote_byte <$> String.list_ascii_of_string s) EmptyString +:+ dquote.

(** ** Untyped values of [map[string]any] *)

#[export] Instance spec_float_eq_dec : EqDecision spec_float.
Proof. solve_decision. Defined.

Inductive any :=
| AString (s : string)
| AStrings (l : list string)
| ABool (b : bool)
| AInt (z : Z)
| ATime (t : time)
| AFloat (f : spec_float)
| AStructs (l : list (string * string * Z)).

#[export] Instance any_eq_dec : EqDecision any.
Proof. solve_decision. Defined.

Abbreviation details := (gmap string any) (only parsing).

(** ** error

    Sentinels ([var ErrX = errors.New(...)]) are compared by identity, so they
    carry the qualified name of their variable.  [Errorf] is [fmt.Errorf] with
    the formatted text and the operand of [%w], if there is one.  The other
    constructors are the error structs of the repository. *)

Inductive error :=
| Sentinel (variable text : string)
| ErrorNew (text : string)
| Errorf (text : string) (wrapped : option error)
| ReasonError (Code Field Detail : string) (Err : option error)
| ClassifiedError (Class Operation : string) (Err : error)
| AdapterError (Class Operation CorrelationID : string) (Err : error)
| Rejection (Reason : string) (Err : option error).

(** [errors.Unwrap] *)
Definition Unwrap (e : error) : option error :=
  match e with
  | Sentinel _ _ | ErrorNew _ => None
  | Errorf _ w => w
  | ReasonError _ _ _ w => w
  | ClassifiedError _ _ w => Some w
  | AdapterError _ _ _ w => Some w
  | Rejection _ w => w
  end.

(** [errors.Is(err, target)] for a sentinel target. *)
Fixpoint errors_Is (e : error) (target : string) : bool :=
  match e with
  | Sentinel v _ => bool_decide (v = target)
  | ErrorNew _ => false
  | Errorf _ (Some w) | ReasonError _ _ _ (Some w) | Rejection _ (Some w) => errors_Is w target
  | ClassifiedError _ _ w | AdapterError _ _ _ w => errors_Is w target
  | Errorf _ None | ReasonError _ _ _ None | Rejection _ None => false
  end.

(** [err.Error()] *)
Fixpoint Error (e : error) : string :=
  match e with
  | Sentinel _ text | ErrorNew text | Errorf text _ => text
  | ReasonError code field detail w =>
      let message := code in
      let message := if bool_decide (field = "") then message else message +:+ " at " +:+ field in
      let message := if bool_decide (detail = "") then message else message +:+ ": " +:+ detail in
      match w with
      | Some w => if bool_decide (detail = "") then message +:+ ": " +:+ Error w else message
      | None => message
      end
  | ClassifiedError class operation w => class +:+ " " +:+ operation +:+ ": " +:+ Error w
  | AdapterError class operation correlation w =>
      if bool_decide (correlation = "")
      then class +:+ " " +:+ operation +:+ ": " +:+ Error w
      else class +:+ " " +:+ operation +:+ " correlation=" +:+ correlation +:+ ": " +:+ Error w
  | Rejection reason None => reason
  | Rejection reason (Some w) => reason +:+ ": " +:+ Error w
  end.

(** Go error results: [nil] is [Ok tt]. *)
Abbreviation go := (result error) (only parsing).

Declare Scope go_scope.
Open Scope go_scope.

(** [if cond { return err }] *)
Definition fail_if (cond : bool) (e : error) : result error unit :=
  if cond then Err e else Ok tt.

(** A loop whose body may return an error. *)
Fixpoint check_all {A} (f : A → result error unit) (l : list A) : result error unit :=
  match l with
  | [] => Ok tt
  | x :: l => match f x with Ok _ => check_all f l | Err e => Err e end
  end.

(** The same with the index. *)
Fixpoint check_alli {A} (f : nat → A → result error unit) (i : nat) (l : list A) : result error unit :=
  match l with
  | [] => Ok tt
  | x :: l => match f i x with Ok _ => check_alli f (S i) l | Err e => Err e end
  end.

(** [a; b] where both may return an error. *)
Notation "m ;; k" := (match m with Ok _ => k | Err e => Err e end)
  (at level 100, k at level 200, right associativity) : go_scope.

(** ** Facts *)

Lemma fail_if_ok b e : fail_if b e = Ok tt ↔ b = false.
Proof. destruct b; simpl; naive_solver. Qed.

Lemma seq_ok {A} (m : result error unit) (k : result error A) a :
  (m;; k) = Ok a ↔ m = Ok tt ∧ k = Ok a.
Proof. destruct m as [[]|]; naive_solver. Qed.

Lemma check_all_ok {A} (f : A → result error unit) l :
  check_all f l = Ok tt ↔ Forall (λ x, f x = Ok tt) l.
Proof.
  induction l as [|x l IH]; simpl; [by rewrite Forall_nil|].
  rewrite Forall_cons, <-IH. destruct (f x) as [[]|]; naive_solver.
Qed.

Lemma check_alli_ok {A} (f : nat → A → result error unit) i l :
  check_alli f i l = Ok tt ↔ ∀ j x, l !! j = Some x → f (i + j) x = Ok tt.
Proof.
  revert i. induction l as [|x l IH]; intros i; simpl; [naive_solver|].
  destruct (f i x) as [[]|] eqn:Hf.
  - rewrite IH. split.
    + intros H [|j] y Hj; [rewrite Nat.add_0_r; by simplify_eq/=|].
      rewrite <-Nat.add_succ_comm. by apply H.
    + intros H j y Hj. rewrite Nat.add_succ_comm. by apply (H (S j)).
  - split; [done|]. intros H. specialize (H 0 x eq_refl). rewrite Nat.add_0_r in H. congruence.
Qed.

Lemma app_cons c (s t : string) : String c s +:+ t = String c (s +:+ t).
Proof. done. Qed.

Lemma app_empty_r (s : string) : s +:+ "" = s.
Proof. induction s as [|c s IH]; [done|]. by rewrite app_cons, IH. Qed.

Lemma app_assoc_string (s t u : string) : s +:+ (t +:+ u) = (s +:+ t) +:+ u.
Proof. induction s as [|c s IH]; [done|]. by rewrite !app_cons, IH. Qed.

Lemma length_app_string (s t : string) : String.length (s +:+ t) = String.length s + String.length t.
Proof. induction s as [|c s IH]; [done|]. rewrite app_cons. simpl. by rewrite IH. Qed.

Lemma HasPrefix_app p s : HasPrefix (p +:+ s) p = true.
Proof.
  induction p as [|c p IH]; [by destruct s|]. rewrite app_cons. simpl. by rewrite Ascii.eqb_refl.
Qed.

Lemma errors_Is_unwrap e w target :
  Unwrap e = Some w → errors_Is w target = true → errors_Is e target = true.
Proof. destruct e as [| |? []|? ? ? []| | |? []]; simpl; intros; simplify_eq; done. Qed.

Lemma TrimSpace_examples :
  TrimSpace "  a b " = "a b" ∧ TrimSpace (bytes [9; 32; 194; 160]) = "".
Proof. by vm_compute. Qed.

Lemma quote_example : quote "svc" = dquote +:+ "svc" +:+ dquote.
Proof. by vm_compute. Qed.

(** [a + NUL + b] determines [a] and [b] when [a] holds no NUL. *)
Definition no_nul (s : string) : bool := string_forall (λ c, negb (Ascii.eqb c "000"%char)) s.

Lemma nul_join_inj a1 b1 a2 b2 :
  no_nul a1 = true → no_nul a2 = true →
  a1 +:+ NUL +:+ b1 = a2 +:+ NUL +:+ b2 → a1 = a2 ∧ b1 = b2.
Proof.
  unfold no_nul. revert a2. induction a1 as [|c a1 IH]; intros [|d a2]; simpl; intros Ha1 Ha2 Heq.
  - split; [done|]. by injection Heq.
  - injection Heq as <- _. by rewrite Ascii.eqb_refl in Ha2.
  - injection Heq as -> _. by rewrite Ascii.eqb_refl in Ha1.
  - reflect_bools. injection Heq as <- Heq.
    destruct (IH a2) as [<- <-]; done.
Qed.

(** *** Separators *)

(** The separator does not occur. *)
Definition lacks (sep : ascii) (s : string) : bool := string_forall (λ c, negb (Ascii.eqb c sep)) s.

Lemma lacks_cons sep c s : lacks sep (String c s) = true ↔ Ascii.eqb c sep = false ∧ lacks sep s = true.
Proof. unfold lacks. cbn [string_forall]. rewrite andb_true_iff, negb_true_iff. done. Qed.

Lemma Split_lacks sep s : lacks sep s = true → Split s sep = [s].
Proof. induction s as [|c s IH]; [done|]. intros [Hc Hs]%lacks_cons. cbn [Split]. by rewrite Hc, IH. Qed.

Lemma Split_sep sep a b : lacks sep a = true → Split (a +:+ String sep EmptyString +:+ b) sep = a :: Split b sep.
Proof.
  induction a as [|c a IH]; [by intros _; change (EmptyString +:+ String sep EmptyString +:+ b) with (String sep b); cbn [Split]; rewrite Ascii.eqb_refl|]. intros [Hc Ha]%lacks_cons.
  rewrite app_cons. cbn [Split]. by rewrite Hc, IH.
Qed.

Lemma Cut_sep sep a b : lacks sep a = true → Cut (a +:+ String sep EmptyString +:+ b) sep = (a, b, true).
Proof.
  induction a as [|c a IH]; [by intros _; change (EmptyString +:+ String sep EmptyString +:+ b) with (String sep b); cbn [Cut]; rewrite Ascii.eqb_refl|]. intros [Hc Ha]%lacks_cons.
  rewrite app_cons. cbn [Cut]. by rewrite Hc, IH.
Qed.
