(* ===== verification/Sha256.v ===== *)
(** * SHA-256 and hexadecimal encoding (Go's crypto/sha256 and encoding/hex)

    The function of FIPS 180-4, on byte strings: content hashes of contracts,
    profiles, plans, policy inputs, evidence and grants all go through it.  The
    properties that speak of hashes never assume it injective: where they need
    two values to have distinct hashes they exhibit the collision instead. *)
From S2P Require Import Prelude GoStd.
From Stdlib Require Import Ascii.
Open Scope Z_scope.

(** ** Words of 32 bits *)

Definition w32 (z : Z) : Z := z `mod` 2 ^ 32.
Definition rotr (n x : Z) : Z := Z.lor (Z.shiftr x n) (w32 (Z.shiftl x (32 - n))).
Definition not32 (x : Z) : Z := Z.lxor x (2 ^ 32 - 1).

Definition Ch (x y z : Z) : Z := Z.lxor (Z.land x y) (Z.land (not32 x) z).
Definition Maj (x y z : Z) : Z := Z.lxor (Z.lxor (Z.land x y) (Z.land x z)) (Z.land y z).
Definition Sigma0 (x : Z) : Z := Z.lxor (Z.lxor (rotr 2 x) (rotr 13 x)) (rotr 22 x).
Definition Sigma1 (x : Z) : Z := Z.lxor (Z.lxor (rotr 6 x) (rotr 11 x)) (rotr 25 x).
Definition sigma0 (x : Z) : Z := Z.lxor (Z.lxor (rotr 7 x) (rotr 18 x)) (Z.shiftr x 3).
Definition sigma1 (x : Z) : Z := Z.lxor (Z.lxor (rotr 17 x) (rotr 19 x)) (Z.shiftr x 10).

(** The round constants and the initial hash value are the first 32 fractional bits of
    the cube roots and the square roots of the first primes (FIPS 180-4, 4.2.2 and 5.3.3). *)
Definition primes (n : nat) : list Z :=
  take n (filter (λ p, forallb (λ d, negb (p `mod` d =? 0)) (seqZ 2 (Z.sqrt p - 1)) = true) (seqZ 2 310)).

(** Bit by bit from bit [n - 1] down: the largest root whose cube is at most [x]. *)
Fixpoint cube_root (n : nat) (x root : Z) : Z :=
  match n with
  | O => root
  | S n =>
      let next := root + 2 ^ Z.of_nat n in
      cube_root n x (if next ^ 3 <=? x then next else root)
  end.

Definition round_constants : list Z :=
  Eval vm_compute in (λ p, w32 (cube_root 36 (p * 2 ^ 96) 0)) <$> primes 64.

Definition initial_hash : list Z :=
  Eval vm_compute in (λ p, w32 (Z.sqrt (p * 2 ^ 64))) <$> primes 8.

(** ** Message schedule and compression *)

(** The schedule, newest word first: 16 words of the block, then 48 more. *)
Fixpoint extend (n : nat) (w : list Z) : list Z :=
  match n with
  | O => w
  | S n =>
      extend n (w32 (sigma1 (nth 1 w 0) + nth 6 w 0 + sigma0 (nth 14 w 0) + nth 15 w 0) :: w)
  end.

Definition schedule (block : list Z) : list Z := reverse (extend 48 (reverse block)).

Definition round (h : list Z) (kw : Z * Z) : list Z :=
  match h with
  | [a; b; c; d; e; f; g; hh] =>
      let t1 := w32 (hh + Sigma1 e + Ch e f g + kw.1 + kw.2) in
      let t2 := w32 (Sigma0 a + Maj a b c) in
      [w32 (t1 + t2); a; b; c; w32 (d + t1); e; f; g]
  | _ => h
  end.

Definition compress (h : list Z) (block : list Z) : list Z :=
  zip_with (λ x y, w32 (x + y)) h
    (foldl round h (zip round_constants (schedule block))).

(** ** Padding *)

Definition be_bytes (n : nat) (z : Z) : list Z :=
  reverse ((λ i, Z.shiftr z (8 * Z.of_nat i) `mod` 256) <$> seq 0 n).

Definition pad (message : list Z) : list Z :=
  let n := length message in
  message ++ [128] ++ replicate (Z.to_nat ((55 - Z.of_nat n) `mod` 64)) 0 ++ be_bytes 8 (8 * Z.of_nat n).

Fixpoint be_words (l : list Z) : list Z :=
  match l with
  | a :: b :: c :: d :: l => (((a * 256 + b) * 256 + c) * 256 + d) :: be_words l
  | _ => []
  end.

(** Blocks of 16 words; as many as fit. *)
Fixpoint blocks (n : nat) (l : list Z) : list (list Z) :=
  match n with
  | O => []
  | S n => take 16 l :: blocks n (drop 16 l)
  end.

(** ** The hash *)

Definition string_bytes (s : string) : list Z :=
  (λ c, Z.of_nat (nat_of_ascii c)) <$> String.list_ascii_of_string s.

(** [sha256.Sum256]: 32 bytes. *)
Definition Sum256 (data : string) : list Z :=
  let words := be_words (pad (string_bytes data)) in
  let h := foldl compress initial_hash (blocks (length words / 16) words) in
  h ≫= be_bytes 4.

Definition hex_byte (z : Z) : string :=
  String (hexdigit (Z.to_nat (z / 16))) (String (hexdigit (Z.to_nat (z `mod` 16))) EmptyString).

(** [hex.EncodeToString] *)
Definition EncodeToString (l : list Z) : string := Join (hex_byte <$> l) EmptyString.

(** ["sha256:" + hex.EncodeToString(sum[:])], the form of every content hash. *)
Definition sha256_ref (data : string) : string := "sha256:" +:+ EncodeToString (Sum256 data).

#[global] Arguments Sum256 : simpl never.
#[global] Arguments sha256_ref : simpl never.

(** ** Facts *)

(** The test vector of the empty message. *)
Lemma Sum256_empty :
  EncodeToString (Sum256 "") = "e3b0c44298fc1c149afbf4c8996fb92427ae41e4649b934ca495991b7852b855".
Proof. vm_compute. reflexivity. Qed.

Lemma Sum256_abc :
  EncodeToString (Sum256 "abc") = "ba7816bf8f01cfea414140de5dae2223b00361a396177a9cb410ff61f20015ad".
Proof. vm_compute. reflexivity. Qed.

Lemma length_round h kw : length h = 8%nat → length (round h kw) = 8%nat.
Proof. by destruct h as [|? [|? [|? [|? [|? [|? [|? [|? []]]]]]]]]. Qed.

Lemma length_compress h block : length h = 8%nat → length (compress h block) = 8%nat.
Proof.
  intros Hh. unfold compress. rewrite length_zip_with.
  assert (length (foldl round h (zip round_constants (schedule block))) = 8%nat) as ->; [|lia].
  revert Hh. generalize (zip round_constants (schedule block)). intros l. revert h.
  induction l as [|kw l IH]; intros h Hh; [done|]. simpl. by apply IH, length_round.
Qed.

Lemma length_be_bytes n z : length (be_bytes n z) = n.
Proof. unfold be_bytes. by rewrite length_reverse, length_fmap, length_seq. Qed.

Definition is_byte (z : Z) : Prop := 0 ≤ z < 256.

Lemma be_bytes_range n z : Forall is_byte (be_bytes n z).
Proof.
  unfold be_bytes. rewrite Forall_reverse, Forall_fmap. apply Forall_forall. intros i _.
  unfold is_byte. simpl. apply Z.mod_pos_bound. lia.
Qed.

(** A digest is 32 bytes. *)
Lemma Sum256_digest data : length (Sum256 data) = 32%nat ∧ Forall is_byte (Sum256 data).
Proof.
  unfold Sum256. set (bs := blocks _ _). clearbody bs.
  assert (Hlen : length (foldl compress initial_hash bs) = 8%nat).
  { assert (Hi : length initial_hash = 8%nat) by done. revert Hi. generalize initial_hash.
    induction bs as [|b bs IH]; intros h Hh; simpl; [done|]. by apply IH, length_compress. }
  revert Hlen. generalize (foldl compress initial_hash bs). intros h Hlen. split.
  - destruct h as [|? [|? [|? [|? [|? [|? [|? [|? []]]]]]]]]; done.
  - clear. apply Forall_forall. intros z (w & Hz & _)%list_elem_of_bind.
    pose proof (be_bytes_range 4 w) as Hr. rewrite Forall_forall in Hr. by apply Hr.
Qed.

Lemma Join_cons_empty p l : Join (p :: l) "" = p +:+ Join l "".
Proof. destruct l; simpl; [by rewrite app_empty_r|done]. Qed.

Lemma length_EncodeToString l : String.length (EncodeToString l) = (2 * length l)%nat.
Proof.
  unfold EncodeToString. induction l as [|z l IH]; [done|].
  rewrite fmap_cons, Join_cons_empty, length_app_string, IH. simpl. lia.
Qed.

Lemma hexdigit_inj n m : (n < 16)%nat → (m < 16)%nat → hexdigit n = hexdigit m → n = m.
Proof.
  intros Hn Hm. do 16 (destruct n as [|n]; [do 16 (destruct m as [|m]; [done|]); lia|]). lia.
Qed.

Lemma hexdigit_hex n : (n < 16)%nat → is_hex (hexdigit n) = true.
Proof. intros Hn. do 16 (destruct n as [|n]; [done|]). lia. Qed.

Lemma EncodeToString_inj l1 l2 :
  Forall is_byte l1 → Forall is_byte l2 → EncodeToString l1 = EncodeToString l2 → l1 = l2.
Proof.
  unfold EncodeToString, is_byte. intros H1. revert l2.
  induction H1 as [|z1 l1 Hz1 Hl1 IH]; intros [|z2 l2] H2 Heq; [done|..].
  - rewrite fmap_cons, Join_cons_empty in Heq. done.
  - rewrite fmap_cons, Join_cons_empty in Heq. done.
  - apply Forall_cons in H2 as [Hz2 Hl2]. rewrite !fmap_cons, !Join_cons_empty in Heq.
    unfold hex_byte in Heq. injection Heq as Hhi Hlo Heq.
    pose proof (Z.mod_pos_bound z1 16). pose proof (Z.mod_pos_bound z2 16).
    pose proof (Z.div_lt_upper_bound z1 16 16). pose proof (Z.div_lt_upper_bound z2 16 16).
    pose proof (Z.div_pos z1 16). pose proof (Z.div_pos z2 16).
    apply hexdigit_inj in Hhi, Hlo; [|lia..].
    rewrite (Z.div_mod z1 16), (Z.div_mod z2 16) by lia. f_equal; [lia|]. by apply IH.
Qed.

(** Two different messages with the same digest. *)
Definition collision : Prop := ∃ x y : string, x ≠ y ∧ Sum256 x = Sum256 y.

Lemma sha256_ref_inj x y : sha256_ref x = sha256_ref y → x = y ∨ collision.
Proof.
  unfold sha256_ref. intros Heq. destruct (decide (x = y)) as [|Hne]; [by left|right].
  exists x, y. split; [done|]. injection Heq as Heq.
  apply EncodeToString_inj in Heq; [done|apply Sum256_digest..].
Qed.

Lemma length_sha256_ref data : String.length (sha256_ref data) = 71%nat.
Proof.
  unfold sha256_ref. rewrite length_app_string, length_EncodeToString.
  by rewrite (proj1 (Sum256_digest data)).
Qed.

Lemma sha256_ref_prefix data : HasPrefix (sha256_ref data) "sha256:" = true.
Proof. apply HasPrefix_app. Qed.
