(* ===== verification/Json.v ===== *)
(** * JSON encoding (Go's encoding/json, as [json.Marshal] writes it)

    Values are trees; [encode] writes them without white space, strings escaped
    as [json.Marshal] does (HTML characters, U+2028 and U+2029 included, invalid
    UTF-8 replaced), maps with sorted keys.  A struct is an object whose fields
    come in declaration order, those tagged [omitempty] only when non-empty.
    The encoding is injective on trees of valid UTF-8 ([encode_inj]): strings are read back
    by [unquote], the reader of the decoder. *)
From S2P Require Import Prelude GoStd Sha256.
From Stdlib Require Import Ascii.
Open Scope nat_scope.

Inductive json :=
| JNull
| JBool (b : bool)
| JInt (z : Z)
| JString (s : string)
| JArray (l : list json)
| JObject (fields : list (string * json)).

(** ** Strings *)

Definition char (n : nat) : string := String (ascii_of_nat n) EmptyString.

(** [\u00XX] *)
Definition unicode_escape (n : nat) : string :=
  "\u00" +:+ String (hexdigit (n / 16)) (String (hexdigit (n mod 16)) EmptyString).

(** The encoding of one ASCII byte. *)
Definition escape_ascii (n : nat) : string :=
  match n with
  | 34 => "\" +:+ dquote
  | 92 => "\\"
  | 8 => "\b"
  | 12 => "\f"
  | 10 => "\n"
  | 13 => "\r"
  | 9 => "\t"
  | 60 | 62 | 38 => unicode_escape n
  | _ => if n <? 32 then unicode_escape n else char n
  end.

Definition between (lo hi n : nat) : bool := (lo <=? n) && (n <=? hi).
Definition continuation (n : nat) : bool := between 128 191 n.

(** The number of bytes of the multi-byte rune at the head of the list, 0 when
    the bytes are not valid UTF-8 ([utf8.DecodeRune]). *)
Definition rune_width (l : list nat) : nat :=
  match l with
  | a :: b :: rest =>
      if between 194 223 a && continuation b then 2
      else match rest with
      | c :: rest =>
          if ((a =? 224) && between 160 191 b || between 225 236 a && continuation b
              || (a =? 237) && between 128 159 b || between 238 239 a && continuation b)
             && continuation c then 3
          else match rest with
          | d :: _ =>
              if ((a =? 240) && between 144 191 b || between 241 243 a && continuation b
                  || (a =? 244) && between 128 143 b) && continuation c && continuation d then 4
              else 0
          | [] => 0
          end
      | [] => 0
      end
  | _ => 0
  end.

(** The bytes of a string with its ASCII bytes written by [esc].  Fuel [length l] is enough:
    every step consumes at least one byte. *)
Fixpoint escape_bytes_with (esc : nat → string) (fuel : nat) (l : list nat) : string :=
  match fuel, l with
  | S fuel, n :: rest =>
      if n <? 128 then esc n +:+ escape_bytes_with esc fuel rest
      else match rune_width l with
      | 0 => "\ufffd" +:+ escape_bytes_with esc fuel rest
      | w =>
          (if bool_decide (take 3 l = [226; 128; 168]) then "\u2028"
           else if bool_decide (take 3 l = [226; 128; 169]) then "\u2029"
           else bytes (take w l)) +:+ escape_bytes_with esc fuel (drop w l)
      end
  | _, _ => EmptyString
  end.

Abbreviation escape_bytes := (escape_bytes_with escape_ascii).

Definition encode_string (s : string) : string :=
  let l := nat_of_ascii <$> String.list_ascii_of_string s in
  dquote +:+ escape_bytes (length l) l +:+ dquote.

(** ** Reading strings *)

Fixpoint take_bytes (n : nat) (s : string) : string :=
  match n, s with
  | S n, String c t => String c (take_bytes n t)
  | _, _ => EmptyString
  end.

Definition hex_value (c : ascii) : option N :=
  if is_digit c then Some (N_of_ascii c - 48)%N
  else if byte_in 97 102 c then Some (N_of_ascii c - 87)%N
  else if byte_in 65 70 c then Some (N_of_ascii c - 55)%N
  else None.

(** Four hexadecimal digits. *)
Definition hex4 (s : string) : option (N * string) :=
  match s with
  | String a (String b (String c (String d r))) =>
      a ← hex_value a; b ← hex_value b; c ← hex_value c; d ← hex_value d;
      Some (((a * 16 + b) * 16 + c) * 16 + d, r)%N
  | _ => None
  end.

Definition bytes_N (l : list N) : string := String.string_of_list_ascii (ascii_of_N <$> l).

(** [utf8.EncodeRune] *)
Definition utf8 (u : N) : string :=
  if (u <? 128)%N then bytes_N [u]
  else if (u <? 2048)%N then bytes_N [192 + u / 64; 128 + u mod 64]%N
  else if (u <? 65536)%N then bytes_N [224 + u / 4096; 128 + (u / 64) mod 64; 128 + u mod 64]%N
  else bytes_N [240 + u / 262144; 128 + (u / 4096) mod 64; 128 + (u / 64) mod 64; 128 + u mod 64]%N.

Definition replacement : string := utf8 65533.

Definition N_between (lo hi u : N) : bool := ((lo <=? u) && (u <=? hi))%N.

(** [utf16.DecodeRune] of two escapes. *)
Definition surrogate_pair (hi lo : N) : option N :=
  if N_between 55296 56319 hi && N_between 56320 57343 lo
  then Some ((hi - 55296) * 1024 + (lo - 56320) + 65536)%N else None.

(** The escape of four digits that follows. *)
Definition escaped_unit (s : string) : option (N * string) :=
  match s with
  | String c (String d r) => if (nat_of_ascii c =? 92) && (nat_of_ascii d =? 117) then hex4 r else None
  | _ => None
  end.

(** The escapes of one letter. *)
Definition letter_escape (n : nat) : option string :=
  match n with
  | 34 | 92 | 47 => Some (char n)
  | 98 => Some (char 8)
  | 102 => Some (char 12)
  | 110 => Some (char 10)
  | 114 => Some (char 13)
  | 116 => Some (char 9)
  | _ => None
  end.

(** A rune of four digits, or of two escapes that are a surrogate pair. *)
Definition unicode_unescape (s : string) : option (string * string) :=
  '(u, r) ← hex4 s;
  if N_between 55296 57343 u then
    match escaped_unit r with
    | Some (v, r') =>
        match surrogate_pair u v with Some rune => Some (utf8 rune, r') | None => Some (replacement, r) end
    | None => Some (replacement, r)
    end
  else Some (utf8 u, r).

(** What an escape after its backslash stands for. *)
Definition unescape (s : string) : option (string * string) :=
  match s with
  | EmptyString => None
  | String e r =>
      if nat_of_ascii e =? 117 then unicode_unescape r
      else t ← letter_escape (nat_of_ascii e); Some (t, r)
  end.

Definition prepend (p : string) (o : option (string * string)) : option (string * string) :=
  match o with Some (t, r) => Some (p +:+ t, r) | None => None end.

(** The string whose text follows the opening quote, and what is after it. *)
Fixpoint unquote (fuel : nat) (s : string) : option (string * string) :=
  match fuel, s with
  | S fuel, String c r =>
      let n := nat_of_ascii c in
      if n =? 34 then Some (EmptyString, r)
      else if n =? 92 then
        match unescape r with Some (t, r) => prepend t (unquote fuel r) | None => None end
      else if n <? 32 then None
      else if n <? 128 then prepend (String c EmptyString) (unquote fuel r)
      else match rune_width (nat_of_ascii <$> String.list_ascii_of_string (take_bytes 4 s)) with
           | 0 => prepend replacement (unquote fuel r)
           | w => prepend (take_bytes w s) (unquote fuel (drop_bytes w s))
           end
  | _, _ => None
  end.

Definition escaped (esc : nat → string) (s : string) : string :=
  let l := nat_of_ascii <$> String.list_ascii_of_string s in escape_bytes_with esc (length l) l.

Lemma escape_nonempty n : escape_ascii n ≠ "".
Proof. unfold escape_ascii. do 93 (destruct n as [|n]; [done|]). done. Qed.

(** A way to write bytes that the decoder reads back. *)
Class ReadsBack (esc : nat → string) : Prop := {
  reads_back n fuel r : n < 128 → unquote (S fuel) (esc n +:+ r) = prepend (char n) (unquote fuel r);
  writes_something n : 1 ≤ String.length (esc n);
}.

Ltac each_byte n := do 128 (destruct n as [|n]; [reflexivity|]); lia.

#[export] Instance html_reads_back : ReadsBack escape_ascii.
Proof.
  split; [intros n fuel r Hn; each_byte n|]. intros n. pose proof (escape_nonempty n).
  destruct (escape_ascii n); [done|simpl; lia].
Qed.

Lemma take_bytes_app p q : take_bytes (String.length p) (p +:+ q) = p.
Proof. induction p as [|c p IH]; [by destruct q|]. rewrite app_cons. simpl. by rewrite IH. Qed.

(** *** Reading back *)

(** The bytes of a string. *)
Definition byte_list (s : string) : list nat := nat_of_ascii <$> String.list_ascii_of_string s.

(** [utf8.Valid]; fuel [length l] is enough, as above. *)
Fixpoint valid_utf8 (fuel : nat) (l : list nat) : bool :=
  match l, fuel with
  | [], _ => true
  | _, 0 => false
  | n :: rest, S fuel =>
      if n <? 128 then valid_utf8 fuel rest
      else match rune_width l with 0 => false | w => valid_utf8 fuel (drop w l) end
  end.

Definition utf8_text (s : string) : bool := valid_utf8 (length (byte_list s)) (byte_list s).

(** A rune beyond ASCII. *)
Definition rune (p : list nat) : Prop := 0 < length p ∧ rune_width p = length p.

(** Valid text: bytes of ASCII and runes. *)
Inductive text : list nat → Prop :=
| text_nil : text []
| text_ascii n l : n < 128 → text l → text (n :: l)
| text_rune p l : rune p → text l → text (p ++ l).

(** The width is read off the rune alone. *)
Lemma rune_width_prefix l w r :
  rune_width l = S w → length (take (S w) l) = S w ∧ rune_width (take (S w) l ++ r) = S w.
Proof.
  unfold rune_width. destruct l as [|a [|b rest]]; try done.
  destruct (between 194 223 a && continuation b) eqn:H2.
  { intros [= <-]. simpl. by rewrite H2. }
  destruct rest as [|c rest]; [done|]. destruct (_ && continuation c) eqn:H3.
  { intros [= <-]. simpl. by rewrite H2, H3. }
  destruct rest as [|d rest]; [done|]. destruct (_ && _ && continuation d) eqn:H4; [|done].
  intros [= <-]. simpl. by rewrite H2, H3, H4.
Qed.

(** Its bytes: a first one from 194 on, and at most four. *)
Lemma rune_head p : rune p → ∃ a q, p = a :: q ∧ 194 ≤ a ∧ length p ≤ 4.
Proof.
  unfold rune, rune_width. intros [Hp Hw]. destruct p as [|a q]; [simpl in Hp; lia|]. exists a, q. split; [done|].
  destruct q as [|b [|c [|d q]]]; cbn [length] in *; try lia;
    repeat match goal with _ : context [if ?x then _ else _] |- _ => destruct x eqn:? end; try lia.
  all: unfold between in *; repeat match goal with
    | H : _ && _ = true |- _ => apply andb_true_iff in H as [? ?]
    | H : _ || _ = true |- _ => apply orb_true_iff in H as [?|?]
    | H : (_ <=? _) = true |- _ => apply Nat.leb_le in H
    | H : (_ =? _) = true |- _ => apply Nat.eqb_eq in H
    end; lia.
Qed.

Lemma rune_not_nil p : rune p → p ≠ [].
Proof. intros [Hp _] ->. simpl in Hp. lia. Qed.

Lemma rune_width_app p r : rune p → rune_width (p ++ r) = length p.
Proof.
  intros [Hp Hw]. destruct (length p) as [|w] eqn:Hl; [lia|]. destruct (rune_width_prefix p w r Hw) as [_ Hr].
  by rewrite take_ge in Hr by lia.
Qed.

Lemma valid_utf8_text fuel l : valid_utf8 fuel l = true → text l.
Proof.
  revert l. induction fuel as [|fuel IH]; intros [|n rest]; try (by intros; apply text_nil); [done|]. cbn [valid_utf8].
  destruct (Nat.ltb_spec n 128) as [Hn|Hn]; [intros H; by apply text_ascii, IH|].
  destruct (rune_width (n :: rest)) as [|w] eqn:Hw; [done|]. intros H%IH.
  rewrite <-(take_drop (S w) (n :: rest)). apply text_rune; [|done].
  destruct (rune_width_prefix _ _ [] Hw) as [Hl Hr]. rewrite app_nil_r in Hr. split; [lia|congruence].
Qed.

(** *** Escaping by runes *)

Lemma escape_bytes_fuel esc fuel1 fuel2 l :
  length l ≤ fuel1 → length l ≤ fuel2 → escape_bytes_with esc fuel1 l = escape_bytes_with esc fuel2 l.
Proof.
  revert fuel2 l. induction fuel1 as [|fuel1 IH]; intros [|fuel2] [|n rest] H1 H2; try done; try (simpl in *; lia).
  cbn [escape_bytes_with]. simpl in H1, H2. rewrite (IH fuel2 rest) by lia.
  destruct (rune_width (n :: rest)) as [|w]; [done|]. rewrite (IH fuel2 (drop (S w) (n :: rest))); [done|..];
    rewrite length_drop; simpl; lia.
Qed.

(** What is written for a rune. *)
Definition rune_text (p : list nat) : string :=
  if bool_decide (p = [226; 128; 168]) then "\u2028"
  else if bool_decide (p = [226; 128; 169]) then "\u2029" else bytes p.

(** The three bytes of the two separators are a rune by themselves. *)
Lemma rune_separator p l x : rune p → 128 ≤ x → take 3 (p ++ l) = [226; 128; x] ↔ p = [226; 128; x].
Proof.
  intros Hp Hx. split; [|by intros ->]. destruct Hp as [Hp Hw].
  destruct p as [|a [|b [|c [|d q]]]]; simpl in Hp; try lia; simpl; intros Heq.
  - done.
  - injection Heq as -> -> Hl. done.
  - by injection Heq as -> -> ->.
  - injection Heq as -> -> ->. exfalso. revert Hw. cbn. destruct (continuation x); [|destruct q as [|e q]]; cbn; lia.
Qed.

Section written.
Context (esc : nat → string).

Lemma escape_bytes_rune p l : rune p →
  escape_bytes_with esc (length (p ++ l)) (p ++ l) = rune_text p +:+ escape_bytes_with esc (length l) l.
Proof.
  intros Hp. pose proof (rune_width_app p l Hp) as Hw. destruct (rune_head p Hp) as (a & q & Heq & Ha & _).
  assert (Hcond : ∀ x, 128 ≤ x → bool_decide (take 3 (p ++ l) = [226; 128; x]) = bool_decide (p = [226; 128; x]))
    by (intros x Hx; apply bool_decide_ext, rune_separator; done).
  assert (Hdrop : drop (length p) (p ++ l) = l) by apply drop_app_length.
  assert (Htake : take (length p) (p ++ l) = p) by apply take_app_length.
  rewrite length_app. revert Hw Hcond Hdrop Htake. rewrite Heq. simpl length. simpl app. cbn [Nat.add escape_bytes_with].
  intros -> Hcond Hdrop Htake. rewrite (proj2 (Nat.ltb_ge a 128)) by lia. rewrite !Hcond, Hdrop, Htake by lia.
  unfold rune_text. f_equal. apply escape_bytes_fuel; lia.
Qed.
End written.

(** *** Bytes and strings *)

Lemma byte_list_app s t : byte_list (s +:+ t) = byte_list s ++ byte_list t.
Proof.
  unfold byte_list. induction s as [|c s IH]; [done|]. rewrite app_cons. cbn [String.list_ascii_of_string].
  rewrite !fmap_cons, IH. done.
Qed.

Lemma bytes_byte_list s : bytes (byte_list s) = s.
Proof.
  unfold bytes, byte_list. induction s as [|c s IH]; [done|]. cbn [String.list_ascii_of_string].
  rewrite !fmap_cons. cbn [String.string_of_list_ascii]. rewrite IH, ascii_nat_embedding. done.
Qed.

Lemma bytes_app l1 l2 : bytes (l1 ++ l2) = bytes l1 +:+ bytes l2.
Proof.
  unfold bytes. induction l1 as [|n l1 IH]; [done|]. cbn [app]. rewrite !fmap_cons. cbn [String.string_of_list_ascii].
  by rewrite IH, app_cons.
Qed.

Lemma length_bytes l : String.length (bytes l) = length l.
Proof.
  unfold bytes. induction l as [|n l IH]; [done|]. rewrite fmap_cons. cbn [String.string_of_list_ascii String.length].
  by rewrite IH.
Qed.

Lemma byte_list_bytes l : Forall (λ n, n < 256) l → byte_list (bytes l) = l.
Proof.
  unfold bytes, byte_list. induction 1 as [|n l Hn _ IH]; [done|]. rewrite fmap_cons.
  cbn [String.string_of_list_ascii String.list_ascii_of_string]. rewrite fmap_cons, IH. by rewrite nat_ascii_embedding.
Qed.

Lemma byte_list_range s : Forall (λ n, n < 256) (byte_list s).
Proof.
  unfold byte_list. apply Forall_fmap, Forall_forall. intros c _. apply nat_ascii_bounded.
Qed.

Lemma byte_list_take n s : byte_list (take_bytes n s) = take n (byte_list s).
Proof.
  unfold byte_list. revert s. induction n as [|n IH]; intros [|c s]; try done.
  cbn [take_bytes String.list_ascii_of_string]. rewrite !fmap_cons. cbn [take]. by rewrite IH.
Qed.

Lemma drop_bytes_app p q : drop_bytes (String.length p) (p +:+ q) = q.
Proof. induction p as [|c p IH]; [by destruct q|]. rewrite app_cons. exact IH. Qed.

(** The reader takes a rune as it was written. *)
Lemma unquote_rune p fuel r : rune p → Forall (λ n, n < 256) p →
  unquote (S fuel) (rune_text p +:+ r) = prepend (bytes p) (unquote fuel r).
Proof.
  intros Hp Hb. unfold rune_text. case_bool_decide as H1; [by subst|]. case_bool_decide as H2; [by subst|].
  destruct (rune_head p Hp) as (a & q & Heq & Ha & Hl).
  assert (Hw : rune_width (byte_list (take_bytes 4 (bytes p +:+ r))) = length p).
  { rewrite byte_list_take, byte_list_app, byte_list_bytes by done. rewrite take_app_ge by done. by apply rune_width_app. }
  assert (Ht : take_bytes (length p) (bytes p +:+ r) = bytes p) by (rewrite <-(length_bytes p); apply take_bytes_app).
  assert (Hd : drop_bytes (length p) (bytes p +:+ r) = r) by (rewrite <-(length_bytes p); apply drop_bytes_app).
  fold (byte_list (take_bytes 4 (bytes p +:+ r))) in Hw. subst p. apply Forall_cons in Hb as [Hb _].
  change (bytes (a :: q)) with (String (ascii_of_nat a) (bytes q)) in *. rewrite app_cons in *. cbn [unquote]. cbv zeta.
  rewrite !nat_ascii_embedding by done.
  rewrite (proj2 (Nat.eqb_neq a 34)), (proj2 (Nat.eqb_neq a 92)), (proj2 (Nat.ltb_ge a 32)), (proj2 (Nat.ltb_ge a 128)) by lia.
  unfold byte_list in Hw. rewrite Hw. cbn [length] in *. by rewrite Ht, Hd.
Qed.

Section reading.
Context (esc : nat → string) `{!ReadsBack esc}.

Lemma escaped_byte c s : (nat_of_ascii c <? 128) = true → escaped esc (String c s) = esc (nat_of_ascii c) +:+ escaped esc s.
Proof. unfold escaped. simpl. by intros ->. Qed.

Lemma unquote_text l r fuel : text l → Forall (λ n, n < 256) l → length l < fuel →
  unquote fuel (escape_bytes_with esc (length l) l +:+ dquote +:+ r) = Some (bytes l, r).
Proof.
  intros Ht. revert fuel. induction Ht as [|n l Hn _ IH|p l Hp _ IH]; intros [|fuel] Hb Hf; try lia; [done|..].
  - apply Forall_cons in Hb as [_ Hb]. cbn [length escape_bytes_with]. rewrite (proj2 (Nat.ltb_lt n 128)) by done.
    rewrite <-app_assoc_string, reads_back, IH by (done || simpl in Hf; lia). done.
  - apply Forall_app in Hb as [Hb1 Hb2]. rewrite escape_bytes_rune, <-app_assoc_string, unquote_rune by done.
    pose proof (proj1 Hp). rewrite length_app in Hf. rewrite IH by (done || lia). simpl. by rewrite bytes_app.
Qed.

Lemma escape_bytes_length l : text l → length l ≤ String.length (escape_bytes_with esc (length l) l).
Proof.
  induction 1 as [|n l Hn _ IH|p l Hp _ IH]; [done|..].
  - cbn [length escape_bytes_with]. rewrite (proj2 (Nat.ltb_lt n 128)) by done. rewrite length_app_string.
    pose proof (writes_something (esc := esc) n). lia.
  - rewrite escape_bytes_rune, length_app_string, length_app by done.
    enough (length p ≤ String.length (rune_text p)) by lia. unfold rune_text.
    case_bool_decide as H1; [subst; simpl; lia|]. case_bool_decide as H2; [subst; simpl; lia|]. by rewrite length_bytes.
Qed.

Lemma unquote_escaped s r fuel :
  utf8_text s = true → String.length s < fuel → unquote fuel (escaped esc s +:+ dquote +:+ r) = Some (s, r).
Proof.
  intros Hs%valid_utf8_text Hf. unfold escaped. rewrite <-(bytes_byte_list s) in Hf at 1. rewrite length_bytes in Hf.
  fold (byte_list s). rewrite unquote_text by (done || apply byte_list_range). by rewrite bytes_byte_list.
Qed.

Lemma escaped_length s : utf8_text s = true → String.length s ≤ String.length (escaped esc s).
Proof.
  intros Hs%valid_utf8_text%escape_bytes_length. rewrite <-(bytes_byte_list s) at 1. by rewrite length_bytes.
Qed.
End reading.

(** ** Values *)

Definition encode_bool (b : bool) : string := if b then "true" else "false".

Fixpoint encode (v : json) : string :=
  match v with
  | JNull => "null"
  | JBool b => encode_bool b
  | JInt z => itoa z
  | JString s => encode_string s
  | JArray l => "[" +:+ Join (map encode l) "," +:+ "]"
  | JObject fields =>
      "{" +:+ Join (map (λ kv, encode_string kv.1 +:+ ":" +:+ encode kv.2) fields) "," +:+ "}"
  end.

(** Struct fields: always present, or [omitempty]. *)
Definition field (name : string) (v : json) : list (string * json) := [(name, v)].

Definition field_omit (name : string) (empty : bool) (v : json) : list (string * json) :=
  if empty then [] else [(name, v)].

Definition string_omit (name s : string) : list (string * json) :=
  field_omit name (bool_decide (s = "")) (JString s).

Definition bool_omit (name : string) (b : bool) : list (string * json) :=
  field_omit name (negb b) (JBool b).

(** A slice: a nil one, which the model does not tell from an empty one, is [null]. *)
Definition slice_json {A} (f : A → json) (l : list A) : json :=
  match l with [] => JNull | _ :: _ => JArray (f <$> l) end.

Definition slice_omit {A} (name : string) (f : A → json) (l : list A) : list (string * json) :=
  match l with [] => [] | _ :: _ => [(name, JArray (f <$> l))] end.

(** A map: its keys sorted. *)
Definition map_json {A} (f : A → json) (m : gmap string A) : json :=
  JObject ((λ kv, (kv.1, f kv.2)) <$> sort_Slice (less_on fst String.ltb) (map_to_list m)).

Definition strings_map_json (m : gmap string string) : json := map_json JString m.

(** ["sha256:" + hex(sha256(json.Marshal(value)))] *)
Definition hash_json (v : json) : string := sha256_ref (encode v).

#[global] Arguments encode : simpl never.
#[global] Arguments field : simpl never.
#[global] Arguments string_omit : simpl never.
#[global] Arguments bool_omit : simpl never.
#[global] Arguments slice_omit : simpl never.
#[global] Arguments hash_json : simpl never.

Lemma encode_example :
  encode (JObject (field "a" (JString (bytes [60; 10; 226; 130; 172; 255])) ++ string_omit "b" "" ++
    field "c" (JArray [JInt (-12); JBool true; JNull]))) =
  bytes [123; 34; 97; 34; 58; 34] +:+ "\u003c\n" +:+ bytes [226; 130; 172] +:+ "\ufffd" +:+
  bytes [34; 44; 34; 99; 34; 58] +:+ "[-12,true,null]}".
Proof. vm_compute. reflexivity. Qed.

(** ** Injectivity *)

Definition ascii_only (s : string) : bool := string_forall (λ c, nat_of_ascii c <? 128) s.

(** Every string of the value is valid UTF-8. *)
Fixpoint utf8_json (v : json) : bool :=
  match v with
  | JNull | JBool _ | JInt _ => true
  | JString s => utf8_text s
  | JArray l => forallb utf8_json l
  | JObject fields => forallb (λ kv, utf8_text kv.1 && utf8_json kv.2) fields
  end.

Lemma app_inv_head (p r1 r2 : string) : p +:+ r1 = p +:+ r2 → r1 = r2.
Proof. induction p as [|c p IH]; [done|]. rewrite !app_cons. intros [= H]. auto. Qed.

(** *** Strings *)

Lemma encode_string_inj s t r1 r2 : utf8_text s = true → utf8_text t = true →
  encode_string s +:+ r1 = encode_string t +:+ r2 → s = t ∧ r1 = r2.
Proof.
  intros Hs Ht. change (encode_string s) with (dquote +:+ escaped escape_ascii s +:+ dquote).
  change (encode_string t) with (dquote +:+ escaped escape_ascii t +:+ dquote). rewrite <-!app_assoc_string.
  intros Heq%app_inv_head.
  pose proof (unquote_escaped escape_ascii s r1 (S (String.length s + String.length t)) Hs ltac:(lia)) as H1.
  pose proof (unquote_escaped escape_ascii t r2 (S (String.length s + String.length t)) Ht ltac:(lia)) as H2.
  rewrite Heq in H1. rewrite H1 in H2. by injection H2 as -> ->.
Qed.

Lemma ascii_utf8 s : ascii_only s = true → utf8_text s = true.
Proof.
  unfold ascii_only, utf8_text, byte_list. induction s as [|c s IH]; [done|]. simpl. rewrite andb_true_iff. by intros [-> Hs%IH].
Qed.

(** *** Numbers *)

Definition is_num (c : ascii) : bool := is_digit c || Ascii.eqb c "-".

(** The text after a value does not continue a number. *)
Definition ends (r : string) : Prop :=
  match r with EmptyString => True | String c _ => is_num c = false end.

Lemma pretty_N_char_digit x : is_num (pretty_N_char x) = true.
Proof.
  destruct x as [|p]; [done|]. do 4 (destruct p as [p|p|]; try done).
Qed.

Lemma pretty_N_go_num x s : string_forall is_num s = true → string_forall is_num (pretty_N_go x s) = true.
Proof.
  revert s. induction (N.lt_wf_0 x) as [x _ IH]. intros s Hs.
  destruct (decide (0 < x)%N) as [Hx|Hx].
  - rewrite pretty_N_go_step by done. apply IH; [apply N.div_lt; lia|].
    simpl. by rewrite pretty_N_char_digit.
  - assert (x = 0%N) as -> by lia. by rewrite pretty_N_go_0.
Qed.

Lemma pretty_N_num (x : N) : string_forall is_num (pretty x) = true.
Proof. unfold pretty, pretty_N. case_decide; [done|]. by apply pretty_N_go_num. Qed.

Lemma itoa_num z : string_forall is_num (itoa z) = true.
Proof.
  destruct z as [|p|p]; [done|apply (pretty_N_num (N.pos p))|].
  apply (pretty_N_num (N.pos p)).
Qed.

Lemma pretty_N_go_nonempty x s : s ≠ "" → pretty_N_go x s ≠ "".
Proof.
  revert s. induction (N.lt_wf_0 x) as [x _ IH]. intros s Hs.
  destruct (decide (0 < x)%N) as [Hx|Hx].
  - rewrite pretty_N_go_step by done. apply IH; [apply N.div_lt; lia|done].
  - assert (x = 0%N) as -> by lia. by rewrite pretty_N_go_0.
Qed.

Lemma itoa_nonempty z : itoa z ≠ "".
Proof.
  destruct z as [|p|p]; [done| |done]. change (itoa (Z.pos p)) with (pretty (N.pos p)).
  unfold pretty, pretty_N. rewrite decide_False by done.
  rewrite pretty_N_go_step by done. by apply pretty_N_go_nonempty.
Qed.

Lemma num_inj a b r1 r2 :
  string_forall is_num a = true → string_forall is_num b = true → ends r1 → ends r2 →
  a +:+ r1 = b +:+ r2 → a = b ∧ r1 = r2.
Proof.
  revert b. induction a as [|c a IH]; intros [|d b] Ha Hb H1 H2 Heq; rewrite ?app_cons in Heq.
  - done.
  - change ("" +:+ r1) with r1 in Heq. subst r1. simpl in *. apply andb_true_iff in Hb as [? _]. congruence.
  - change ("" +:+ r2) with r2 in Heq. subst r2. simpl in *. apply andb_true_iff in Ha as [? _]. congruence.
  - injection Heq as <- Heq. simpl in *. apply andb_true_iff in Ha as [_ Ha], Hb as [_ Hb].
    destruct (IH b) as [<- <-]; done.
Qed.

(** *** Sequences of items between commas *)

Definition Join_tail (l : list string) : string :=
  match l with [] => "" | _ :: _ => "," +:+ Join l "," end.

Lemma Join_comma_cons p l : Join (p :: l) "," = p +:+ Join_tail l.
Proof. destruct l; [by rewrite app_empty_r|done]. Qed.

Section items.
Context {A : Type} (f : A → string) (valid : A → bool) (close : ascii).
Hypothesis close_ends : is_num close = false.
Hypothesis close_comma : close ≠ ","%char.
Hypothesis f_head : ∀ x r r', valid x = true → f x +:+ r ≠ String close r'.

Definition item_inj (x : A) : Prop :=
  ∀ y r1 r2, valid x = true → valid y = true → ends r1 → ends r2 →
    f x +:+ r1 = f y +:+ r2 → x = y ∧ r1 = r2.

Lemma tail_ends l r : ends (Join_tail l +:+ String close r).
Proof. destruct l; [done|reflexivity]. Qed.

Lemma items_inj l1 l2 r1 r2 :
  Forall item_inj l1 → forallb valid l1 = true → forallb valid l2 = true →
  Join (map f l1) "," +:+ String close r1 = Join (map f l2) "," +:+ String close r2 →
  l1 = l2 ∧ r1 = r2.
Proof.
  intros Hall. revert l2. induction Hall as [|x l1 Hx Hall IH]; intros [|y l2] H1 H2 Heq.
  - split; [done|]. by injection Heq.
  - exfalso. simpl in H2. apply andb_true_iff in H2 as [Hy _]. symmetry in Heq. simpl map in Heq.
    rewrite Join_comma_cons, <-app_assoc_string in Heq. by apply f_head in Heq.
  - exfalso. simpl in H1. apply andb_true_iff in H1 as [Hvx _]. simpl map in Heq.
    rewrite Join_comma_cons, <-app_assoc_string in Heq. by apply f_head in Heq.
  - simpl map in Heq. rewrite !Join_comma_cons, <-!app_assoc_string in Heq. simpl in H1, H2.
    apply andb_true_iff in H1 as [Hvx H1], H2 as [Hvy H2].
    apply Hx in Heq as [<- Heq]; [|done|done|apply tail_ends..].
    assert (l1 = l2 ∧ r1 = r2) as [<- <-]; [|done].
    destruct l1 as [|x1 l1], l2 as [|x2 l2]; simpl map in *; simpl Join_tail in Heq.
    + split; [done|]. by injection Heq.
    + rewrite app_cons in Heq. by injection Heq.
    + rewrite app_cons in Heq. by injection Heq.
    + apply IH; [done..|]. rewrite <-!app_assoc_string in Heq. by apply app_inv_head in Heq.
Qed.
End items.

(** *** Values *)

(** Induction on values with the hypothesis for every element and field. *)
Fixpoint json_ind' (P : json → Prop) (HNull : P JNull) (HBool : ∀ b, P (JBool b))
    (HInt : ∀ z, P (JInt z)) (HString : ∀ s, P (JString s))
    (HArray : ∀ l, Forall P l → P (JArray l))
    (HObject : ∀ l, Forall (λ kv, P kv.2) l → P (JObject l)) (v : json) : P v :=
  let rec := json_ind' P HNull HBool HInt HString HArray HObject in
  match v with
  | JNull => HNull
  | JBool b => HBool b
  | JInt z => HInt z
  | JString s => HString s
  | JArray l => HArray l (list_rect (Forall P) (List.Forall_nil P)
      (λ v l H, List.Forall_cons P v l (rec v) H) l)
  | JObject l =>
      HObject l (list_rect (Forall (λ kv, P kv.2)) (List.Forall_nil _)
        (λ kv l H, List.Forall_cons (λ kv, P kv.2) kv l (rec kv.2) H) l)
  end.

(** The first character of a value. *)
Lemma encode_head v c r r' :
  encode v +:+ r = String c r' →
  match v with
  | JNull => c = "n"%char
  | JBool b => c = (if b then "t" else "f")%char
  | JInt _ => is_num c = true
  | JString _ => c = "034"%char
  | JArray _ => c = "["%char
  | JObject _ => c = "{"%char
  end.
Proof.
  destruct v as [|[]|z|s|l|l]; intros Heq; try (by injection Heq).
  pose proof (itoa_num z) as Hz. pose proof (itoa_nonempty z). unfold encode in Heq.
  destruct (itoa z) as [|d t]; [done|]. rewrite app_cons in Heq. injection Heq as <- _.
  simpl in Hz. by apply andb_true_iff in Hz as [? _].
Qed.

Definition encode_field (kv : string * json) : string := encode_string kv.1 +:+ ":" +:+ encode kv.2.

Definition valid_field (kv : string * json) : bool := utf8_text kv.1 && utf8_json kv.2.

(** The encodings of two values, each followed by a text that does not continue
    a number, are equal only when the values and the texts are. *)
Lemma encode_inj_app v : item_inj encode utf8_json v.
Proof.
  induction v as [|b|z|s|l IH|l IH] using json_ind'; intros w r1 r2 H1 H2 E1 E2 Heq.
  all: assert (Hhead : ∀ c t, encode w +:+ r2 = String c t → _) by (intros c t; apply encode_head).
  - assert (Heq' := Heq). symmetry in Heq'. apply Hhead in Heq'.
    destruct w as [|[]| | | |]; try done. split; [done|]. by apply app_inv_head in Heq.
  - destruct b; (assert (Heq' := Heq); symmetry in Heq'; apply Hhead in Heq';
      destruct w as [|[]| | | |]; try done; split; [done|]; by apply app_inv_head in Heq).
  - destruct w as [|b'|z'|s'|l'|l'].
    3: { apply num_inj in Heq as [Heq ->]; [|apply itoa_num..|done|done].
         split; [|done]. f_equal. by apply pretty_Z_inj. }
    all: exfalso; pose proof (itoa_num z) as Hz; pose proof (itoa_nonempty z) as Hne;
      unfold encode in Heq; destruct (itoa z) as [|d t]; [done|]; simpl in Hz;
      apply andb_true_iff in Hz as [Hz _]; rewrite app_cons in Heq; symmetry in Heq;
      apply Hhead in Heq; subst; try (by destruct b'); done.
  - assert (Heq' := Heq). symmetry in Heq'. unfold encode in Heq' at 2. apply Hhead in Heq'.
    destruct w as [|[]| |t | |]; try done. apply encode_string_inj in Heq as [-> ->]; done.
  - assert (Heq' := Heq). symmetry in Heq'. apply Hhead in Heq'.
    destruct w as [|[]| | |l' |]; try done. 
    change ("[" +:+ (Join (map encode l) "," +:+ "]") +:+ r1 = "[" +:+ (Join (map encode l') "," +:+ "]") +:+ r2) in Heq.
    apply app_inv_head in Heq. rewrite <-!app_assoc_string in Heq.
    apply (items_inj encode utf8_json "]") in Heq as [-> ->]; try done.
    intros x r r' Hx Hc. apply encode_head in Hc. by destruct x as [|[]| | | |].
  - assert (Heq' := Heq). symmetry in Heq'. apply Hhead in Heq'.
    destruct w as [|[]| | | |l']; try done. 
    change ("{" +:+ (Join (map encode_field l) "," +:+ "}") +:+ r1 =
      "{" +:+ (Join (map encode_field l') "," +:+ "}") +:+ r2) in Heq.
    apply app_inv_head in Heq. rewrite <-!app_assoc_string in Heq.
    apply (items_inj encode_field valid_field "}") in Heq as [-> ->]; try done.
    eapply Forall_impl; [exact IH|]. intros [k v] Hv [k' v'] q1 q2 Hv1 Hv2 Q1 Q2 Hq.
    apply andb_true_iff in Hv1 as [? ?], Hv2 as [? ?]. simpl in *.
    unfold encode_field in Hq. rewrite <-!app_assoc_string in Hq. simpl in Hq.
    apply encode_string_inj in Hq as [-> Hq]; [|done..]. apply app_inv_head in Hq.
    apply Hv in Hq as [-> ->]; done.
Qed.

Lemma encode_inj v w : utf8_json v = true → utf8_json w = true → encode v = encode w → v = w.
Proof.
  intros Hv Hw Heq. apply (encode_inj_app v w "" ""); [done..|]. by rewrite Heq.
Qed.

(** Equal content hashes: equal content, or a collision of SHA-256. *)
Lemma hash_json_inj v w : utf8_json v = true → utf8_json w = true →
  hash_json v = hash_json w → v = w ∨ collision.
Proof.
  intros Hv Hw Heq. apply sha256_ref_inj in Heq as [Heq|?]; [left|by right]. by apply encode_inj.
Qed.

(** Outside valid UTF-8 it is not injective: bytes that are no rune are all written as U+FFFD. *)
Lemma invalid_text_collides :
  encode (JString (char 254)) = encode (JString (char 255)) ∧ utf8_text (char 254) = false ∧
  utf8_text (bytes [195; 169; 226; 128; 168; 240; 159; 152; 128]) = true.
Proof. by vm_compute. Qed.

(** ** Injectivity of struct and container encodings *)

Lemma not_in_field k k' v : k ≠ k' → k ∉ (field k' v).*1.
Proof. unfold field. set_solver. Qed.

Lemma not_in_field_omit k k' e v : k ≠ k' → k ∉ (field_omit k' e v).*1.
Proof. unfold field_omit. destruct e; set_solver. Qed.

Lemma not_in_string_omit k k' s : k ≠ k' → k ∉ (string_omit k' s).*1.
Proof. apply not_in_field_omit. Qed.

Lemma not_in_bool_omit k k' b : k ≠ k' → k ∉ (bool_omit k' b).*1.
Proof. apply not_in_field_omit. Qed.

Lemma not_in_slice_omit {A} k k' (f : A → json) l : k ≠ k' → k ∉ (slice_omit k' f l).*1.
Proof. unfold slice_omit. destruct l; set_solver. Qed.

Lemma not_in_nil k : k ∉ ([] : list (string * json)).*1.
Proof. apply not_elem_of_nil. Qed.

Lemma not_in_app k (l1 l2 : list (string * json)) : k ∉ l1.*1 → k ∉ l2.*1 → k ∉ (l1 ++ l2).*1.
Proof. rewrite fmap_app, not_elem_of_app. done. Qed.

#[export] Hint Resolve not_in_field not_in_string_omit not_in_bool_omit not_in_slice_omit not_in_nil
  not_in_app : themisy.
#[export] Hint Extern 1 (_ ≠ _) => discriminate : themisy.

Lemma field_inj k v1 v2 l1 l2 : field k v1 ++ l1 = field k v2 ++ l2 → v1 = v2 ∧ l1 = l2.
Proof. by intros [= -> ->]. Qed.

(** An [omitempty] field: the next one has another name, so its absence shows. *)
Lemma field_omit_inj k e1 e2 v1 v2 l1 l2 :
  k ∉ l1.*1 → k ∉ l2.*1 → field_omit k e1 v1 ++ l1 = field_omit k e2 v2 ++ l2 →
  e1 = e2 ∧ (e1 = false → v1 = v2) ∧ l1 = l2.
Proof.
  unfold field_omit. intros H1 H2. destruct e1, e2; simpl; intros Heq; simplify_eq; try done.
  - destruct H1. rewrite fmap_cons. left.
  - destruct H2. rewrite fmap_cons. left.
Qed.

Lemma string_omit_inj k s1 s2 l1 l2 :
  k ∉ l1.*1 → k ∉ l2.*1 → string_omit k s1 ++ l1 = string_omit k s2 ++ l2 → s1 = s2 ∧ l1 = l2.
Proof.
  intros H1 H2 Heq. apply field_omit_inj in Heq as (He & Hv & ->); [|done..]. split; [|done].
  destruct (bool_decide (s1 = "")) eqn:E; reflect_bools; [|by injection (Hv eq_refl)].
  symmetry in He. by reflect_bools; subst.
Qed.

Lemma bool_omit_inj k b1 b2 l1 l2 :
  k ∉ l1.*1 → k ∉ l2.*1 → bool_omit k b1 ++ l1 = bool_omit k b2 ++ l2 → b1 = b2 ∧ l1 = l2.
Proof.
  intros H1 H2 Heq. apply field_omit_inj in Heq as (He & _ & ->); [|done..].
  split; [|done]. by destruct b1, b2.
Qed.

Lemma slice_json_inj {A} (f : A → json) l1 l2 :
  Inj (=) (=) f → slice_json f l1 = slice_json f l2 → l1 = l2.
Proof.
  intros Hf. destruct l1, l2; simpl; intros Heq; by simplify_eq.
Qed.

Lemma slice_omit_inj {A} k (f : A → json) s1 s2 l1 l2 : Inj (=) (=) f →
  k ∉ l1.*1 → k ∉ l2.*1 → slice_omit k f s1 ++ l1 = slice_omit k f s2 ++ l2 → s1 = s2 ∧ l1 = l2.
Proof.
  intros Hf H1 H2. unfold slice_omit. destruct s1, s2; simpl; intros Heq; simplify_eq.
  - done.
  - destruct H1. rewrite fmap_cons. left.
  - destruct H2. rewrite fmap_cons. left.
  - done.
Qed.

Lemma map_json_inj {A} (f : A → json) (m1 m2 : gmap string A) :
  Inj (=) (=) f → map_json f m1 = map_json f m2 → m1 = m2.
Proof.
  intros Hf [= Heq].
  assert (Inj (=) (=) (λ kv : string * A, (kv.1, f kv.2))).
  { intros [k1 x1] [k2 x2] [= -> Hx]. f_equal. by apply Hf. }
  apply (inj (fmap _)) in Heq. apply map_to_list_inj.
  by rewrite <-(sort_Slice_perm (less_on fst String.ltb)), Heq, sort_Slice_perm.
Qed.

#[export] Instance JString_inj : Inj (=) (=) JString.
Proof. by intros ? ? [= ->]. Qed.

Lemma JObject_inj l1 l2 : JObject l1 = JObject l2 → l1 = l2.
Proof. congruence. Qed.

Lemma field_inj_last k v1 v2 : field k v1 = field k v2 → v1 = v2.
Proof. by intros [= ->]. Qed.

Lemma string_omit_inj_last k s1 s2 : string_omit k s1 = string_omit k s2 → s1 = s2.
Proof.
  intros Heq. apply (string_omit_inj k s1 s2 [] []); [apply not_in_nil..|]. by rewrite Heq.
Qed.

Lemma slice_omit_inj_last {A} k (f : A → json) s1 s2 :
  Inj (=) (=) f → slice_omit k f s1 = slice_omit k f s2 → s1 = s2.
Proof.
  intros Hf Heq. apply (slice_omit_inj k f s1 s2 [] []); [done|apply not_in_nil..|]. by rewrite Heq.
Qed.

(** Decomposes an equation between two structs field by field. *)
Ltac json_fields H :=
  apply JObject_inj in H;
  repeat first
    [ apply field_inj in H as [? H]
    | apply string_omit_inj in H as [? H]; [|solve [auto 60 with themisy]..]
    | apply bool_omit_inj in H as [? H]; [|solve [auto 60 with themisy]..]
    | apply slice_omit_inj in H as [? H]; [|apply _|solve [auto 60 with themisy]..] ];
  try first
    [ apply field_inj_last in H
    | apply string_omit_inj_last in H
    | apply slice_omit_inj_last in H; [|apply _] ].

(** The same for the structs and containers nested in it. *)
Ltac json_inj H :=
  json_fields H;
  repeat match goal with
  | Hj : JObject _ = JObject _ |- _ => json_fields Hj
  | Hj : JString _ = JString _ |- _ => injection Hj as Hj
  | Hj : JBool _ = JBool _ |- _ => injection Hj as Hj
  | Hj : JInt _ = JInt _ |- _ => injection Hj as Hj
  | Hj : slice_json _ _ = slice_json _ _ |- _ => apply slice_json_inj in Hj; [|apply _]
  | Hj : map_json _ _ = map_json _ _ |- _ => apply map_json_inj in Hj; [|apply _]
  end.
