(* ===== verification/Duration.v ===== *)
(** * Go's time.ParseDuration

    An optional sign, then one or more decimal numbers with an optional fraction,
    each followed by its unit; values are accumulated in a [uint64] with the
    overflow tests of the library, fractions through binary64. *)
From S2P Require Import Prelude GoStd.
From Stdlib Require Import Ascii SpecFloat.
Open Scope Z_scope.

Definition two63 : Z := 2 ^ 63.

Definition digit (c : ascii) : Z := Z.of_nat (nat_of_ascii c) - 48.

(** [leadingInt]: [None] on overflow. *)
Fixpoint leadingInt (x : Z) (s : string) : option (Z * string) :=
  match s with
  | String c t =>
      if negb (is_digit c) then Some (x, s)
      else if two63 / 10 <? x then None
      else let x := x * 10 + digit c in
           if two63 <? x then None else leadingInt x t
  | EmptyString => Some (x, s)
  end.

(** [leadingFraction]: the digits, the power of ten they are divided by, the rest. *)
Fixpoint leadingFraction (overflow : bool) (x scale : Z) (s : string) : Z * Z * string :=
  match s with
  | String c t =>
      if negb (is_digit c) then (x, scale, s)
      else if overflow then leadingFraction true x scale t
      else if (two63 - 1) / 10 <? x then leadingFraction true x scale t
      else let y := x * 10 + digit c in
           if two63 <? y then leadingFraction true x scale t
           else leadingFraction false y (scale * 10) t
  | EmptyString => (x, scale, s)
  end.

(** The unit: up to the next digit or point. *)
Fixpoint span_unit (s : string) : string * string :=
  match s with
  | String c t =>
      if Ascii.eqb c "." || is_digit c then (EmptyString, s)
      else let '(u, r) := span_unit t in (String c u, r)
  | EmptyString => (EmptyString, EmptyString)
  end.

Definition unitMap (u : string) : option Z :=
  if bool_decide (u = "ns") then Some Nanosecond
  else if bool_decide (u = "us" ∨ u = bytes [194; 181; 115]%nat ∨ u = bytes [206; 188; 115]%nat) then Some 1000
  else if bool_decide (u = "ms") then Some 1000000
  else if bool_decide (u = "s") then Some Second
  else if bool_decide (u = "m") then Some Minute
  else if bool_decide (u = "h") then Some Hour
  else None.

Definition to_float (z : Z) : spec_float := binary_normalize 53 1024 z 0 false.

(** [uint64(x)] of a non-negative float. *)
Definition trunc (x : spec_float) : Z :=
  match x with
  | S754_finite _ m e => if 0 <=? e then Zpos m * 2 ^ e else Zpos m / 2 ^ (- e)
  | _ => 0
  end.

Definition fraction (f unit scale : Z) : Z :=
  trunc (SFmul 53 1024 (to_float f) (SFdiv 53 1024 (to_float unit) (to_float scale))).

Definition invalid_duration (orig : string) : error :=
  ErrorNew ("time: invalid duration " +:+ quote orig).
Definition missing_unit (orig : string) : error :=
  ErrorNew ("time: missing unit in duration " +:+ quote orig).
Definition unknown_unit (u orig : string) : error :=
  ErrorNew ("time: unknown unit " +:+ quote u +:+ " in duration " +:+ quote orig).

(** One number with its unit: the value to add and the rest of the text. *)
Definition duration_part (orig s : string) : result error (Z * string) :=
  let starts := match s with String c _ => Ascii.eqb c "." || is_digit c | EmptyString => false end in
  if negb starts then Err (invalid_duration orig)
  else match leadingInt 0 s with
  | None => Err (invalid_duration orig)
  | Some (v, s1) =>
      let pre := negb (String.length s =? String.length s1)%nat in
      let '(f, scale, s2, post) :=
        match s1 with
        | String c t =>
            if Ascii.eqb c "." then
              let '(f, scale, s2) := leadingFraction false 0 1 t in
              (f, scale, s2, negb (String.length t =? String.length s2)%nat)
            else (0, 1, s1, false)
        | EmptyString => (0, 1, s1, false)
        end in
      if negb pre && negb post then Err (invalid_duration orig)
      else
        let '(u, s3) := span_unit s2 in
        if bool_decide (u = "") then Err (missing_unit orig)
        else match unitMap u with
        | None => Err (unknown_unit u orig)
        | Some unit =>
            if two63 / unit <? v then Err (invalid_duration orig)
            else
              let v := v * unit in
              if 0 <? f then
                let v := v + fraction f unit scale in
                if two63 <? v then Err (invalid_duration orig) else Ok (v, s3)
              else Ok (v, s3)
        end
  end.

(** The loop; fuel [String.length s] is enough: each part consumes its unit. *)
Fixpoint duration_loop (fuel : nat) (orig s : string) (d : Z) : result error Z :=
  match s, fuel with
  | EmptyString, _ => Ok d
  | _, O => Err (invalid_duration orig)
  | _, S fuel =>
      match duration_part orig s with
      | Err e => Err e
      | Ok (v, s) =>
          let d := (d + v) `mod` 2 ^ 64 in
          if two63 <? d then Err (invalid_duration orig) else duration_loop fuel orig s d
      end
  end.

(** [time.ParseDuration] *)
Definition ParseDuration (orig : string) : result error duration :=
  let '(neg, s) :=
    match orig with
    | String c t => if Ascii.eqb c "-" then (true, t) else if Ascii.eqb c "+" then (false, t)
                    else (false, orig)
    | EmptyString => (false, orig)
    end in
  if bool_decide (s = "0") then Ok 0
  else if bool_decide (s = "") then Err (invalid_duration orig)
  else match duration_loop (String.length s) orig s 0 with
  | Err e => Err e
  | Ok d => if neg : bool then Ok (int64 (- d))
            else if two63 - 1 <? d then Err (invalid_duration orig) else Ok d
  end.

#[global] Arguments ParseDuration : simpl never.

(** ** Examples *)

Lemma ParseDuration_examples :
  ParseDuration "1m" = Ok Minute ∧ ParseDuration "1h30m" = Ok (90 * Minute) ∧
  ParseDuration "-1.5s" = Ok (-1500000000) ∧ ParseDuration "10" = Err (missing_unit "10") ∧
  ParseDuration "9223372036854775807ns" = Ok int64_max ∧
  is_ok (ParseDuration "9223372036854775808ns") = false.
Proof. vm_compute. done. Qed.

(** Every part consumes at least one byte, so the loop has enough fuel. *)
Lemma leadingInt_suffix x s v r : leadingInt x s = Some (v, r) → (String.length r ≤ String.length s)%nat.
Proof.
  revert x. induction s as [|c s IH]; intros x H; simpl in H; [by simplify_eq|].
  repeat split_if; simplify_eq; simpl; [lia|]. apply IH in H. lia.
Qed.

Lemma leadingFraction_suffix o x sc s v sc' r :
  leadingFraction o x sc s = (v, sc', r) → (String.length r ≤ String.length s)%nat.
Proof.
  revert o x sc. induction s as [|c s IH]; intros o x sc H; simpl in H; [by simplify_eq|].
  repeat split_if; simplify_eq; simpl; try lia; apply IH in H; lia.
Qed.

Lemma span_unit_suffix s u r : span_unit s = (u, r) → u ≠ "" → (String.length r < String.length s)%nat.
Proof.
  assert (Hle : ∀ s u r, span_unit s = (u, r) → (String.length r ≤ String.length s)%nat).
  { clear. induction s as [|c s IH]; intros u r H; simpl in H; [by simplify_eq|].
    split_if; [by simplify_eq|]. destruct (span_unit s) as [u' r']. injection H as <- <-.
    specialize (IH u' r' eq_refl). simpl. lia. }
  destruct s as [|c s]; simpl; intros H Hu; [by simplify_eq|].
  split_if; [by simplify_eq|]. destruct (span_unit s) as [u' r'] eqn:E. simplify_eq.
  apply Hle in E. lia.
Qed.

Lemma duration_part_consumes orig s v r :
  duration_part orig s = Ok (v, r) → (String.length r < String.length s)%nat.
Proof.
  unfold duration_part. intros H. split_if; [done|].
  destruct (leadingInt 0 s) as [[v1 s1]|] eqn:Hi; [|done]. apply leadingInt_suffix in Hi.
  destruct (match s1 with String c t => _ | EmptyString => _ end) as [[[f scale] s2] post] eqn:Hf.
  assert (Hs2 : (String.length s2 ≤ String.length s1)%nat).
  { destruct s1 as [|c t]; [by simplify_eq|]. destruct (Ascii.eqb c "."); [|by simplify_eq].
    destruct (leadingFraction false 0 1 t) as [[f' sc'] r'] eqn:E. simplify_eq.
    apply leadingFraction_suffix in E. simpl. lia. }
  split_if; [done|]. destruct (span_unit s2) as [u s3] eqn:Hu. case_bool_decide; [done|].
  apply span_unit_suffix in Hu; [|done]. destruct (unitMap u); [|done].
  repeat split_if; simplify_eq; lia.
Qed.

(** More fuel does not change the result of the loop. *)
Lemma duration_loop_fuel fuel1 fuel2 orig s d :
  (String.length s ≤ fuel1)%nat → (String.length s ≤ fuel2)%nat →
  duration_loop fuel1 orig s d = duration_loop fuel2 orig s d.
Proof.
  revert fuel2 s d. induction fuel1 as [|fuel1 IH]; intros [|fuel2] [|c s] d H1 H2; simpl in *; try lia; try done.
  destruct (duration_part orig (String c s)) as [[v r]|e] eqn:Hp; [|done].
  apply duration_part_consumes in Hp. simpl in Hp. split_if; [done|]. apply IH; lia.
Qed.
