(* ===== verification/Rfc3339.v ===== *)
(** * Instants as text (time.RFC3339Nano)

    JSON encodes a [time.Time] as RFC 3339 text with nanoseconds, and the
    deployment activities write the times of a deployment into the execution
    table and read them back the same way.  [Format] is [t.UTC().Format(time.RFC3339Nano)]
    and [Parse] is [time.Parse(time.RFC3339Nano, value)], both on the proleptic
    Gregorian calendar; [Parse_Format] is the round trip for the years that JSON
    accepts. *)
From S2P Require Import Prelude GoStd.
From Stdlib Require Import Ascii.
Open Scope Z_scope.

(** ** The calendar *)

Definition Day : duration := 24 * Hour.

Definition leap (year : Z) : bool :=
  (year `mod` 4 =? 0) && (negb (year `mod` 100 =? 0) || (year `mod` 400 =? 0)).

Definition month_lengths (year : Z) : list Z :=
  [31; if leap year then 29 else 28; 31; 30; 31; 30; 31; 31; 30; 31; 30; 31].

(** Days from 1 January of year 1 to 1 January of [year]. *)
Definition days_before_year (year : Z) : Z :=
  365 * (year - 1) + (year - 1) / 4 - (year - 1) / 100 + (year - 1) / 400.

(** Month and day of the month from a day counted from the start of month [m]. *)
Fixpoint month_of (lengths : list Z) (m yday : Z) : Z * Z :=
  match lengths with
  | [] => (m, yday + 1)
  | n :: lengths => if yday <? n then (m, yday + 1) else month_of lengths (m + 1) (yday - n)
  end.

Record civil := { c_year : Z; c_month : Z; c_day : Z }.

(** The year and the day of the year: cycles of 400, 100, 4 and 1 years, the last
    century of a cycle and the last year of a leap period being one day longer. *)
Definition year_and_day (days : Z) : Z * Z :=
  let n400 := days / 146097 in let d := days `mod` 146097 in
  let n100 := Z.min 3 (d / 36524) in let d := d - 36524 * n100 in
  let n4 := d / 1461 in let d := d `mod` 1461 in
  let n1 := Z.min 3 (d / 365) in
  (400 * n400 + 100 * n100 + 4 * n4 + n1 + 1, d - 365 * n1).

Definition civil_of_days (days : Z) : civil :=
  let '(year, yday) := year_and_day days in
  let '(month, day) := month_of (month_lengths year) 1 yday in
  {| c_year := year; c_month := month; c_day := day |}.

(** Days before a month. *)
Definition days_before_month (lengths : list Z) (month : Z) : Z :=
  foldr Z.add 0 (take (Z.to_nat (month - 1)) lengths).

Definition days_of_civil (c : civil) : Z :=
  days_before_year (c_year c) + days_before_month (month_lengths (c_year c)) (c_month c) + (c_day c - 1).

(** [t.Year()] *)
Definition Year (t : time) : Z := c_year (civil_of_days (t / Day)).

(** ** Format *)

Definition decimal_char (z : Z) : ascii := ascii_of_nat (48 + Z.to_nat z).

(** [n] decimal digits. *)
Fixpoint digits (n : nat) (z : Z) : string :=
  match n with
  | O => EmptyString
  | S n => String (decimal_char (z / 10 ^ Z.of_nat n)) (digits n (z `mod` 10 ^ Z.of_nat n))
  end.

(** The year, padded to four digits, with a sign or more digits when it needs them. *)
Definition year_digits (year : Z) : string :=
  if (0 <=? year) && (year <=? 9999) then digits 4 year
  else if 0 <=? year then itoa year
  else "-" +:+ (if -9999 <=? year then digits 4 (- year) else itoa (- year)).

(** A fraction of [n] digits, its trailing zeros dropped. *)
Fixpoint fraction_digits (n : nat) (z : Z) : string :=
  match n with
  | O => EmptyString
  | S n =>
      if z =? 0 then EmptyString
      else String (decimal_char (z / 10 ^ Z.of_nat n)) (fraction_digits n (z `mod` 10 ^ Z.of_nat n))
  end.

Definition fraction_text (nanos : Z) : string :=
  if nanos =? 0 then EmptyString else "." +:+ fraction_digits 9 nanos.

Definition Format (t : time) : string :=
  let c := civil_of_days (t / Day) in
  let nanos := t `mod` Day in
  let seconds := nanos / Second in
  year_digits (c_year c) +:+ "-" +:+ digits 2 (c_month c) +:+ "-" +:+ digits 2 (c_day c) +:+ "T" +:+
  digits 2 (seconds / 3600) +:+ ":" +:+ digits 2 ((seconds / 60) `mod` 60) +:+ ":" +:+
  digits 2 (seconds `mod` 60) +:+ fraction_text (nanos `mod` Second) +:+ "Z".

(** ** Parse

    A parser takes a prefix of its input and returns the rest. *)

Definition decimal_value (c : ascii) : option Z :=
  if is_digit c then Some (Z.of_nat (nat_of_ascii c) - 48) else None.

Fixpoint take_digits (n : nat) (s : string) : option (Z * string) :=
  match n, s with
  | O, _ => Some (0, s)
  | S n, String c s =>
      d ← decimal_value c; '(z, s) ← take_digits n s; Some (d * 10 ^ Z.of_nat n + z, s)
  | S _, EmptyString => None
  end.

(** An hour may have a single digit. *)
Definition take_hour (s : string) : option (Z * string) :=
  match s with
  | String c s' =>
      match s' with
      | String c' _ => if is_digit c' then take_digits 2 s else take_digits 1 s
      | EmptyString => take_digits 1 s
      end
  | EmptyString => None
  end.

Definition literal (c : ascii) (s : string) : option string :=
  match s with
  | String c' s => if Ascii.eqb c c' then Some s else None
  | EmptyString => None
  end.

(** The digits of a fraction, those after the [n]th ignored. *)
Fixpoint take_fraction (n : nat) (s : string) : Z * string :=
  match s with
  | String c s' =>
      match decimal_value c with
      | Some d =>
          match n with
          | O => take_fraction O s'
          | S n => let '(z, s) := take_fraction n s' in (d * 10 ^ Z.of_nat n + z, s)
          end
      | None => (0, s)
      end
  | EmptyString => (0, s)
  end.

(** A fraction needs a point (or a comma) and a digit. *)
Definition take_nanos (s : string) : Z * string :=
  match s with
  | String p (String c s' as s0) =>
      if (Ascii.eqb p "." || Ascii.eqb p ",") && is_digit c then take_fraction 9 s0 else (0, s)
  | _ => (0, s)
  end.

(** The zone: [Z] or an offset such as [+02:00], in seconds. *)
Definition take_zone (s : string) : option (Z * string) :=
  match s with
  | String sign rest =>
      if Ascii.eqb sign "Z" then Some (0, rest)
      else
        '(hours, rest) ← take_digits 2 rest; rest ← literal ":" rest; '(minutes, rest) ← take_digits 2 rest;
        if (24 <? hours) || (60 <? minutes) then None
        else let offset := (hours * 60 + minutes) * 60 in
             if Ascii.eqb sign "+" then Some (offset, rest)
             else if Ascii.eqb sign "-" then Some (- offset, rest) else None
  | EmptyString => None
  end.

Definition in_range (lo hi z : Z) : option unit := if (lo <=? z) && (z <=? hi) then Some tt else None.

Definition days_in_month (year month : Z) : Z := nth (Z.to_nat (month - 1)) (month_lengths year) 0.

Definition Parse (value : string) : option time :=
  '(year, s) ← take_digits 4 value; s ← literal "-" s;
  '(month, s) ← take_digits 2 s; _ ← in_range 1 12 month; s ← literal "-" s;
  '(day, s) ← take_digits 2 s; s ← literal "T" s;
  '(hour, s) ← take_hour s; _ ← in_range 0 23 hour; s ← literal ":" s;
  '(minute, s) ← take_digits 2 s; _ ← in_range 0 59 minute; s ← literal ":" s;
  '(second, s) ← take_digits 2 s; _ ← in_range 0 59 second;
  let '(nanos, s) := take_nanos s in
  '(offset, s) ← take_zone s;
  if negb (bool_decide (s = "")) then None else
  _ ← in_range 1 (days_in_month year month) day;
  Some (days_of_civil {| c_year := year; c_month := month; c_day := day |} * Day +
        (hour * 3600 + minute * 60 + second - offset) * Second + nanos).

Lemma Format_examples :
  Format 0 = "0001-01-01T00:00:00Z" ∧
  Format (63082281600 * Second + 120000000) = "2000-01-01T00:00:00.12Z" ∧
  Parse "2000-02-29T9:05:07.5+01:00" = Some (63082281600 * Second + 59 * Day + (8 * 3600 + 307) * Second + 500000000) ∧
  Format (63082281600 * Second + 59 * Day + (8 * 3600 + 307) * Second + 500000000) = "2000-02-29T08:05:07.5Z" ∧
  Parse "1900-02-29T00:00:00Z" = None.
Proof. vm_compute. repeat split; reflexivity. Qed.

(** ** The calendar is a bijection *)

(** The quotients [year_and_day] computes, written as the digits of the day. *)
Lemma year_and_day_spec days year yday :
  year_and_day days = (year, yday) →
  days_before_year year + yday = days ∧ 0 ≤ yday < 365 + Z.b2z (leap year).
Proof.
  unfold year_and_day. set (a := days / 146097). set (r := days `mod` 146097).
  set (b := Z.min 3 (r / 36524)). set (s := r - 36524 * b). set (c := s / 1461). set (q := s `mod` 1461).
  set (e := Z.min 3 (q / 365)). intros [= <- <-].
  assert (Hr : days = 146097 * a + r ∧ 0 ≤ r < 146097).
  { subst a r. pose proof (Z.div_mod days 146097 ltac:(lia)). pose proof (Z.mod_pos_bound days 146097 ltac:(lia)). lia. }
  assert (Hb : r = 36524 * b + s ∧ 0 ≤ b ≤ 3 ∧ 0 ≤ s ≤ 36524 ∧ (s = 36524 → b = 3)).
  { subst b s. pose proof (Z.div_mod r 36524 ltac:(lia)). pose proof (Z.mod_pos_bound r 36524 ltac:(lia)). lia. }
  assert (Hc : s = 1461 * c + q ∧ 0 ≤ q < 1461 ∧ 0 ≤ c ≤ 24).
  { subst c q. pose proof (Z.div_mod s 1461 ltac:(lia)). pose proof (Z.mod_pos_bound s 1461 ltac:(lia)). lia. }
  assert (He : 0 ≤ e ≤ 3 ∧ 0 ≤ q - 365 * e ≤ 365 ∧ (q - 365 * e = 365 → e = 3 ∧ q = 1460)).
  { subst e. pose proof (Z.div_mod q 365 ltac:(lia)). pose proof (Z.mod_pos_bound q 365 ltac:(lia)). lia. }
  clearbody a r b s c q e. unfold days_before_year.
  replace (400 * a + 100 * b + 4 * c + e + 1 - 1) with (400 * a + 100 * b + 4 * c + e) by lia.
  rewrite <-(Z.div_unique (400 * a + 100 * b + 4 * c + e) 4 (100 * a + 25 * b + c) e) by lia.
  rewrite <-(Z.div_unique (400 * a + 100 * b + 4 * c + e) 100 (4 * a + b) (4 * c + e)) by lia.
  rewrite <-(Z.div_unique (400 * a + 100 * b + 4 * c + e) 400 a (100 * b + 4 * c + e)) by lia.
  split; [lia|]. split; [lia|].
  destruct (decide (q - 365 * e = 365)) as [Hlast|]; [|unfold Z.b2z; case_match; lia].
  destruct He as (_ & _ & He); destruct (He Hlast) as [-> ->].
  assert (leap (400 * a + 100 * b + 4 * c + 3 + 1) = true) as ->; [|simpl; lia].
  unfold leap.
  rewrite <-(Z.mod_unique (400 * a + 100 * b + 4 * c + 3 + 1) 4 (100 * a + 25 * b + c + 1) 0) by lia.
  destruct (decide (c = 24)) as [->|].
  - rewrite <-(Z.mod_unique (400 * a + 100 * b + 4 * 24 + 3 + 1) 400 (a + 1) 0) by lia.
    by rewrite orb_true_r.
  - rewrite <-(Z.mod_unique (400 * a + 100 * b + 4 * c + 3 + 1) 100 (4 * a + b) (4 * c + 4)) by lia.
    rewrite (proj2 (Z.eqb_neq (4 * c + 4) 0)) by lia. done.
Qed.

Lemma month_of_spec lengths m yday :
  0 ≤ yday < foldr Z.add 0 lengths → Forall (λ n, 0 < n) lengths →
  let '(month, day) := month_of lengths m yday in
  m ≤ month < m + Z.of_nat (length lengths) ∧
  1 ≤ day ≤ nth (Z.to_nat (month - m)) lengths 0 ∧
  foldr Z.add 0 (take (Z.to_nat (month - m)) lengths) + (day - 1) = yday.
Proof.
  revert m yday. induction lengths as [|n lengths IH]; intros m yday; cbn [foldr month_of]; [lia|].
  intros Hy Hpos. inversion_clear Hpos. destruct (Z.ltb_spec yday n).
  - rewrite Z.sub_diag. simpl. lia.
  - specialize (IH (m + 1) (yday - n)). destruct (month_of lengths (m + 1) (yday - n)) as [month day].
    destruct IH as (Hm & Hd & Hs); [lia|done|].
    replace (Z.to_nat (month - m)) with (S (Z.to_nat (month - (m + 1)))) by lia.
    cbn [length nth take foldr]. lia.
Qed.

Lemma civil_of_days_spec days :
  let c := civil_of_days days in
  days_of_civil c = days ∧ 1 ≤ c_month c ≤ 12 ∧ 1 ≤ c_day c ≤ days_in_month (c_year c) (c_month c).
Proof.
  unfold civil_of_days. destruct (year_and_day days) as [year yday] eqn:Hyd.
  apply year_and_day_spec in Hyd as [Hdays Hyday].
  assert (Hmo := month_of_spec (month_lengths year) 1 yday).
  destruct (month_of (month_lengths year) 1 yday) as [month day].
  destruct Hmo as (Hm & Hd & Hs).
  - unfold month_lengths. destruct (leap year); simpl in *; lia.
  - unfold month_lengths. destruct (leap year); repeat constructor; lia.
  - unfold days_of_civil, days_before_month, days_in_month. simpl in *. lia.
Qed.

Lemma days_in_month_le year month : days_in_month year month ≤ 31.
Proof.
  unfold days_in_month, month_lengths. destruct (Z.to_nat (month - 1)) as [|k]; [simpl; lia|].
  destruct (leap year); do 12 (destruct k as [|k]; [simpl; lia|]); simpl; destruct k; lia.
Qed.

(** ** Digits *)

Lemma decimal_value_char d : 0 ≤ d < 10 → decimal_value (decimal_char d) = Some d.
Proof.
  intros Hd. assert (d ∈ seqZ 0 10) as Hin by (apply elem_of_seqZ; lia).
  clear Hd. revert d Hin. apply Forall_forall. by repeat constructor.
Qed.

Lemma take_digits_digits n z s :
  0 ≤ z < 10 ^ Z.of_nat n → take_digits n (digits n z +:+ s) = Some (z, s).
Proof.
  revert z. induction n as [|n IH]; intros z Hz; [simpl in *; do 2 f_equal; lia|].
  rewrite Nat2Z.inj_succ, Z.pow_succ_r in Hz by lia.
  assert (Hp : 0 < 10 ^ Z.of_nat n) by lia.
  pose proof (Z.div_mod z (10 ^ Z.of_nat n)). pose proof (Z.mod_pos_bound z (10 ^ Z.of_nat n)).
  cbn [digits take_digits]. rewrite app_cons. cbn [take_digits].
  rewrite decimal_value_char by (split; [apply Z.div_pos|apply Z.div_lt_upper_bound]; lia).
  cbn [mbind option_bind]. rewrite IH by lia. simpl. do 2 f_equal. lia.
Qed.

Lemma take_fraction_digits n z s :
  0 ≤ z < 10 ^ Z.of_nat n → (∀ c s', s = String c s' → decimal_value c = None) →
  take_fraction n (fraction_digits n z +:+ s) = (z, s).
Proof.
  intros Hz Hs. revert z Hz. induction n as [|n IH]; intros z Hz; cbn [fraction_digits].
  - assert (z = 0) as -> by (simpl in Hz; lia). destruct s as [|c s]; [done|].
    simpl. by rewrite (Hs c s eq_refl).
  - rewrite Nat2Z.inj_succ, Z.pow_succ_r in Hz by lia.
    pose proof (Z.div_mod z (10 ^ Z.of_nat n)). pose proof (Z.mod_pos_bound z (10 ^ Z.of_nat n)).
    destruct (Z.eqb_spec z 0) as [->|].
    + destruct s as [|c s]; [done|]. simpl. by rewrite (Hs c s eq_refl).
    + rewrite app_cons. cbn [take_fraction].
      rewrite decimal_value_char by (split; [apply Z.div_pos|apply Z.div_lt_upper_bound]; lia).
      rewrite IH by lia. f_equal. lia.
Qed.

Lemma is_digit_char d : 0 ≤ d < 10 → is_digit (decimal_char d) = true.
Proof.
  intros Hd. generalize (decimal_value_char d Hd). unfold decimal_value. by case_match.
Qed.

(** ** Round trip *)

Lemma take_nanos_text nanos : 0 ≤ nanos < Second → take_nanos (fraction_text nanos +:+ "Z") = (nanos, "Z").
Proof.
  intros Hn. unfold fraction_text. destruct (Z.eqb_spec nanos 0) as [->|Hnz]; [done|].
  assert (Htake : take_fraction 9 (fraction_digits 9 nanos +:+ "Z") = (nanos, "Z")).
  { apply take_fraction_digits; [exact Hn|by intros ? ? [= <- _]]. }
  rewrite <-app_assoc_string. change ("." +:+ ?s) with (String "." s). unfold take_nanos.
  destruct (fraction_digits 9 nanos +:+ "Z") as [|c s] eqn:Hf; [done|].
  assert (is_digit c = true) as ->; [|by rewrite Htake].
  cbn [fraction_digits] in Hf. rewrite (proj2 (Z.eqb_neq nanos 0) Hnz), app_cons in Hf.
  injection Hf as <- _. apply is_digit_char. unfold Second in Hn.
  split; [apply Z.div_pos|apply Z.div_lt_upper_bound]; lia.
Qed.

Lemma take_hour_digits h s : 0 ≤ h < 100 → take_hour (digits 2 h +:+ s) = Some (h, s).
Proof.
  intros Hh. rewrite <-(take_digits_digits 2 h s) by lia.
  cbn [digits]. rewrite !app_cons. unfold take_hour.
  rewrite is_digit_char; [done|]. change (10 ^ Z.of_nat 1) with 10. change (10 ^ Z.of_nat 0) with 1.
  rewrite Z.div_1_r. pose proof (Z.mod_pos_bound h 10 ltac:(lia)). lia.
Qed.

Lemma in_range_intro lo hi z : lo ≤ z ≤ hi → in_range lo hi z = Some tt.
Proof. intros Hz. unfold in_range. by rewrite (proj2 (Z.leb_le lo z)), (proj2 (Z.leb_le z hi)) by lia. Qed.

Lemma literal_app (c : ascii) s : literal c (String c EmptyString +:+ s) = Some s.
Proof. unfold literal. simpl. by rewrite Ascii.eqb_refl. Qed.

(** An instant is its day, its second of the day and its nanosecond. *)
Lemma instant_split (t : time) :
  let nanos := t `mod` Day in let seconds := nanos / Second in
  t = t / Day * Day + (seconds / 3600 * 3600 + (seconds / 60) `mod` 60 * 60 + seconds `mod` 60) * Second +
      nanos `mod` Second ∧
  0 ≤ seconds / 3600 ≤ 23 ∧ 0 ≤ (seconds / 60) `mod` 60 ≤ 59 ∧ 0 ≤ seconds `mod` 60 ≤ 59 ∧
  0 ≤ nanos `mod` Second < Second.
Proof.
  intros nanos seconds. change Day with 86400000000000 in *. change Second with 1000000000 in *.
  pose proof (Z.div_mod t 86400000000000 ltac:(lia)) as Ht.
  pose proof (Z.mod_pos_bound t 86400000000000 ltac:(lia)) as Hb. fold nanos in Ht, Hb.
  pose proof (Z.div_mod nanos 1000000000 ltac:(lia)) as Hn.
  pose proof (Z.mod_pos_bound nanos 1000000000 ltac:(lia)). fold seconds in Hn.
  pose proof (Z.div_mod seconds 60 ltac:(lia)). pose proof (Z.mod_pos_bound seconds 60 ltac:(lia)).
  pose proof (Z.div_mod (seconds / 60) 60 ltac:(lia)).
  pose proof (Z.mod_pos_bound (seconds / 60) 60 ltac:(lia)).
  rewrite (Z.div_div seconds 60 60) in * by lia. change (60 * 60) with 3600 in *.
  clearbody nanos seconds. lia.
Qed.

(** Reading back the text of an instant gives the instant. *)
Lemma Parse_Format t : 0 ≤ Year t ≤ 9999 → Parse (Format t) = Some t.
Proof.
  unfold Year, Format, Parse. intros Hy.
  destruct (civil_of_days_spec (t / Day)) as (Hdays & Hm & Hd).
  pose proof (days_in_month_le (c_year (civil_of_days (t / Day))) (c_month (civil_of_days (t / Day)))).
  destruct (instant_split t) as (Ht & Hh & Hmi & Hs & Hn).
  set (c := civil_of_days (t / Day)) in *. clearbody c.
  unfold year_digits. rewrite (proj2 (Z.leb_le 0 _)), (proj2 (Z.leb_le _ 9999)) by lia. cbn [andb].
  rewrite take_digits_digits by (change (10 ^ Z.of_nat 4) with 10000; lia). cbn [mbind option_bind].
  rewrite literal_app. cbn [mbind option_bind].
  rewrite take_digits_digits by (change (10 ^ Z.of_nat 2) with 100; lia). cbn [mbind option_bind].
  rewrite in_range_intro by lia. cbn [mbind option_bind]. rewrite literal_app. cbn [mbind option_bind].
  rewrite take_digits_digits by (change (10 ^ Z.of_nat 2) with 100; lia). cbn [mbind option_bind].
  rewrite literal_app. cbn [mbind option_bind].
  rewrite take_hour_digits by lia. cbn [mbind option_bind].
  rewrite in_range_intro by lia. cbn [mbind option_bind]. rewrite literal_app. cbn [mbind option_bind].
  rewrite take_digits_digits by (change (10 ^ Z.of_nat 2) with 100; lia). cbn [mbind option_bind].
  rewrite in_range_intro by lia. cbn [mbind option_bind]. rewrite literal_app. cbn [mbind option_bind].
  rewrite take_digits_digits by (change (10 ^ Z.of_nat 2) with 100; lia). cbn [mbind option_bind].
  rewrite in_range_intro by lia. cbn [mbind option_bind]. rewrite take_nanos_text by done.
  cbn [take_zone Ascii.eqb Bool.eqb mbind option_bind]. rewrite bool_decide_true by done. cbn [negb].
  rewrite in_range_intro by lia. cbn [mbind option_bind]. f_equal.
  destruct c as [y m d]; simpl in *. rewrite Hdays. lia.
Qed.

Lemma Format_inj t u : 0 ≤ Year t ≤ 9999 → 0 ≤ Year u ≤ 9999 → Format t = Format u → t = u.
Proof.
  intros Ht Hu Heq. apply Parse_Format in Ht, Hu. rewrite Heq, Hu in Ht. by injection Ht.
Qed.
