(* ===== verification/Base64.v ===== *)
(** * base64.RawURLEncoding (Go's encoding/base64)

    Signatures travel as unpadded URL-safe base64 text.  [EncodeToString64] and
    [DecodeString64] work on bytes in [0, 255]; the decoder skips line breaks,
    refuses characters outside the alphabet and a dangling character, and, as the
    library does unless told to be strict, ignores the bits that do not fill a byte. *)
From S2P Require Import Prelude GoStd Sha256.
From Stdlib Require Import Ascii.
Open Scope Z_scope.

(** ** The alphabet *)

Definition alphabet : string := "ABCDEFGHIJKLMNOPQRSTUVWXYZabcdefghijklmnopqrstuvwxyz0123456789-_".

Definition sextet_char (z : Z) : ascii :=
  nth (Z.to_nat z) (String.list_ascii_of_string alphabet) "A"%char.

Definition char_sextet (c : ascii) : option Z :=
  '(i, _) ← list_find (λ d, c = d) (String.list_ascii_of_string alphabet); Some (Z.of_nat i).

(** ** Groups of three bytes and four sextets *)

Fixpoint sextets (l : list Z) : list Z :=
  match l with
  | a :: b :: c :: l =>
      a / 4 :: a `mod` 4 * 16 + b / 16 :: b `mod` 16 * 4 + c / 64 :: c `mod` 64 :: sextets l
  | [a; b] => [a / 4; a `mod` 4 * 16 + b / 16; b `mod` 16 * 4]
  | [a] => [a / 4; a `mod` 4 * 16]
  | [] => []
  end.

Fixpoint octets (l : list Z) : option (list Z) :=
  match l with
  | w :: x :: y :: z :: l =>
      rest ← octets l;
      Some (w * 4 + x / 16 :: x `mod` 16 * 16 + y / 4 :: y `mod` 4 * 64 + z :: rest)
  | [w; x; y] => Some [w * 4 + x / 16; x `mod` 16 * 16 + y / 4]
  | [w; x] => Some [w * 4 + x / 16]
  | [_] => None
  | [] => Some []
  end.

Definition bytes_string (l : list Z) : string :=
  String.string_of_list_ascii ((λ z, ascii_of_nat (Z.to_nat z)) <$> l).

(** [base64.RawURLEncoding.EncodeToString(value)] *)
Definition EncodeToString64 (value : string) : string :=
  String.string_of_list_ascii (sextet_char <$> sextets (string_bytes value)).

Definition line_break (c : ascii) : bool := Ascii.eqb c "010" || Ascii.eqb c "013".

(** [base64.RawURLEncoding.DecodeString(text)]; [None] is [CorruptInputError] *)
Definition DecodeString64 (text : string) : option string :=
  l ← mapM char_sextet (filter (λ c, line_break c = false) (String.list_ascii_of_string text));
  bytes_string <$> octets l.

#[global] Arguments EncodeToString64 : simpl never.
#[global] Arguments DecodeString64 : simpl never.

Lemma Base64_examples :
  EncodeToString64 "any carnal pleas" = "YW55IGNhcm5hbCBwbGVhcw" ∧
  DecodeString64 "YW55IGNhcm5hbCBwbGVhc3U" = Some "any carnal pleasu" ∧
  DecodeString64 "YW55I" = None ∧ DecodeString64 "YW+5" = None.
Proof. vm_compute. repeat split; reflexivity. Qed.

(** ** Round trip *)

Ltac divmod_lia := Z.to_euclidean_division_equations; lia.

Lemma octets_sextets l : Forall is_byte l → octets (sextets l) = Some l.
Proof.
  remember (length l) as n eqn:Hn. revert l Hn.
  induction (lt_wf n) as [n _ IH]; intros l -> Hl. unfold is_byte in *.
  destruct l as [|a [|b [|c l]]]; cbn [sextets octets]; [done|..];
    repeat match goal with H : Forall _ (_ :: _) |- _ => apply Forall_cons in H as [? H] end.
  - do 2 f_equal. divmod_lia.
  - do 2 f_equal; [|f_equal]; divmod_lia.
  - rewrite (IH (length l)) by (simpl; try done; lia). cbn [mbind option_bind].
    do 2 f_equal; [divmod_lia|]. f_equal; [divmod_lia|]. f_equal. divmod_lia.
Qed.

Lemma sextets_range l : Forall is_byte l → Forall (λ z, 0 ≤ z < 64) (sextets l).
Proof.
  remember (length l) as n eqn:Hn. revert l Hn.
  induction (lt_wf n) as [n _ IH]; intros l -> Hl. unfold is_byte in *.
  destruct l as [|a [|b [|c l]]]; cbn [sextets]; [done|..];
    repeat match goal with H : Forall _ (_ :: _) |- _ => apply Forall_cons in H as [? H] end;
    repeat apply Forall_cons_2; try apply Forall_nil_2; try divmod_lia.
  eapply IH; [|done..]. simpl. lia.
Qed.

(** Every sextet: its character is in the alphabet, decodes to it and is no line break. *)
Lemma sextet_char_spec z :
  0 ≤ z < 64 → char_sextet (sextet_char z) = Some z ∧ line_break (sextet_char z) = false.
Proof.
  intros Hz. assert (z ∈ seqZ 0 64) as Hin by (apply elem_of_seqZ; lia).
  clear Hz. revert z Hin. apply Forall_forall.
  apply (bool_decide_unpack (Forall _ _)). by vm_compute.
Qed.

Lemma bytes_string_bytes s : bytes_string (string_bytes s) = s.
Proof.
  unfold bytes_string, string_bytes. rewrite <-list_fmap_compose.
  rewrite <-(String.string_of_list_ascii_of_string s) at 2. f_equal.
  rewrite <-list_fmap_id. apply list_fmap_ext. intros i c _. simpl. rewrite Nat2Z.id.
  apply ascii_nat_embedding.
Qed.

Lemma string_bytes_range s : Forall is_byte (string_bytes s).
Proof.
  unfold string_bytes. apply Forall_fmap, Forall_forall. intros c _. unfold is_byte. simpl.
  pose proof (nat_ascii_bounded c). lia.
Qed.

Lemma Decode_Encode64 value : DecodeString64 (EncodeToString64 value) = Some value.
Proof.
  unfold DecodeString64, EncodeToString64. rewrite String.list_ascii_of_string_of_list_ascii.
  pose proof (sextets_range _ (string_bytes_range value)) as Hr.
  rewrite filter_all; [|intros c (z & -> & Hz)%list_elem_of_fmap; rewrite Forall_forall in Hr; by apply sextet_char_spec, Hr].
  assert (Hm : mapM char_sextet (sextet_char <$> sextets (string_bytes value)) =
    Some (sextets (string_bytes value))).
  { apply mapM_Some_2, Forall2_fmap_l, Forall_Forall2_diag. eapply Forall_impl; [done|].
    intros z Hz. by apply sextet_char_spec. }
  rewrite Hm. cbn [mbind option_bind]. rewrite octets_sextets by apply string_bytes_range.
  simpl. by rewrite bytes_string_bytes.
Qed.

Lemma EncodeToString64_nonempty value : value ≠ "" → EncodeToString64 value ≠ "".
Proof. intros Hv Heq. generalize (Decode_Encode64 value). rewrite Heq. by intros [= <-]. Qed.
