(* ===== verification/JsonDecode.v ===== *)
(** * JSON decoding (Go's encoding/json, as [json.Decoder] and [json.Unmarshal] read it)

    A text is read into a [document]; a decoder of a Go type fills a value from a document:
    [null] leaves it alone, a key names a struct field exactly or up to case, unknown keys are
    refused by a strict decoder, repeated keys overwrite.  [json.RawMessage] is the document
    itself.  Numbers keep their text.  Which error a bad text gets is not modelled, a decoder
    returns nothing.

    [Decode_encode] is the round trip with the encoder of Json.v. *)
From S2P Require Import Prelude GoStd Sha256 Json Rfc3339.
From Stdlib Require Import Ascii.
Open Scope nat_scope.

(** A string also keeps its text between the quotes, which [time.Time] reads. *)
Inductive document :=
| DNull
| DBool (b : bool)
| DNumber (text : string)
| DString (raw value : string)
| DArray (l : list document)
| DObject (members : list (string * document)).

(** ** Strings *)

Definition json_space (c : ascii) : bool :=
  let n := nat_of_ascii c in (n =? 32) || (n =? 9) || (n =? 10) || (n =? 13).

Fixpoint skip_space (s : string) : string :=
  match s with
  | String c r => if json_space c then skip_space r else s
  | EmptyString => s
  end.

(** A string after its opening quote, with its raw text. *)
Definition scan_string (s : string) : option (string * string * string) :=
  match unquote (S (String.length s)) s with
  | Some (value, r) => Some (take_bytes (String.length s - String.length r - 1) s, value, r)
  | None => None
  end.

(** ** Numbers *)

Fixpoint span_digits (s : string) : string * string :=
  match s with
  | String c r => if is_digit c then let '(a, b) := span_digits r in (String c a, b) else (EmptyString, s)
  | EmptyString => (EmptyString, s)
  end.

(** At least one digit. *)
Definition digits1 (s : string) : option (string * string) :=
  match span_digits s with (EmptyString, _) => None | p => Some p end.

(** The digits before the point: no superfluous zero. *)
Definition scan_whole (s : string) : option (string * string) :=
  match s with
  | String c r =>
      if nat_of_ascii c =? 48 then Some (String c EmptyString, r)
      else digits1 s
  | EmptyString => None
  end.

Definition scan_fraction (s : string) : option (string * string) :=
  match s with
  | String c r =>
      if nat_of_ascii c =? 46 then '(d, r) ← digits1 r; Some (String c d, r) else Some (EmptyString, s)
  | EmptyString => Some (EmptyString, s)
  end.

Definition scan_exponent (s : string) : option (string * string) :=
  match s with
  | String c r =>
      if (nat_of_ascii c =? 101) || (nat_of_ascii c =? 69) then
        match r with
        | String d r' =>
            if (nat_of_ascii d =? 43) || (nat_of_ascii d =? 45)
            then '(e, r) ← digits1 r'; Some (String c (String d e), r)
            else '(e, r) ← digits1 r; Some (String c e, r)
        | EmptyString => None
        end
      else Some (EmptyString, s)
  | EmptyString => Some (EmptyString, s)
  end.

Definition scan_number (s : string) : option (string * string) :=
  let '(sign, s) := match s with
                    | String c r => if nat_of_ascii c =? 45 then (String c EmptyString, r) else (EmptyString, s)
                    | EmptyString => (EmptyString, s)
                    end in
  '(whole, s) ← scan_whole s;
  '(fraction, s) ← scan_fraction s;
  '(exponent, s) ← scan_exponent s;
  Some (sign +:+ whole +:+ fraction +:+ exponent, s).

(** ** Values *)

(** [maxNestingDepth] *)
Definition max_depth : N := 10000.

Definition strip (prefix s : string) : option string :=
  if HasPrefix s prefix then Some (drop_bytes (String.length prefix) s) else None.

(** A value, the elements of an array, the members of an object, up to the closing bracket. *)
Fixpoint parse_value (fuel : nat) (depth : N) (s : string) {struct fuel} : option (document * string) :=
  match fuel with
  | 0 => None
  | S fuel =>
      match skip_space s with
      | EmptyString => None
      | String c r =>
          let n := nat_of_ascii c in
          if n =? 34 then '(raw, value, r) ← scan_string r; Some (DString raw value, r)
          else if n =? 123 then
            if (max_depth <=? depth)%N then None
            else match strip "}" (skip_space r) with
                 | Some r => Some (DObject [], r)
                 | None => '(members, r) ← parse_members fuel (depth + 1) r; Some (DObject members, r)
                 end
          else if n =? 91 then
            if (max_depth <=? depth)%N then None
            else match strip "]" (skip_space r) with
                 | Some r => Some (DArray [], r)
                 | None => '(elements, r) ← parse_elements fuel (depth + 1) r; Some (DArray elements, r)
                 end
          else if n =? 110 then r ← strip "ull" r; Some (DNull, r)
          else if n =? 116 then r ← strip "rue" r; Some (DBool true, r)
          else if n =? 102 then r ← strip "alse" r; Some (DBool false, r)
          else '(text, r) ← scan_number (String c r); Some (DNumber text, r)
      end
  end
with parse_elements (fuel : nat) (depth : N) (s : string) {struct fuel} : option (list document * string) :=
  match fuel with
  | 0 => None
  | S fuel =>
      '(v, r) ← parse_value fuel depth s;
      let r := skip_space r in
      match strip "]" r with
      | Some r => Some ([v], r)
      | None => r ← strip "," r; '(l, r) ← parse_elements fuel depth r; Some (v :: l, r)
      end
  end
with parse_members (fuel : nat) (depth : N) (s : string) {struct fuel} : option (list (string * document) * string) :=
  match fuel with
  | 0 => None
  | S fuel =>
      r ← strip dquote (skip_space s);
      '(_, key, r) ← scan_string r;
      r ← strip ":" (skip_space r);
      '(v, r) ← parse_value fuel depth r;
      let r := skip_space r in
      match strip "}" r with
      | Some r => Some ([(key, v)], r)
      | None => r ← strip "," r; '(l, r) ← parse_members fuel depth r; Some ((key, v) :: l, r)
      end
  end.

(** [Decoder.Decode] into a document: the first value and the rest of the input. *)
Definition Decode (s : string) : option (document * string) := parse_value (2 * String.length s + 2) 0 s.

(** The next [Decode] returns [io.EOF]. *)
Definition at_EOF (s : string) : bool := bool_decide (skip_space s = EmptyString).

(** One value and nothing else: [json.Unmarshal], and the strict decoders of the program. *)
Definition Unmarshal (s : string) : option document :=
  '(d, r) ← Decode s; if at_EOF r then Some d else None.

(** ** Decoders of Go types *)

(** Fills a value from a document. *)
Definition into (A : Type) : Type := document → A → option A.

Definition into_string : into string := λ d old,
  match d with DString _ s => Some s | DNull => Some old | _ => None end.
Definition into_bool : into bool := λ d old,
  match d with DBool b => Some b | DNull => Some old | _ => None end.
(** An instant; the offset it was written with is not kept. *)
Definition into_time : into time := λ d old,
  match d with DString raw _ => Parse raw | DNull => Some old | _ => None end.
Definition into_slice {A} (f : into A) (zero : A) : into (list A) := λ d old,
  match d with DArray l => mapM (λ d, f d zero) l | DNull => Some [] | _ => None end.
(** [json.RawMessage]; an absent one is [None]. *)
Definition into_raw : into (option document) := λ d _, Some (Some d).

(** The case folding of keys: letters in upper case, and the two runes beyond ASCII that fold
    to a letter (U+017F to S, U+212A to K). *)
Fixpoint fold_name (s : string) : string :=
  match s with
  | EmptyString => EmptyString
  | String c r =>
      if is_lower c then String (ascii_of_nat (nat_of_ascii c - 32)) (fold_name r)
      else match nat_of_ascii c, r with
           | 197, String d r' => if nat_of_ascii d =? 191 then String "S"%char (fold_name r') else String c (fold_name r)
           | 226, String d (String e r') =>
               if (nat_of_ascii d =? 132) && (nat_of_ascii e =? 170) then String "K"%char (fold_name r') else String c (fold_name r)
           | _, _ => String c (fold_name r)
           end
  end.

(** The fields of a struct, by name. *)
Definition fields_of (R : Type) : Type := list (string * into R).

Definition member {R E} (name : string) (f : into E) (proj : R → E) `{!FieldUpdate proj} : fields_of R :=
  [(name, λ d r, v ← f d (proj r); Some (r <| proj := v |>))].

Fixpoint find_field {R} (p : string → bool) (fields : fields_of R) : option (into R) :=
  match fields with
  | [] => None
  | (name, f) :: fields => if p name then Some f else find_field p fields
  end.

Definition find_member {R} (fields : fields_of R) (key : string) : option (into R) :=
  match find_field (String.eqb key) fields with
  | Some f => Some f
  | None => find_field (λ name, String.eqb (fold_name key) (fold_name name)) fields
  end.

Fixpoint into_members {R} (strict : bool) (fields : fields_of R) (members : list (string * document)) (r : R) : option R :=
  match members with
  | [] => Some r
  | (key, d) :: members =>
      r ← match find_member fields key with
          | Some f => f d r
          | None => if strict then None else Some r
          end;
      into_members strict fields members r
  end.

Definition into_struct {R} (strict : bool) (fields : fields_of R) : into R := λ d old,
  match d with DObject members => into_members strict fields members old | DNull => Some old | _ => None end.

#[global] Arguments parse_value : simpl never.
#[global] Arguments parse_elements : simpl never.
#[global] Arguments parse_members : simpl never.
#[global] Arguments scan_string : simpl never.
#[global] Arguments scan_number : simpl never.
#[global] Arguments member : simpl never.

(** ** What the encoder writes, as a document *)

(** The encoder with another way to write ASCII bytes. *)
Fixpoint encode_with (esc : nat → string) (v : json) : string :=
  match v with
  | JNull => "null"
  | JBool b => encode_bool b
  | JInt z => itoa z
  | JString s => dquote +:+ escaped esc s +:+ dquote
  | JArray l => "[" +:+ Join (map (encode_with esc) l) "," +:+ "]"
  | JObject fields =>
      "{" +:+ Join (map (λ kv, (dquote +:+ escaped esc kv.1 +:+ dquote) +:+ ":" +:+ encode_with esc kv.2) fields) "," +:+ "}"
  end.

Fixpoint document_of (esc : nat → string) (v : json) : document :=
  match v with
  | JNull => DNull
  | JBool b => DBool b
  | JInt z => DNumber (itoa z)
  | JString s => DString (escaped esc s) s
  | JArray l => DArray (map (document_of esc) l)
  | JObject fields => DObject (map (λ kv, (kv.1, document_of esc kv.2)) fields)
  end.

(** The nesting of arrays and objects. *)
Fixpoint height (v : json) : N :=
  match v with
  | JArray l => 1 + foldr N.max 0 (map height l)
  | JObject fields => 1 + foldr N.max 0 (map (λ kv, height kv.2) fields)
  | _ => 0
  end%N.

Lemma encode_with_html v : encode_with escape_ascii v = encode v.
Proof.
  induction v as [|b|z|s|l IH|l IH] using json_ind'; try done.
  - assert (Hl : map (encode_with escape_ascii) l = map encode l) by (induction IH; simpl; congruence).
    simpl. by rewrite Hl.
  - assert (Hl : map (λ kv, (dquote +:+ escaped escape_ascii kv.1 +:+ dquote) +:+ ":" +:+ encode_with escape_ascii kv.2) l =
      map encode_field l); [|simpl; by rewrite Hl].
    induction IH as [|kv l Hkv _ IHl]; simpl; [done|]. by rewrite Hkv, IHl.
Qed.

(** [SetEscapeHTML(false)] *)
Definition escape_plain (n : nat) : string :=
  match n with 60 | 62 | 38 => char n | _ => escape_ascii n end.

#[export] Instance plain_reads_back : ReadsBack escape_plain.
Proof.
  split; [intros n fuel r Hn; each_byte n|]. intros n. pose proof (writes_something (esc := escape_ascii) n).
  unfold escape_plain. do 63 (destruct n as [|n]; [done|]). done.
Qed.

Lemma strip_app p q : strip p (p +:+ q) = Some q.
Proof.
  unfold strip. assert (HasPrefix (p +:+ q) p = true) as ->.
  { induction p as [|c p IH]; [by destruct q|]. rewrite app_cons. simpl. by rewrite Ascii.eqb_refl, IH. }
  f_equal. induction p as [|c p IH]; [done|]. by rewrite app_cons.
Qed.

Section reading.
Context (esc : nat → string) `{!ReadsBack esc}.

Lemma scan_string_escaped s r :
  utf8_text s = true → scan_string (escaped esc s +:+ dquote +:+ r) = Some (escaped esc s, s, r).
Proof.
  intros Hs. unfold scan_string. rewrite (unquote_escaped esc); [|done|].
  - do 3 f_equal. rewrite !length_app_string. simpl String.length.
    replace (String.length (escaped esc s) + (1 + String.length r) - String.length r - 1) with (String.length (escaped esc s)) by lia.
    apply take_bytes_app.
  - rewrite !length_app_string. pose proof (escaped_length esc s Hs). lia.
Qed.
End reading.

(** *** Numbers *)

(** The text after a value does not continue a number. *)
Definition number_ends (r : string) : bool :=
  match r with
  | EmptyString => true
  | String c _ => negb (is_digit c || (nat_of_ascii c =? 46) || (nat_of_ascii c =? 101) || (nat_of_ascii c =? 69))
  end.

Lemma pretty_N_char_is_digit x : is_digit (pretty_N_char x) = true.
Proof. destruct x as [|p]; [done|]. do 4 (destruct p as [p|p|]; try done). Qed.

Lemma pretty_N_char_not_zero x : (0 < x < 10)%N → (nat_of_ascii (pretty_N_char x) =? 48) = false.
Proof. intros Hx. destruct x as [|p]; [lia|]. do 4 (destruct p as [p|p|]; try done); lia. Qed.

(** The decimal digits of a positive number do not start with a zero. *)
Lemma pretty_N_go_digits x s : (0 < x)%N → string_forall is_digit s = true →
  ∃ c t, pretty_N_go x s = String c t ∧ (nat_of_ascii c =? 48) = false ∧ string_forall is_digit (String c t) = true.
Proof.
  revert s. induction (N.lt_wf_0 x) as [x _ IH]. intros s Hx Hs. rewrite pretty_N_go_step by done.
  destruct (decide (0 < N.div x 10)%N) as [Hd|Hd].
  - apply IH; [apply N.div_lt; lia|done|]. simpl. by rewrite pretty_N_char_is_digit.
  - assert (N.div x 10 = 0%N) as Hz by (by apply N.le_0_r, N.nlt_ge). rewrite Hz, pretty_N_go_0. eexists _, _. split; [done|].
    apply N.div_small_iff in Hz; [|done]. rewrite N.mod_small by done.
    split; [apply pretty_N_char_not_zero; lia|]. simpl. by rewrite pretty_N_char_is_digit.
Qed.

Lemma span_digits_app d r : string_forall is_digit d = true → number_ends r = true → span_digits (d +:+ r) = (d, r).
Proof.
  induction d as [|c d IH]; intros Hd Hr.
  - change ("" +:+ r) with r. destruct r as [|c r]; [done|]. cbn [number_ends] in Hr. simpl. by destruct (is_digit c).
  - rewrite app_cons. simpl in *. apply andb_true_iff in Hd as [-> Hd]. by rewrite IH.
Qed.

Lemma scan_whole_pretty p r : number_ends r = true → scan_whole (pretty (N.pos p) +:+ r) = Some (pretty (N.pos p), r).
Proof.
  intros Hr. unfold pretty, pretty_N. rewrite decide_False by done.
  destruct (pretty_N_go_digits (N.pos p) "") as (c & t & -> & Hc & Hd); [lia|done|].
  rewrite app_cons. unfold scan_whole, digits1. rewrite Hc.
  rewrite <-app_cons, span_digits_app by done. done.
Qed.

Lemma number_tail r : number_ends r = true → scan_fraction r = Some (EmptyString, r) ∧ scan_exponent r = Some (EmptyString, r).
Proof.
  destruct r as [|c r]; [done|]. cbn [number_ends]. intros [[[_ Hp]%orb_false_iff He]%orb_false_iff HE]%negb_true_iff%orb_false_iff.
  unfold scan_fraction, scan_exponent. by rewrite Hp, He, HE.
Qed.

Lemma scan_number_itoa z r : number_ends r = true → scan_number (itoa z +:+ r) = Some (itoa z, r).
Proof.
  intros Hr. destruct (number_tail r Hr) as [Hf He]. unfold scan_number. destruct z as [|p|p].
  - change (itoa 0) with "0". change ("0" +:+ r) with (String "0" r). simpl. unfold mbind, option_bind. by rewrite Hf, He.
  - change (itoa (Z.pos p)) with (pretty (N.pos p)). pose proof (scan_whole_pretty p r Hr) as Hw. revert Hw.
    unfold pretty, pretty_N. rewrite decide_False by done.
    destruct (pretty_N_go_digits (N.pos p) "") as (c & t & -> & Hc & Hd); [lia|done|]. rewrite app_cons. intros Hw.
    assert ((nat_of_ascii c =? 45) = false) as ->.
    { simpl in Hd. apply andb_true_iff in Hd as [Hd _]. unfold is_digit, byte_in in Hd. apply andb_true_iff in Hd as [Hd _].
      apply Nat.leb_le in Hd. apply Nat.eqb_neq. lia. }
    unfold mbind, option_bind. rewrite Hw, Hf, He. by rewrite !app_empty_r.
  - change (itoa (Z.neg p)) with (String "-" (pretty (N.pos p))). rewrite app_cons.
    change (nat_of_ascii "-" =? 45) with true. cbv iota. unfold mbind, option_bind.
    rewrite (scan_whole_pretty p r Hr), Hf, He. by rewrite !app_empty_r.
Qed.

(** *** Values *)

(** One character in front of a text. *)
Abbreviation single c := (String c EmptyString).

Lemma skip_char c r : json_space c = false → skip_space (single c +:+ r) = single c +:+ r.
Proof. simpl. by intros ->. Qed.

Lemma strip_char c r : strip (single c) (single c +:+ r) = Some r.
Proof. apply strip_app. Qed.

Lemma strip_other c d r : Ascii.eqb c d = false → strip (single c) (single d +:+ r) = None.
Proof. unfold strip. simpl. by intros ->. Qed.

(** The steps of the parser. *)
Lemma parse_value_S fuel depth s :
  parse_value (S fuel) depth s =
  match skip_space s with
  | EmptyString => None
  | String c r =>
      let n := nat_of_ascii c in
      if n =? 34 then '(raw, value, r) ← scan_string r; Some (DString raw value, r)
      else if n =? 123 then
        if (max_depth <=? depth)%N then None
        else match strip "}" (skip_space r) with
             | Some r => Some (DObject [], r)
             | None => '(members, r) ← parse_members fuel (depth + 1) r; Some (DObject members, r)
             end
      else if n =? 91 then
        if (max_depth <=? depth)%N then None
        else match strip "]" (skip_space r) with
             | Some r => Some (DArray [], r)
             | None => '(elements, r) ← parse_elements fuel (depth + 1) r; Some (DArray elements, r)
             end
      else if n =? 110 then r ← strip "ull" r; Some (DNull, r)
      else if n =? 116 then r ← strip "rue" r; Some (DBool true, r)
      else if n =? 102 then r ← strip "alse" r; Some (DBool false, r)
      else '(text, r) ← scan_number (String c r); Some (DNumber text, r)
  end.
Proof. done. Qed.

Lemma parse_elements_S fuel depth s :
  parse_elements (S fuel) depth s =
  ('(v, r) ← parse_value fuel depth s;
   let r := skip_space r in
   match strip "]" r with
   | Some r => Some ([v], r)
   | None => r ← strip "," r; '(l, r) ← parse_elements fuel depth r; Some (v :: l, r)
   end).
Proof. done. Qed.

Lemma parse_members_S fuel depth s :
  parse_members (S fuel) depth s =
  (r ← strip dquote (skip_space s);
   '(_, key, r) ← scan_string r;
   r ← strip ":" (skip_space r);
   '(v, r) ← parse_value fuel depth r;
   let r := skip_space r in
   match strip "}" r with
   | Some r => Some ([(key, v)], r)
   | None => r ← strip "," r; '(l, r) ← parse_members fuel depth r; Some ((key, v) :: l, r)
   end).
Proof. done. Qed.

(** A number starts with a digit or a minus sign. *)
Lemma itoa_head z : ∃ c t, itoa z = String c t ∧ json_space c = false ∧
  Forall (λ n, (nat_of_ascii c =? n) = false) [34; 123; 91; 110; 116; 102].
Proof.
  pose proof (itoa_num z) as Hn. pose proof (itoa_nonempty z) as Hz. destruct (itoa z) as [|c t]; [done|].
  exists c, t. simpl in Hn. apply andb_true_iff in Hn as [Hc _]. split; [done|]. clear -Hc.
  destruct c as [[] [] [] [] [] [] [] []]; try done; by repeat constructor.
Qed.

Section round_trip.
Context (esc : nat → string) `{!ReadsBack esc}.

Definition item_text (kv : string * json) : string := (dquote +:+ escaped esc kv.1 +:+ dquote) +:+ ":" +:+ encode_with esc kv.2.

Lemma encode_with_nonempty v : 1 ≤ String.length (encode_with esc v).
Proof.
  destruct v as [|[]|z|s|l|l]; simpl; try lia.
  destruct (itoa_head z) as (c & t & -> & _). simpl. lia.
Qed.

(** Reading back [v]: enough fuel for its text, and room for its nesting. *)
Definition reads (v : json) : Prop := ∀ fuel depth r,
  utf8_json v = true → number_ends r = true → 2 * String.length (encode_with esc v) ≤ fuel → (depth + height v ≤ max_depth)%N →
  parse_value fuel depth (encode_with esc v +:+ r) = Some (document_of esc v, r).

Lemma elements_read l fuel depth r :
  Forall reads l → l ≠ [] → forallb utf8_json l = true →
  2 * String.length (Join (map (encode_with esc) l) ",") < fuel → (depth + foldr N.max 0 (map height l) ≤ max_depth)%N →
  parse_elements fuel depth (Join (map (encode_with esc) l) "," +:+ "]" +:+ r) = Some (map (document_of esc) l, r).
Proof.
  intros Hall. revert fuel. induction Hall as [|v l Hv Hall IH]; intros fuel Hne Hs Hf Hd; [done|].
  destruct fuel as [|fuel]; [lia|]. simpl in Hs. apply andb_true_iff in Hs as [Hvs Hls]. simpl map in *.
  rewrite Join_comma_cons in *. rewrite length_app_string in Hf. rewrite <-app_assoc_string, parse_elements_S.
  cbn [foldr] in Hd. rewrite Hv; [|done|by destruct l|lia|lia]. unfold mbind, option_bind. cbv zeta.
  destruct l as [|w l]; [change (Join_tail (map (encode_with esc) []) +:+ "]" +:+ r) with ("]" +:+ r)|].
  - by rewrite skip_char, strip_char.
  - change (Join_tail (map (encode_with esc) (w :: l))) with ("," +:+ Join (map (encode_with esc) (w :: l)) ",") in *.
    rewrite length_app_string in Hf. change (String.length ",") with 1 in Hf.
    rewrite <-app_assoc_string, skip_char, strip_other, strip_char by done.
    rewrite IH; [done|done|done|lia|lia].
Qed.

Lemma members_read l fuel depth r :
  Forall (λ kv, reads kv.2) l → l ≠ [] → forallb valid_field l = true →
  2 * String.length (Join (map item_text l) ",") < fuel → (depth + foldr N.max 0 (map (λ kv, height kv.2) l) ≤ max_depth)%N →
  parse_members fuel depth (Join (map item_text l) "," +:+ "}" +:+ r) = Some (map (λ kv, (kv.1, document_of esc kv.2)) l, r).
Proof.
  intros Hall. revert fuel. induction Hall as [|[k v] l Hv Hall IH]; intros fuel Hne Hs Hf Hd; [done|].
  destruct fuel as [|fuel]; [lia|]. simpl in Hs. apply andb_true_iff in Hs as [[Hk Hvs]%andb_true_iff Hls]. simpl in Hv, Hk, Hvs.
  simpl map in *. rewrite Join_comma_cons in *. rewrite length_app_string in Hf. cbn [foldr] in Hd.
  rewrite <-app_assoc_string, parse_members_S. unfold item_text at 1 in Hf. unfold item_text at 1. cbn [fst snd] in *.
  rewrite !length_app_string in Hf. rewrite <-!app_assoc_string. unfold mbind, option_bind.
  change (skip_space (dquote +:+ ?t)) with (dquote +:+ t). rewrite strip_app, scan_string_escaped by done. rewrite skip_char, strip_char by done.
  rewrite Hv; [|done|by destruct l|lia|lia]. cbv zeta.
  destruct l as [|w l]; [change (Join_tail (map item_text []) +:+ "}" +:+ r) with ("}" +:+ r)|].
  - by rewrite skip_char, strip_char.
  - change (Join_tail (map item_text (w :: l))) with ("," +:+ Join (map item_text (w :: l)) ",") in *.
    rewrite length_app_string in Hf. change (String.length ",") with 1 in Hf.
    rewrite <-app_assoc_string, skip_char, strip_other, strip_char by done.
    rewrite IH; [done|done|done|lia|lia].
Qed.

(** The first character of a value is not a space or a closing bracket. *)
Definition opens (s : string) : Prop :=
  ∃ c t, s = String c t ∧ json_space c = false ∧ Ascii.eqb "]" c = false ∧ Ascii.eqb "}" c = false.

Lemma encode_first v r : opens (encode_with esc v +:+ r).
Proof.
  destruct v as [|[]|z|s|l|l]; try (by eexists _, _). simpl. pose proof (itoa_num z) as Hn. pose proof (itoa_nonempty z).
  destruct (itoa z) as [|c t]; [done|]. simpl in Hn. apply andb_true_iff in Hn as [Hc _]. eexists c, _.
  split; [done|]. clear -Hc. by destruct c as [[] [] [] [] [] [] [] []].
Qed.

Lemma opens_skip s : opens s → skip_space s = s ∧ strip "]" s = None ∧ strip "}" s = None.
Proof. intros (c & t & -> & Hc & H1 & H2). unfold strip. simpl in *. by rewrite Hc, H1, H2. Qed.

(** An array after its bracket: empty, or its elements. *)
Lemma parse_array fuel depth s l r :
  (depth < max_depth)%N →
  s = "]" +:+ r ∧ l = [] ∨ opens s ∧ parse_elements fuel (depth + 1) s = Some (l, r) →
  parse_value (S fuel) depth ("[" +:+ s) = Some (DArray l, r).
Proof.
  intros Hd Hs. rewrite parse_value_S, skip_char by done. change ("[" +:+ s) with (String "[" s).
  change (nat_of_ascii "[") with 91. cbv zeta. simpl Nat.eqb. cbv iota.
  destruct (N.leb_spec max_depth depth); [lia|]. destruct Hs as [[-> ->]|[Ho Hp]].
  - by rewrite skip_char, strip_char.
  - destruct (opens_skip s Ho) as (-> & -> & _). by rewrite Hp.
Qed.

Lemma parse_object fuel depth s l r :
  (depth < max_depth)%N →
  s = "}" +:+ r ∧ l = [] ∨ opens s ∧ parse_members fuel (depth + 1) s = Some (l, r) →
  parse_value (S fuel) depth ("{" +:+ s) = Some (DObject l, r).
Proof.
  intros Hd Hs. rewrite parse_value_S, skip_char by done. change ("{" +:+ s) with (String "{" s).
  change (nat_of_ascii "{") with 123. cbv zeta. simpl Nat.eqb. cbv iota.
  destruct (N.leb_spec max_depth depth); [lia|]. destruct Hs as [[-> ->]|[Ho Hp]].
  - by rewrite skip_char, strip_char.
  - destruct (opens_skip s Ho) as (-> & _ & ->). by rewrite Hp.
Qed.

(** An encoded value is read back, whatever text follows that does not continue a number. *)
Lemma parse_encode v : reads v.
Proof.
  induction v as [|b|z|s|l IH|l IH] using json_ind'; intros fuel depth r Hs Hr Hf Hd.
  all: match type of Hf with (2 * String.length (encode_with esc ?v) ≤ _) => pose proof (encode_with_nonempty v) end.
  all: destruct fuel as [|fuel]; [lia|]; simpl encode_with in *.
  - rewrite parse_value_S. change ((x ← strip "ull" ("ull" +:+ r); Some (DNull, x)) = Some (DNull, r)). by rewrite strip_app.
  - rewrite parse_value_S. destruct b.
    + change ((x ← strip "rue" ("rue" +:+ r); Some (DBool true, x)) = Some (DBool true, r)). by rewrite strip_app.
    + change ((x ← strip "alse" ("alse" +:+ r); Some (DBool false, x)) = Some (DBool false, r)). by rewrite strip_app.
  - rewrite parse_value_S. destruct (itoa_head z) as (c & t & Hz & Hc & Hk). repeat (apply Forall_cons in Hk as [?Hk Hk]). pose proof (scan_number_itoa z r Hr) as Hn. rewrite Hz in *.
    rewrite app_cons in *. simpl skip_space. rewrite Hc. cbv zeta. rewrite Hk0, Hk1, Hk2, Hk3, Hk4, Hk5, Hn. simpl. by rewrite Hz.
  - rewrite parse_value_S, <-!app_assoc_string.
    change (('(raw, value, x) ← scan_string (escaped esc s +:+ dquote +:+ r); Some (DString raw value, x)) =
      Some (DString (escaped esc s) s, r)). by rewrite scan_string_escaped.
  - rewrite <-!app_assoc_string. rewrite !length_app_string in Hf. simpl height in Hd. apply parse_array; [lia|].
    destruct l as [|v l]; [left; done|right]. split.
    + simpl map. rewrite Join_comma_cons, <-!app_assoc_string. apply encode_first.
    + apply elements_read; [done..| |lia]. change (String.length "[") with 1 in Hf. lia.
  - change (λ kv : string * json, (dquote +:+ escaped esc kv.1 +:+ dquote) +:+ ":" +:+ encode_with esc kv.2) with item_text in *.
    rewrite <-!app_assoc_string. rewrite !length_app_string in Hf. simpl height in Hd. apply parse_object; [lia|].
    destruct l as [|kv l]; [left; done|right]. split.
    + simpl map. rewrite Join_comma_cons. unfold item_text at 1. rewrite <-!app_assoc_string. by eexists _, _.
    + apply members_read; [done..| |lia]. change (String.length "{") with 1 in Hf. lia.
Qed.
End round_trip.

(** ** The fuel is enough

    Every part of the parser consumes input, so more fuel than twice the input changes nothing. *)

Abbreviation len := String.length.

Lemma skip_space_len s : len (skip_space s) ≤ len s.
Proof. induction s as [|c s IH]; [done|]. simpl. destruct (json_space c); simpl; lia. Qed.

Lemma drop_bytes_len n s : len (drop_bytes n s) ≤ len s.
Proof. revert s. induction n as [|n IH]; intros [|c s]; simpl; try lia. specialize (IH s). lia. Qed.

Lemma strip_len p s r : strip p s = Some r → len p ≤ len s ∧ len r ≤ len s ∧ (p ≠ "" → len r < len s).
Proof.
  unfold strip. destruct (HasPrefix s p) eqn:Hp; [|done]. intros [= <-]. revert s Hp.
  induction p as [|c p IH]; intros [|d s] Hp; try done; [simpl; split_and!; [lia|lia|done]..|].
  simpl in Hp. apply andb_true_iff in Hp as [_ Hp]. destruct (IH s Hp) as (? & ? & _). simpl.
  split_and!; [lia|lia|]. intros _. lia.
Qed.

Lemma hex4_len s u r : hex4 s = Some (u, r) → len r < len s.
Proof.
  unfold hex4. destruct s as [|a [|b [|c [|d s]]]]; try done. unfold mbind, option_bind.
  repeat (destruct (hex_value _); [|done]). intros [= _ <-]. simpl. lia.
Qed.

Lemma escaped_unit_len s u r : escaped_unit s = Some (u, r) → len r < len s.
Proof.
  unfold escaped_unit. destruct s as [|c [|d s]]; try done. destruct (_ && _); [|done]. intros ?%hex4_len. simpl. lia.
Qed.

Lemma unescape_len s t r : unescape s = Some (t, r) → len r < len s.
Proof.
  unfold unescape, unicode_unescape. destruct s as [|e s]; [done|]. simpl len. destruct (nat_of_ascii e =? 117).
  - unfold mbind, option_bind. destruct (hex4 s) as [[u r']|] eqn:Hx; [|done]. apply hex4_len in Hx.
    destruct (N_between _ _ _); [|intros [= _ <-]; lia].
    destruct (escaped_unit r') as [[v r'']|] eqn:He; [|intros [= _ <-]; lia]. apply escaped_unit_len in He.
    destruct (surrogate_pair u v); intros [= _ <-]; lia.
  - unfold mbind, option_bind. destruct (letter_escape _); [|done]. intros [= _ <-]. lia.
Qed.

Lemma prepend_Some p o t r : prepend p o = Some (t, r) → ∃ t', o = Some (t', r).
Proof. destruct o as [[t' r']|]; [|done]. intros [= _ <-]. by exists t'. Qed.

Lemma unquote_len fuel s t r : unquote fuel s = Some (t, r) → len r < len s.
Proof.
  revert s t r. induction fuel as [|fuel IH]; intros [|c s] t r; try done. cbn [unquote]. cbv zeta.
  destruct (_ =? 34); [intros [= _ <-]; simpl; lia|]. destruct (_ =? 92).
  { destruct (unescape s) as [[t' r']|] eqn:Hu; [|done]. apply unescape_len in Hu.
    intros (t'' & ?%IH)%prepend_Some. simpl. lia. }
  destruct (_ <? 32); [done|]. destruct (_ <? 128); [intros (t'' & ?%IH)%prepend_Some; simpl; lia|].
  destruct (rune_width _) as [|w]; intros (t'' & Hr%IH)%prepend_Some; [simpl; lia|].
  pose proof (drop_bytes_len (S w) (String c s)). lia.
Qed.

Lemma scan_string_len s raw v r : scan_string s = Some (raw, v, r) → len r < len s.
Proof. unfold scan_string. destruct (unquote _ s) as [[v' r']|] eqn:Hu; [|done]. intros [= _ _ <-]. by eapply unquote_len. Qed.

Lemma span_digits_len s d r : span_digits s = (d, r) → len d + len r = len s.
Proof.
  revert d r. induction s as [|c s IH]; simpl; [by intros ? ? [= <- <-]|]. intros d r.
  destruct (is_digit c); [|by intros [= <- <-]]. destruct (span_digits s) as [a b]. intros [= <- <-].
  simpl. by rewrite (IH a b eq_refl).
Qed.

Lemma digits1_len s d r : digits1 s = Some (d, r) → len r < len s.
Proof.
  unfold digits1. destruct (span_digits s) as [a b] eqn:Hs. apply span_digits_len in Hs.
  destruct a; [done|]. intros [= _ <-]. simpl in Hs. lia.
Qed.

Lemma scan_whole_len s d r : scan_whole s = Some (d, r) → len r < len s.
Proof.
  unfold scan_whole. destruct s as [|c s]; [done|]. destruct (_ =? 48); [intros [= _ <-]; simpl; lia|apply digits1_len].
Qed.

Lemma scan_fraction_len s d r : scan_fraction s = Some (d, r) → len r ≤ len s.
Proof.
  unfold scan_fraction, mbind, option_bind. destruct s as [|c s]; [by intros [= _ <-]|]. destruct (_ =? 46); [|by intros [= _ <-]].
  destruct (digits1 s) as [[e r']|] eqn:Hd; [|done]. apply digits1_len in Hd. intros [= _ <-]. simpl. lia.
Qed.

Lemma scan_exponent_len s d r : scan_exponent s = Some (d, r) → len r ≤ len s.
Proof.
  unfold scan_exponent, mbind, option_bind. destruct s as [|c s]; [by intros [= _ <-]|]. destruct (_ || _); [|by intros [= _ <-]].
  destruct s as [|e s]; [done|]. destruct (_ || _).
  - destruct (digits1 s) as [[x r']|] eqn:Hd; [|done]. apply digits1_len in Hd. intros [= _ <-]. simpl. lia.
  - destruct (digits1 (String e s)) as [[x r']|] eqn:Hd; [|done]. apply digits1_len in Hd. intros [= _ <-]. simpl in *. lia.
Qed.

Lemma scan_number_len s d r : scan_number s = Some (d, r) → len r < len s.
Proof.
  unfold scan_number. set (p := match s with EmptyString => _ | String c r => _ end).
  assert (Hp : len p.2 ≤ len s) by (subst p; destruct s as [|c s]; [done|]; destruct (_ =? 45); simpl; lia).
  destruct p as [sign s1]. simpl in Hp. unfold mbind, option_bind.
  destruct (scan_whole s1) as [[w s2]|] eqn:Hw; [|done]. apply scan_whole_len in Hw.
  destruct (scan_fraction s2) as [[f s3]|] eqn:Hf; [|done]. apply scan_fraction_len in Hf.
  destruct (scan_exponent s3) as [[e s4]|] eqn:He; [|done]. apply scan_exponent_len in He. intros [= _ <-]. lia.
Qed.

Lemma strip_shorter p s r : p ≠ "" → strip p s = Some r → len r < len s.
Proof. intros Hp (_ & _ & Hl)%strip_len. by apply Hl. Qed.

(** A parser of one kind consumes: what is left is shorter. *)
Definition consumes {A} (p : string → option (A * string)) : Prop := ∀ s a r, p s = Some (a, r) → len r < len s.

Lemma parse_consumes fuel :
  (∀ depth, consumes (parse_value fuel depth)) ∧ (∀ depth, consumes (parse_elements fuel depth)) ∧
  (∀ depth, consumes (parse_members fuel depth)).
Proof.
  induction fuel as [|fuel (IHv & IHe & IHm)]; [by split_and!; intros ? ? ? ?|].
  split_and!; intros depth s a r.
  - rewrite parse_value_S. pose proof (skip_space_len s) as Hs. destruct (skip_space s) as [|c t]; [done|]. cbv zeta. simpl len in Hs.
    pose proof (skip_space_len t) as Ht. unfold mbind, option_bind.
    destruct (_ =? 34); [|destruct (_ =? 123); [|destruct (_ =? 91); [|destruct (_ =? 110); [|destruct (_ =? 116); [|destruct (_ =? 102)]]]]].
    + destruct (scan_string t) as [[[x y] z]|] eqn:H; [|done]. apply scan_string_len in H. intros [= _ <-]. lia.
    + destruct (max_depth <=? depth)%N; [done|]. destruct (strip "}" _) eqn:H.
      { apply strip_shorter in H; [|done]. intros [= _ <-]. lia. }
      destruct (parse_members _ _ _) as [[x y]|] eqn:Hm; [|done]. apply IHm in Hm. intros [= _ <-]. lia.
    + destruct (max_depth <=? depth)%N; [done|]. destruct (strip "]" _) eqn:H.
      { apply strip_shorter in H; [|done]. intros [= _ <-]. lia. }
      destruct (parse_elements _ _ _) as [[x y]|] eqn:Hm; [|done]. apply IHe in Hm. intros [= _ <-]. lia.
    + destruct (strip _ t) eqn:H; [|done]. apply strip_shorter in H; [|done]. intros [= _ <-]. lia.
    + destruct (strip _ t) eqn:H; [|done]. apply strip_shorter in H; [|done]. intros [= _ <-]. lia.
    + destruct (strip _ t) eqn:H; [|done]. apply strip_shorter in H; [|done]. intros [= _ <-]. lia.
    + destruct (scan_number _) as [[x y]|] eqn:H; [|done]. apply scan_number_len in H. simpl in H. intros [= _ <-]. lia.
  - rewrite parse_elements_S. unfold mbind, option_bind.
    destruct (parse_value fuel depth s) as [[v t]|] eqn:Hv; [|done]. apply IHv in Hv. cbv zeta. pose proof (skip_space_len t).
    destruct (strip "]" _) eqn:H1; [apply strip_shorter in H1; [|done]; intros [= _ <-]; lia|].
    destruct (strip "," _) eqn:H2; [|done]. apply strip_shorter in H2; [|done].
    destruct (parse_elements _ _ _) as [[x y]|] eqn:Hm; [|done]. apply IHe in Hm. intros [= _ <-]. lia.
  - rewrite parse_members_S. unfold mbind, option_bind. pose proof (skip_space_len s).
    destruct (strip dquote _) as [t1|] eqn:H1; [|done]. apply strip_shorter in H1; [|done].
    destruct (scan_string t1) as [[[x key] t2]|] eqn:H2; [|done]. apply scan_string_len in H2. pose proof (skip_space_len t2).
    destruct (strip ":" _) as [t3|] eqn:H3; [|done]. apply strip_shorter in H3; [|done].
    destruct (parse_value fuel depth t3) as [[v t4]|] eqn:Hv; [|done]. apply IHv in Hv. cbv zeta. pose proof (skip_space_len t4).
    destruct (strip "}" _) eqn:H5; [apply strip_shorter in H5; [|done]; intros [= _ <-]; lia|].
    destruct (strip "," _) as [t5|] eqn:H6; [|done]. apply strip_shorter in H6; [|done].
    destruct (parse_members _ _ _) as [[y z]|] eqn:Hm; [|done]. apply IHm in Hm. intros [= _ <-]. lia.
Qed.

(** Two amounts of fuel beyond the bound give the same result. *)
Lemma parse_fuel f1 : ∀ f2 depth s,
  (2 * len s < f1 → 2 * len s < f2 → parse_value f1 depth s = parse_value f2 depth s) ∧
  (2 * len s + 1 < f1 → 2 * len s + 1 < f2 → parse_elements f1 depth s = parse_elements f2 depth s) ∧
  (2 * len s < f1 → 2 * len s < f2 → parse_members f1 depth s = parse_members f2 depth s).
Proof.
  induction f1 as [|f1 IH]; intros f2 depth s; [split_and!; lia|].
  destruct f2 as [|f2]; [split_and!; lia|]. split_and!; intros H1 H2.
  - rewrite !parse_value_S. pose proof (skip_space_len s) as Hs. destruct (skip_space s) as [|c t]; [done|]. cbv zeta. simpl len in Hs.
    destruct (IH f2 (depth + 1)%N t) as (_ & IHe & IHm).
    destruct (_ =? 34); [done|destruct (_ =? 123); [|destruct (_ =? 91); [|done]]].
    + by rewrite IHm by lia.
    + by rewrite IHe by lia.
  - rewrite !parse_elements_S. destruct (IH f2 depth s) as (-> & _ & _); [|lia..].
    destruct (parse_value f2 depth s) as [[v t]|] eqn:Hv; [|done]. apply (parse_consumes f2) in Hv. pose proof (skip_space_len t).
    unfold mbind, option_bind. cbv zeta. destruct (strip "]" _); [done|].
    destruct (strip "," _) as [t1|] eqn:H3; [|done]. apply strip_shorter in H3; [|done].
    by destruct (IH f2 depth t1) as (_ & -> & _); [|lia..].
  - rewrite !parse_members_S. pose proof (skip_space_len s). unfold mbind, option_bind.
    destruct (strip dquote _) as [t1|] eqn:E1; [|done]. apply strip_shorter in E1; [|done].
    destruct (scan_string t1) as [[[x key] t2]|] eqn:E2; [|done]. apply scan_string_len in E2. pose proof (skip_space_len t2).
    destruct (strip ":" _) as [t3|] eqn:E3; [|done]. apply strip_shorter in E3; [|done].
    destruct (IH f2 depth t3) as (-> & _ & _); [|lia..].
    destruct (parse_value f2 depth t3) as [[v t4]|] eqn:Hv; [|done]. apply (parse_consumes f2) in Hv. cbv zeta. pose proof (skip_space_len t4).
    destruct (strip "}" _); [done|]. destruct (strip "," _) as [t5|] eqn:E6; [|done]. apply strip_shorter in E6; [|done].
    by destruct (IH f2 depth t5) as (_ & _ & ->); [|lia..].
Qed.

(** The decoder with any more fuel. *)
Lemma Decode_fuel fuel s : 2 * len s < fuel → parse_value fuel 0 s = Decode s.
Proof. intros Hf. unfold Decode. destruct (parse_fuel fuel (2 * len s + 2) 0%N s) as (-> & _); [done|done|lia]. Qed.

(** ** The round trip *)

(** Nested less deep than the decoder allows. *)
Definition shallow (v : json) : bool := (height v <=? max_depth)%N.

Lemma Decode_encode esc `{!ReadsBack esc} v r :
  utf8_json v = true → shallow v = true → number_ends r = true →
  Decode (encode_with esc v +:+ r) = Some (document_of esc v, r).
Proof.
  intros Hv Hs%N.leb_le Hr. unfold Decode. apply parse_encode; [done..| |lia].
  rewrite length_app_string. lia.
Qed.

Lemma Unmarshal_encode esc `{!ReadsBack esc} v :
  utf8_json v = true → shallow v = true → Unmarshal (encode_with esc v) = Some (document_of esc v).
Proof.
  intros Hv Hs. unfold Unmarshal. rewrite <-(app_empty_r (encode_with esc v)), Decode_encode by done. done.
Qed.

(** ** Decoding what was encoded *)

(** A decoder reads back what its encoder writes, over any old value. *)
Definition reads_as {A} (esc : nat → string) (to : A → json) (from : into A) (a : A) : Prop :=
  ∀ old, from (document_of esc (to a)) old = Some a.

Lemma string_reads esc s : reads_as esc JString into_string s.
Proof. done. Qed.

Lemma bool_reads esc b : reads_as esc JBool into_bool b.
Proof. done. Qed.

Lemma slice_reads {A} esc (to : A → json) (from : into A) zero l :
  Forall (reads_as esc to from) l → reads_as esc (slice_json to) (into_slice from zero) l.
Proof.
  intros Hl old.
  assert (Hmap : mapM (λ d, from d zero) (map (document_of esc) (to <$> l)) = Some l).
  { induction Hl as [|b l Hb _ IH]; [done|]. cbn. rewrite Hb. cbn. by rewrite IH. }
  by destruct l.
Qed.

(** Bytes of instants, which no escaping changes. *)
Definition timely (c : ascii) : bool := byte_in 45 58 c || byte_in 65 90 c.

Lemma escaped_timely esc s :
  (∀ n, 45 ≤ n ≤ 58 ∨ 65 ≤ n ≤ 90 → esc n = char n) → string_forall timely s = true → escaped esc s = s.
Proof.
  intros He. induction s as [|c s IH]; [done|]. intros [Hc Hs]%andb_true_iff.
  assert (Hn : 45 ≤ nat_of_ascii c ≤ 58 ∨ 65 ≤ nat_of_ascii c ≤ 90).
  { unfold timely, byte_in in Hc. apply orb_true_iff in Hc as [[??]%andb_true_iff|[??]%andb_true_iff];
      [left|right]; split; by apply Nat.leb_le. }
  rewrite escaped_byte by (apply Nat.ltb_lt; lia). rewrite He, IH by done. unfold char. by rewrite ascii_nat_embedding.
Qed.

Lemma string_forall_app p s t : string_forall p (s +:+ t) = string_forall p s && string_forall p t.
Proof. induction s as [|c s IH]; [done|]. rewrite app_cons. simpl. by rewrite IH, andb_assoc. Qed.

Lemma decimal_timely d : (0 ≤ d < 10)%Z → timely (decimal_char d) = true.
Proof.
  intros Hd. pose proof (is_digit_char d Hd) as Hc. unfold is_digit, byte_in in Hc. unfold timely, byte_in.
  apply andb_true_iff in Hc as [?%Nat.leb_le ?%Nat.leb_le]. apply orb_true_iff. left. apply andb_true_iff.
  split; apply Nat.leb_le; lia.
Qed.

Lemma digits_timely n z : (0 ≤ z < 10 ^ Z.of_nat n)%Z → string_forall timely (digits n z) = true.
Proof.
  revert z. induction n as [|n IH]; intros z Hz; [done|]. rewrite Nat2Z.inj_succ, Z.pow_succ_r in Hz by lia.
  pose proof (Z.mod_pos_bound z (10 ^ Z.of_nat n)). cbn [digits string_forall].
  rewrite decimal_timely, IH; [done|lia|]. split; [apply Z.div_pos|apply Z.div_lt_upper_bound]; lia.
Qed.

Lemma fraction_timely n z : (0 ≤ z < 10 ^ Z.of_nat n)%Z → string_forall timely (fraction_digits n z) = true.
Proof.
  revert z. induction n as [|n IH]; intros z Hz; [done|]. rewrite Nat2Z.inj_succ, Z.pow_succ_r in Hz by lia.
  pose proof (Z.mod_pos_bound z (10 ^ Z.of_nat n)). cbn [fraction_digits]. destruct (z =? 0)%Z; [done|]. cbn [string_forall].
  rewrite decimal_timely, IH; [done|lia|]. split; [apply Z.div_pos|apply Z.div_lt_upper_bound]; lia.
Qed.

Lemma Format_timely t : (0 ≤ Year t ≤ 9999)%Z → string_forall timely (Format t) = true.
Proof.
  intros Hy. unfold Format. destruct (instant_split t) as (_ & Hh & Hm & Hs & Hn).
  destruct (civil_of_days_spec (t / Day)%Z) as (_ & Hmonth & Hday). unfold Year in Hy.
  pose proof (days_in_month_le (c_year (civil_of_days (t / Day)%Z)) (c_month (civil_of_days (t / Day)%Z))).
  set (c := civil_of_days (t / Day)%Z) in *. clearbody c. unfold year_digits, fraction_text.
  rewrite (proj2 (Z.leb_le 0 _)), (proj2 (Z.leb_le _ 9999)) by lia. cbn [andb].
  rewrite !string_forall_app, !digits_timely by (change (10 ^ Z.of_nat 4)%Z with 10000%Z || change (10 ^ Z.of_nat 2)%Z with 100%Z; lia).
  destruct (_ =? 0)%Z; [done|]. rewrite string_forall_app, fraction_timely; [done|].
  change (10 ^ Z.of_nat 9)%Z with Second. lia.
Qed.

Lemma time_reads esc t :
  (∀ n, 45 ≤ n ≤ 58 ∨ 65 ≤ n ≤ 90 → esc n = char n) → (0 ≤ Year t ≤ 9999)%Z →
  reads_as esc (λ t, JString (Format t)) into_time t.
Proof.
  intros He Hy old. simpl. rewrite escaped_timely by (done || by apply Format_timely). by apply Parse_Format.
Qed.

(** Structs: field by field. *)
Definition document_members (esc : nat → string) (l : list (string * json)) : list (string * document) :=
  map (λ kv, (kv.1, document_of esc kv.2)) l.

Lemma read_field {R} esc strict (fields : fields_of R) k v l r f r' :
  find_member fields k = Some f → f (document_of esc v) r = Some r' →
  into_members strict fields (document_members esc (field k v ++ l)) r =
  into_members strict fields (document_members esc l) r'.
Proof. intros Hf Hr. unfold field. simpl. by rewrite Hf, Hr. Qed.

Lemma read_field_last {R} esc strict (fields : fields_of R) k v r f r' :
  find_member fields k = Some f → f (document_of esc v) r = Some r' →
  into_members strict fields (document_members esc (field k v)) r = Some r'.
Proof. intros Hf Hr. rewrite <-(app_nil_r (field k v)). by rewrite (read_field _ _ _ _ _ _ _ f r'). Qed.

(** ** Examples *)

(** JSON texts below are written with single quotes. *)
Fixpoint quoted (s : string) : string :=
  match s with
  | EmptyString => EmptyString
  | String c r => String (if nat_of_ascii c =? 39 then "034"%char else c) (quoted r)
  end.

Example Unmarshal_document :
  Unmarshal (quoted " { 'a' : [1, -2.5e+3, true, null], 'b\n': '\u0041\ud83d\ude00\ud83d!' } ") =
  Some (DObject [("a", DArray [DNumber "1"; DNumber "-2.5e+3"; DBool true; DNull]);
                 ("b" +:+ char 10, DString "\u0041\ud83d\ude00\ud83d!" ("A" +:+ utf8 128512 +:+ replacement +:+ "!"))]).
Proof. vm_compute. reflexivity. Qed.

(** Superfluous zeros, trailing commas, control characters, bare escapes and a second value. *)
Example Unmarshal_refuses :
  Unmarshal <$> (quoted <$> ["01"; "[1,]"; "{'a':1,}"; "'\x'"; "'\u12g4'"; "{'a' 1}"; "1."; "{} {}"; "tru"; ""]) =
  replicate 10 None.
Proof. vm_compute. reflexivity. Qed.

(** Keys match up to case; an exact match comes first. *)
Example find_member_folds :
  (λ key, match find_member [("task_kind", into_string)] key with Some _ => true | None => false end) <$>
  ["task_kind"; "TASK_Kind"; "ta" +:+ utf8 383 +:+ utf8 8490 +:+ "_kind"; "taskkind"] = [true; true; true; false].
Proof. vm_compute. reflexivity. Qed.
