(* ===== verification/JsonAny.v ===== *)
(** * Numbers and untyped values of JSON (Go's strconv and encoding/json)

    The decimal text of a number read as an int64, its range as a float64, and [map[string]any].
    The text of an integer reads back as that integer. *)
From S2P Require Import Prelude GoStd Json Rfc3339 JsonDecode.
From Stdlib Require Import Ascii.
Open Scope Z_scope.

(** ** Decimal text *)

Definition digit_step (acc : Z) (c : ascii) : Z := acc * 10 + (Z.of_nat (nat_of_ascii c) - 48).
Definition decimal_digits (s : string) : Z := foldl digit_step 0 (String.list_ascii_of_string s).

(** A minus sign in front. *)
Definition split_sign (text : string) : bool * string :=
  match strip "-" text with Some r => (true, r) | None => (false, text) end.

(** [int64] *)
Definition into_int64 : into Z := λ d old,
  match d with
  | DNumber text =>
      let '(negative, digits) := split_sign text in
      if string_forall is_digit digits then
        let n := decimal_digits digits in
        let n := if (negative : bool) then - n else n in
        if (- 2 ^ 63 <=? n) && (n <? 2 ^ 63) then Some n else None
      else None
  | DNull => Some old
  | _ => None
  end.

(** The sign, the digits and the decimal exponent of a number. *)
Definition decimal_parts (text : string) : bool * Z * Z :=
  let '(negative, text) := split_sign text in
  let '(whole, text) := span_digits text in
  let '(fraction, text) := match strip "." text with Some r => span_digits r | None => (EmptyString, text) end in
  let exponent := match text with
                  | String _ e => match strip "-" e with
                                  | Some e => - decimal_digits e
                                  | None => decimal_digits (default e (strip "+" e))
                                  end
                  | EmptyString => 0
                  end in
  (negative, decimal_digits (whole +:+ fraction), exponent - Z.of_nat (String.length fraction)).

(** [strconv.ParseFloat] finds the number in the range of a float64: below the midpoint between the largest
    one and 2^1024. *)
Definition float64_fits (text : string) : bool :=
  let limit := 2 ^ 1024 - 2 ^ 970 in
  let '(_, digits, exponent) := decimal_parts text in
  if 0 <=? exponent then digits * 10 ^ exponent <? limit else digits <? limit * 10 ^ (- exponent).

(** ** [any] *)

Fixpoint fits_any (d : document) : bool :=
  match d with
  | DNumber text => float64_fits text
  | DArray l => forallb fits_any l
  | DObject members => forallb (λ kv, fits_any kv.2) members
  | _ => true
  end.

(** [map[string]any] *)
Definition into_any_map : into (option (list (string * document))) := λ d old,
  match d with
  | DObject members => if fits_any d then Some (Some (default [] old ++ members)) else None
  | DNull => Some None
  | _ => None
  end.

(** ** The text of an integer *)

Lemma digit_step_char acc x : (x < 10)%N → digit_step acc (pretty_N_char x) = acc * 10 + Z.of_N x.
Proof.
  intros Hx. unfold digit_step. assert (Z.of_nat (nat_of_ascii (pretty_N_char x)) = 48 + Z.of_N x) as ->; [|lia].
  destruct x as [|p]; [reflexivity|]. do 4 (destruct p as [p|p|]; try reflexivity); lia.
Qed.

Lemma pretty_N_go_value x s : (0 < x)%N →
  foldl digit_step 0 (String.list_ascii_of_string (pretty_N_go x s)) = foldl digit_step (Z.of_N x) (String.list_ascii_of_string s).
Proof.
  revert s. induction (N.lt_wf_0 x) as [x _ IH]. intros s Hx. rewrite pretty_N_go_step by done.
  assert (Hstep : ∀ q, q = N.div x 10 → digit_step (Z.of_N q) (pretty_N_char (x `mod` 10)) = Z.of_N x).
  { intros q ->. rewrite digit_step_char by (apply N.mod_lt; done). pose proof (N.div_mod x 10). lia. }
  destruct (decide (0 < N.div x 10)%N) as [Hd|Hd].
  - rewrite IH; [|apply N.div_lt; lia|done]. simpl. by rewrite Hstep.
  - assert (N.div x 10 = 0%N) as Hz by (by apply N.le_0_r, N.nlt_ge). rewrite Hz, pretty_N_go_0. simpl.
    f_equal. rewrite <- (Hstep 0%N); [done|by rewrite Hz].
Qed.

Lemma pretty_pos p : decimal_digits (pretty (N.pos p)) = Z.pos p ∧ string_forall is_digit (pretty (N.pos p)) = true ∧
  strip "-" (pretty (N.pos p)) = None.
Proof.
  unfold pretty, pretty_N, decimal_digits. rewrite decide_False by done.
  rewrite pretty_N_go_value by done. split; [done|].
  destruct (pretty_N_go_digits (N.pos p) "") as (c & t & -> & Hc & Hd); [lia|done|]. split; [done|].
  cbn [string_forall] in Hd. apply andb_true_iff in Hd as [Hd _]. unfold strip. cbn [HasPrefix].
  destruct (Ascii.eqb_spec "-" c) as [<-|]; [discriminate Hd|done].
Qed.

(** The text of an integer, by its sign. *)
Lemma itoa_split z : ∃ digits, split_sign (itoa z) = (bool_decide (z < 0), digits) ∧ string_forall is_digit digits = true ∧
  decimal_digits digits = Z.abs z.
Proof.
  destruct z as [|p|p].
  - by exists "0".
  - destruct (pretty_pos p) as (Hv & Hd & Hs). exists (pretty (N.pos p)). unfold split_sign.
    change (itoa (Z.pos p)) with (pretty (N.pos p)). by rewrite Hs.
  - destruct (pretty_pos p) as (Hv & Hd & _). exists (pretty (N.pos p)). split; [|done].
    unfold split_sign. change (itoa (Z.neg p)) with ("-" +:+ pretty (N.pos p)). by rewrite strip_app.
Qed.

Lemma int64_reads esc z : - 2 ^ 63 ≤ z < 2 ^ 63 → reads_as esc JInt into_int64 z.
Proof.
  intros Hz old. simpl. destruct (itoa_split z) as (digits & -> & -> & ->).
  assert ((if bool_decide (z < 0) then - Z.abs z else Z.abs z) = z) as -> by (case_bool_decide; lia).
  rewrite (proj2 (Z.leb_le _ _)), (proj2 (Z.ltb_lt _ _)) by lia. done.
Qed.

Lemma itoa_fits z : - 2 ^ 63 ≤ z < 2 ^ 63 → float64_fits (itoa z) = true.
Proof.
  intros Hz. unfold float64_fits, decimal_parts. destruct (itoa_split z) as (digits & -> & Hd & Hv).
  rewrite <- (app_empty_r digits), span_digits_app by done. simpl. rewrite app_empty_r, Hv. apply Z.ltb_lt.
  assert (2 ^ 63 < 2 ^ 1024 - 2 ^ 970) by done. lia.
Qed.
