(* ===== verification/Http.v ===== *)
(** * Outgoing HTTP (what the adapters use of Go's net/http, net/url and encoding/json)

    An adapter sends requests through an [HTTPDoer] and reads its clock.  The network is a state
    of the model; the requests that were sent are recorded in the order they were sent.  A body
    is the bytes that arrive, and whether they break off before the end.  Here are also the
    escaping of URLs and the decoding of a value from the front of a body. *)
From S2P Require Import Prelude GoStd Sha256 Json Rfc3339 JsonDecode.
From Stdlib Require Import Ascii.
Open Scope Z_scope.

Record HTTPRequest := {
  hq_Method : string;
  hq_URL : string;
  hq_Header : list (string * string);
  hq_Body : string;
}.

Record HTTPBody := {
  hb_Data : string;
  hb_Broken : bool;
}.

Record HTTPResponse := {
  hp_StatusCode : Z;
  hp_Body : HTTPBody;
}.

(** The interface [HTTPDoer]. *)
Abbreviation HTTPDoer X := (HTTPRequest → X → X * result error HTTPResponse) (only parsing).

(** What an adapter acts on: the network, the readings of its clock, and the requests so far. *)
Record HTTPWorld (X : Type) := {
  hw_net : X;
  hw_ticks : nat;
  hw_sent : list HTTPRequest;
}.
#[global] Arguments Build_HTTPWorld {X}.
#[global] Arguments hw_net {X}.
#[global] Arguments hw_ticks {X}.
#[global] Arguments hw_sent {X}.

Section world.
Context {X : Type} (now_at : nat → time) (client : HTTPDoer X).

Definition http_now : ST (HTTPWorld X) time := λ w,
  ({| hw_net := hw_net w; hw_ticks := S (hw_ticks w); hw_sent := hw_sent w |}, now_at (hw_ticks w)).

(** [client.Do] *)
Definition http_Do (request : HTTPRequest) : ST (HTTPWorld X) (result error HTTPResponse) := λ w,
  let '(x, r) := client request (hw_net w) in
  ({| hw_net := x; hw_ticks := hw_ticks w; hw_sent := hw_sent w ++ [request] |}, r).
End world.

(** ** URLs *)

Definition percent (c : ascii) : string :=
  let n := nat_of_ascii c in
  let digit d := if (d <? 10)%nat then ascii_of_nat (48 + d) else ascii_of_nat (55 + d) in
  String "%" (String (digit (n / 16)%nat) (String (digit (n mod 16)%nat) EmptyString)).

Definition unreserved (c : ascii) : bool :=
  is_digit c || byte_in 65 90 c || byte_in 97 122 c || bool_decide (c ∈ ["-"; "_"; "."; "~"]%char).

Fixpoint escape_url (keep : ascii → bool) (space : string) (s : string) : string :=
  match s with
  | EmptyString => EmptyString
  | String c r =>
      (if keep c then String c EmptyString else if Ascii.eqb c " " then space else percent c) +:+ escape_url keep space r
  end.

(** [url.PathEscape] *)
Definition PathEscape (s : string) : string :=
  escape_url (λ c, unreserved c || bool_decide (c ∈ ["$"; "&"; "+"; "="; ":"; "@"]%char)) "%20" s.

(** [url.QueryEscape] *)
Definition QueryEscape (s : string) : string := escape_url unreserved "+" s.

(** [url.Values.Encode] of pairs that are sorted by their keys. *)
Definition encode_query (l : list (string * string)) : string :=
  Join ((λ kv, QueryEscape kv.1 +:+ "=" +:+ QueryEscape kv.2) <$> l) "&".

Lemma string_forall_impl (p q : ascii → bool) s : (∀ c, p c = true → q c = true) → string_forall p s = true → string_forall q s = true.
Proof. intros Hpq. induction s as [|c s IH]; [done|]. simpl. intros [Hc Hs]%andb_prop. by rewrite (Hpq _ Hc), IH. Qed.

Lemma PathEscape_id s : string_forall unreserved s = true → PathEscape s = s.
Proof.
  unfold PathEscape. induction s as [|c s IH]; [done|]. simpl. intros [Hc Hs]%andb_prop. rewrite Hc. simpl.
  rewrite IH by done. done.
Qed.

(** ** Responses *)

(** The bytes that an [io.LimitReader] lets through. *)
Definition limited (limit : N) (body : HTTPBody) : HTTPBody :=
  if (limit <=? N.of_nat (String.length (hb_Data body)))%N
  then {| hb_Data := take_bytes (N.to_nat limit) (hb_Data body); hb_Broken := false |}
  else body.

(** A value that only the end of the body closes. *)
Definition open_ended (d : document) : bool :=
  match d with DNull | DBool _ | DNumber _ => true | _ => false end.

(** [json.NewDecoder(io.LimitReader(body, limit)).Decode]: the value at the front; what follows is not read. *)
Definition decode_front {A} (from : into A) (zero : A) (limit : N) (body : HTTPBody) : option A :=
  let body := limited limit body in
  '(d, rest) ← Decode (hb_Data body);
  if open_ended d && bool_decide (rest = "") && hb_Broken body then None else from d zero.

(** 429 and server errors. *)
Definition unavailable (status : Z) : bool := (status =? 429) || (500 <=? status).

(** [t.Format(time.RFC3339)]: without fractions of a second. *)
Definition Format_seconds (t : time) : string := Format (t - t `mod` Second).
