(* ===== verification/Domain.v ===== *)
(** * Domain types (src/internal/domain)

    The structs of [types.go] and [intent.go] as records, their string-valued
    enumerations, and the reason codes and dependency semantics of [reason.go]
    and [dependency.go].  A Go string type whose values the code only takes from
    its constants is an inductive type with [_string] giving the wire value; one
    that is validated at run time ([Environment], [DependencyType], [Capability],
    [VerificationStatus], [RollbackMode]) stays a string.  Slices are lists (a
    nil slice and an empty one are identified), a nil-able pointer is an option,
    an [int64] or [int] is a [Z]. *)
From S2P Require Import Prelude GoStd.
From Stdlib Require Import SpecFloat.

(** IEEE 754 binary64 values, by their specification in the standard library. *)
Abbreviation float64 := spec_float (only parsing).

(** ** Enumerations *)

Abbreviation Environment := string (only parsing).
Definition EnvironmentStaging : Environment := "staging".
Definition EnvironmentProduction : Environment := "production".

(** [RunStatus]; [RunStatusNone] is the zero value of [PausedFrom]. *)
Inductive RunStatus :=
| RunStatusNone
| RunPending
| RunRunning
| RunPaused
| RunWaitingApproval
| RunSucceeded
| RunBlocked
| RunFailed
| RunEscalated
| RunCancelled.

#[export] Instance RunStatus_eq_dec : EqDecision RunStatus.
Proof. solve_decision. Defined.

Definition RunStatus_string (s : RunStatus) : string :=
  match s with
  | RunStatusNone => ""
  | RunPending => "PENDING"
  | RunRunning => "RUNNING"
  | RunPaused => "PAUSED"
  | RunWaitingApproval => "WAITING_APPROVAL"
  | RunSucceeded => "SUCCEEDED"
  | RunBlocked => "BLOCKED"
  | RunFailed => "FAILED"
  | RunEscalated => "ESCALATED"
  | RunCancelled => "CANCELLED"
  end.

(** [StepStatus] *)
Inductive StepStatus :=
| StepPending
| StepWaitingApproval
| StepExecuting
| StepVerifying
| StepSucceeded
| StepBlocked
| StepRollingBack
| StepRolledBack
| StepEscalated
| StepUnknown
| StepCancelled.

#[export] Instance StepStatus_eq_dec : EqDecision StepStatus.
Proof. solve_decision. Defined.

Definition StepStatus_string (s : StepStatus) : string :=
  match s with
  | StepPending => "PENDING"
  | StepWaitingApproval => "WAITING_APPROVAL"
  | StepExecuting => "EXECUTING"
  | StepVerifying => "VERIFYING"
  | StepSucceeded => "SUCCEEDED"
  | StepBlocked => "BLOCKED"
  | StepRollingBack => "ROLLING_BACK"
  | StepRolledBack => "ROLLED_BACK"
  | StepEscalated => "ESCALATED"
  | StepUnknown => "UNKNOWN"
  | StepCancelled => "CANCELLED"
  end.

(** [Decision]; an [Evaluator] is an interface and may return another string. *)
Inductive Decision :=
| DecisionAllow
| DecisionDeny
| DecisionRequireApproval
| DecisionOther (s : string).

#[export] Instance Decision_eq_dec : EqDecision Decision.
Proof. solve_decision. Defined.

Definition Decision_string (s : Decision) : string :=
  match s with
  | DecisionAllow => "ALLOW"
  | DecisionDeny => "DENY"
  | DecisionRequireApproval => "REQUIRE_APPROVAL"
  | DecisionOther s => s
  end.

(** [ApprovalStatus] *)
Inductive ApprovalStatus :=
| ApprovalPending
| ApprovalApproved
| ApprovalDenied
| ApprovalExpired
| ApprovalRevoked.

#[export] Instance ApprovalStatus_eq_dec : EqDecision ApprovalStatus.
Proof. solve_decision. Defined.

Definition ApprovalStatus_string (s : ApprovalStatus) : string :=
  match s with
  | ApprovalPending => "PENDING"
  | ApprovalApproved => "APPROVED"
  | ApprovalDenied => "DENIED"
  | ApprovalExpired => "EXPIRED"
  | ApprovalRevoked => "REVOKED"
  end.

(** [RunnerStatus] *)
Inductive RunnerStatus :=
| RunnerUnknown
| RunnerReady
| RunnerFrozen.

#[export] Instance RunnerStatus_eq_dec : EqDecision RunnerStatus.
Proof. solve_decision. Defined.

Definition RunnerStatus_string (s : RunnerStatus) : string :=
  match s with
  | RunnerUnknown => "UNKNOWN"
  | RunnerReady => "READY"
  | RunnerFrozen => "FROZEN"
  end.

Abbreviation VerificationStatus := string (only parsing).
Definition VerificationPass : VerificationStatus := "PASS".
Definition VerificationFail : VerificationStatus := "FAIL".
Definition VerificationInconclusive : VerificationStatus := "INCONCLUSIVE".
Definition VerificationMissing : VerificationStatus := "MISSING".

Abbreviation RollbackMode := string (only parsing).
Definition RollbackAutomatic : RollbackMode := "automatic".
Definition RollbackApprovalRequired : RollbackMode := "approval-required".
Definition RollbackManualOnly : RollbackMode := "manual-only".
Definition RollbackUnsupported : RollbackMode := "unsupported".

(** ** Dependencies and capabilities (dependency.go) *)

Abbreviation DependencyType := string (only parsing).
Definition DependencyRolloutOrder : DependencyType := "rollout-order".
Definition DependencySchemaCompatibility : DependencyType := "schema-compatibility".
Definition DependencyRuntime : DependencyType := "runtime".
Definition DependencySharedFailureDomain : DependencyType := "shared-failure-domain".
Definition DependencyDataMigration : DependencyType := "data-migration".
Definition DependencyTraffic : DependencyType := "traffic".

Definition DependencyType_Valid (t : DependencyType) : bool :=
  bool_decide (t ∈ [DependencyRolloutOrder; DependencySchemaCompatibility; DependencyRuntime;
                    DependencySharedFailureDomain; DependencyDataMigration; DependencyTraffic]).

Definition EnforcesRolloutOrder (t : DependencyType) : bool :=
  bool_decide (t ∈ [DependencyRolloutOrder; DependencyDataMigration; DependencyTraffic]).

(** [Dependency] *)
Record Dependency := {
  dep_Service : string;
  dep_Resource : string;
  dep_Type : DependencyType;
  dep_Condition : string;
  dep_Constraint : string;
}.

#[export] Instance eta_Dependency : Eta Dependency := λ r,
  {| dep_Service := dep_Service r; dep_Resource := dep_Resource r; dep_Type := dep_Type r;
     dep_Condition := dep_Condition r; dep_Constraint := dep_Constraint r |}.

#[export] Instance Dependency_eq_dec : EqDecision Dependency.
Proof. solve_decision. Defined.

Abbreviation Capability := string (only parsing).
Definition CapabilityDeploy : Capability := "deploy".
Definition CapabilityGetStatus : Capability := "get_status".
Definition CapabilityCancel : Capability := "cancel".
Definition CapabilityRollback : Capability := "rollback".
Definition CapabilityVerifyRuntime : Capability := "verify_runtime".
Definition CapabilityVerifyMetric : Capability := "verify_metric".
Definition CapabilityDrain : Capability := "drain".
Definition CapabilityShiftTraffic : Capability := "shift_traffic".

Definition Capability_Valid (c : Capability) : bool :=
  bool_decide (c ∈ [CapabilityDeploy; CapabilityGetStatus; CapabilityCancel; CapabilityRollback;
                    CapabilityVerifyRuntime; CapabilityVerifyMetric; CapabilityDrain;
                    CapabilityShiftTraffic]).

(** ** Structs (types.go) *)

(** [Service] *)
Record Service := {
  svc_ID : string;
  svc_Name : string;
  svc_OwnerTeam : string;
  svc_RiskTier : string;
  svc_Repository : string;
  svc_ReleasePhase : Z;
  svc_Dependencies : list string;
  svc_RunnerGroups : gmap string string;
  svc_FailureDomains : list string;
  svc_MetadataVersion : string;
  svc_UpdatedAt : time;
}.

#[export] Instance eta_Service : Eta Service := λ r,
  {| svc_ID := svc_ID r; svc_Name := svc_Name r; svc_OwnerTeam := svc_OwnerTeam r;
     svc_RiskTier := svc_RiskTier r; svc_Repository := svc_Repository r; svc_ReleasePhase :=
     svc_ReleasePhase r; svc_Dependencies := svc_Dependencies r; svc_RunnerGroups :=
     svc_RunnerGroups r; svc_FailureDomains := svc_FailureDomains r; svc_MetadataVersion :=
     svc_MetadataVersion r; svc_UpdatedAt := svc_UpdatedAt r |}.

#[export] Instance Service_eq_dec : EqDecision Service.
Proof. solve_decision. Defined.

(** [AgentIdentity] *)
Record AgentIdentity := {
  agent_ID : string;
  agent_Scopes : list string;
}.

#[export] Instance eta_AgentIdentity : Eta AgentIdentity := λ r,
  {| agent_ID := agent_ID r; agent_Scopes := agent_Scopes r |}.

#[export] Instance AgentIdentity_eq_dec : EqDecision AgentIdentity.
Proof. solve_decision. Defined.

(** [Change] *)
Record Change := {
  ch_Service : string;
  ch_DesiredVersion : string;
  ch_CISuccess : bool;
  ch_DependenciesHealthy : bool;
  ch_DestructiveMigration : bool;
  ch_Risk : string;
}.

#[export] Instance eta_Change : Eta Change := λ r,
  {| ch_Service := ch_Service r; ch_DesiredVersion := ch_DesiredVersion r; ch_CISuccess :=
     ch_CISuccess r; ch_DependenciesHealthy := ch_DependenciesHealthy r;
     ch_DestructiveMigration := ch_DestructiveMigration r; ch_Risk := ch_Risk r |}.

#[export] Instance Change_eq_dec : EqDecision Change.
Proof. solve_decision. Defined.

(** The zero [Change], read from a map that lacks the key. *)
Definition zero_Change : Change :=
  {| ch_Service := ""; ch_DesiredVersion := ""; ch_CISuccess := false;
     ch_DependenciesHealthy := false; ch_DestructiveMigration := false; ch_Risk := "" |}.

(** [ReleaseRequest] *)
Record ReleaseRequest := {
  req_RequestID : string;
  req_ReleaseVersion : string;
  req_TenantID : string;
  req_Environment : Environment;
  req_Region : string;
  req_Cluster : string;
  req_RequestedBy : string;
  req_Agent : AgentIdentity;
  req_Changes : list Change;
}.

#[export] Instance eta_ReleaseRequest : Eta ReleaseRequest := λ r,
  {| req_RequestID := req_RequestID r; req_ReleaseVersion := req_ReleaseVersion r;
     req_TenantID := req_TenantID r; req_Environment := req_Environment r; req_Region :=
     req_Region r; req_Cluster := req_Cluster r; req_RequestedBy := req_RequestedBy r;
     req_Agent := req_Agent r; req_Changes := req_Changes r |}.

#[export] Instance ReleaseRequest_eq_dec : EqDecision ReleaseRequest.
Proof. solve_decision. Defined.

(** [SchedulingContext] *)
Record SchedulingContext := {
  sc_TenantID : string;
  sc_Environment : Environment;
  sc_Region : string;
  sc_Cluster : string;
  sc_Team : string;
  sc_RiskTier : string;
  sc_RunnerGroup : string;
  sc_FailureDomains : list string;
}.

#[export] Instance eta_SchedulingContext : Eta SchedulingContext := λ r,
  {| sc_TenantID := sc_TenantID r; sc_Environment := sc_Environment r; sc_Region :=
     sc_Region r; sc_Cluster := sc_Cluster r; sc_Team := sc_Team r; sc_RiskTier :=
     sc_RiskTier r; sc_RunnerGroup := sc_RunnerGroup r; sc_FailureDomains :=
     sc_FailureDomains r |}.

#[export] Instance SchedulingContext_eq_dec : EqDecision SchedulingContext.
Proof. solve_decision. Defined.

(** [PlanStep] *)
Record PlanStep := {
  ps_Service : string;
  ps_DesiredVersion : string;
  ps_Phase : Z;
  ps_Profile : string;
  ps_Dependencies : list Dependency;
  ps_RequiredCapabilities : list Capability;
  ps_ContractHash : string;
  ps_ProfileHash : string;
  ps_ChangeHash : string;
  ps_VerificationRequired : bool;
  ps_ObservationWindow : string;
  ps_RollbackMode : RollbackMode;
  ps_Scheduling : SchedulingContext;
}.

#[export] Instance eta_PlanStep : Eta PlanStep := λ r,
  {| ps_Service := ps_Service r; ps_DesiredVersion := ps_DesiredVersion r; ps_Phase :=
     ps_Phase r; ps_Profile := ps_Profile r; ps_Dependencies := ps_Dependencies r;
     ps_RequiredCapabilities := ps_RequiredCapabilities r; ps_ContractHash :=
     ps_ContractHash r; ps_ProfileHash := ps_ProfileHash r; ps_ChangeHash := ps_ChangeHash
     r; ps_VerificationRequired := ps_VerificationRequired r; ps_ObservationWindow :=
     ps_ObservationWindow r; ps_RollbackMode := ps_RollbackMode r; ps_Scheduling :=
     ps_Scheduling r |}.

#[export] Instance PlanStep_eq_dec : EqDecision PlanStep.
Proof. solve_decision. Defined.

(** [PlanPhase] *)
Record PlanPhase := {
  ph_Number : Z;
  ph_Steps : list PlanStep;
}.

#[export] Instance eta_PlanPhase : Eta PlanPhase := λ r,
  {| ph_Number := ph_Number r; ph_Steps := ph_Steps r |}.

#[export] Instance PlanPhase_eq_dec : EqDecision PlanPhase.
Proof. solve_decision. Defined.

(** [ReleasePlan] *)
Record ReleasePlan := {
  plan_APIVersion : string;
  plan_ID : string;
  plan_ReleaseVersion : string;
  plan_Environment : Environment;
  plan_Phases : list PlanPhase;
  plan_Hash : string;
  plan_PlanHash : string;
  plan_ContractHashes : gmap string string;
  plan_ProfileHashes : gmap string string;
  plan_ContextSnapshotRef : string;
  plan_PolicyHash : string;
  plan_EvidenceHash : string;
  plan_CreatedAt : time;
  plan_ExpiresAt : time;
}.

#[export] Instance eta_ReleasePlan : Eta ReleasePlan := λ r,
  {| plan_APIVersion := plan_APIVersion r; plan_ID := plan_ID r; plan_ReleaseVersion :=
     plan_ReleaseVersion r; plan_Environment := plan_Environment r; plan_Phases :=
     plan_Phases r; plan_Hash := plan_Hash r; plan_PlanHash := plan_PlanHash r;
     plan_ContractHashes := plan_ContractHashes r; plan_ProfileHashes := plan_ProfileHashes
     r; plan_ContextSnapshotRef := plan_ContextSnapshotRef r; plan_PolicyHash :=
     plan_PolicyHash r; plan_EvidenceHash := plan_EvidenceHash r; plan_CreatedAt :=
     plan_CreatedAt r; plan_ExpiresAt := plan_ExpiresAt r |}.

#[export] Instance ReleasePlan_eq_dec : EqDecision ReleasePlan.
Proof. solve_decision. Defined.

(** [PolicyDecision] *)
Record PolicyDecision := {
  pd_Decision : Decision;
  pd_PolicyVersion : string;
  pd_ReasonCode : string;
  pd_ReasonDetail : string;
  pd_RequiredRoles : list string;
  pd_InputHash : string;
  pd_CreatedAt : time;
}.

#[export] Instance eta_PolicyDecision : Eta PolicyDecision := λ r,
  {| pd_Decision := pd_Decision r; pd_PolicyVersion := pd_PolicyVersion r; pd_ReasonCode :=
     pd_ReasonCode r; pd_ReasonDetail := pd_ReasonDetail r; pd_RequiredRoles :=
     pd_RequiredRoles r; pd_InputHash := pd_InputHash r; pd_CreatedAt := pd_CreatedAt r |}.

#[export] Instance PolicyDecision_eq_dec : EqDecision PolicyDecision.
Proof. solve_decision. Defined.

(** [Approval] *)
Record Approval := {
  ap_ID : string;
  ap_RequiredRoles : list string;
  ap_Status : ApprovalStatus;
  ap_PlanHash : string;
  ap_RequestedAt : time;
  ap_ExpiresAt : time;
  ap_DecidedBy : string;
  ap_DecidedAt : option time;
}.

#[export] Instance eta_Approval : Eta Approval := λ r,
  {| ap_ID := ap_ID r; ap_RequiredRoles := ap_RequiredRoles r; ap_Status := ap_Status r;
     ap_PlanHash := ap_PlanHash r; ap_RequestedAt := ap_RequestedAt r; ap_ExpiresAt :=
     ap_ExpiresAt r; ap_DecidedBy := ap_DecidedBy r; ap_DecidedAt := ap_DecidedAt r |}.

#[export] Instance Approval_eq_dec : EqDecision Approval.
Proof. solve_decision. Defined.

(** [ApprovalSummary] *)
Record ApprovalSummary := {
  as_Approval : Approval;
  as_RunID : string;
  as_Service : string;
  as_TenantID : string;
}.

#[export] Instance eta_ApprovalSummary : Eta ApprovalSummary := λ r,
  {| as_Approval := as_Approval r; as_RunID := as_RunID r; as_Service := as_Service r;
     as_TenantID := as_TenantID r |}.

#[export] Instance ApprovalSummary_eq_dec : EqDecision ApprovalSummary.
Proof. solve_decision. Defined.

(** [RunnerInfo] *)
Record RunnerInfo := {
  ri_ID : string;
  ri_TenantID : string;
  ri_Group : string;
  ri_Status : RunnerStatus;
  ri_Capacity : Z;
  ri_LastSeen : time;
  ri_FrozenBy : string;
  ri_FrozenAt : option time;
}.

#[export] Instance eta_RunnerInfo : Eta RunnerInfo := λ r,
  {| ri_ID := ri_ID r; ri_TenantID := ri_TenantID r; ri_Group := ri_Group r; ri_Status :=
     ri_Status r; ri_Capacity := ri_Capacity r; ri_LastSeen := ri_LastSeen r; ri_FrozenBy :=
     ri_FrozenBy r; ri_FrozenAt := ri_FrozenAt r |}.

#[export] Instance RunnerInfo_eq_dec : EqDecision RunnerInfo.
Proof. solve_decision. Defined.

(** [Execution] *)
Record Execution := {
  ex_ID : string;
  ex_Adapter : string;
  ex_IdempotencyKey : string;
  ex_Status : string;
  ex_ExternalExecutionID : string;
  ex_StartedAt : time;
  ex_FinishedAt : time;
}.

#[export] Instance eta_Execution : Eta Execution := λ r,
  {| ex_ID := ex_ID r; ex_Adapter := ex_Adapter r; ex_IdempotencyKey := ex_IdempotencyKey r;
     ex_Status := ex_Status r; ex_ExternalExecutionID := ex_ExternalExecutionID r;
     ex_StartedAt := ex_StartedAt r; ex_FinishedAt := ex_FinishedAt r |}.

#[export] Instance Execution_eq_dec : EqDecision Execution.
Proof. solve_decision. Defined.

(** [Evidence] *)
Record Evidence := {
  ev_Source : string;
  ev_QueryHash : string;
  ev_WindowFrom : time;
  ev_WindowTo : time;
  ev_ObservedAt : time;
  ev_ObservedValue : float64;
  ev_Threshold : float64;
  ev_AdapterVersion : string;
  ev_EvidenceHash : string;
}.

#[export] Instance eta_Evidence : Eta Evidence := λ r,
  {| ev_Source := ev_Source r; ev_QueryHash := ev_QueryHash r; ev_WindowFrom :=
     ev_WindowFrom r; ev_WindowTo := ev_WindowTo r; ev_ObservedAt := ev_ObservedAt r;
     ev_ObservedValue := ev_ObservedValue r; ev_Threshold := ev_Threshold r;
     ev_AdapterVersion := ev_AdapterVersion r; ev_EvidenceHash := ev_EvidenceHash r |}.

#[export] Instance Evidence_eq_dec : EqDecision Evidence.
Proof. solve_decision. Defined.

(** [Verification] *)
Record Verification := {
  ver_Status : VerificationStatus;
  ver_Healthy : bool;
  ver_Reason : string;
  ver_ObservedValue : float64;
  ver_Threshold : float64;
  ver_CheckedAt : time;
  ver_Evidence : Evidence;
}.

#[export] Instance eta_Verification : Eta Verification := λ r,
  {| ver_Status := ver_Status r; ver_Healthy := ver_Healthy r; ver_Reason := ver_Reason r;
     ver_ObservedValue := ver_ObservedValue r; ver_Threshold := ver_Threshold r;
     ver_CheckedAt := ver_CheckedAt r; ver_Evidence := ver_Evidence r |}.

#[export] Instance Verification_eq_dec : EqDecision Verification.
Proof. solve_decision. Defined.

(** [ReleaseStep] *)
Record ReleaseStep := {
  st_Service : string;
  st_Phase : Z;
  st_Wave : Z;
  st_Status : StepStatus;
  st_Change : Change;
  st_Policy : option PolicyDecision;
  st_Approval : option Approval;
  st_Execution : option Execution;
  st_Verification : option Verification;
  st_VerificationRequired : bool;
  st_ObservationWindow : string;
  st_RollbackMode : RollbackMode;
  st_RollbackExecution : option Execution;
  st_RollbackVerification : option Verification;
  st_Failure : string;
}.

#[export] Instance eta_ReleaseStep : Eta ReleaseStep := λ r,
  {| st_Service := st_Service r; st_Phase := st_Phase r; st_Wave := st_Wave r; st_Status :=
     st_Status r; st_Change := st_Change r; st_Policy := st_Policy r; st_Approval :=
     st_Approval r; st_Execution := st_Execution r; st_Verification := st_Verification r;
     st_VerificationRequired := st_VerificationRequired r; st_ObservationWindow :=
     st_ObservationWindow r; st_RollbackMode := st_RollbackMode r; st_RollbackExecution :=
     st_RollbackExecution r; st_RollbackVerification := st_RollbackVerification r;
     st_Failure := st_Failure r |}.

#[export] Instance ReleaseStep_eq_dec : EqDecision ReleaseStep.
Proof. solve_decision. Defined.

(** [ReleaseRun] *)
Record ReleaseRun := {
  run_ID : string;
  run_RequestID : string;
  run_ReleaseVersion : string;
  run_Environment : Environment;
  run_RequestedBy : string;
  run_SubjectType : string;
  run_SubjectIssuer : string;
  run_UserIdentityProof : string;
  run_TenantID : string;
  run_Region : string;
  run_Cluster : string;
  run_RunnerGroup : string;
  run_DelegationRef : string;
  run_Agent : AgentIdentity;
  run_Plan : ReleasePlan;
  run_Status : RunStatus;
  run_PausedFrom : RunStatus;
  run_Steps : list ReleaseStep;
  run_StateVersion : Z;
  run_WorkflowID : string;
  run_TemporalRunID : string;
  run_CreatedAt : time;
  run_UpdatedAt : time;
}.

#[export] Instance eta_ReleaseRun : Eta ReleaseRun := λ r,
  {| run_ID := run_ID r; run_RequestID := run_RequestID r; run_ReleaseVersion :=
     run_ReleaseVersion r; run_Environment := run_Environment r; run_RequestedBy :=
     run_RequestedBy r; run_SubjectType := run_SubjectType r; run_SubjectIssuer :=
     run_SubjectIssuer r; run_UserIdentityProof := run_UserIdentityProof r; run_TenantID :=
     run_TenantID r; run_Region := run_Region r; run_Cluster := run_Cluster r;
     run_RunnerGroup := run_RunnerGroup r; run_DelegationRef := run_DelegationRef r;
     run_Agent := run_Agent r; run_Plan := run_Plan r; run_Status := run_Status r;
     run_PausedFrom := run_PausedFrom r; run_Steps := run_Steps r; run_StateVersion :=
     run_StateVersion r; run_WorkflowID := run_WorkflowID r; run_TemporalRunID :=
     run_TemporalRunID r; run_CreatedAt := run_CreatedAt r; run_UpdatedAt := run_UpdatedAt r
     |}.

#[export] Instance ReleaseRun_eq_dec : EqDecision ReleaseRun.
Proof. solve_decision. Defined.

(** [OutboxEvent]; [ob_PayloadRun] is the serialized run a projection event carries
    under the payload key [run]. *)
Record OutboxEvent := {
  ob_ID : string;
  ob_AggregateType : string;
  ob_AggregateID : string;
  ob_EventType : string;
  ob_Payload : details;
  ob_PayloadRun : option ReleaseRun;
  ob_CreatedAt : time;
  ob_AvailableAt : time;
  ob_PublishedAt : option time;
  ob_Attempts : Z;
}.

#[export] Instance eta_OutboxEvent : Eta OutboxEvent := λ r,
  {| ob_ID := ob_ID r; ob_AggregateType := ob_AggregateType r; ob_AggregateID :=
     ob_AggregateID r; ob_EventType := ob_EventType r; ob_Payload := ob_Payload r;
     ob_PayloadRun := ob_PayloadRun r; ob_CreatedAt := ob_CreatedAt r; ob_AvailableAt :=
     ob_AvailableAt r; ob_PublishedAt := ob_PublishedAt r; ob_Attempts := ob_Attempts r |}.

#[export] Instance OutboxEvent_eq_dec : EqDecision OutboxEvent.
Proof. solve_decision. Defined.

(** [AuditEvent] *)
Record AuditEvent := {
  ae_ID : string;
  ae_CorrelationID : string;
  ae_ActorType : string;
  ae_ActorID : string;
  ae_DelegatedBy : string;
  ae_Action : string;
  ae_ResourceType : string;
  ae_ResourceID : string;
  ae_Result : string;
  ae_Details : details;
  ae_Timestamp : time;
}.

#[export] Instance eta_AuditEvent : Eta AuditEvent := λ r,
  {| ae_ID := ae_ID r; ae_CorrelationID := ae_CorrelationID r; ae_ActorType := ae_ActorType
     r; ae_ActorID := ae_ActorID r; ae_DelegatedBy := ae_DelegatedBy r; ae_Action :=
     ae_Action r; ae_ResourceType := ae_ResourceType r; ae_ResourceID := ae_ResourceID r;
     ae_Result := ae_Result r; ae_Details := ae_Details r; ae_Timestamp := ae_Timestamp r
     |}.

#[export] Instance AuditEvent_eq_dec : EqDecision AuditEvent.
Proof. solve_decision. Defined.

(** ** Release intents (intent.go) *)

Definition ReleaseIntentAPIVersion : string := "execution.themisy.io/v1alpha1".
Definition ReleaseIntentKind : string := "ReleaseIntent".

(** [ReleaseIntent] *)
Record ReleaseIntent := {
  in_APIVersion : string;
  in_Kind : string;
  in_RequestID : string;
  in_ReleaseVersion : string;
  in_TenantID : string;
  in_Environment : Environment;
  in_Region : string;
  in_Cluster : string;
  in_RequestedBy : string;
  in_Agent : AgentIdentity;
  in_Changes : list Change;
}.

#[export] Instance eta_ReleaseIntent : Eta ReleaseIntent := λ r,
  {| in_APIVersion := in_APIVersion r; in_Kind := in_Kind r; in_RequestID := in_RequestID r;
     in_ReleaseVersion := in_ReleaseVersion r; in_TenantID := in_TenantID r; in_Environment
     := in_Environment r; in_Region := in_Region r; in_Cluster := in_Cluster r;
     in_RequestedBy := in_RequestedBy r; in_Agent := in_Agent r; in_Changes := in_Changes r
     |}.

#[export] Instance ReleaseIntent_eq_dec : EqDecision ReleaseIntent.
Proof. solve_decision. Defined.

(** ** Reason codes (reason.go) *)

Definition ReasonUnsupportedSchemaVersion : string := "UNSUPPORTED_SCHEMA_VERSION".
Definition ReasonInvalidContract : string := "INVALID_CONTRACT".
Definition ReasonInvalidProfile : string := "INVALID_PROFILE".
Definition ReasonMissingOwner : string := "MISSING_OWNER".
Definition ReasonUnknownProfile : string := "UNKNOWN_PROFILE".
Definition ReasonMissingCapability : string := "MISSING_CAPABILITY".
Definition ReasonUnknownDependency : string := "UNKNOWN_DEPENDENCY".
Definition ReasonDependencyCycle : string := "DEPENDENCY_CYCLE".
Definition ReasonPlanExpired : string := "PLAN_EXPIRED".
Definition ReasonPlanHashMismatch : string := "PLAN_HASH_MISMATCH".
Definition ReasonContractChanged : string := "CONTRACT_CHANGED".
Definition ReasonProfileChanged : string := "PROFILE_CHANGED".
Definition ReasonContextChanged : string := "CONTEXT_CHANGED".
Definition ReasonPolicyChanged : string := "POLICY_CHANGED".
Definition ReasonEvidenceChanged : string := "EVIDENCE_CHANGED".
Definition ReasonTenantBoundary : string := "TENANT_BOUNDARY".
Definition ReasonRunnerFrozen : string := "RUNNER_FROZEN".
Definition ReasonCircuitOpen : string := "CIRCUIT_OPEN".
Definition ReasonBackpressure : string := "BACKPRESSURE".

Definition NewReasonError (code field detail : string) (err : option error) : error :=
  ReasonError code field detail err.

(** [ReasonOf]: the code of the first [ReasonError] of the chain ([errors.As]). *)
Fixpoint ReasonOf (e : error) : option string :=
  match e with
  | ReasonError code _ _ _ => Some code
  | Errorf _ (Some w) | Rejection _ (Some w) => ReasonOf w
  | ClassifiedError _ _ w | AdapterError _ _ _ w => ReasonOf w
  | _ => None
  end.

(** ** Facts *)

Lemma ReasonOf_NewReasonError code field detail err :
  ReasonOf (NewReasonError code field detail err) = Some code.
Proof. done. Qed.

Lemma EnforcesRolloutOrder_Valid t :
  EnforcesRolloutOrder t = true → DependencyType_Valid t = true.
Proof.
  unfold EnforcesRolloutOrder, DependencyType_Valid.
  rewrite !bool_decide_eq_true. set_solver.
Qed.
