(* ===== verification/Contract.v ===== *)
(** * Service contracts (src/internal/contract) and release profiles (src/internal/profile)

    The validated data the planner is built from: [Validate] with all its error
    branches, and the content hash, the SHA-256 of the JSON of a canonical form in
    which dependencies, checks and capabilities are sorted.  Reading and decoding
    the YAML files is left out: the decoder is a third-party package. *)
From S2P Require Import Prelude GoStd Sha256 Json Duration Domain.

(** ** The structs of contract/model.go *)

Definition contract_APIVersion : string := "execution.themisy.io/v1alpha1".
Definition contract_Kind : string := "ServiceContract".

(** [contract.Metadata] *)
Record Metadata := {
  md_Name : string;
  md_Owner : string;
  md_Repository : string;
  md_RiskTier : string;
}.

#[export] Instance eta_Metadata : Eta Metadata := λ r,
  {| md_Name := md_Name r; md_Owner := md_Owner r; md_Repository := md_Repository r;
     md_RiskTier := md_RiskTier r |}.

#[export] Instance Metadata_eq_dec : EqDecision Metadata.
Proof. solve_decision. Defined.

(** [contract.EnvironmentContract] *)
Record EnvironmentContract := {
  ec_ReleaseProfile : string;
  ec_RunnerGroup : string;
  ec_Capabilities : list Capability;
}.

#[export] Instance eta_EnvironmentContract : Eta EnvironmentContract := λ r,
  {| ec_ReleaseProfile := ec_ReleaseProfile r; ec_RunnerGroup := ec_RunnerGroup r;
     ec_Capabilities := ec_Capabilities r |}.

#[export] Instance EnvironmentContract_eq_dec : EqDecision EnvironmentContract.
Proof. solve_decision. Defined.

(** [contract.VerificationCheck] *)
Record VerificationCheck := {
  vc_Type : string;
  vc_Threshold : string;
  vc_Check : string;
}.

#[export] Instance eta_VerificationCheck : Eta VerificationCheck := λ r,
  {| vc_Type := vc_Type r; vc_Threshold := vc_Threshold r; vc_Check := vc_Check r |}.

#[export] Instance VerificationCheck_eq_dec : EqDecision VerificationCheck.
Proof. solve_decision. Defined.

(** [contract.Verification] *)
Record ContractVerification := {
  cv_Profile : string;
  cv_ObservationWindow : string;
  cv_Checks : list VerificationCheck;
}.

#[export] Instance eta_ContractVerification : Eta ContractVerification := λ r,
  {| cv_Profile := cv_Profile r; cv_ObservationWindow := cv_ObservationWindow r; cv_Checks
     := cv_Checks r |}.

#[export] Instance ContractVerification_eq_dec : EqDecision ContractVerification.
Proof. solve_decision. Defined.

(** [contract.Rollback] *)
Record ContractRollback := {
  cr_Capability : string;
  cr_Strategy : string;
  cr_Deadline : string;
}.

#[export] Instance eta_ContractRollback : Eta ContractRollback := λ r,
  {| cr_Capability := cr_Capability r; cr_Strategy := cr_Strategy r; cr_Deadline :=
     cr_Deadline r |}.

#[export] Instance ContractRollback_eq_dec : EqDecision ContractRollback.
Proof. solve_decision. Defined.

(** [contract.ServiceContract] *)
Record ServiceContract := {
  ct_APIVersion : string;
  ct_Kind : string;
  ct_Metadata : Metadata;
  ct_Environments : gmap string EnvironmentContract;
  ct_Dependencies : list Dependency;
  ct_Verification : ContractVerification;
  ct_Rollback : ContractRollback;
  ct_ContentHash : string;
  ct_Source : string;
}.

#[export] Instance eta_ServiceContract : Eta ServiceContract := λ r,
  {| ct_APIVersion := ct_APIVersion r; ct_Kind := ct_Kind r; ct_Metadata := ct_Metadata r;
     ct_Environments := ct_Environments r; ct_Dependencies := ct_Dependencies r;
     ct_Verification := ct_Verification r; ct_Rollback := ct_Rollback r; ct_ContentHash :=
     ct_ContentHash r; ct_Source := ct_Source r |}.

#[export] Instance ServiceContract_eq_dec : EqDecision ServiceContract.
Proof. solve_decision. Defined.


(** ** The structs of profile/model.go *)

Definition profile_APIVersion : string := "execution.themisy.io/v1alpha1".
Definition profile_Kind : string := "ReleaseProfile".

(** [profile.Spec] with its nested [Deployment], [Verification] and [Rollback] *)
Record Spec := {
  sp_RequiredCapabilities : list Capability;
  sp_DeploymentStrategy : string;
  sp_VerificationRequired : bool;
  sp_ObservationWindow : string;
  sp_RollbackMode : string;
}.

#[export] Instance eta_Spec : Eta Spec := λ r,
  {| sp_RequiredCapabilities := sp_RequiredCapabilities r; sp_DeploymentStrategy :=
     sp_DeploymentStrategy r; sp_VerificationRequired := sp_VerificationRequired r;
     sp_ObservationWindow := sp_ObservationWindow r; sp_RollbackMode := sp_RollbackMode r
     |}.

#[export] Instance Spec_eq_dec : EqDecision Spec.
Proof. solve_decision. Defined.

(** [profile.ReleaseProfile]; [pr_Name] is [Metadata.Name] *)
Record ReleaseProfile := {
  pr_APIVersion : string;
  pr_Kind : string;
  pr_Name : string;
  pr_Spec : Spec;
  pr_ContentHash : string;
  pr_Source : string;
}.

#[export] Instance eta_ReleaseProfile : Eta ReleaseProfile := λ r,
  {| pr_APIVersion := pr_APIVersion r; pr_Kind := pr_Kind r; pr_Name := pr_Name r; pr_Spec
     := pr_Spec r; pr_ContentHash := pr_ContentHash r; pr_Source := pr_Source r |}.

#[export] Instance ReleaseProfile_eq_dec : EqDecision ReleaseProfile.
Proof. solve_decision. Defined.

(** ** Canonical order *)

(** The comparison of dependencies: type, service, resource, condition, constraint. *)
Definition dependency_less (left right : Dependency) : bool :=
  if negb (bool_decide (dep_Type left = dep_Type right)) then String.ltb (dep_Type left) (dep_Type right)
  else if negb (bool_decide (dep_Service left = dep_Service right)) then
    String.ltb (dep_Service left) (dep_Service right)
  else if negb (bool_decide (dep_Resource left = dep_Resource right)) then
    String.ltb (dep_Resource left) (dep_Resource right)
  else if negb (bool_decide (dep_Condition left = dep_Condition right)) then
    String.ltb (dep_Condition left) (dep_Condition right)
  else String.ltb (dep_Constraint left) (dep_Constraint right).

Definition sortedDependencies (values : list Dependency) : list Dependency :=
  sort_Slice dependency_less values.

Definition sortedCapabilities (values : list Capability) : list Capability :=
  sort_Slice String.ltb values.

(** The comparison of verification checks: type, check, threshold. *)
Definition check_less (left right : VerificationCheck) : bool :=
  if negb (bool_decide (vc_Type left = vc_Type right)) then String.ltb (vc_Type left) (vc_Type right)
  else if negb (bool_decide (vc_Check left = vc_Check right)) then
    String.ltb (vc_Check left) (vc_Check right)
  else String.ltb (vc_Threshold left) (vc_Threshold right).

(** ** JSON *)

Definition Dependency_json (d : Dependency) : json :=
  JObject (string_omit "service" (dep_Service d) ++ string_omit "resource" (dep_Resource d) ++
    field "type" (JString (dep_Type d)) ++ string_omit "condition" (dep_Condition d) ++
    string_omit "constraint" (dep_Constraint d)).

Definition EnvironmentContract_json (e : EnvironmentContract) : json :=
  JObject (field "releaseProfile" (JString (ec_ReleaseProfile e)) ++
    field "runnerGroup" (JString (ec_RunnerGroup e)) ++
    field "capabilities" (slice_json JString (ec_Capabilities e))).

Definition VerificationCheck_json (c : VerificationCheck) : json :=
  JObject (field "type" (JString (vc_Type c)) ++ string_omit "threshold" (vc_Threshold c) ++
    string_omit "check" (vc_Check c)).

Definition ServiceContract_json (c : ServiceContract) : json :=
  JObject (field "apiVersion" (JString (ct_APIVersion c)) ++ field "kind" (JString (ct_Kind c)) ++
    field "metadata" (JObject (field "name" (JString (md_Name (ct_Metadata c))) ++
      field "owner" (JString (md_Owner (ct_Metadata c))) ++
      field "repository" (JString (md_Repository (ct_Metadata c))) ++
      field "riskTier" (JString (md_RiskTier (ct_Metadata c))))) ++
    field "environments" (map_json EnvironmentContract_json (ct_Environments c)) ++
    slice_omit "dependencies" Dependency_json (ct_Dependencies c) ++
    field "verification" (JObject (field "profile" (JString (cv_Profile (ct_Verification c))) ++
      field "observationWindow" (JString (cv_ObservationWindow (ct_Verification c))) ++
      field "checks" (slice_json VerificationCheck_json (cv_Checks (ct_Verification c))))) ++
    field "rollback" (JObject (field "capability" (JString (cr_Capability (ct_Rollback c))) ++
      field "strategy" (JString (cr_Strategy (ct_Rollback c))) ++
      field "deadline" (JString (cr_Deadline (ct_Rollback c)))))).

Definition ReleaseProfile_json (p : ReleaseProfile) : json :=
  JObject (field "apiVersion" (JString (pr_APIVersion p)) ++ field "kind" (JString (pr_Kind p)) ++
    field "metadata" (JObject (field "name" (JString (pr_Name p)))) ++
    field "spec" (JObject (
      field "requiredCapabilities" (slice_json JString (sp_RequiredCapabilities (pr_Spec p))) ++
      field "deployment" (JObject (field "strategy" (JString (sp_DeploymentStrategy (pr_Spec p))))) ++
      field "verification" (JObject (field "required" (JBool (sp_VerificationRequired (pr_Spec p))) ++
        field "observationWindow" (JString (sp_ObservationWindow (pr_Spec p))))) ++
      field "rollback" (JObject (field "mode" (JString (sp_RollbackMode (pr_Spec p)))))))).

(** ** contract.Canonical and contract.Hash *)

Definition canonical_environment (e : EnvironmentContract) : EnvironmentContract :=
  e <| ec_Capabilities ::= sort_Slice String.ltb |>.

(** The contract that [Canonical] encodes. *)
Definition canonical_contract (c : ServiceContract) : ServiceContract :=
  c <| ct_ContentHash := "" |> <| ct_Source := "" |>
    <| ct_Environments ::= fmap canonical_environment |>
    <| ct_Dependencies ::= sort_Slice dependency_less |>
    <| ct_Verification ::= λ v, v <| cv_Checks ::= sort_Slice check_less |> |>.

Definition contract_Canonical (c : ServiceContract) : string :=
  encode (ServiceContract_json (canonical_contract c)).

Definition contract_Hash (c : ServiceContract) : string := sha256_ref (contract_Canonical c).

(** ** profile.Canonical and profile.Hash *)

Definition canonical_profile (p : ReleaseProfile) : ReleaseProfile :=
  p <| pr_ContentHash := "" |> <| pr_Source := "" |>
    <| pr_Spec ::= λ s, s <| sp_RequiredCapabilities ::= sort_Slice String.ltb |> |>.

Definition profile_Canonical (p : ReleaseProfile) : string :=
  encode (ReleaseProfile_json (canonical_profile p)).

Definition profile_Hash (p : ReleaseProfile) : string := sha256_ref (profile_Canonical p).

(** ** Validation *)

Definition got_want (got want : string) : string := "got " +:+ quote got +:+ ", want " +:+ quote want.

(** A duration that must parse and be positive. *)
Definition positive_duration (code field_ s : string) : result error unit :=
  match ParseDuration s with
  | Err e => Err (NewReasonError code field_ "must be a positive Go duration" (Some e))
  | Ok d => fail_if (d <=? 0)%Z (NewReasonError code field_ "must be a positive Go duration" None)
  end.

(** The loop over capabilities: each valid and none twice. *)
Fixpoint check_capabilities (code field_ : string) (seen : gset string) (l : list Capability) :
    result error unit :=
  match l with
  | [] => Ok tt
  | capability :: l =>
      fail_if (negb (Capability_Valid capability))
        (NewReasonError code field_ ("unsupported capability " +:+ quote capability) None);;
      fail_if (bool_decide (capability ∈ seen))
        (NewReasonError code field_ ("duplicate capability " +:+ quote capability) None);;
      check_capabilities code field_ ({[capability]} ∪ seen) l
  end.

Definition rollback_modes : list string := ["automatic"; "approval-required"; "manual-only"; "unsupported"].

(** The body of the loop over environments. *)
Definition check_environment (entry : string * EnvironmentContract) : result error unit :=
  let '(name, environment) := entry in
  let field_ := "environments." +:+ name in
  fail_if (negb (bool_decide (name = EnvironmentStaging)) && negb (bool_decide (name = EnvironmentProduction)))
    (NewReasonError ReasonInvalidContract field_ "unsupported environment" None);;
  fail_if (bool_decide (ec_ReleaseProfile environment = ""))
    (NewReasonError ReasonInvalidContract (field_ +:+ ".releaseProfile") "release profile is required" None);;
  fail_if (bool_decide (ec_RunnerGroup environment = ""))
    (NewReasonError ReasonInvalidContract (field_ +:+ ".runnerGroup") "runner group is required" None);;
  fail_if (bool_decide (ec_Capabilities environment = []))
    (NewReasonError ReasonMissingCapability (field_ +:+ ".capabilities")
       "at least one capability is required" None);;
  check_capabilities ReasonInvalidContract (field_ +:+ ".capabilities") ∅ (ec_Capabilities environment).

Definition check_dependency (index : nat) (dependency : Dependency) : result error unit :=
  let field_ := "dependencies[" +:+ itoa (Z.of_nat index) +:+ "]" in
  fail_if (negb (DependencyType_Valid (dep_Type dependency)))
    (NewReasonError ReasonInvalidContract (field_ +:+ ".type")
       ("unsupported dependency type " +:+ quote (dep_Type dependency)) None);;
  fail_if (Bool.eqb (bool_decide (dep_Service dependency = "")) (bool_decide (dep_Resource dependency = "")))
    (NewReasonError ReasonInvalidContract field_ "exactly one of service or resource is required" None).

Definition check_verification_check (index : nat) (check : VerificationCheck) : result error unit :=
  fail_if (bool_decide (vc_Type check = "") ||
           (bool_decide (vc_Threshold check = "") && bool_decide (vc_Check check = "")))
    (NewReasonError ReasonInvalidContract ("verification.checks[" +:+ itoa (Z.of_nat index) +:+ "]")
       "type and threshold or check are required" None).

(** [contract.Validate] *)
Definition contract_Validate `{!MapOrder} (c : ServiceContract) : result error unit :=
  fail_if (negb (bool_decide (ct_APIVersion c = contract_APIVersion)))
    (NewReasonError ReasonUnsupportedSchemaVersion "apiVersion"
       (got_want (ct_APIVersion c) contract_APIVersion) None);;
  fail_if (negb (bool_decide (ct_Kind c = contract_Kind)))
    (NewReasonError ReasonInvalidContract "kind" (got_want (ct_Kind c) contract_Kind) None);;
  fail_if (bool_decide (TrimSpace (md_Name (ct_Metadata c)) = ""))
    (NewReasonError ReasonInvalidContract "metadata.name" "name is required" None);;
  fail_if (bool_decide (TrimSpace (md_Owner (ct_Metadata c)) = ""))
    (NewReasonError ReasonMissingOwner "metadata.owner" "owner is required" None);;
  fail_if (bool_decide (TrimSpace (md_Repository (ct_Metadata c)) = ""))
    (NewReasonError ReasonInvalidContract "metadata.repository" "repository is required" None);;
  fail_if (negb (bool_decide (md_RiskTier (ct_Metadata c) ∈ ["low"; "medium"; "high"; "critical"])))
    (NewReasonError ReasonInvalidContract "metadata.riskTier"
       "must be low, medium, high, or critical" None);;
  fail_if (bool_decide (ct_Environments c = ∅))
    (NewReasonError ReasonInvalidContract "environments" "at least one environment is required" None);;
  check_all check_environment (range 0 (ct_Environments c));;
  check_alli check_dependency 0 (ct_Dependencies c);;
  fail_if (bool_decide (cv_Profile (ct_Verification c) = "") ||
           bool_decide (cv_ObservationWindow (ct_Verification c) = "") ||
           bool_decide (cv_Checks (ct_Verification c) = []))
    (NewReasonError ReasonInvalidContract "verification"
       "profile, observationWindow, and checks are required" None);;
  positive_duration ReasonInvalidContract "verification.observationWindow"
    (cv_ObservationWindow (ct_Verification c));;
  check_alli check_verification_check 0 (cv_Checks (ct_Verification c));;
  fail_if (negb (bool_decide (cr_Capability (ct_Rollback c) ∈ rollback_modes)))
    (NewReasonError ReasonInvalidContract "rollback.capability" "unsupported rollback capability" None);;
  fail_if (bool_decide (cr_Strategy (ct_Rollback c) = ""))
    (NewReasonError ReasonInvalidContract "rollback.strategy" "strategy is required" None);;
  positive_duration ReasonInvalidContract "rollback.deadline" (cr_Deadline (ct_Rollback c)).

(** [profile.Validate] *)
Definition profile_Validate (p : ReleaseProfile) : result error unit :=
  fail_if (negb (bool_decide (pr_APIVersion p = profile_APIVersion)))
    (NewReasonError ReasonUnsupportedSchemaVersion "apiVersion"
       (got_want (pr_APIVersion p) profile_APIVersion) None);;
  fail_if (negb (bool_decide (pr_Kind p = profile_Kind)))
    (NewReasonError ReasonInvalidProfile "kind" (got_want (pr_Kind p) profile_Kind) None);;
  fail_if (bool_decide (TrimSpace (pr_Name p) = ""))
    (NewReasonError ReasonInvalidProfile "metadata.name" "name is required" None);;
  fail_if (bool_decide (sp_RequiredCapabilities (pr_Spec p) = []))
    (NewReasonError ReasonMissingCapability "spec.requiredCapabilities"
       "at least one capability is required" None);;
  check_capabilities ReasonInvalidProfile "spec.requiredCapabilities" ∅
    (sp_RequiredCapabilities (pr_Spec p));;
  fail_if (bool_decide (sp_DeploymentStrategy (pr_Spec p) = ""))
    (NewReasonError ReasonInvalidProfile "spec.deployment.strategy" "strategy is required" None);;
  positive_duration ReasonInvalidProfile "spec.verification.observationWindow"
    (sp_ObservationWindow (pr_Spec p));;
  fail_if (negb (bool_decide (sp_RollbackMode (pr_Spec p) ∈ rollback_modes)))
    (NewReasonError ReasonInvalidProfile "spec.rollback.mode" "unsupported rollback mode" None).

#[global] Arguments contract_Hash : simpl never.
#[global] Arguments profile_Hash : simpl never.

(** ** Canonical order is a total order *)

Definition dependency_key (d : Dependency) :=
  (dep_Type d, (dep_Service d, (dep_Resource d, (dep_Condition d, dep_Constraint d)))).

#[export] Instance dependency_less_strict : StrictOrderBool dependency_less.
Proof.
  eapply (StrictOrderBool_ext (less_on dependency_key (lex_less String.ltb (lex_less String.ltb
    (lex_less String.ltb (lex_less String.ltb String.ltb)))))).
  - intros x y. unfold dependency_less, less_on, lex_less, dependency_key. simpl.
    by repeat case_bool_decide.
  - apply less_on_strict; [apply _|]. intros [] [] H. unfold dependency_key in H. simpl in H.
    by simplify_eq.
Qed.

Definition check_key (c : VerificationCheck) := (vc_Type c, (vc_Check c, vc_Threshold c)).

#[export] Instance check_less_strict : StrictOrderBool check_less.
Proof.
  eapply (StrictOrderBool_ext (less_on check_key (lex_less String.ltb (lex_less String.ltb String.ltb)))).
  - intros x y. unfold check_less, less_on, lex_less, check_key. simpl.
    by repeat case_bool_decide.
  - apply less_on_strict; [apply _|]. intros [] [] H. unfold check_key in H. simpl in H.
    by simplify_eq.
Qed.

(** ** Validation, declaratively *)

Definition positive (s : string) : Prop := ∃ d, ParseDuration s = Ok d ∧ (0 < d)%Z.

Definition capabilities_ok (l : list Capability) : Prop :=
  l ≠ [] ∧ Forall (λ c, Capability_Valid c = true) l ∧ NoDup l.

Record environment_ok (name : string) (e : EnvironmentContract) : Prop := {
  eo_name : name = EnvironmentStaging ∨ name = EnvironmentProduction;
  eo_profile : ec_ReleaseProfile e ≠ "";
  eo_runner : ec_RunnerGroup e ≠ "";
  eo_capabilities : capabilities_ok (ec_Capabilities e);
}.

Definition dependency_ok (d : Dependency) : Prop :=
  DependencyType_Valid (dep_Type d) = true ∧
  (dep_Service d = "" ∧ dep_Resource d ≠ "" ∨ dep_Service d ≠ "" ∧ dep_Resource d = "").

(** What [contract.Validate] accepts. *)
Record contract_ok (c : ServiceContract) : Prop := {
  co_version : ct_APIVersion c = contract_APIVersion;
  co_kind : ct_Kind c = contract_Kind;
  co_name : TrimSpace (md_Name (ct_Metadata c)) ≠ "";
  co_owner : TrimSpace (md_Owner (ct_Metadata c)) ≠ "";
  co_repository : TrimSpace (md_Repository (ct_Metadata c)) ≠ "";
  co_risk : md_RiskTier (ct_Metadata c) ∈ ["low"; "medium"; "high"; "critical"];
  co_nonempty : ct_Environments c ≠ ∅;
  co_environments : map_Forall environment_ok (ct_Environments c);
  co_dependencies : Forall dependency_ok (ct_Dependencies c);
  co_verification : cv_Profile (ct_Verification c) ≠ "" ∧ cv_ObservationWindow (ct_Verification c) ≠ "" ∧
    cv_Checks (ct_Verification c) ≠ [];
  co_window : positive (cv_ObservationWindow (ct_Verification c));
  co_checks : Forall (λ k, vc_Type k ≠ "" ∧ (vc_Threshold k ≠ "" ∨ vc_Check k ≠ ""))
    (cv_Checks (ct_Verification c));
  co_rollback : cr_Capability (ct_Rollback c) ∈ rollback_modes;
  co_strategy : cr_Strategy (ct_Rollback c) ≠ "";
  co_deadline : positive (cr_Deadline (ct_Rollback c));
}.

Lemma positive_duration_ok code f s : positive_duration code f s = Ok tt ↔ positive s.
Proof.
  unfold positive_duration, positive. destruct (ParseDuration s) as [d|e]; [|naive_solver].
  rewrite fail_if_ok, Z.leb_gt. naive_solver.
Qed.

Lemma check_capabilities_ok code f seen l :
  check_capabilities code f seen l = Ok tt ↔
  Forall (λ c, Capability_Valid c = true) l ∧ NoDup l ∧ (∀ c, c ∈ l → c ∉ seen).
Proof.
  revert seen. induction l as [|c l IH]; intros seen; simpl.
  { rewrite NoDup_nil, Forall_nil. set_solver. }
  rewrite !seq_ok, !fail_if_ok, negb_false_iff, bool_decide_eq_false, IH, Forall_cons, NoDup_cons.
  set_solver.
Qed.

Lemma check_environment_ok name e : check_environment (name, e) = Ok tt ↔ environment_ok name e.
Proof.
  unfold check_environment. rewrite !seq_ok, !fail_if_ok, check_capabilities_ok, !bool_decide_eq_false.
  rewrite andb_false_iff, !negb_false_iff, !bool_decide_eq_true. unfold capabilities_ok.
  split.
  - intros (Hn & ? & ? & ? & ? & ? & _). by split; [|done..].
  - intros [? ? ? (? & ? & ?)]. split_and!; done || set_solver.
Qed.

Lemma check_dependency_ok i d : check_dependency i d = Ok tt ↔ dependency_ok d.
Proof.
  unfold check_dependency, dependency_ok.
  rewrite seq_ok, !fail_if_ok, negb_false_iff, eqb_false_iff.
  repeat case_bool_decide; naive_solver.
Qed.

Lemma check_alli_Forall {A} (f : nat → A → result error unit) (P : A → Prop) i l :
  (∀ i x, f i x = Ok tt ↔ P x) → check_alli f i l = Ok tt ↔ Forall P l.
Proof.
  intros Hf. rewrite check_alli_ok, Forall_lookup. setoid_rewrite Hf. done.
Qed.

Lemma contract_Validate_ok `{!MapOrder} c : contract_Validate c = Ok tt ↔ contract_ok c.
Proof.
  unfold contract_Validate. rewrite !seq_ok, !fail_if_ok, !positive_duration_ok.
  rewrite (check_alli_Forall _ dependency_ok) by apply check_dependency_ok.
  rewrite (check_alli_Forall _ (λ k, vc_Type k ≠ "" ∧ (vc_Threshold k ≠ "" ∨ vc_Check k ≠ ""))); last first.
  { intros i k. unfold check_verification_check. rewrite fail_if_ok.
    rewrite orb_false_iff, andb_false_iff, !bool_decide_eq_false. done. }
  assert (Henv : check_all check_environment (range 0 (ct_Environments c)) = Ok tt ↔
    map_Forall environment_ok (ct_Environments c)).
  { rewrite check_all_ok, Forall_forall. split.
    - intros Hall k e Hk. apply check_environment_ok, (Hall (k, e)). by apply elem_of_range.
    - intros Hall [k e] Hk%elem_of_range. by apply check_environment_ok, Hall. }
  rewrite Henv, !negb_false_iff, !bool_decide_eq_true, !orb_false_iff, !bool_decide_eq_false.
  split.
  - intros (? & ? & ? & ? & ? & ? & ? & ? & ? & [[? ?] ?] & ? & ? & ? & ? & ?). by split.
  - intros []. naive_solver.
Qed.

(** What [profile.Validate] accepts. *)
Record profile_ok (p : ReleaseProfile) : Prop := {
  po_version : pr_APIVersion p = profile_APIVersion;
  po_kind : pr_Kind p = profile_Kind;
  po_name : TrimSpace (pr_Name p) ≠ "";
  po_capabilities : capabilities_ok (sp_RequiredCapabilities (pr_Spec p));
  po_strategy : sp_DeploymentStrategy (pr_Spec p) ≠ "";
  po_window : positive (sp_ObservationWindow (pr_Spec p));
  po_rollback : sp_RollbackMode (pr_Spec p) ∈ rollback_modes;
}.

Lemma profile_Validate_ok p : profile_Validate p = Ok tt ↔ profile_ok p.
Proof.
  unfold profile_Validate. rewrite !seq_ok, !fail_if_ok, positive_duration_ok, check_capabilities_ok.
  rewrite !negb_false_iff, !bool_decide_eq_true, !bool_decide_eq_false.
  split.
  - intros (? & ? & ? & ? & (? & ? & _) & ? & ? & ?). by split.
  - intros [? ? ? (? & ? & ?) ? ? ?]. split_and!; done || set_solver.
Qed.

(** ** Content hashes *)

#[export] Instance Dependency_json_inj : Inj (=) (=) Dependency_json.
Proof. intros x y H. json_inj H. destruct x, y. by simplify_eq/=. Qed.

#[export] Instance EnvironmentContract_json_inj : Inj (=) (=) EnvironmentContract_json.
Proof. intros x y H. json_inj H. destruct x, y. by simplify_eq/=. Qed.

#[export] Instance VerificationCheck_json_inj : Inj (=) (=) VerificationCheck_json.
Proof. intros x y H. json_inj H. destruct x, y. by simplify_eq/=. Qed.

(** The JSON of a contract determines it but for the hash and the source, which
    are not encoded. *)
Lemma ServiceContract_json_inj c1 c2 :
  ServiceContract_json c1 = ServiceContract_json c2 →
  ct_ContentHash c1 = ct_ContentHash c2 → ct_Source c1 = ct_Source c2 → c1 = c2.
Proof.
  intros H Hh Hs. json_inj H.
  destruct c1 as [v1 k1 [] e1 d1 [] [] h1 s1], c2 as [v2 k2 [] e2 d2 [] [] h2 s2].
  by simplify_eq/=.
Qed.

Lemma ReleaseProfile_json_inj p1 p2 :
  ReleaseProfile_json p1 = ReleaseProfile_json p2 →
  pr_ContentHash p1 = pr_ContentHash p2 → pr_Source p1 = pr_Source p2 → p1 = p2.
Proof.
  intros H Hh Hs. json_inj H.
  destruct p1 as [v1 k1 n1 [] h1 s1], p2 as [v2 k2 n2 [] h2 s2]. by simplify_eq/=.
Qed.

(** Two environments with the same capabilities, in any order. *)
Definition environment_equiv (e1 e2 : EnvironmentContract) : Prop :=
  ec_ReleaseProfile e1 = ec_ReleaseProfile e2 ∧ ec_RunnerGroup e1 = ec_RunnerGroup e2 ∧
  ec_Capabilities e1 ≡ₚ ec_Capabilities e2.

(** The same contract but for the order of its dependencies, checks and
    capabilities, its recorded hash and the file it came from. *)
Record contract_equiv (c1 c2 : ServiceContract) : Prop := {
  ce_version : ct_APIVersion c1 = ct_APIVersion c2;
  ce_kind : ct_Kind c1 = ct_Kind c2;
  ce_metadata : ct_Metadata c1 = ct_Metadata c2;
  ce_environments name :
    option_Forall2 environment_equiv (ct_Environments c1 !! name) (ct_Environments c2 !! name);
  ce_dependencies : ct_Dependencies c1 ≡ₚ ct_Dependencies c2;
  ce_profile : cv_Profile (ct_Verification c1) = cv_Profile (ct_Verification c2);
  ce_window : cv_ObservationWindow (ct_Verification c1) = cv_ObservationWindow (ct_Verification c2);
  ce_checks : cv_Checks (ct_Verification c1) ≡ₚ cv_Checks (ct_Verification c2);
  ce_rollback : ct_Rollback c1 = ct_Rollback c2;
}.

Lemma sort_Slice_eq_iff {A} (less : A → A → bool) `{!StrictOrderBool less} l1 l2 :
  sort_Slice less l1 = sort_Slice less l2 ↔ l1 ≡ₚ l2.
Proof.
  split; [|by apply sort_Slice_canonical]. intros Heq.
  by rewrite <-(sort_Slice_perm less l1), Heq, sort_Slice_perm.
Qed.

Lemma canonical_environment_eq e1 e2 :
  canonical_environment e1 = canonical_environment e2 ↔ environment_equiv e1 e2.
Proof.
  unfold environment_equiv. rewrite <-(sort_Slice_eq_iff String.ltb).
  destruct e1, e2. unfold canonical_environment, modify. simpl. split.
  - intros Heq. by injection Heq.
  - intros (? & ? & ?). by f_equal.
Qed.

Lemma canonical_environments_eq (m1 m2 : gmap string EnvironmentContract) :
  canonical_environment <$> m1 = canonical_environment <$> m2 ↔
  ∀ name, option_Forall2 environment_equiv (m1 !! name) (m2 !! name).
Proof.
  assert (Hopt : ∀ o1 o2, canonical_environment <$> o1 = canonical_environment <$> o2 ↔
    option_Forall2 environment_equiv o1 o2).
  { intros [e1|] [e2|]; simpl; split; intros Heq; try (by inversion Heq); try constructor.
    - apply canonical_environment_eq. by apply (inj Some).
    - inversion Heq; subst. f_equal. by apply canonical_environment_eq. }
  split.
  - intros Heq name. apply Hopt. by rewrite <-!lookup_fmap, Heq.
  - intros Hall. apply map_eq. intros name. rewrite !lookup_fmap. by apply Hopt.
Qed.

Lemma canonical_contract_eq c1 c2 :
  canonical_contract c1 = canonical_contract c2 ↔ contract_equiv c1 c2.
Proof.
  destruct c1 as [v1 k1 m1 e1 d1 [p1 w1 ch1] r1 h1 s1], c2 as [v2 k2 m2 e2 d2 [p2 w2 ch2] r2 h2 s2].
  unfold canonical_contract, modify. simpl. split.
  - intros Heq. injection Heq as -> -> -> He Hd -> -> Hc ->. split; simpl; try done.
    + by apply canonical_environments_eq.
    + by apply (sort_Slice_eq_iff dependency_less).
    + by apply (sort_Slice_eq_iff check_less).
  - intros [? ? ? He Hd ? ? Hc ?]. simpl in *. subst.
    apply canonical_environments_eq in He. apply (sort_Slice_eq_iff dependency_less) in Hd.
    apply (sort_Slice_eq_iff check_less) in Hc. by rewrite He, Hd, Hc.
Qed.

Lemma contract_Hash_equiv c1 c2 : contract_equiv c1 c2 → contract_Hash c1 = contract_Hash c2.
Proof. intros Heq%canonical_contract_eq. unfold contract_Hash, contract_Canonical. by rewrite Heq. Qed.

#[export] Instance contract_equiv_equivalence : Equivalence contract_equiv.
Proof.
  split.
  - intros c. by apply canonical_contract_eq.
  - intros c1 c2. rewrite <-!canonical_contract_eq. done.
  - intros c1 c2 c3. rewrite <-!canonical_contract_eq. congruence.
Qed.

#[export] Instance contract_Hash_Proper : Proper (contract_equiv ==> (=)) contract_Hash.
Proof. intros c1 c2. apply contract_Hash_equiv. Qed.

(** ** Theorems *)

(** the content hash of a contract does not depend on the order
    of its dependencies, checks and capabilities nor on where it was read from;
    and two contracts of valid UTF-8 with the same hash are the same contract
    up to that order, or else exhibit a collision of SHA-256. *)
Theorem contract_hash_binds c1 c2 :
  utf8_json (ServiceContract_json (canonical_contract c1)) = true →
  utf8_json (ServiceContract_json (canonical_contract c2)) = true →
  (contract_equiv c1 c2 → contract_Hash c1 = contract_Hash c2) ∧
  (contract_Hash c1 = contract_Hash c2 → contract_equiv c1 c2 ∨ collision).
Proof.
  intros H1 H2. split; [apply contract_Hash_equiv|]. intros Heq.
  apply hash_json_inj in Heq as [Heq|?]; [|by right|done..]. left.
  apply canonical_contract_eq. by apply ServiceContract_json_inj.
Qed.

(** C34: whatever order Go ranges over the environments, a contract
    passes validation exactly when its schema, metadata, environments,
    dependencies, verification and rollback are all well-formed. *)
Theorem contract_validate_iff (o : MapOrder) c :
  contract_Validate c = Ok tt ↔ contract_ok c.
Proof. apply contract_Validate_ok. Qed.

(** ** Witnesses *)

Definition demo_contract (name : string) (deps : list Dependency) : ServiceContract :=
  {| ct_APIVersion := contract_APIVersion; ct_Kind := contract_Kind;
     ct_Metadata := {| md_Name := name; md_Owner := "payments"; md_Repository := "git/pay";
                       md_RiskTier := "high" |};
     ct_Environments := {[ EnvironmentProduction := {| ec_ReleaseProfile := "standard";
        ec_RunnerGroup := "prod"; ec_Capabilities := [CapabilityRollback; CapabilityDeploy] |} ]};
     ct_Dependencies := deps;
     ct_Verification := {| cv_Profile := "standard"; cv_ObservationWindow := "5m";
        cv_Checks := [{| vc_Type := "metric"; vc_Threshold := "0.99"; vc_Check := "" |}] |};
     ct_Rollback := {| cr_Capability := "automatic"; cr_Strategy := "previous"; cr_Deadline := "10m" |};
     ct_ContentHash := ""; ct_Source := "" |}.

Definition demo_dep (service : string) : Dependency :=
  {| dep_Service := service; dep_Resource := ""; dep_Type := DependencyRolloutOrder;
     dep_Condition := ""; dep_Constraint := "" |}.

Lemma contract_hash_binds_witness :
  contract_Hash (demo_contract "pay" [demo_dep "db"; demo_dep "auth"]) =
  contract_Hash (demo_contract "pay" [demo_dep "auth"; demo_dep "db"]).
Proof.
  apply (contract_hash_binds (demo_contract "pay" [demo_dep "db"; demo_dep "auth"])
    (demo_contract "pay" [demo_dep "auth"; demo_dep "db"])).
  - vm_compute. reflexivity.
  - vm_compute. reflexivity.
  - apply canonical_contract_eq. vm_compute. reflexivity.
Defined.
