(* ===== verification/Loader.v ===== *)
(** * Loading contracts, profiles, the catalog and the configuration
    (src/internal/contract/loader.go, src/internal/profile/loader.go, src/internal/catalog/catalog.go,
    src/internal/config/config.go)

    What the control plane reads when it starts.  Parameters: the file system ([ReadFile], [ReadDir],
    [filepath.Join] as [join_path]), the environment, YAML decoding ([yaml_first] decodes the first
    document, [yaml_rest] says what follows it) and the error of encoding/json for a text. *)
From S2P Require Import Prelude GoStd Sha256 Json Rfc3339 JsonDecode JsonAny Duration Domain Contract.
From Stdlib Require Import Ascii.
Open Scope Z_scope.

(** ** Files *)

Record DirEntry := {
  de_Name : string;
  de_IsDir : bool;
}.

(** What follows the first YAML document. *)
Inductive yaml_tail :=
| YamlEOF
| YamlMore
| YamlError (err : error).

(** [filepath.Ext] of a name: from the last dot. *)
Fixpoint Ext (name : string) : string :=
  match name with
  | EmptyString => EmptyString
  | String c r =>
      match Ext r with
      | EmptyString => if Ascii.eqb c "." then name else EmptyString
      | e => e
      end
  end.

(** [strings.ToLower], on ASCII. *)
Fixpoint ToLower (s : string) : string :=
  match s with
  | EmptyString => EmptyString
  | String c r => String (if is_upper c then ascii_of_nat (nat_of_ascii c + 32) else c) (ToLower r)
  end.

Definition loadable (entry : DirEntry) : bool :=
  negb (de_IsDir entry) && bool_decide (ToLower (Ext (de_Name entry)) ∈ [".yaml"; ".yml"; ".json"]).

(** [fmt.Errorf("... %q: %w", path, err)] *)
Definition at_path (action path : string) (err : error) : error :=
  Errorf (action +:+ " " +:+ quote path +:+ ": " +:+ Error err) (Some err).

(** *** Documents with a content hash and a source *)

(** What the loaders of contracts and of profiles have in common. *)
Class Loaded (A : Type) := {
  loaded_Validate : A → result error unit;
  loaded_Hash : A → string;
  loaded_stamp : string → A → A;
  loaded_from : string → A → A;
  loaded_kind : string;
  loaded_dir : string;
}.

#[export] Instance Loaded_contract `{!MapOrder} : Loaded ServiceContract := {|
  loaded_Validate := contract_Validate;
  loaded_Hash := contract_Hash;
  loaded_stamp hash c := c <| ct_ContentHash := hash |>;
  loaded_from path c := c <| ct_Source := path |>;
  loaded_kind := "service contract";
  loaded_dir := "contract";
|}.

#[export] Instance Loaded_profile : Loaded ReleaseProfile := {|
  loaded_Validate := profile_Validate;
  loaded_Hash := profile_Hash;
  loaded_stamp hash p := p <| pr_ContentHash := hash |>;
  loaded_from path p := p <| pr_Source := path |>;
  loaded_kind := "release profile";
  loaded_dir := "profile";
|}.

Section loader.
Context (ReadFile : string → result error string) (ReadDir : string → result error (list DirEntry)) (join_path : string → string → string).
Context {A : Type} `{!Loaded A} (yaml_first : string → result error A) (yaml_rest : string → yaml_tail).

(** [Decode] *)
Definition yaml_Decode (data : string) : result error A :=
  document ← yaml_first data;
  match yaml_rest data with
  | YamlMore => Err (ErrorNew "multiple YAML documents are not allowed")
  | YamlError err => Err err
  | YamlEOF =>
      match loaded_Validate document with
      | Err err => Err err
      | Ok _ => Ok (loaded_stamp (loaded_Hash document) document)
      end
  end.

(** [LoadFile] *)
Definition LoadFile (path : string) : result error A :=
  match ReadFile path with
  | Err err => Err (at_path ("read " +:+ loaded_kind) path err)
  | Ok data =>
      match yaml_Decode data with
      | Err err => Err (at_path ("decode " +:+ loaded_kind) path err)
      | Ok document => Ok (loaded_from path document)
      end
  end.

Fixpoint load_files (paths : list string) : result error (list A) :=
  match paths with
  | [] => Ok []
  | path :: paths => document ← LoadFile path; documents ← load_files paths; Ok (document :: documents)
  end.

Definition load_paths (path : string) (entries : list DirEntry) : list string :=
  sort_Strings ((λ entry, join_path path (de_Name entry)) <$> filter (λ entry, loadable entry = true) entries).

(** [LoadDir] *)
Definition LoadDir (path : string) : result error (list A) :=
  match ReadDir path with
  | Err err => Err (at_path ("read " +:+ loaded_dir +:+ " directory") path err)
  | Ok entries =>
      match load_paths path entries with
      | [] => Err (Errorf (loaded_dir +:+ " directory " +:+ quote path +:+ " contains no YAML or JSON " +:+ loaded_dir +:+ "s") None)
      | paths => load_files paths
      end
  end.

(** A document that came from a file. *)
Record loaded_document (path : string) (document : A) : Prop := {
  ld_data : ∃ data raw, ReadFile path = Ok data ∧ yaml_first data = Ok raw ∧ yaml_rest data = YamlEOF ∧
    loaded_Validate raw = Ok tt ∧ document = loaded_from path (loaded_stamp (loaded_Hash raw) raw);
}.

Lemma LoadFile_spec path document : LoadFile path = Ok document ↔ loaded_document path document.
Proof.
  unfold LoadFile, yaml_Decode, mbind, result_bind. split.
  - destruct (ReadFile path) as [data|] eqn:Hr; [|done]. destruct (yaml_first data) as [raw|] eqn:Hf; [|done].
    destruct (yaml_rest data) eqn:Ht; try done. destruct (loaded_Validate raw) as [[]|] eqn:Hv; [|done]. intros [= <-].
    split. by exists data, raw.
  - intros [(data & raw & -> & -> & -> & -> & ->)]. done.
Qed.

Lemma load_files_spec paths documents : load_files paths = Ok documents ↔ Forall2 loaded_document paths documents.
Proof.
  revert documents. induction paths as [|path paths IH]; intros documents; simpl.
  - split; [by intros [= <-]|by inversion 1].
  - unfold mbind, result_bind. split.
    + destruct (LoadFile path) as [d|] eqn:Hd; [|done]. destruct (load_files paths) as [ds|]; [|done]. intros [= <-].
      constructor; [by apply LoadFile_spec|by apply IH].
    + intros H. inversion H as [|? d ? ds Hd Hds]; subst. apply LoadFile_spec in Hd. rewrite Hd. by apply IH in Hds as ->.
Qed.

(** A directory is loaded when it has contracts and each of them decodes and validates: each document once, in the order
    of the paths, with its hash and its source; the order of the directory does not matter. *)
Theorem LoadDir_spec path entries documents :
  ReadDir path = Ok entries →
  LoadDir path = Ok documents ↔ load_paths path entries ≠ [] ∧ Forall2 loaded_document (load_paths path entries) documents.
Proof.
  intros Hr. unfold LoadDir. rewrite Hr. destruct (load_paths path entries) as [|p paths]; [naive_solver|].
  rewrite load_files_spec. naive_solver.
Qed.

Lemma load_paths_perm path entries entries' : entries ≡ₚ entries' → load_paths path entries = load_paths path entries'.
Proof. intros Hp. unfold load_paths. apply sort_Strings_canonical. by rewrite Hp. Qed.
End loader.

(** The two packages. *)
Section packages.
Context (ReadFile : string → result error string) (ReadDir : string → result error (list DirEntry)) (join_path : string → string → string).
Context (yaml_rest : string → yaml_tail).

Definition contract_LoadDir `{!MapOrder} (yaml_first : string → result error ServiceContract) : string → result error (list ServiceContract) :=
  LoadDir ReadFile ReadDir join_path yaml_first yaml_rest.
Definition profile_Decode (yaml_first : string → result error ReleaseProfile) : string → result error ReleaseProfile :=
  yaml_Decode yaml_first yaml_rest.
Definition profile_LoadFile (yaml_first : string → result error ReleaseProfile) : string → result error ReleaseProfile :=
  LoadFile ReadFile yaml_first yaml_rest.
Definition profile_LoadDir (yaml_first : string → result error ReleaseProfile) : string → result error (list ReleaseProfile) :=
  LoadDir ReadFile ReadDir join_path yaml_first yaml_rest.
End packages.

(** ** The legacy catalog *)

(** [map[Environment]string] *)
Definition into_string_map : into (gmap string string) := λ d old,
  match d with
  | DObject members => foldl (λ acc kv, m ← acc; s ← into_string kv.2 ""; Some (<[kv.1 := s]> m)) (Some old) members
  | DNull => Some ∅
  | _ => None
  end.

Definition Service_members : fields_of Service :=
  member "id" into_string svc_ID ++ member "name" into_string svc_Name ++ member "owner_team" into_string svc_OwnerTeam ++
  member "risk_tier" into_string svc_RiskTier ++ member "repository" into_string svc_Repository ++
  member "release_phase" into_int64 svc_ReleasePhase ++ member "dependencies" (into_slice into_string "") svc_Dependencies ++
  member "runner_groups" into_string_map svc_RunnerGroups ++ member "failure_domains" (into_slice into_string "") svc_FailureDomains ++
  member "metadata_version" into_string svc_MetadataVersion ++ member "updated_at" into_time svc_UpdatedAt.

Definition zero_Service : Service :=
  {| svc_ID := ""; svc_Name := ""; svc_OwnerTeam := ""; svc_RiskTier := ""; svc_Repository := ""; svc_ReleasePhase := 0;
     svc_Dependencies := []; svc_RunnerGroups := ∅; svc_FailureDomains := []; svc_MetadataVersion := ""; svc_UpdatedAt := 0 |}.

(** [CompatibilityProfile] *)
Definition CompatibilityProfile : ReleaseProfile :=
  {| pr_APIVersion := profile_APIVersion; pr_Kind := profile_Kind; pr_Name := "legacy-mock";
     pr_Spec := {| sp_RequiredCapabilities := [CapabilityDeploy; CapabilityGetStatus; CapabilityVerifyRuntime; CapabilityRollback];
                   sp_DeploymentStrategy := "mock"; sp_VerificationRequired := true; sp_ObservationWindow := "1m";
                   sp_RollbackMode := "automatic" |};
     pr_ContentHash := ""; pr_Source := "" |}.

Definition legacy_environment (runnerGroup : string) : EnvironmentContract :=
  {| ec_ReleaseProfile := pr_Name CompatibilityProfile; ec_RunnerGroup := runnerGroup;
     ec_Capabilities := sp_RequiredCapabilities (pr_Spec CompatibilityProfile) |}.

Definition legacy_dependency (service : string) : Dependency :=
  {| dep_Service := service; dep_Resource := ""; dep_Type := DependencyRolloutOrder; dep_Condition := "verified"; dep_Constraint := "" |}.

(** The contract of a service, before it is hashed. *)
Definition legacy_contract (service : Service) : ServiceContract :=
  {| ct_APIVersion := contract_APIVersion; ct_Kind := contract_Kind;
     ct_Metadata := {| md_Name := svc_Name service; md_Owner := svc_OwnerTeam service; md_Repository := svc_Repository service;
                       md_RiskTier := "medium" |};
     ct_Environments := {[ EnvironmentStaging := legacy_environment "legacy-staging";
                           EnvironmentProduction := legacy_environment "legacy-production" ]};
     ct_Dependencies := legacy_dependency <$> svc_Dependencies service;
     ct_Verification := {| cv_Profile := "legacy-health"; cv_ObservationWindow := "1m";
                           cv_Checks := [{| vc_Type := "health"; vc_Threshold := "healthy"; vc_Check := "" |}] |};
     ct_Rollback := {| cr_Capability := "automatic"; cr_Strategy := "mock-previous-version"; cr_Deadline := "30m" |};
     ct_ContentHash := ""; ct_Source := "" |}.

Section catalog.
Context (ReadFile : string → result error string) (json_error : string → error).

(** [Load] *)
Definition catalog_Load (path : string) : result error (list Service) :=
  match ReadFile path with
  | Err err => Err (Errorf ("read service catalog: " +:+ Error err) (Some err))
  | Ok data =>
      match (d ← Unmarshal data; into_slice (into_struct false Service_members) zero_Service d []) with
      | None => let err := json_error data in Err (Errorf ("decode service catalog: " +:+ Error err) (Some err))
      | Some services => Ok services
      end
  end.

(** [LoadContracts] *)
Definition LoadContracts (path : string) : result error (list ServiceContract * list ReleaseProfile) :=
  match catalog_Load path with
  | Err err => Err err
  | Ok services =>
      Ok ((λ service, let c := legacy_contract service in c <| ct_ContentHash := contract_Hash c |> <| ct_Source := path |>) <$> services,
          [CompatibilityProfile <| pr_ContentHash := profile_Hash CompatibilityProfile |>])
  end.
End catalog.

Lemma minutes_positive : positive "1m" ∧ positive "30m".
Proof. split; eexists; (split; [vm_compute; reflexivity|done]). Qed.

Lemma legacy_capabilities_ok : capabilities_ok (sp_RequiredCapabilities (pr_Spec CompatibilityProfile)).
Proof.
  split; [done|]. split; [by repeat constructor|]. apply (bool_decide_unpack (NoDup _)). by vm_compute.
Qed.

Lemma CompatibilityProfile_valid : profile_Validate CompatibilityProfile = Ok tt.
Proof.
  apply profile_Validate_ok. destruct minutes_positive. split; try done; [apply legacy_capabilities_ok|].
  apply elem_of_cons. by left.
Qed.

(** The contract of a service of the catalog is valid exactly when the service has a name, an owner and a repository, and
    names every service it depends on. *)
Theorem legacy_contract_valid `{!MapOrder} service :
  contract_Validate (legacy_contract service) = Ok tt ↔
  TrimSpace (svc_Name service) ≠ "" ∧ TrimSpace (svc_OwnerTeam service) ≠ "" ∧ TrimSpace (svc_Repository service) ≠ "" ∧
  Forall (λ d, d ≠ "") (svc_Dependencies service).
Proof.
  rewrite contract_Validate_ok. split.
  - intros [_ _ Hn Ho Hr _ _ _ Hd _ _ _ _ _ _]. repeat (split; [done|]). cbn [ct_Dependencies legacy_contract] in Hd. rewrite Forall_fmap in Hd.
    eapply Forall_impl; [exact Hd|]. intros d [_ [[_ ?]|[? _]]]; done.
  - intros (Hn & Ho & Hr & Hd). destruct minutes_positive as [H1 H30]. split; try done.
    + set_solver.
    + simpl. apply (map_Forall_insert_2 environment_ok); [|apply map_Forall_singleton];
        (split; [auto|done|done|apply legacy_capabilities_ok]).
    + apply Forall_fmap. eapply Forall_impl; [exact Hd|]. intros d Hne. split; [done|]. right. done.
    + apply Forall_cons. split; [|done]. split; [done|]. by left.
    + apply elem_of_cons. by left.
Qed.

(** ** The configuration *)

Record Config := {
  cfg_Mode : string;
  cfg_HTTPAddress : string;
  cfg_DatabaseURL : string;
  cfg_AutoMigrate : bool;
  cfg_TemporalAddress : string;
  cfg_TemporalNamespace : string;
  cfg_TemporalTaskQueue : string;
  cfg_Contracts : string;
  cfg_Profiles : string;
  cfg_LegacyCatalog : string;
}.

#[export] Instance eta_Config : Eta Config := λ r,
  {| cfg_Mode := cfg_Mode r; cfg_HTTPAddress := cfg_HTTPAddress r; cfg_DatabaseURL := cfg_DatabaseURL r;
     cfg_AutoMigrate := cfg_AutoMigrate r; cfg_TemporalAddress := cfg_TemporalAddress r;
     cfg_TemporalNamespace := cfg_TemporalNamespace r; cfg_TemporalTaskQueue := cfg_TemporalTaskQueue r;
     cfg_Contracts := cfg_Contracts r; cfg_Profiles := cfg_Profiles r; cfg_LegacyCatalog := cfg_LegacyCatalog r |}.

Definition default_Config : Config :=
  {| cfg_Mode := "all"; cfg_HTTPAddress := ":8080"; cfg_DatabaseURL := ""; cfg_AutoMigrate := true;
     cfg_TemporalAddress := "localhost:7233"; cfg_TemporalNamespace := "default"; cfg_TemporalTaskQueue := "themisy-releases";
     cfg_Contracts := "examples/contracts"; cfg_Profiles := "examples/profiles"; cfg_LegacyCatalog := "" |}.

(** [Config.Validate] *)
Definition config_Validate (c : Config) : result error unit :=
  fail_if (negb (bool_decide (cfg_Mode c ∈ ["control"; "worker"; "all"]))) (Errorf "mode must be control, worker, or all" None);;
  fail_if (bool_decide (cfg_DatabaseURL c = "")) (Errorf "database.url is required" None);;
  fail_if (bool_decide (cfg_TemporalAddress c = "") || bool_decide (cfg_TemporalNamespace c = "")
           || bool_decide (cfg_TemporalTaskQueue c = ""))
    (Errorf "temporal address, namespace, and task_queue are required" None);;
  fail_if (bool_decide (cfg_LegacyCatalog c = "") && (bool_decide (cfg_Contracts c = "") || bool_decide (cfg_Profiles c = "")))
    (Errorf "planning contract and profile paths are required" None).

Section config.
Context (ReadFile : string → result error string) (LookupEnv : string → option string).
(** YAML decoding over the defaults. *)
Context (yaml_config : string → Config → result error Config).

(** [applyEnv] and [setString] *)
Definition from_env (name old : string) : string := default old (LookupEnv name).
Definition applyEnv (c : Config) : Config :=
  c <| cfg_Mode ::= from_env "THEMISY_MODE" |> <| cfg_HTTPAddress ::= from_env "THEMISY_HTTP_ADDRESS" |>
    <| cfg_DatabaseURL ::= from_env "THEMISY_DATABASE_URL" |> <| cfg_TemporalAddress ::= from_env "THEMISY_TEMPORAL_ADDRESS" |>
    <| cfg_TemporalNamespace ::= from_env "THEMISY_TEMPORAL_NAMESPACE" |>
    <| cfg_TemporalTaskQueue ::= from_env "THEMISY_TEMPORAL_TASK_QUEUE" |> <| cfg_Contracts ::= from_env "THEMISY_CONTRACTS" |>
    <| cfg_Profiles ::= from_env "THEMISY_PROFILES" |> <| cfg_LegacyCatalog ::= from_env "THEMISY_LEGACY_CATALOG" |>.

(** [Load] *)
Definition config_Load (path : string) : result error Config :=
  c ← (if bool_decide (path = "") then Ok default_Config
       else match ReadFile path with
            | Err err => Err (Errorf ("read Themisy config: " +:+ Error err) (Some err))
            | Ok data =>
                match yaml_config data default_Config with
                | Err err => Err (Errorf ("decode Themisy config: " +:+ Error err) (Some err))
                | Ok c => Ok c
                end
            end);
  match config_Validate (applyEnv c) with
  | Err err => Err err
  | Ok _ => Ok (applyEnv c)
  end.

(** The environment wins over the file, and what is loaded is valid. *)
Lemma config_Load_spec path c :
  config_Load path = Ok c → config_Validate c = Ok tt ∧
  (∀ url, LookupEnv "THEMISY_DATABASE_URL" = Some url → cfg_DatabaseURL c = url) ∧
  (∀ mode, LookupEnv "THEMISY_MODE" = Some mode → cfg_Mode c = mode).
Proof.
  unfold config_Load, mbind, result_bind. destruct (if bool_decide (path = "") then _ else _) as [base|]; [|done].
  destruct (config_Validate (applyEnv base)) as [[]|] eqn:Hv; [|done]. intros [= <-]. split; [done|].
  split; intros x Hx; simpl; unfold from_env; by rewrite Hx.
Qed.
End config.
