(* ===== verification/Kahn.v ===== *)
(** * Topological ordering with a worklist

    The planner orders services twice with the same algorithm: over the selected
    changes with a sorted queue ([PlanIntent]) and over all contracts with a stack
    ([validateGlobalOrderingGraph]), both in src/internal/planner/planner.go.  The
    discipline of the worklist is an interface, [Worklist]; the invariants and the
    theorems are proved once against it and the two disciplines are instances.

    An edge [(p, c)] says that [c] depends on [p]: it is released in a later phase. *)
From S2P Require Import Prelude GoStd.
Open Scope Z_scope.

(** The order in which nodes leave and children are visited. *)
Class Worklist := {
  wl_push : list string → string → list string;
  wl_pop : list string → option (string * list string);
  wl_children : list string → list string;
  wl_push_perm l x : wl_push l x ≡ₚ x :: l;
  wl_pop_perm l x l' : wl_pop l = Some (x, l') → l ≡ₚ x :: l';
  wl_pop_none l : wl_pop l = None → l = [];
  wl_children_perm l : wl_children l ≡ₚ l;
}.

(** The variables of the loop. *)
Record kahn := {
  k_ready : list string;
  k_indegree : gmap string Z;
  k_phase : gmap string Z;
  k_processed : Z;
}.

#[export] Instance eta_kahn : Eta kahn := λ r,
  {| k_ready := k_ready r; k_indegree := k_indegree r; k_phase := k_phase r; k_processed := k_processed r |}.

(** The counters and the adjacency lists, filled edge by edge. *)
Definition count_edges (edges : list (string * string)) : gmap string Z :=
  foldl (λ m e, <[e.2 := get 0 m e.2 + 1]> m) ∅ edges.

Definition adjacency (edges : list (string * string)) : gmap string (list string) :=
  foldl (λ m e, <[e.1 := get [] m e.1 ++ [e.2]]> m) ∅ edges.

Section loop.
Context `{!Worklist}.

(** The body of the loop over the children of [name]. *)
Definition relax (name : string) (s : kahn) (child : string) : kahn :=
  let s := if get 0 (k_phase s) child <=? get 0 (k_phase s) name
           then s <| k_phase := <[child := int64 (get 0 (k_phase s) name + 1)]> (k_phase s) |> else s in
  let s := s <| k_indegree := <[child := get 0 (k_indegree s) child - 1]> (k_indegree s) |> in
  if get 0 (k_indegree s) child =? 0 then s <| k_ready := wl_push (k_ready s) child |> else s.

(** The loop; [None] is "out of fuel". *)
Fixpoint kahn_loop (fuel : nat) (children : gmap string (list string)) (s : kahn) : option kahn :=
  match wl_pop (k_ready s) with
  | None => Some s
  | Some (name, ready) =>
      match fuel with
      | O => None
      | S fuel =>
          let s := s <| k_ready := ready |> <| k_processed := k_processed s + 1 |> in
          kahn_loop fuel children (foldl (relax name) s (wl_children (get [] children name)))
      end
  end.
End loop.

(** ** Specification *)

(** No cycle: the edges go up along some rank. *)
Definition acyclic (edges : list (string * string)) : Prop :=
  ∃ rank : string → nat, ∀ p c, (p, c) ∈ edges → (rank p < rank c)%nat.

(** The least phases above [init] that strictly increase along every edge. *)
Record phases_ok (nodes : list string) (edges : list (string * string)) (init phase : string → Z) : Prop := {
  po_init c : c ∈ nodes → init c ≤ phase c;
  po_edge p c : (p, c) ∈ edges → phase p < phase c;
  po_tight c : c ∈ nodes → phase c = init c ∨ ∃ p, (p, c) ∈ edges ∧ phase c = phase p + 1;
}.

(** They are unique: no worklist discipline can change them. *)
Lemma phases_unique nodes edges init f g :
  (∀ p c, (p, c) ∈ edges → p ∈ nodes ∧ c ∈ nodes) → acyclic edges →
  phases_ok nodes edges init f → phases_ok nodes edges init g → ∀ c, c ∈ nodes → f c = g c.
Proof.
  intros Hin [rank Hrank] Hf Hg.
  assert (Hle : ∀ f g, phases_ok nodes edges init f → phases_ok nodes edges init g →
    ∀ c, c ∈ nodes → f c ≤ g c).
  { clear f g Hf Hg. intros f g Hf Hg c. remember (rank c) as n eqn:Hn. revert c Hn.
    induction (lt_wf n) as [n _ IH]. intros c -> Hc.
    destruct (po_tight _ _ _ _ Hf c Hc) as [->|(p & Hp & ->)]; [by apply (po_init _ _ _ _ Hg)|].
    pose proof (po_edge _ _ _ _ Hg p c Hp).
    assert (f p ≤ g p); [|lia]. apply (IH _ (Hrank p c Hp) p eq_refl). by apply (Hin p c). }
  intros c Hc. pose proof (Hle f g Hf Hg c Hc). pose proof (Hle g f Hg Hf c Hc). lia.
Qed.

(** ** The tables *)

Lemma get_count_edges edges c : get 0 (count_edges edges) c = Z.of_nat (occ c edges.*2).
Proof.
  unfold count_edges. rewrite <-(Z.add_0_l (Z.of_nat _)).
  assert (H : ∀ m : gmap string Z, get 0 (foldl (λ m e, <[e.2 := get 0 m e.2 + 1]> m) m edges) c =
    get 0 m c + Z.of_nat (occ c edges.*2)); [|by rewrite H, get_empty].
  induction edges as [|[p d] edges IH]; intros m; csimpl; [rewrite occ_nil; lia|].
  rewrite IH, get_insert, occ_cons. case_decide; subst; lia.
Qed.

Lemma get_adjacency edges p : get [] (adjacency edges) p = (filter (λ e, e.1 = p) edges).*2.
Proof.
  unfold adjacency.
  assert (H : ∀ m : gmap string (list string),
    get [] (foldl (λ m e, <[e.1 := get [] m e.1 ++ [e.2]]> m) m edges) p =
    get [] m p ++ (filter (λ e, e.1 = p) edges).*2); [|by rewrite H, get_empty].
  induction edges as [|[q d] edges IH]; intros m; simpl; [by rewrite app_nil_r|].
  rewrite IH, get_insert, filter_cons. simpl. case_decide; csimpl; [|done].
  subst. by rewrite <-app_assoc.
Qed.

(** ** The invariant *)

Section correctness.
Context `{!Worklist}.
Context (nodes : list string) (edges : list (string * string)) (init : string → Z) (M : Z).
Hypothesis nodes_nodup : NoDup nodes.
Hypothesis edges_in : ∀ p c, (p, c) ∈ edges → p ∈ nodes ∧ c ∈ nodes.
(** The phases that can occur fit the machine integers. *)
Hypothesis init_range : ∀ c, c ∈ nodes → int64_min ≤ init c ≤ M.
Hypothesis fits : M + Z.of_nat (length nodes) ≤ int64_max.

(** The graph part of the invariant: [done] has been processed; the edges of
    [relaxed] have been followed, those of [todo] have not. *)
Record kgraph (done : list string) (relaxed todo : list (string * string)) (s : kahn) : Prop := {
  kg_edges : edges ≡ₚ relaxed ++ todo;
  kg_indegree c : get 0 (k_indegree s) c = Z.of_nat (occ c todo.*2);
  kg_nodup : NoDup (done ++ k_ready s);
  kg_nodes c : c ∈ nodes → c ∈ done ++ k_ready s ↔ c ∉ todo.*2;
  kg_in c : c ∈ done ++ k_ready s → c ∈ nodes;
  kg_processed : k_processed s = Z.of_nat (length done);
  kg_from p c : (p, c) ∈ relaxed → p ∈ done;
}.

(** The phases: they increase along the relaxed edges and are raised only by them. *)
Record kphase (done : list string) (relaxed : list (string * string)) (phase : string → Z) : Prop := {
  kp_edge p c : (p, c) ∈ relaxed → phase p < phase c;
  kp_init c : c ∈ nodes → init c ≤ phase c;
  kp_tight c : c ∈ nodes → phase c = init c ∨ ∃ p, (p, c) ∈ relaxed ∧ phase c = phase p + 1;
  kp_bound c : c ∈ nodes → phase c ≤ M + Z.of_nat (length done);
}.

Definition kinv done relaxed todo s : Prop :=
  kgraph done relaxed todo s ∧ kphase done relaxed (get 0 (k_phase s)).

Lemma kgraph_length done relaxed todo s :
  kgraph done relaxed todo s → (length done + length (k_ready s) ≤ length nodes)%nat.
Proof.
  intros Hk. rewrite <-length_app. apply submseteq_length, NoDup_submseteq; [apply Hk|].
  intros c. apply (kg_in _ _ _ _ Hk).
Qed.

Lemma kgraph_perm done relaxed todo todo' s :
  todo ≡ₚ todo' → kgraph done relaxed todo s → kgraph done relaxed todo' s.
Proof.
  intros Hp [He Hi Hnd Hn Hin Hpr Hf]. split; try done.
  - by rewrite <-Hp.
  - intros c. rewrite Hi. f_equal. apply occ_perm. by rewrite Hp.
  - intros c Hc. rewrite Hn by done. by rewrite Hp.
Qed.

(** The child of an edge still to be followed is neither done nor ready. *)
Lemma kgraph_child done relaxed todo s name child :
  kgraph done relaxed ((name, child) :: todo) s →
  name ∈ nodes ∧ child ∈ nodes ∧ child ∉ done ++ k_ready s.
Proof.
  intros Hk.
  assert (Hedge : (name, child) ∈ edges) by (rewrite (kg_edges _ _ _ _ Hk), elem_of_app; right; left).
  destruct (edges_in _ _ Hedge) as [Hn Hc]. split_and!; [done..|].
  rewrite (kg_nodes _ _ _ _ Hk) by done. rewrite fmap_cons. intros Hno. apply Hno. left.
Qed.

(** The new phase of the child of an edge. *)
Definition raised (name child : string) (phase : gmap string Z) : gmap string Z :=
  if get 0 phase child <=? get 0 phase name
  then <[child := get 0 phase name + 1]> phase else phase.

Lemma get_raised name child phase c :
  get 0 (raised name child phase) c =
  if decide (c = child) then get 0 phase child `max` (get 0 phase name + 1) else get 0 phase c.
Proof.
  unfold raised. split_if; reflect_bools; [rewrite get_insert|]; repeat case_decide; subst; try done; lia.
Qed.

(** [relax] as one equation, when the phase does not overflow. *)
Lemma relax_eq name s child : in_int64 (get 0 (k_phase s) name + 1) →
  relax name s child =
  {| k_ready := if get 0 (k_indegree s) child - 1 =? 0 then wl_push (k_ready s) child else k_ready s;
     k_indegree := <[child := get 0 (k_indegree s) child - 1]> (k_indegree s);
     k_phase := raised name child (k_phase s); k_processed := k_processed s |}.
Proof.
  intros Hfit. unfold relax, raised. rewrite int64_id by done.
  repeat split_if; unfold modify in *; cbn [k_indegree k_phase k_ready k_processed] in *;
    rewrite ?get_insert_eq in *; congruence.
Qed.

(** The child becomes ready when its last edge is followed. *)
Lemma relax_ready done relaxed todo s name child :
  kgraph done relaxed ((name, child) :: todo) s →
  (if get 0 (k_indegree s) child - 1 =? 0 then wl_push (k_ready s) child else k_ready s) ≡ₚ
  if decide (child ∈ todo.*2) then k_ready s else child :: k_ready s.
Proof.
  intros Hk. rewrite (kg_indegree _ _ _ _ Hk), fmap_cons, occ_cons, decide_True by done.
  pose proof (occ_pos child todo.*2) as Hpos. case_decide as Hin; split_if; reflect_bools; try done.
  - apply Hpos in Hin. lia.
  - apply wl_push_perm.
  - apply occ_not_elem in Hin. lia.
Qed.

Lemma kgraph_relax done relaxed todo s name child phase :
  kgraph done relaxed ((name, child) :: todo) s → name ∈ done →
  kgraph done ((name, child) :: relaxed) todo
    {| k_ready := if get 0 (k_indegree s) child - 1 =? 0 then wl_push (k_ready s) child else k_ready s;
       k_indegree := <[child := get 0 (k_indegree s) child - 1]> (k_indegree s);
       k_phase := phase; k_processed := k_processed s |}.
Proof.
  intros Hk Hname. pose proof (relax_ready _ _ _ _ _ _ Hk) as Hready.
  destruct (kgraph_child _ _ _ _ _ _ Hk) as (Hn & Hc & Hnot).
  split; cbn [k_indegree k_phase k_ready k_processed].
  - rewrite (kg_edges _ _ _ _ Hk). by rewrite <-Permutation_middle.
  - intros c. clear Hready. rewrite get_insert, !(kg_indegree _ _ _ _ Hk), !fmap_cons, !occ_cons.
    cbn [snd]. rewrite (decide_True (P:=child = child)) by done. case_decide; [subst c|]; lia.
  - rewrite Hready. case_decide; [apply Hk|].
    rewrite <-Permutation_middle. apply NoDup_cons. split; [done|apply Hk].
  - intros c Hcn. pose proof (kg_nodes _ _ _ _ Hk c Hcn) as Hiff.
    rewrite fmap_cons, elem_of_cons in Hiff. cbn [snd] in Hiff. rewrite Hready.
    case_decide; [naive_solver|]. rewrite <-Permutation_middle, elem_of_cons, Hiff.
    destruct (decide (c = child)); naive_solver.
  - intros c. rewrite Hready. case_decide; [apply Hk|].
    rewrite <-Permutation_middle, elem_of_cons. intros [->|?]; [done|by apply Hk].
  - apply Hk.
  - intros p c [[= -> ->]|Hin]%elem_of_cons; [done|by eapply Hk].
Qed.

Lemma kphase_relax done relaxed phase name child :
  (∀ p c, (p, c) ∈ relaxed → p ∈ done) → child ∉ done → name ∈ done →
  kphase done relaxed (get 0 phase) → get 0 phase name < M + Z.of_nat (length done) →
  kphase done ((name, child) :: relaxed) (get 0 (raised name child phase)).
Proof.
  intros Hfrom Hnot Hname [He Hi Ht Hb] Hlt.
  assert (Hsame : ∀ p, p ∈ done → get 0 (raised name child phase) p = get 0 phase p).
  { intros p Hp. rewrite get_raised, decide_False; [done|]. by intros ->. }
  assert (Hge : ∀ c, get 0 phase c ≤ get 0 (raised name child phase) c).
  { intros c. rewrite get_raised. case_decide; subst; lia. }
  split.
  - intros p c [[= -> ->]|Hin]%elem_of_cons; rewrite Hsame by eauto.
    + rewrite get_raised, decide_True by done. lia.
    + specialize (He p c Hin). specialize (Hge c). lia.
  - intros c Hc. specialize (Hi c Hc). specialize (Hge c). lia.
  - intros c Hc.
    assert (Hold : get 0 (raised name child phase) c = get 0 phase c →
      get 0 (raised name child phase) c = init c ∨
      ∃ p, (p, c) ∈ (name, child) :: relaxed ∧
        get 0 (raised name child phase) c = get 0 (raised name child phase) p + 1).
    { intros ->. destruct (Ht c Hc) as [?|(p & Hp & ?)]; [by left|right].
      exists p. rewrite Hsame by eauto. split; [by right|done]. }
    rewrite get_raised in *. case_decide as Heq; [subst c|auto].
    destruct (decide (get 0 phase child ≤ get 0 phase name)); [|apply Hold; lia].
    right. exists name. rewrite Hsame by done. split; [left|lia].
  - intros c Hc. specialize (Hb c Hc). rewrite get_raised. case_decide; subst; lia.
Qed.

Lemma kinv_relax done relaxed todo s name child :
  kinv done relaxed ((name, child) :: todo) s → name ∈ done →
  get 0 (k_phase s) name < M + Z.of_nat (length done) →
  kinv done ((name, child) :: relaxed) todo (relax name s child) ∧
  get 0 (k_phase (relax name s child)) name = get 0 (k_phase s) name.
Proof.
  intros [Hg Hp] Hname Hlt.
  destruct (kgraph_child _ _ _ _ _ _ Hg) as (Hn & Hc & [Hnot _]%not_elem_of_app).
  pose proof (kgraph_length _ _ _ _ Hg). pose proof (init_range name Hn).
  pose proof (kp_init _ _ _ Hp name Hn).
  rewrite relax_eq by (unfold in_int64 in *; lia). split; [split|]; simpl.
  - by apply kgraph_relax.
  - apply kphase_relax; [apply (kg_from _ _ _ _ Hg)|done..].
  - rewrite get_raised, decide_False; [done|]. by intros ->.
Qed.

(** Following all the edges out of [name]. *)
Lemma kinv_visit done relaxed todo s name l :
  kinv done relaxed ((pair name <$> l) ++ todo) s → name ∈ done →
  get 0 (k_phase s) name < M + Z.of_nat (length done) →
  ∃ relaxed', kinv done relaxed' todo (foldl (relax name) s l).
Proof.
  revert relaxed s. induction l as [|c l IH]; intros relaxed s Hk Hname Hlt; simpl; [eauto|].
  csimpl in Hk. destruct (kinv_relax _ _ _ _ _ _ Hk Hname Hlt) as [Hk' Heq].
  eapply IH; [exact Hk'|done|]. by rewrite Heq.
Qed.

Lemma filter_from_relaxed done relaxed todo s name :
  kgraph done relaxed todo s → name ∉ done →
  filter (λ e, e.1 = name) edges ≡ₚ filter (λ e, e.1 = name) todo.
Proof.
  intros Hg Hno. rewrite (kg_edges _ _ _ _ Hg), filter_app.
  assert (filter (λ e : string * string, e.1 = name) relaxed = []) as ->; [|done].
  apply filter_none. intros [p c] Hin. simpl. intros ->. by apply Hno, (kg_from _ _ _ _ Hg name c).
Qed.

Lemma edges_out (l : list (string * string)) name :
  pair name <$> (filter (λ e, e.1 = name) l).*2 = filter (λ e, e.1 = name) l.
Proof.
  induction l as [|[p c] l IH]; [done|]. rewrite filter_cons. simpl.
  case_decide; csimpl; [|done]. subst. by rewrite IH.
Qed.

(** One iteration of the loop. *)
Lemma kinv_iteration done relaxed todo s name ready :
  kinv done relaxed todo s → (∀ p c, (p, c) ∈ todo → p ∉ done) →
  wl_pop (k_ready s) = Some (name, ready) →
  let s1 := s <| k_ready := ready |> <| k_processed := k_processed s + 1 |> in
  ∃ relaxed' todo',
    kinv (name :: done) relaxed' todo'
      (foldl (relax name) s1 (wl_children (get [] (adjacency edges) name))) ∧
    (∀ p c, (p, c) ∈ todo' → p ∉ name :: done).
Proof.
  intros [Hg Hp] Htodo Hpop s1. apply wl_pop_perm in Hpop.
  assert (Hcons : done ++ k_ready s ≡ₚ (name :: done) ++ ready).
  { rewrite Hpop. by rewrite <-Permutation_middle. }
  assert (Hnd : NoDup ((name :: done) ++ ready)) by (rewrite <-Hcons; apply Hg).
  assert (Hname : name ∉ done).
  { simpl in Hnd. apply NoDup_cons in Hnd as [Hno _]. by apply not_elem_of_app in Hno as [? _]. }
  assert (Hin : name ∈ nodes) by (apply (kg_in _ _ _ _ Hg); rewrite Hcons; left).
  assert (Hsplit : todo ≡ₚ (pair name <$> wl_children (get [] (adjacency edges) name)) ++
    filter (λ e, ¬ e.1 = name) todo).
  { rewrite wl_children_perm, get_adjacency, edges_out, (filter_from_relaxed _ _ _ _ _ Hg Hname).
    symmetry. apply filter_app_complement. }
  assert (Hk1 : kinv (name :: done) relaxed todo s1).
  { split.
    - destruct Hg as [He Hi _ Hn Hi' Hpr Hf]. split; try done.
      + intros c Hc. rewrite <-Hn by done. by rewrite Hcons.
      + intros c Hc. apply Hi'. by rewrite Hcons.
      + simpl. rewrite Hpr. lia.
      + intros p c Hpc. right. by eapply Hf.
    - destruct Hp as [He Hi Ht Hb]. split; try done. intros c Hc. specialize (Hb c Hc). simpl. lia. }
  destruct Hk1 as [Hg1 Hp1]. apply (kgraph_perm _ _ _ _ _ Hsplit) in Hg1.
  destruct (kinv_visit (name :: done) relaxed (filter (λ e, ¬ e.1 = name) todo) s1 name
    (wl_children (get [] (adjacency edges) name))) as [relaxed' Hk'].
  - by split.
  - left.
  - pose proof (kp_bound _ _ _ Hp name Hin). simpl. lia.
  - exists relaxed', (filter (λ e, ¬ e.1 = name) todo). split; [done|].
    intros p c [Hne Hpc]%list_elem_of_filter. simpl in Hne. rewrite not_elem_of_cons.
    split; [done|by eapply Htodo].
Qed.

(** The loop ends with an empty worklist and the invariant. *)
Lemma kahn_loop_inv fuel done relaxed todo s :
  kinv done relaxed todo s → (∀ p c, (p, c) ∈ todo → p ∉ done) →
  (length nodes ≤ fuel + length done)%nat →
  ∃ s' done' relaxed' todo', kahn_loop fuel (adjacency edges) s = Some s' ∧
    kinv done' relaxed' todo' s' ∧ (∀ p c, (p, c) ∈ todo' → p ∉ done') ∧ k_ready s' = [].
Proof.
  revert done relaxed todo s. induction fuel as [|fuel IH]; intros done relaxed todo s Hk Htodo Hfuel.
  - simpl. destruct (wl_pop (k_ready s)) as [[name ready]|] eqn:Hpop; last first.
    { apply wl_pop_none in Hpop. by exists s, done, relaxed, todo. }
    exfalso. pose proof (kgraph_length _ _ _ _ (proj1 Hk)) as Hlen.
    apply wl_pop_perm, Permutation_length in Hpop. simpl in Hpop. lia.
  - simpl. destruct (wl_pop (k_ready s)) as [[name ready]|] eqn:Hpop; last first.
    { apply wl_pop_none in Hpop. by exists s, done, relaxed, todo. }
    destruct (kinv_iteration _ _ _ _ _ _ Hk Htodo Hpop) as (relaxed' & todo' & Hk' & Htodo').
    eapply IH; [exact Hk'|done|]. simpl. lia.
Qed.

(** ** Correctness of the loop *)

Definition kahn_start (ready : list string) (phase : gmap string Z) : kahn :=
  {| k_ready := ready; k_indegree := count_edges edges; k_phase := phase; k_processed := 0 |}.

Lemma kinv_start ready phase :
  ready ≡ₚ filter (λ n, get 0 (count_edges edges) n = 0) nodes →
  (∀ c, c ∈ nodes → get 0 phase c = init c) →
  kinv [] [] edges (kahn_start ready phase).
Proof.
  intros Hready Hphase.
  assert (Hel : ∀ c, c ∈ ready ↔ c ∈ nodes ∧ c ∉ edges.*2).
  { intros c. rewrite Hready, list_elem_of_filter, get_count_edges.
    split; intros [H1 H2]; split; try done.
    - rewrite <-occ_pos. lia.
    - apply occ_not_elem in H2. lia. }
  split; split; simpl; try done.
  - intros c. apply get_count_edges.
  - rewrite Hready. by apply NoDup_filter.
  - intros c Hc. rewrite Hel. naive_solver.
  - intros c. rewrite Hel. naive_solver.
  - intros p c Hin. by apply elem_of_nil in Hin.
  - intros p c Hin. by apply elem_of_nil in Hin.
  - intros c Hc. rewrite Hphase by done. lia.
  - intros c Hc. left. auto.
  - intros c Hc. rewrite Hphase by done. pose proof (init_range c Hc). lia.
Qed.

(** The result of the loop: it never runs out of fuel; when every node was
    processed the phases are the least ones, otherwise there is a cycle. *)
Lemma kahn_correct ready phase :
  ready ≡ₚ filter (λ n, get 0 (count_edges edges) n = 0) nodes →
  (∀ c, c ∈ nodes → get 0 phase c = init c) →
  ∃ s, kahn_loop (length nodes) (adjacency edges) (kahn_start ready phase) = Some s ∧
    (k_processed s = Z.of_nat (length nodes) →
      acyclic edges ∧ phases_ok nodes edges init (get 0 (k_phase s)) ∧
      ∀ c, c ∈ nodes → get 0 (k_phase s) c ≤ M + Z.of_nat (length nodes)) ∧
    (k_processed s ≠ Z.of_nat (length nodes) → ¬ acyclic edges).
Proof.
  intros Hready Hphase.
  destruct (kahn_loop_inv (length nodes) [] [] edges (kahn_start ready phase))
    as (s & done & relaxed & todo & Hloop & [Hg Hp] & Htodo & Hempty).
  - by apply kinv_start.
  - intros p c _. apply not_elem_of_nil.
  - simpl. lia.
  - exists s. split; [done|].
    pose proof (kg_nodup _ _ _ _ Hg) as Hnd. pose proof (kg_in _ _ _ _ Hg) as Hin.
    pose proof (kg_nodes _ _ _ _ Hg) as Hn. rewrite Hempty, app_nil_r in Hnd, Hin, Hn.
    rewrite (kg_processed _ _ _ _ Hg). split.
    + intros Hall%Nat2Z.inj.
      assert (Hdone : done ≡ₚ nodes).
      { apply submseteq_length_Permutation; [by apply NoDup_submseteq|lia]. }
      assert (todo = []) as ->.
      { destruct todo as [|[p c] todo]; [done|]. exfalso. apply (Htodo p c); [left|].
        rewrite Hdone. apply (edges_in p c). rewrite (kg_edges _ _ _ _ Hg), elem_of_app. right. left. }
      pose proof (kg_edges _ _ _ _ Hg) as He. rewrite app_nil_r in He. destruct Hp as [Hpe Hpi Hpt Hpb].
      split_and!.
      * exists (λ c, Z.to_nat (get 0 (k_phase s) c - int64_min)). intros p c Hpc.
        destruct (edges_in p c Hpc) as [Hp Hc]. pose proof (Hpi p Hp). pose proof (init_range p Hp).
        rewrite He in Hpc. specialize (Hpe p c Hpc). lia.
      * split; [done| |]; setoid_rewrite He; done.
      * by rewrite <-Hall.
    + intros Hne [rank Hrank].
      assert (Hno : ∀ n c, rank c = n → c ∈ nodes → c ∈ done).
      { intros n. induction (lt_wf n) as [n _ IH]. intros c <- Hc. apply Hn; [done|].
        intros ([p c'] & Hpc & Hin')%list_elem_of_fmap. simpl in Hpc. subst c'.
        assert (Hedge : (p, c) ∈ edges) by (rewrite (kg_edges _ _ _ _ Hg), elem_of_app; by right).
        apply (Htodo p c Hin'). apply (IH _ (Hrank p c Hedge) p eq_refl). by apply (edges_in p c). }
      apply Hne. f_equal. apply Permutation_length, NoDup_Permutation; [done..|]. naive_solver.
Qed.
End correctness.

(** The two disciplines of the planner. *)

(** [PlanIntent]: take the first of a sorted list, sort after each insertion,
    visit the children in order. *)
#[refine] Instance sorted_queue : Worklist := {|
  wl_push l x := sort_Strings (l ++ [x]);
  wl_pop l := match l with [] => None | x :: l => Some (x, l) end;
  wl_children l := sort_Strings l;
|}.
Proof.
  - intros l x. rewrite sort_Strings_perm. apply Permutation_sym, Permutation_cons_append.
  - intros [|y l] x l' H; by simplify_eq.
  - by intros [|].
  - apply sort_Strings_perm.
Defined.

(** [validateGlobalOrderingGraph]: a stack, children as they were appended. *)
#[refine] Instance stack : Worklist := {|
  wl_push l x := l ++ [x];
  wl_pop l := match last l with None => None | Some x => Some (x, take (length l - 1) l) end;
  wl_children l := l;
|}.
Proof.
  - intros l x. apply Permutation_sym, Permutation_cons_append.
  - intros l x l' H. destruct (last l) as [y|] eqn:Hl; [|done]. simplify_eq.
    apply last_Some in Hl as [k ->]. rewrite length_app. simpl.
    replace (length k + 1 - 1)%nat with (length k) by lia. rewrite take_app_length.
    apply Permutation_sym, Permutation_cons_append.
  - intros l H. destruct (last l) eqn:Hl; [done|]. by apply last_None.
  - done.
Defined.
