(* ===== verification/Planner.v ===== *)
(** * Release planner (src/internal/planner/planner.go)

    A planner is built from services ([New]) or from validated contracts and
    profiles ([NewFromContracts], which also orders all services globally); an
    intent is planned by ordering the selected changes ([PlanIntent]) and a plan is
    checked against the planner that made it ([ValidatePlan]).  The clock is an
    argument, the iteration order over Go maps a parameter ([MapOrder]). *)
From S2P Require Import Prelude GoStd Sha256 Json Domain Contract Kahn.
Open Scope Z_scope.

Definition PlanAPIVersion : string := "execution.themisy.io/v1alpha1".

Definition ErrNoChanges : error := Sentinel "planner.ErrNoChanges" "at least one change is required".
Definition ErrDependencyCycle : error :=
  Sentinel "planner.ErrDependencyCycle" "dependency cycle detected".

(** ** State *)

(** [Options]; the clock [Now] is an argument of the operations that read it. *)
Record Options := {
  opt_PlanTTL : duration;
  opt_ContextSnapshotRef : string;
  opt_PolicyHash : string;
  opt_EvidenceHash : string;
}.

#[export] Instance eta_Options : Eta Options := λ r,
  {| opt_PlanTTL := opt_PlanTTL r; opt_ContextSnapshotRef := opt_ContextSnapshotRef r;
     opt_PolicyHash := opt_PolicyHash r; opt_EvidenceHash := opt_EvidenceHash r |}.

#[export] Instance Options_eq_dec : EqDecision Options.
Proof. solve_decision. Defined.

(** [environmentDefinition] *)
Record environmentDefinition := {
  ed_profile : string;
  ed_runnerGroup : string;
}.

#[export] Instance eta_environmentDefinition : Eta environmentDefinition := λ r,
  {| ed_profile := ed_profile r; ed_runnerGroup := ed_runnerGroup r |}.

#[export] Instance environmentDefinition_eq_dec : EqDecision environmentDefinition.
Proof. solve_decision. Defined.

(** [serviceDefinition] *)
Record serviceDefinition := {
  sd_service : Service;
  sd_dependencies : list Dependency;
  sd_environments : gmap string environmentDefinition;
  sd_contractHash : string;
}.

#[export] Instance eta_serviceDefinition : Eta serviceDefinition := λ r,
  {| sd_service := sd_service r; sd_dependencies := sd_dependencies r; sd_environments :=
     sd_environments r; sd_contractHash := sd_contractHash r |}.

#[export] Instance serviceDefinition_eq_dec : EqDecision serviceDefinition.
Proof. solve_decision. Defined.

(** [Planner] *)
Record Planner := {
  pl_services : gmap string Service;
  pl_definitions : gmap string serviceDefinition;
  pl_profiles : gmap string ReleaseProfile;
  pl_contractHashes : gmap string string;
  pl_profileHashes : gmap string string;
  pl_contextSnapshotRef : string;
  pl_policyHash : string;
  pl_evidenceHash : string;
  pl_planTTL : duration;
}.

#[export] Instance eta_Planner : Eta Planner := λ r,
  {| pl_services := pl_services r; pl_definitions := pl_definitions r; pl_profiles :=
     pl_profiles r; pl_contractHashes := pl_contractHashes r; pl_profileHashes :=
     pl_profileHashes r; pl_contextSnapshotRef := pl_contextSnapshotRef r; pl_policyHash :=
     pl_policyHash r; pl_evidenceHash := pl_evidenceHash r; pl_planTTL := pl_planTTL r |}.

#[export] Instance Planner_eq_dec : EqDecision Planner.
Proof. solve_decision. Defined.

(** The zero values read from a Go map that lacks the key. *)
Definition zero_Service : Service :=
  {| svc_ID := ""; svc_Name := ""; svc_OwnerTeam := ""; svc_RiskTier := ""; svc_Repository := "";
     svc_ReleasePhase := 0; svc_Dependencies := []; svc_RunnerGroups := ∅; svc_FailureDomains := [];
     svc_MetadataVersion := ""; svc_UpdatedAt := 0 |}.

Definition zero_definition : serviceDefinition :=
  {| sd_service := zero_Service; sd_dependencies := []; sd_environments := ∅; sd_contractHash := "" |}.

Definition zero_environment : environmentDefinition := {| ed_profile := ""; ed_runnerGroup := "" |}.

Definition zero_Options : Options :=
  {| opt_PlanTTL := 0; opt_ContextSnapshotRef := ""; opt_PolicyHash := ""; opt_EvidenceHash := "" |}.

(** ** JSON of the hashed values *)

Definition Change_json (c : Change) : json :=
  JObject (field "service" (JString (ch_Service c)) ++
    field "desired_version" (JString (ch_DesiredVersion c)) ++
    field "ci_success" (JBool (ch_CISuccess c)) ++
    field "dependencies_healthy" (JBool (ch_DependenciesHealthy c)) ++
    bool_omit "destructive_migration" (ch_DestructiveMigration c) ++
    string_omit "risk" (ch_Risk c)).

Definition SchedulingContext_json (s : SchedulingContext) : json :=
  JObject (field "tenant_id" (JString (sc_TenantID s)) ++
    field "environment" (JString (sc_Environment s)) ++
    field "region" (JString (sc_Region s)) ++ field "cluster" (JString (sc_Cluster s)) ++
    field "team" (JString (sc_Team s)) ++ field "risk_tier" (JString (sc_RiskTier s)) ++
    field "runner_group" (JString (sc_RunnerGroup s)) ++
    slice_omit "failure_domains" JString (sc_FailureDomains s)).

Definition PlanStep_json (s : PlanStep) : json :=
  JObject (field "service" (JString (ps_Service s)) ++
    field "desired_version" (JString (ps_DesiredVersion s)) ++
    field "phase" (JInt (ps_Phase s)) ++
    string_omit "profile" (ps_Profile s) ++
    slice_omit "dependencies" Dependency_json (ps_Dependencies s) ++
    slice_omit "required_capabilities" JString (ps_RequiredCapabilities s) ++
    string_omit "contract_hash" (ps_ContractHash s) ++
    string_omit "profile_hash" (ps_ProfileHash s) ++
    string_omit "change_hash" (ps_ChangeHash s) ++
    field "verification_required" (JBool (ps_VerificationRequired s)) ++
    string_omit "observation_window" (ps_ObservationWindow s) ++
    field "rollback_mode" (JString (ps_RollbackMode s)) ++
    field "scheduling" (SchedulingContext_json (ps_Scheduling s))).

Definition PlanPhase_json (p : PlanPhase) : json :=
  JObject (field "number" (JInt (ph_Number p)) ++
    field "steps" (slice_json PlanStep_json (ph_Steps p))).

(** The anonymous struct of [planHash]. *)
Definition plan_canonical (plan : ReleasePlan) : json :=
  JObject (field "api_version" (JString (plan_APIVersion plan)) ++
    field "release_version" (JString (plan_ReleaseVersion plan)) ++
    field "environment" (JString (plan_Environment plan)) ++
    field "phases" (slice_json PlanPhase_json (plan_Phases plan)) ++
    field "contract_hashes" (strings_map_json (plan_ContractHashes plan)) ++
    field "profile_hashes" (strings_map_json (plan_ProfileHashes plan)) ++
    field "context_snapshot_ref" (JString (plan_ContextSnapshotRef plan)) ++
    field "policy_hash" (JString (plan_PolicyHash plan)) ++
    field "evidence_hash" (JString (plan_EvidenceHash plan))).

Definition planHash (plan : ReleasePlan) : string := hash_json (plan_canonical plan).

(** The anonymous struct hashed for a service in [New]. *)
Definition service_hash (service : Service) (dependencies : list Dependency) : string :=
  hash_json (JObject (field "name" (JString (svc_Name service)) ++
    field "owner" (JString (svc_OwnerTeam service)) ++
    field "repository" (JString (svc_Repository service)) ++
    field "dependencies" (slice_json Dependency_json (sortedDependencies dependencies)))).

(** ** Construction *)

Definition newPlanner (services : gmap string Service) (definitions : gmap string serviceDefinition)
    (profiles : gmap string ReleaseProfile) (contractHashes profileHashes : gmap string string)
    (options : Options) : Planner :=
  let planTTL := if opt_PlanTTL options <=? 0 then 15 * Minute else opt_PlanTTL options in
  let contextSnapshotRef :=
    if bool_decide (opt_ContextSnapshotRef options = "") then
      "content:" +:+ hash_json (JObject (field "contracts" (strings_map_json contractHashes) ++
        field "profiles" (strings_map_json profileHashes) ++
        field "policy_hash" (JString (opt_PolicyHash options)) ++
        field "evidence_hash" (JString (opt_EvidenceHash options))))
    else opt_ContextSnapshotRef options in
  {| pl_services := services; pl_definitions := definitions; pl_profiles := profiles;
     pl_contractHashes := contractHashes; pl_profileHashes := profileHashes;
     pl_contextSnapshotRef := contextSnapshotRef; pl_policyHash := opt_PolicyHash options;
     pl_evidenceHash := opt_EvidenceHash options; pl_planTTL := planTTL |}.

(** The definition [New] makes of a service. *)
Definition legacy_definition (service : Service) : serviceDefinition :=
  let dependencies := (λ d, {| dep_Service := d; dep_Resource := ""; dep_Type := DependencyRolloutOrder;
                               dep_Condition := ""; dep_Constraint := "" |}) <$> svc_Dependencies service in
  {| sd_service := service;
     sd_dependencies := sortedDependencies dependencies;
     sd_environments :=
       <[EnvironmentStaging := {| ed_profile := "legacy"; ed_runnerGroup := "legacy-staging" |}]>
       {[EnvironmentProduction := {| ed_profile := "legacy"; ed_runnerGroup := "legacy-production" |}]};
     sd_contractHash := service_hash service dependencies |}.

(** The first loop of [New]: services by name. *)
Fixpoint load_services (services : list Service) (byName : gmap string Service) :
    result error (gmap string Service) :=
  match services with
  | [] => Ok byName
  | service :: services =>
      fail_if (bool_decide (svc_Name service = "")) (ErrorNew "service name is required");;
      fail_if (bool_decide (is_Some (byName !! svc_Name service)))
        (Errorf ("duplicate service " +:+ quote (svc_Name service)) None);;
      load_services services (<[svc_Name service := service]> byName)
  end.

Section construct.
Context `{!MapOrder}.

(** [New] *)
Definition New (services : list Service) : result error Planner :=
  byName ← load_services services ∅;
  let definitions := legacy_definition <$> byName in
  check_all (λ entry, check_all (λ dependency,
      fail_if (bool_decide (byName !! dep_Service dependency = None))
        (Errorf ("service " +:+ quote (svc_Name (sd_service entry.2)) +:+ " references unknown dependency "
                 +:+ quote (dep_Service dependency)) None)) (sd_dependencies entry.2))
    (range 0 definitions);;
  let legacyProfileHash := hash_json (strings_map_json {["name" := "legacy"]}) in
  Ok (newPlanner byName definitions ∅ (sd_contractHash <$> definitions) {["legacy" := legacyProfileHash]}
        zero_Options).

Definition missingCapabilities (actual required : list Capability) : list Capability :=
  sortedCapabilities (filter (λ c, c ∉ actual) required).

(** [%v] of a slice of strings. *)
Definition format_slice (l : list string) : string := "[" +:+ Join l " " +:+ "]".

(** The loop over profiles in [NewFromContracts]. *)
Fixpoint load_profiles (profiles : list ReleaseProfile) (byName : gmap string ReleaseProfile) :
    result error (gmap string ReleaseProfile) :=
  match profiles with
  | [] => Ok byName
  | releaseProfile :: profiles =>
      profile_Validate releaseProfile;;
      let name := pr_Name releaseProfile in
      fail_if (bool_decide (is_Some (byName !! name)))
        (NewReasonError ReasonInvalidProfile "metadata.name" ("duplicate profile " +:+ quote name) None);;
      let hash := profile_Hash releaseProfile in
      fail_if (negb (bool_decide (pr_ContentHash releaseProfile = "")) &&
               negb (bool_decide (pr_ContentHash releaseProfile = hash)))
        (NewReasonError ReasonInvalidProfile "content_hash"
           ("profile " +:+ quote name +:+ " content changed after hashing") None);;
      load_profiles profiles (<[name := releaseProfile <| pr_ContentHash := hash |>]> byName)
  end.

(** The loop over the environments of a contract: its checks. *)
Definition check_profile (profiles : gmap string ReleaseProfile) (entry : string * EnvironmentContract) :
    result error unit :=
  let '(name, environment) := entry in
  match profiles !! ec_ReleaseProfile environment with
  | None =>
      Err (NewReasonError ReasonUnknownProfile ("environments." +:+ name +:+ ".releaseProfile")
             ("profile " +:+ quote (ec_ReleaseProfile environment) +:+ " does not exist") None)
  | Some releaseProfile =>
      let missing := missingCapabilities (ec_Capabilities environment)
                       (sp_RequiredCapabilities (pr_Spec releaseProfile)) in
      fail_if (negb (bool_decide (missing = [])))
        (NewReasonError ReasonMissingCapability ("environments." +:+ name +:+ ".capabilities")
           ("profile " +:+ quote (ec_ReleaseProfile environment) +:+ " requires " +:+ format_slice missing) None)
  end.

(** A dependency that constrains the order of the rollout. *)
Definition orders_rollout (d : Dependency) : bool :=
  negb (bool_decide (dep_Service d = "")) && EnforcesRolloutOrder (dep_Type d).

(** The definition [NewFromContracts] makes of a contract. *)
Definition contract_definition (c : ServiceContract) : serviceDefinition :=
  let dependencies := sortedDependencies (ct_Dependencies c) in
  let environments := (λ e, {| ed_profile := ec_ReleaseProfile e; ed_runnerGroup := ec_RunnerGroup e |})
                      <$> ct_Environments c in
  {| sd_service :=
       {| svc_ID := md_Name (ct_Metadata c); svc_Name := md_Name (ct_Metadata c);
          svc_OwnerTeam := md_Owner (ct_Metadata c); svc_RiskTier := md_RiskTier (ct_Metadata c);
          svc_Repository := md_Repository (ct_Metadata c); svc_ReleasePhase := 0;
          svc_Dependencies := dep_Service <$> filter (λ d, orders_rollout d = true) dependencies;
          svc_RunnerGroups := ed_runnerGroup <$> environments;
          svc_FailureDomains :=
            dep_Resource <$> filter (λ d, dep_Type d = DependencySharedFailureDomain ∧ dep_Resource d ≠ "")
                               dependencies;
          svc_MetadataVersion := ct_APIVersion c; svc_UpdatedAt := 0 |};
     sd_dependencies := dependencies;
     sd_environments := environments;
     sd_contractHash := contract_Hash c |}.

(** The loop over contracts. *)
Fixpoint load_contracts (profiles : gmap string ReleaseProfile) (contracts : list ServiceContract)
    (definitions : gmap string serviceDefinition) : result error (gmap string serviceDefinition) :=
  match contracts with
  | [] => Ok definitions
  | c :: contracts =>
      contract_Validate c;;
      let name := md_Name (ct_Metadata c) in
      fail_if (bool_decide (is_Some (definitions !! name)))
        (NewReasonError ReasonInvalidContract "metadata.name" ("duplicate service " +:+ quote name) None);;
      fail_if (negb (bool_decide (ct_ContentHash c = "")) &&
               negb (bool_decide (ct_ContentHash c = contract_Hash c)))
        (NewReasonError ReasonInvalidContract "content_hash"
           ("service " +:+ quote name +:+ " content changed after hashing") None);;
      check_all (check_profile profiles) (range 1 (ct_Environments c));;
      load_contracts profiles contracts (<[name := contract_definition c]> definitions)
  end.

(** The ordering edges of all definitions, in the order of iteration. *)
Definition definition_edges (name : string) (d : serviceDefinition) : list (string * string) :=
  (λ d, (dep_Service d, name)) <$> filter (λ d, orders_rollout d = true) (sd_dependencies d).

Definition global_edges (definitions : gmap string serviceDefinition) : list (string * string) :=
  range 2 definitions ≫= λ entry, definition_edges entry.1 entry.2.

Definition global_cycle_error : error :=
  NewReasonError ReasonDependencyCycle "dependencies" "service contracts contain an ordering cycle"
    (Some ErrDependencyCycle).

(** [validateGlobalOrderingGraph]; [None] is "out of fuel". *)
Definition validateGlobalOrderingGraph (definitions : gmap string serviceDefinition) :
    option (result error (gmap string Z)) :=
  let edges := global_edges definitions in
  let indegree := count_edges edges in
  let ready := filter (λ n, get 0 indegree n = 0) (range_keys 3 definitions) in
  let start := {| k_ready := ready; k_indegree := indegree; k_phase := ∅; k_processed := 0 |} in
  match @kahn_loop stack (size definitions) (adjacency edges) start with
  | None => None
  | Some s =>
      if negb (k_processed s =? Z.of_nat (size definitions)) then Some (Err global_cycle_error)
      else Some (Ok (k_phase s))
  end.

Definition check_dependencies_exist (definitions : gmap string serviceDefinition) : result error unit :=
  check_all (λ entry, check_all (λ dependency,
      if bool_decide (dep_Service dependency = "") then Ok tt
      else fail_if (bool_decide (definitions !! dep_Service dependency = None))
        (NewReasonError ReasonUnknownDependency ("services." +:+ entry.1 +:+ ".dependencies")
           ("service " +:+ quote (dep_Service dependency) +:+ " does not exist") None))
      (sd_dependencies entry.2)) (range 4 definitions).

(** The final loop of [NewFromContracts]: the global phases become the services' own. *)
Definition apply_phases (phases : gmap string Z) (definitions : gmap string serviceDefinition) :
    gmap string serviceDefinition :=
  map_imap (λ name d, Some match phases !! name with
                           | Some phase => d <| sd_service ::= λ s, s <| svc_ReleasePhase := phase |> |>
                           | None => d
                           end) definitions.

(** [NewFromContracts]; [None] is "out of fuel". *)
Definition NewFromContracts (contracts : list ServiceContract) (profiles : list ReleaseProfile)
    (options : Options) : option (result error Planner) :=
  if bool_decide (contracts = []) then
    Some (Err (NewReasonError ReasonInvalidContract "contracts"
                 "at least one service contract is required" None))
  else
    match (profileByName ← load_profiles profiles ∅;
           definitions ← load_contracts profileByName contracts ∅;
           check_dependencies_exist definitions;; Ok (profileByName, definitions)) with
    | Err e => Some (Err e)
    | Ok (profileByName, definitions) =>
        match validateGlobalOrderingGraph definitions with
        | None => None
        | Some (Err e) => Some (Err e)
        | Some (Ok globalPhases) =>
            let definitions := apply_phases globalPhases definitions in
            Some (Ok (newPlanner (sd_service <$> definitions) definitions profileByName
                        (sd_contractHash <$> definitions) (pr_ContentHash <$> profileByName) options))
        end
    end.

(** [Planner.Services] *)
Definition Services (p : Planner) : list Service :=
  sort_Slice (less_on svc_Name String.ltb) (range_values 5 (pl_services p)).
End construct.

(** ** Planning *)

Definition IntentFromLegacy (request : ReleaseRequest) : ReleaseIntent :=
  {| in_APIVersion := ReleaseIntentAPIVersion; in_Kind := ReleaseIntentKind;
     in_RequestID := req_RequestID request; in_ReleaseVersion := req_ReleaseVersion request;
     in_TenantID := req_TenantID request; in_Environment := req_Environment request;
     in_Region := req_Region request; in_Cluster := req_Cluster request;
     in_RequestedBy := req_RequestedBy request; in_Agent := req_Agent request;
     in_Changes := req_Changes request |}.

Definition LegacyRequestFromIntent (intent : ReleaseIntent) : ReleaseRequest :=
  {| req_RequestID := in_RequestID intent; req_ReleaseVersion := in_ReleaseVersion intent;
     req_TenantID := in_TenantID intent; req_Environment := in_Environment intent;
     req_Region := in_Region intent; req_Cluster := in_Cluster intent;
     req_RequestedBy := in_RequestedBy intent; req_Agent := in_Agent intent;
     req_Changes := in_Changes intent |}.

Definition normalizedValue (value fallback : string) : string :=
  if bool_decide (value = "") then fallback else value.

(** The loop that checks the changes and keys them by service. *)
Fixpoint load_changes (p : Planner) (environment : Environment) (changes : list Change)
    (byService : gmap string Change) : result error (gmap string Change) :=
  match changes with
  | [] => Ok byService
  | change :: changes =>
      let service := ch_Service change in
      match pl_definitions p !! service with
      | None => Err (Errorf ("unknown service " +:+ quote service) None)
      | Some definition =>
          fail_if (bool_decide (sd_environments definition !! environment = None))
            (Errorf ("service " +:+ quote service +:+ " does not declare environment "
                     +:+ quote environment) None);;
          fail_if (bool_decide (ch_DesiredVersion change = ""))
            (Errorf ("desired version is required for " +:+ quote service) None);;
          fail_if (bool_decide (is_Some (byService !! service)))
            (Errorf ("duplicate change for " +:+ quote service) None);;
          load_changes p environment changes (<[service := change]> byService)
      end
  end.

Section plan.
Context `{!MapOrder}.

(** The edges between selected services, in the order of iteration. *)
Definition selected_edges (p : Planner) (changes : gmap string Change) : list (string * string) :=
  range_keys 6 changes ≫= λ name,
    filter (λ e, is_Some (changes !! e.1))
      (definition_edges name (get zero_definition (pl_definitions p) name)).

Definition initial_phase (p : Planner) (name : string) : Z :=
  svc_ReleasePhase (sd_service (get zero_definition (pl_definitions p) name)).

Definition cycle_reason : error :=
  NewReasonError ReasonDependencyCycle "changes" "selected dependencies contain a cycle"
    (Some ErrDependencyCycle).

(** The phases of the selected services. *)
Definition select_phases (p : Planner) (changes : gmap string Change) :
    option (result error (gmap string Z)) :=
  let edges := selected_edges p changes in
  let indegree := count_edges edges in
  let phase := map_imap (λ name _, Some (initial_phase p name)) changes in
  let ready := sort_Strings (filter (λ n, get 0 indegree n = 0) (range_keys 7 changes)) in
  let start := {| k_ready := ready; k_indegree := indegree; k_phase := phase; k_processed := 0 |} in
  match @kahn_loop sorted_queue (size changes) (adjacency edges) start with
  | None => None
  | Some s =>
      if negb (k_processed s =? Z.of_nat (size changes)) then Some (Err cycle_reason)
      else Some (Ok (k_phase s))
  end.

(** The step planned for one change. *)
Definition plan_step (p : Planner) (intent : ReleaseIntent) (phase : gmap string Z)
    (name : string) (change : Change) : PlanStep :=
  let definition := get zero_definition (pl_definitions p) name in
  let environment := get zero_environment (sd_environments definition) (in_Environment intent) in
  let step :=
    {| ps_Service := name; ps_DesiredVersion := ch_DesiredVersion change; ps_Phase := get 0 phase name;
       ps_Profile := ed_profile environment;
       ps_Dependencies := sortedDependencies (sd_dependencies definition);
       ps_RequiredCapabilities := [];
       ps_ContractHash := sd_contractHash definition;
       ps_ProfileHash := get "" (pl_profileHashes p) (ed_profile environment);
       ps_ChangeHash := hash_json (Change_json change);
       ps_VerificationRequired := true; ps_ObservationWindow := "1m"; ps_RollbackMode := RollbackAutomatic;
       ps_Scheduling :=
         {| sc_TenantID := normalizedValue (in_TenantID intent) "default";
            sc_Environment := in_Environment intent;
            sc_Region := normalizedValue (in_Region intent) "global";
            sc_Cluster := normalizedValue (in_Cluster intent) (ed_runnerGroup environment);
            sc_Team := svc_OwnerTeam (sd_service definition);
            sc_RiskTier := normalizedValue (svc_RiskTier (sd_service definition)) "medium";
            sc_RunnerGroup := ed_runnerGroup environment;
            sc_FailureDomains := svc_FailureDomains (sd_service definition) |} |} in
  match pl_profiles p !! ed_profile environment with
  | None => step
  | Some releaseProfile =>
      let spec := pr_Spec releaseProfile in
      step <| ps_RequiredCapabilities := sortedCapabilities (sp_RequiredCapabilities spec) |>
        <| ps_VerificationRequired := sp_VerificationRequired spec |>
        <| ps_ObservationWindow := sp_ObservationWindow spec |>
        <| ps_RollbackMode := sp_RollbackMode spec |>
  end.

(** The loop that groups the steps by phase. *)
Definition group_steps (steps : list PlanStep) : gmap Z (list PlanStep) * list Z :=
  foldl (λ acc step,
    let '(byPhase, numbers) := acc in
    let n := ps_Phase step in
    (<[n := get [] byPhase n ++ [step]]> byPhase,
     match byPhase !! n with Some _ => numbers | None => numbers ++ [n] end)) (∅, []) steps.

Definition plan_phases (steps : list PlanStep) : list PlanPhase :=
  let '(byPhase, numbers) := group_steps steps in
  (λ n, {| ph_Number := n; ph_Steps := sort_Slice (less_on ps_Service String.ltb) (get [] byPhase n) |})
    <$> sort_Ints numbers.

(** The checks of [PlanIntent] and the changes by service. *)
Definition check_intent (p : Planner) (intent : ReleaseIntent) : result error (gmap string Change) :=
  fail_if (negb (bool_decide (in_APIVersion intent = ReleaseIntentAPIVersion)))
    (NewReasonError ReasonUnsupportedSchemaVersion "api_version"
       (got_want (in_APIVersion intent) ReleaseIntentAPIVersion) None);;
  fail_if (negb (bool_decide (in_Kind intent = ReleaseIntentKind)))
    (Errorf ("unsupported intent kind " +:+ quote (in_Kind intent)) None);;
  fail_if (bool_decide (in_Changes intent = [])) ErrNoChanges;;
  fail_if (negb (bool_decide (in_Environment intent = EnvironmentStaging)) &&
           negb (bool_decide (in_Environment intent = EnvironmentProduction)))
    (Errorf ("unsupported environment " +:+ quote (in_Environment intent)) None);;
  load_changes p (in_Environment intent) (in_Changes intent) ∅.

(** The plan before its hash and identifier are set. *)
Definition unsigned_plan (p : Planner) (intent : ReleaseIntent) (steps : list PlanStep) (now : time) :
    ReleasePlan :=
  {| plan_APIVersion := PlanAPIVersion; plan_ID := "";
     plan_ReleaseVersion := in_ReleaseVersion intent; plan_Environment := in_Environment intent;
     plan_Phases := plan_phases steps; plan_Hash := ""; plan_PlanHash := "";
     plan_ContractHashes := pl_contractHashes p; plan_ProfileHashes := pl_profileHashes p;
     plan_ContextSnapshotRef := pl_contextSnapshotRef p; plan_PolicyHash := pl_policyHash p;
     plan_EvidenceHash := pl_evidenceHash p; plan_CreatedAt := now;
     plan_ExpiresAt := Add now (pl_planTTL p) |}.

Definition seal_plan (plan : ReleasePlan) : ReleasePlan :=
  let hash := planHash plan in
  plan <| plan_Hash := hash |> <| plan_PlanHash := hash |>
    <| plan_ID := "plan_" +:+ String.substring 7 24 hash |>.

(** [Planner.PlanIntent] at the instant [now]; [None] is "out of fuel". *)
Definition PlanIntent (p : Planner) (intent : ReleaseIntent) (now : time) :
    option (result error ReleasePlan) :=
  match check_intent p intent with
  | Err e => Some (Err e)
  | Ok changes =>
      match select_phases p changes with
      | None => None
      | Some (Err e) => Some (Err e)
      | Some (Ok phase) =>
          let steps := (λ e, plan_step p intent phase e.1 e.2) <$> range 8 changes in
          Some (Ok (seal_plan (unsigned_plan p intent steps now)))
      end
  end.

(** [Planner.Plan] *)
Definition Plan (p : Planner) (request : ReleaseRequest) (now : time) : option (result error ReleasePlan) :=
  PlanIntent p (IntentFromLegacy request) now.
End plan.

(** [Planner.ValidatePlan] *)
Definition ValidatePlan (p : Planner) (plan : ReleasePlan) (now : time) : result error unit :=
  let hash := planHash plan in
  fail_if (bool_decide (plan_PlanHash plan = "") || bool_decide (plan_Hash plan = "") ||
           negb (bool_decide (plan_PlanHash plan = plan_Hash plan)) ||
           negb (bool_decide (plan_PlanHash plan = hash)))
    (NewReasonError ReasonPlanHashMismatch "plan_hash" "plan content does not match its hash" None);;
  fail_if (IsZero (plan_ExpiresAt plan) || negb (Before now (plan_ExpiresAt plan)))
    (NewReasonError ReasonPlanExpired "expires_at" "plan is expired" None);;
  fail_if (negb (bool_decide (plan_ContractHashes plan = pl_contractHashes p)))
    (NewReasonError ReasonContractChanged "contract_hashes" "service contracts changed after planning" None);;
  fail_if (negb (bool_decide (plan_ProfileHashes plan = pl_profileHashes p)))
    (NewReasonError ReasonProfileChanged "profile_hashes" "release profiles changed after planning" None);;
  fail_if (negb (bool_decide (plan_ContextSnapshotRef plan = pl_contextSnapshotRef p)))
    (NewReasonError ReasonContextChanged "context_snapshot_ref" "context snapshot changed after planning" None);;
  fail_if (negb (bool_decide (plan_PolicyHash plan = pl_policyHash p)))
    (NewReasonError ReasonPolicyChanged "policy_hash" "policy changed after planning" None);;
  fail_if (negb (bool_decide (plan_EvidenceHash plan = pl_evidenceHash p)))
    (NewReasonError ReasonEvidenceChanged "evidence_hash" "evidence context changed after planning" None).

#[global] Arguments planHash : simpl never.
#[global] Arguments plan_step : simpl never.
#[global] Arguments plan_phases : simpl never.

(** ** Accepted intents *)

Definition change_ok (p : Planner) (environment : Environment) (c : Change) : Prop :=
  (∃ d, pl_definitions p !! ch_Service c = Some d ∧ is_Some (sd_environments d !! environment)) ∧
  ch_DesiredVersion c ≠ "".

Record intent_ok (p : Planner) (intent : ReleaseIntent) : Prop := {
  io_version : in_APIVersion intent = ReleaseIntentAPIVersion;
  io_kind : in_Kind intent = ReleaseIntentKind;
  io_nonempty : in_Changes intent ≠ [];
  io_environment : in_Environment intent = EnvironmentStaging ∨ in_Environment intent = EnvironmentProduction;
  io_changes : Forall (change_ok p (in_Environment intent)) (in_Changes intent);
  io_nodup : NoDup (ch_Service <$> in_Changes intent);
}.

(** The changes of an intent by service. *)
Definition changes_of (intent : ReleaseIntent) : gmap string Change :=
  index_by ch_Service id (in_Changes intent) ∅.

(** One round of the loop over the changes. *)
Lemma load_changes_cons p env c changes m0 m :
  load_changes p env (c :: changes) m0 = Ok m ↔
  change_ok p env c ∧ m0 !! ch_Service c = None ∧
  load_changes p env changes (<[ch_Service c := c]> m0) = Ok m.
Proof.
  simpl. unfold change_ok. destruct (pl_definitions p !! ch_Service c) as [d|]; [|naive_solver].
  rewrite !seq_ok, !fail_if_ok, !bool_decide_eq_false, not_eq_None_Some, <-eq_None_not_Some.
  naive_solver.
Qed.

Lemma load_changes_Ok p env changes m0 m :
  load_changes p env changes m0 = Ok m →
  Forall (change_ok p env) changes ∧ NoDup (ch_Service <$> changes) ∧
  (∀ c, c ∈ changes → m0 !! ch_Service c = None) ∧ m = index_by ch_Service id changes m0.
Proof.
  revert m0. induction changes as [|c changes IH]; intros m0 Hl.
  { injection Hl as <-. split_and!; [constructor..|set_solver|done]. }
  apply load_changes_cons in Hl as (Hc & Hm & (Hall & Hnd & Hfresh & ->)%IH).
  assert (Hnot : ch_Service c ∉ ch_Service <$> changes).
  { intros (d & Hd & Hin)%list_elem_of_fmap. specialize (Hfresh d Hin).
    by rewrite <-Hd, lookup_insert_eq in Hfresh. }
  split_and!; [by constructor|by constructor| |done].
  intros d [->|Hd]%elem_of_cons; [done|].
  specialize (Hfresh d Hd). by apply lookup_insert_None in Hfresh as [? _].
Qed.

Lemma load_changes_intro p env changes m0 :
  Forall (change_ok p env) changes → NoDup (ch_Service <$> changes) →
  (∀ c, c ∈ changes → m0 !! ch_Service c = None) →
  load_changes p env changes m0 = Ok (index_by ch_Service id changes m0).
Proof.
  intros Hall. revert m0. induction Hall as [|c changes Hc Hall IH]; intros m0 Hnd Hfresh; [done|].
  csimpl in Hnd. apply NoDup_cons in Hnd as [Hnot Hnd]. apply load_changes_cons.
  split_and!; [done|apply Hfresh; left|]. apply IH; [done|].
  intros d Hd. rewrite lookup_insert_ne; [apply Hfresh; by right|].
  intros Heq. apply Hnot. rewrite Heq. by apply list_elem_of_fmap_2.
Qed.

Lemma check_intent_Ok p intent changes :
  check_intent p intent = Ok changes ↔ intent_ok p intent ∧ changes = changes_of intent.
Proof.
  unfold check_intent. rewrite !seq_ok, !fail_if_ok, andb_false_iff, !negb_false_iff.
  rewrite !bool_decide_eq_true, bool_decide_eq_false. split.
  - intros (? & ? & ? & ? & (? & ? & _ & ->)%load_changes_Ok). by split.
  - intros [[] ->]. split_and!; try done. apply load_changes_intro; [done..|].
    intros. apply lookup_empty.
Qed.

(** ** Selected edges *)

Section selected.
Context (p : Planner).
Implicit Types changes : gmap string Change.

(** [name] waits for [dep]: both are selected and [name] declares an ordering
    dependency on [dep]. *)
Definition waits_for changes (dep name : string) : Prop :=
  is_Some (changes !! dep) ∧ is_Some (changes !! name) ∧
  ∃ d, d ∈ sd_dependencies (get zero_definition (pl_definitions p) name) ∧
    orders_rollout d = true ∧ dep_Service d = dep.

Lemma elem_of_selected_edges `{!MapOrder} changes dep name :
  (dep, name) ∈ selected_edges p changes ↔ waits_for changes dep name.
Proof.
  unfold selected_edges, waits_for, definition_edges. rewrite list_elem_of_bind. split.
  - intros (n & [Hs Hin]%list_elem_of_filter & Hn%elem_of_range_keys).
    apply list_elem_of_fmap in Hin as (d & [= -> ->] & [Ho Hd]%list_elem_of_filter). eauto 10.
  - intros (Hs & Hn & d & Hd & Ho & <-). exists name. rewrite elem_of_range_keys. split; [|done].
    apply list_elem_of_filter. split; [done|]. apply list_elem_of_fmap.
    exists d. split; [done|]. by apply list_elem_of_filter.
Qed.

(** The phases of the planner leave room for the machine integers. *)
Definition phases_fit changes : Prop :=
  ∀ name, is_Some (changes !! name) →
    int64_min ≤ initial_phase p name ≤ int64_max - Z.of_nat (size changes).

Lemma select_phases_spec `{!MapOrder} changes :
  phases_fit changes →
  let edges := selected_edges p changes in
  let nodes := range_keys 7 changes in
  (∃ phase, select_phases p changes = Some (Ok phase) ∧ acyclic edges ∧
     phases_ok nodes edges (initial_phase p) (get 0 phase)) ∨
  select_phases p changes = Some (Err cycle_reason) ∧ ¬ acyclic edges.
Proof.
  intros Hfit edges nodes. unfold select_phases. fold edges nodes.
  assert (Hlen : length nodes = size changes) by (unfold nodes, range_keys; by rewrite length_fmap, length_range).
  set (ready := sort_Strings _). set (phase0 := map_imap _ changes).
  destruct (@kahn_correct sorted_queue nodes edges (initial_phase p) (int64_max - Z.of_nat (size changes)))
    with (ready := ready) (phase := phase0) as (s & Hloop & Hok & Hno).
  - apply NoDup_range_keys.
  - intros a b (Ha & Hb & _)%elem_of_selected_edges. split; by apply elem_of_range_keys.
  - intros c Hc%elem_of_range_keys. by apply Hfit.
  - lia.
  - unfold ready. apply sort_Strings_perm.
  - intros c [x Hx]%elem_of_range_keys. unfold get, phase0. by rewrite map_lookup_imap, Hx.
  - rewrite Hlen in *. unfold kahn_start in Hloop. rewrite Hloop.
    destruct (k_processed s =? Z.of_nat (size changes)) eqn:Hp; reflect_bools; simpl.
    + left. exists (k_phase s). destruct (Hok Hp) as (? & ? & _). done.
    + right. split; [done|]. by apply Hno.
Qed.
End selected.

(** ** Grouping by phase *)

Lemma group_steps_spec steps :
  let '(byPhase, numbers) := group_steps steps in
  (∀ n, get [] byPhase n = filter (λ s, ps_Phase s = n) steps) ∧
  (∀ n, is_Some (byPhase !! n) ↔ n ∈ numbers) ∧
  NoDup numbers ∧ (∀ n, n ∈ numbers ↔ n ∈ ps_Phase <$> steps).
Proof.
  induction steps as [|s steps IH] using rev_ind.
  { simpl. split_and!; [|intros n; rewrite lookup_empty|constructor|done].
    - intros n. apply get_empty.
    - split; [by intros []|]. by intros ?%not_elem_of_nil. }
  unfold group_steps in *. rewrite foldl_snoc. destruct (foldl _ _ steps) as [m numbers].
  destruct IH as (Hget & Hdom & Hnd & Hel). simpl.
  assert (Hnew : (match m !! ps_Phase s with Some _ => numbers | None => numbers ++ [ps_Phase s] end) =
    if decide (ps_Phase s ∈ numbers) then numbers else numbers ++ [ps_Phase s]).
  { case_decide as Hin; apply Hdom in Hin || (rewrite <-Hdom, <-eq_None_not_Some in Hin).
    - by destruct Hin as [? ->].
    - by rewrite Hin. }
  rewrite Hnew. clear Hnew. split_and!.
  - intros n. rewrite get_insert, filter_app, filter_cons, filter_nil, Hget.
    case_decide; [by subst|]. by rewrite Hget, app_nil_r.
  - intros n. rewrite lookup_insert_is_Some', Hdom.
    case_decide; rewrite ?elem_of_app, ?list_elem_of_singleton; naive_solver.
  - case_decide; [done|]. apply NoDup_app. split_and!; [done| |apply NoDup_singleton].
    by intros x Hx ->%list_elem_of_singleton.
  - intros n. rewrite fmap_app, elem_of_app, <-Hel, fmap_cons, fmap_nil, list_elem_of_singleton.
    case_decide; rewrite ?elem_of_app, ?list_elem_of_singleton; naive_solver.
Qed.

(** The phases of a plan, as a function of its steps. *)
Lemma plan_phases_spec steps :
  ∃ numbers, plan_phases steps =
    (λ n, {| ph_Number := n; ph_Steps := sort_Slice (less_on ps_Service String.ltb)
               (filter (λ s, ps_Phase s = n) steps) |}) <$> sort_Ints numbers ∧
  NoDup numbers ∧ (∀ n, n ∈ numbers ↔ n ∈ ps_Phase <$> steps).
Proof.
  unfold plan_phases. pose proof (group_steps_spec steps) as Hspec.
  destruct (group_steps steps) as [m numbers]. destruct Hspec as (Hget & _ & Hnd & Hel).
  exists numbers. split_and!; [|done..]. apply list_fmap_ext. intros i n _. by rewrite Hget.
Qed.

Lemma plan_phases_perm steps steps' :
  NoDup (ps_Service <$> steps) → steps ≡ₚ steps' → plan_phases steps = plan_phases steps'.
Proof.
  intros Hnd Hp. destruct (plan_phases_spec steps) as (ns & -> & Hns & Hel),
    (plan_phases_spec steps') as (ns' & -> & Hns' & Hel').
  assert (ns ≡ₚ ns') as Hperm.
  { apply NoDup_Permutation; [done..|]. intros n. by rewrite Hel, Hel', Hp. }
  rewrite (sort_Ints_canonical _ _ Hperm). apply list_fmap_ext. intros i n _. f_equal.
  apply sort_on_canonical; [apply _| |by rewrite Hp].
  eapply sublist_NoDup; [exact Hnd|]. apply fmap_sublist, sublist_filter.
Qed.

Lemma elem_of_plan_phases steps s :
  s ∈ plan_phases steps ≫= ph_Steps ↔ s ∈ steps.
Proof.
  destruct (plan_phases_spec steps) as (ns & -> & _ & Hel). rewrite list_elem_of_bind. split.
  - intros (ph & Hs & (n & -> & _)%list_elem_of_fmap). simpl in Hs.
    by apply elem_of_sort_Slice, list_elem_of_filter in Hs as [_ ?].
  - intros Hs. eexists. split; last first.
    + apply list_elem_of_fmap. exists (ps_Phase s). split; [done|].
      rewrite sort_Ints_perm, Hel. by apply list_elem_of_fmap_2.
    + simpl. by apply elem_of_sort_Slice, list_elem_of_filter.
Qed.

Lemma plan_phases_steps steps : (plan_phases steps ≫= ph_Steps) ≡ₚ steps.
Proof.
  destruct (plan_phases_spec steps) as (ns & -> & Hnd & Hel).
  assert (Hflat : (((λ n, {| ph_Number := n; ph_Steps := sort_Slice (less_on ps_Service String.ltb)
    (filter (λ s, ps_Phase s = n) steps) |}) <$> sort_Ints ns) ≫= ph_Steps) ≡ₚ
    (ns ≫= (λ n, filter (λ s, ps_Phase s = n) steps))).
  { rewrite <-(sort_Ints_perm ns) at 2. generalize (sort_Ints ns). intros l.
    induction l as [|n l IH]; [done|]. csimpl. by rewrite IH, sort_Slice_perm. }
  rewrite Hflat. clear Hflat.
  assert (Hall : filter (λ s, ps_Phase s ∈ ns) steps = steps).
  { apply filter_all. intros s Hs. apply Hel. by apply list_elem_of_fmap_2. }
  transitivity (filter (λ s, ps_Phase s ∈ ns) steps); [|by rewrite Hall].
  clear Hall Hel. induction Hnd as [|n ns Hn Hnd IH]; csimpl.
  - symmetry. rewrite filter_none; [done|]. intros s _. apply not_elem_of_nil.
  - rewrite IH. clear IH. induction steps as [|s steps IH]; [done|].
    rewrite !filter_cons. destruct (decide (ps_Phase s = n)) as [Heq|Hne].
    + rewrite (decide_False (P:=ps_Phase s ∈ ns)) by by rewrite Heq.
      rewrite (decide_True (P:=ps_Phase s ∈ n :: ns)) by (rewrite Heq; left). simpl. by rewrite IH.
    + destruct (decide (ps_Phase s ∈ ns)).
      * rewrite (decide_True (P:=ps_Phase s ∈ n :: ns)) by (by right).
        by rewrite <-IH, <-Permutation_middle.
      * rewrite (decide_False (P:=ps_Phase s ∈ n :: ns)) by (by rewrite not_elem_of_cons). done.
Qed.

(** ** Plans *)

Lemma plan_step_fields p intent phase name change :
  let s := plan_step p intent phase name change in
  ps_Service s = name ∧ ps_Phase s = get 0 phase name ∧
  ps_DesiredVersion s = ch_DesiredVersion change ∧ ps_ChangeHash s = hash_json (Change_json change) ∧
  ps_Dependencies s = sortedDependencies (sd_dependencies (get zero_definition (pl_definitions p) name)).
Proof. unfold plan_step. simpl. by destruct (pl_profiles p !! _). Qed.

(** What a plan promises for the intent it was made from. *)
Record plan_ok (p : Planner) (intent : ReleaseIntent) (plan : ReleasePlan) : Prop := {
  (** one step per change, for its version and hash *)
  pk_services : ps_Service <$> (plan_Phases plan ≫= ph_Steps) ≡ₚ ch_Service <$> in_Changes intent;
  pk_changes s : s ∈ plan_Phases plan ≫= ph_Steps →
    ∃ c, c ∈ in_Changes intent ∧ ch_Service c = ps_Service s ∧
      ps_DesiredVersion s = ch_DesiredVersion c ∧ ps_ChangeHash s = hash_json (Change_json c);
  (** the phases are numbered in strictly increasing order, and not empty *)
  pk_numbers : StronglySorted Z.lt (ph_Number <$> plan_Phases plan);
  pk_phase ph s : ph ∈ plan_Phases plan → s ∈ ph_Steps ph → ps_Phase s = ph_Number ph;
  pk_nonempty ph : ph ∈ plan_Phases plan → ph_Steps ph ≠ [];
  (** a step comes in a later phase than the steps it depends on *)
  pk_order s t d : s ∈ plan_Phases plan ≫= ph_Steps → t ∈ plan_Phases plan ≫= ph_Steps →
    d ∈ ps_Dependencies t → orders_rollout d = true → dep_Service d = ps_Service s →
    ps_Phase s < ps_Phase t;
  (** and in the least such phase above its service's own *)
  pk_floor s : s ∈ plan_Phases plan ≫= ph_Steps → initial_phase p (ps_Service s) ≤ ps_Phase s;
  pk_least s : s ∈ plan_Phases plan ≫= ph_Steps → ps_Phase s = initial_phase p (ps_Service s) ∨
    ∃ t d, t ∈ plan_Phases plan ≫= ph_Steps ∧ d ∈ ps_Dependencies s ∧ orders_rollout d = true ∧
      dep_Service d = ps_Service t ∧ ps_Phase s = ps_Phase t + 1;
}.

(** The steps of a plan. *)
Definition planned_steps `{!MapOrder} (p : Planner) (intent : ReleaseIntent) (changes : gmap string Change)
    (phase : gmap string Z) : list PlanStep :=
  (λ e, plan_step p intent phase e.1 e.2) <$> range 8 changes.

Lemma planned_services `{!MapOrder} p intent changes phase :
  ps_Service <$> planned_steps p intent changes phase = range_keys 8 changes.
Proof.
  unfold planned_steps, range_keys. rewrite <-list_fmap_compose. apply list_fmap_ext.
  intros i [name c] _. simpl. by destruct (plan_step_fields p intent phase name c) as (-> & _).
Qed.

Lemma elem_of_planned `{!MapOrder} p intent changes phase s :
  s ∈ planned_steps p intent changes phase ↔
  ∃ name c, changes !! name = Some c ∧ s = plan_step p intent phase name c.
Proof.
  unfold planned_steps. rewrite list_elem_of_fmap. split.
  - intros ([name c] & -> & Hin%elem_of_range). eauto.
  - intros (name & c & Hc & ->). exists (name, c). by rewrite elem_of_range.
Qed.

Lemma StronglySorted_lt_NoDup l : NoDup l → StronglySorted Z.lt (sort_Ints l).
Proof.
  intros Hnd. rewrite <-(sort_Ints_perm l) in Hnd.
  assert (Hss : StronglySorted Z.le (sort_Ints l)) by (apply StronglySorted_merge_sort; apply _).
  induction Hss as [|x l' Hl IH Hx]; [constructor|]. apply NoDup_cons in Hnd as [Hno Hnd].
  constructor; [auto|]. rewrite Forall_forall in *. intros y Hy. specialize (Hx y Hy).
  assert (x ≠ y) by by intros ->. lia.
Qed.

Lemma plan_ok_intro `{!MapOrder} p intent now phase :
  intent_ok p intent →
  let changes := changes_of intent in
  phases_ok (range_keys 7 changes) (selected_edges p changes) (initial_phase p) (get 0 phase) →
  plan_ok p intent (unsigned_plan p intent (planned_steps p intent changes phase) now).
Proof.
  intros Hi changes Hphases.
  assert (Hlk : ∀ name c, changes !! name = Some c ↔ c ∈ in_Changes intent ∧ ch_Service c = name).
  { intros. unfold changes, changes_of. rewrite lookup_index_by_empty by apply Hi. naive_solver. }
  set (steps := planned_steps p intent changes phase).
  assert (Hel : ∀ s, s ∈ plan_phases steps ≫= ph_Steps ↔ _) by
    (intros s; rewrite elem_of_plan_phases; apply elem_of_planned).
  destruct (plan_phases_spec steps) as (ns & Heq & Hnd & Hns). split; cbn [plan_Phases unsigned_plan].
  - rewrite plan_phases_steps. unfold steps. rewrite planned_services.
    apply NoDup_Permutation; [apply NoDup_range_keys|apply Hi|]. intros k.
    rewrite elem_of_range_keys. apply index_by_keys, Hi.
  - intros s (name & c & [Hc <-]%Hlk & ->)%Hel. exists c.
    by destruct (plan_step_fields p intent phase (ch_Service c) c) as (-> & _ & -> & -> & _).
  - rewrite Heq, <-list_fmap_compose, list_fmap_id. by apply StronglySorted_lt_NoDup.
  - intros ph s Hph Hs. rewrite Heq in Hph. apply list_elem_of_fmap in Hph as (n & -> & _).
    simpl in *. by apply elem_of_sort_Slice, list_elem_of_filter in Hs as [? _].
  - intros ph Hph. rewrite Heq in Hph. apply list_elem_of_fmap in Hph as (n & -> & Hn). simpl.
    rewrite sort_Ints_perm, Hns in Hn. apply list_elem_of_fmap in Hn as (s & -> & Hs). intros Hnil.
    apply (not_elem_of_nil s). rewrite <-Hnil. by apply elem_of_sort_Slice, list_elem_of_filter.
  - intros s t d (a & c & Ha & ->)%Hel (b & c' & Hb & ->)%Hel.
    destruct (plan_step_fields p intent phase a c) as (-> & -> & _ & _ & _),
      (plan_step_fields p intent phase b c') as (_ & -> & _ & _ & ->).
    unfold sortedDependencies. rewrite elem_of_sort_Slice. intros Hd Ho <-.
    apply (po_edge _ _ _ _ Hphases), elem_of_selected_edges. by split_and!; eauto.
  - intros s (a & c & Ha & ->)%Hel. destruct (plan_step_fields p intent phase a c) as (-> & -> & _).
    apply (po_init _ _ _ _ Hphases), elem_of_range_keys. by eexists.
  - intros s (a & c & Ha & ->)%Hel.
    destruct (plan_step_fields p intent phase a c) as (-> & -> & _ & _ & ->).
    destruct (po_tight _ _ _ _ Hphases a) as [?|(q & Hq & Hph)]; [|by left|right].
    { apply elem_of_range_keys. by eexists. }
    apply elem_of_selected_edges in Hq as ([cq Hcq] & _ & d & Hd & Ho & <-).
    exists (plan_step p intent phase (dep_Service d) cq), d. rewrite Hel.
    destruct (plan_step_fields p intent phase (dep_Service d) cq) as (-> & -> & _).
    unfold sortedDependencies. rewrite elem_of_sort_Slice. eauto 10.
Qed.

(** The cases of [PlanIntent] on an accepted intent. *)
Lemma PlanIntent_cases `{!MapOrder} p intent now :
  intent_ok p intent → phases_fit p (changes_of intent) →
  (∃ phase, acyclic (selected_edges p (changes_of intent)) ∧
     phases_ok (range_keys 7 (changes_of intent)) (selected_edges p (changes_of intent))
       (initial_phase p) (get 0 phase) ∧
     PlanIntent p intent now = Some (Ok (seal_plan (unsigned_plan p intent
       (planned_steps p intent (changes_of intent) phase) now)))) ∨
  ¬ acyclic (selected_edges p (changes_of intent)) ∧ PlanIntent p intent now = Some (Err cycle_reason).
Proof.
  intros Hi Hfit. unfold PlanIntent.
  rewrite (proj2 (check_intent_Ok p intent _) (conj Hi eq_refl)).
  destruct (select_phases_spec p _ Hfit) as [(phase & -> & Hac & Hok)|[-> Hno]]; [left|by right].
  exists phase. done.
Qed.

Lemma PlanIntent_accepted `{!MapOrder} p intent now plan :
  PlanIntent p intent now = Some (Ok plan) → intent_ok p intent.
Proof.
  unfold PlanIntent. destruct (check_intent p intent) as [changes|] eqn:Hc; [|done].
  by apply check_intent_Ok in Hc as [? _].
Qed.

Lemma plan_ok_seal p intent plan : plan_ok p intent plan → plan_ok p intent (seal_plan plan).
Proof. by intros []. Qed.

(** ** Independence of the iteration order *)

Lemma phases_ok_ext nodes nodes' edges edges' init phase :
  (∀ c, c ∈ nodes ↔ c ∈ nodes') → (∀ p c, (p, c) ∈ edges ↔ (p, c) ∈ edges') →
  phases_ok nodes edges init phase → phases_ok nodes' edges' init phase.
Proof.
  intros Hn He [Hi Hedge Ht]. split.
  - intros c Hc%Hn. auto.
  - intros a b Hab%He. auto.
  - intros c Hc%Hn. destruct (Ht c Hc) as [?|(a & Ha%He & ?)]; eauto.
Qed.

Lemma plan_step_phase p intent ph1 ph2 name c :
  get 0 ph1 name = get 0 ph2 name → plan_step p intent ph1 name c = plan_step p intent ph2 name c.
Proof. intros Heq. unfold plan_step. by rewrite Heq. Qed.

Lemma planned_steps_perm (o1 o2 : MapOrder) p intent changes ph1 ph2 :
  (∀ name, is_Some (changes !! name) → get 0 ph1 name = get 0 ph2 name) →
  @planned_steps o1 p intent changes ph1 ≡ₚ @planned_steps o2 p intent changes ph2.
Proof.
  intros Hph. unfold planned_steps. rewrite (range_canonical o1 o2 8 8).
  apply reflexive_eq, list_fmap_ext. intros i [name c] Hi. apply plan_step_phase, Hph.
  exists c. by apply (elem_of_range 8), list_elem_of_lookup_2 with i.
Qed.

(** The intent with its changes in another order. *)
Lemma intent_ok_perm p intent changes :
  in_Changes intent ≡ₚ changes → intent_ok p intent → intent_ok p (intent <| in_Changes := changes |>).
Proof.
  intros Hp [? ? Hne ? Hall Hnd]. split; simpl; try done.
  - intros ->. by apply Permutation_nil_r in Hp.
  - by rewrite <-Hp.
  - by rewrite <-Hp.
Qed.

Lemma changes_of_perm intent changes :
  NoDup (ch_Service <$> in_Changes intent) → in_Changes intent ≡ₚ changes →
  changes_of (intent <| in_Changes := changes |>) = changes_of intent.
Proof. intros Hnd Hp. symmetry. by apply index_by_perm. Qed.

(** ** Validation of plans *)

(** What [ValidatePlan] accepts. *)
Record plan_current (p : Planner) (plan : ReleasePlan) (now : time) : Prop := {
  pc_hash : plan_PlanHash plan = planHash plan;
  pc_hashes : plan_Hash plan = plan_PlanHash plan;
  pc_nonempty : plan_PlanHash plan ≠ "";
  pc_expiry : plan_ExpiresAt plan ≠ 0 ∧ now < plan_ExpiresAt plan;
  pc_contracts : plan_ContractHashes plan = pl_contractHashes p;
  pc_profiles : plan_ProfileHashes plan = pl_profileHashes p;
  pc_context : plan_ContextSnapshotRef plan = pl_contextSnapshotRef p;
  pc_policy : plan_PolicyHash plan = pl_policyHash p;
  pc_evidence : plan_EvidenceHash plan = pl_evidenceHash p;
}.

Lemma ValidatePlan_Ok p plan now : ValidatePlan p plan now = Ok tt ↔ plan_current p plan now.
Proof.
  unfold ValidatePlan. rewrite !seq_ok, !fail_if_ok, !orb_false_iff, !negb_false_iff, !bool_decide_eq_true,
    !bool_decide_eq_false. unfold IsZero, Before. rewrite Z.eqb_neq, Z.ltb_lt. split.
  - intros ([[[? ?] ?] ?] & [? ?] & ? & ? & ? & ? & ?). by split.
  - intros [Hh Hhs Hne [? ?] ? ? ? ? ?]. rewrite Hhs. split_and!; done.
Qed.

Lemma planHash_seal plan : planHash (seal_plan plan) = planHash plan.
Proof. done. Qed.

Lemma planHash_nonempty plan : planHash plan ≠ "".
Proof. done. Qed.

(** ** The hash of a plan determines its content *)

#[export] Instance SchedulingContext_json_inj : Inj (=) (=) SchedulingContext_json.
Proof. intros x y H. json_inj H. destruct x, y. by simplify_eq/=. Qed.

#[export] Instance PlanStep_json_inj : Inj (=) (=) PlanStep_json.
Proof.
  intros x y H. json_inj H.
  match goal with Hs : SchedulingContext_json _ = _ |- _ => apply (inj SchedulingContext_json) in Hs end.
  destruct x, y. by simplify_eq/=.
Qed.

#[export] Instance PlanPhase_json_inj : Inj (=) (=) PlanPhase_json.
Proof. intros x y H. json_inj H. destruct x, y. by simplify_eq/=. Qed.

(** The content that is hashed: all but the identifier, the hashes and the dates. *)
Definition same_content (p1 p2 : ReleasePlan) : Prop :=
  plan_APIVersion p1 = plan_APIVersion p2 ∧ plan_ReleaseVersion p1 = plan_ReleaseVersion p2 ∧
  plan_Environment p1 = plan_Environment p2 ∧ plan_Phases p1 = plan_Phases p2 ∧
  plan_ContractHashes p1 = plan_ContractHashes p2 ∧ plan_ProfileHashes p1 = plan_ProfileHashes p2 ∧
  plan_ContextSnapshotRef p1 = plan_ContextSnapshotRef p2 ∧ plan_PolicyHash p1 = plan_PolicyHash p2 ∧
  plan_EvidenceHash p1 = plan_EvidenceHash p2.

Lemma plan_canonical_inj p1 p2 : plan_canonical p1 = plan_canonical p2 → same_content p1 p2.
Proof. unfold plan_canonical, strings_map_json. intros H. json_inj H. unfold same_content. by split_and!. Qed.

(** ** The global order of the contracts *)

Section global.
Context `{!MapOrder}.
Implicit Types definitions : gmap string serviceDefinition.

Definition orders definitions (dep name : string) : Prop :=
  ∃ sd d, definitions !! name = Some sd ∧ d ∈ sd_dependencies sd ∧
    orders_rollout d = true ∧ dep_Service d = dep.

Lemma elem_of_global_edges definitions dep name :
  (dep, name) ∈ global_edges definitions ↔ orders definitions dep name.
Proof.
  unfold global_edges, orders, definition_edges. rewrite list_elem_of_bind. split.
  - intros ([n sd] & Hin & Hr%elem_of_range).
    apply list_elem_of_fmap in Hin as (d & [= -> ->] & [Ho Hd]%list_elem_of_filter). eauto 10.
  - intros (sd & d & Hn & Hd & Ho & <-). exists (name, sd). rewrite elem_of_range. split; [|done].
    apply list_elem_of_fmap. exists d. split; [done|]. by apply list_elem_of_filter.
Qed.

Lemma check_dependencies_exist_ok definitions :
  check_dependencies_exist definitions = Ok tt →
  ∀ dep name, orders definitions dep name → is_Some (definitions !! dep).
Proof.
  unfold check_dependencies_exist. rewrite check_all_ok, Forall_forall.
  intros Hall dep name (sd & d & Hn & Hd & Ho & <-).
  specialize (Hall (name, sd)). rewrite elem_of_range in Hall. specialize (Hall Hn). simpl in Hall.
  rewrite check_all_ok, Forall_forall in Hall. specialize (Hall d Hd). simpl in Hall.
  unfold orders_rollout in Ho. apply andb_true_iff in Ho as [Hne%negb_true_iff _].
  rewrite Hne in Hall. rewrite fail_if_ok, bool_decide_eq_false in Hall. by apply not_eq_None_Some.
Qed.

Lemma global_phases_spec definitions :
  (∀ dep name, orders definitions dep name → is_Some (definitions !! dep)) →
  Z.of_nat (size definitions) ≤ int64_max →
  (∃ phases, validateGlobalOrderingGraph definitions = Some (Ok phases) ∧
     (∀ dep name, orders definitions dep name → get 0 phases dep < get 0 phases name) ∧
     (∀ name, is_Some (definitions !! name) → 0 ≤ get 0 phases name ≤ Z.of_nat (size definitions))) ∨
  validateGlobalOrderingGraph definitions = Some (Err global_cycle_error) ∧
  ¬ acyclic (global_edges definitions).
Proof.
  intros Hex Hfit. unfold validateGlobalOrderingGraph.
  set (nodes := range_keys 3 definitions). set (edges := global_edges definitions).
  assert (Hlen : length nodes = size definitions)
    by (unfold nodes, range_keys; by rewrite length_fmap, length_range).
  destruct (@kahn_correct stack nodes edges (λ _, 0) 0)
    with (ready := filter (λ n, get 0 (count_edges edges) n = 0) nodes) (phase := (∅ : gmap string Z))
    as (s & Hloop & Hok & Hno).
  - apply NoDup_range_keys.
  - intros a b Hab%elem_of_global_edges. unfold nodes. rewrite !elem_of_range_keys.
    split; [by eapply Hex|]. destruct Hab as (sd & d & ? & _). by eexists.
  - intros c _. vm_compute. split; discriminate.
  - lia.
  - done.
  - intros c _. apply get_empty.
  - rewrite Hlen in *. unfold kahn_start in Hloop. rewrite Hloop.
    destruct (k_processed s =? Z.of_nat (size definitions)) eqn:Hp; reflect_bools; simpl.
    + left. exists (k_phase s). destruct (Hok Hp) as (_ & [Hi He _] & Hb). split_and!; [done| |].
      * intros dep name Hd. apply He. by apply elem_of_global_edges.
      * intros name Hn%(elem_of_range_keys 3). split; [by apply Hi|by apply Hb].
    + right. split; [done|]. by apply Hno.
Qed.

Lemma load_contracts_fresh profiles contracts definitions definitions' :
  load_contracts profiles contracts definitions = Ok definitions' →
  map_Forall (λ _ d, svc_ReleasePhase (sd_service d) = 0) definitions →
  map_Forall (λ _ d, svc_ReleasePhase (sd_service d) = 0) definitions' ∧
  (size definitions' ≤ size definitions + length contracts)%nat.
Proof.
  revert definitions. induction contracts as [|c contracts IH]; intros definitions Hl Hall; simpl in Hl.
  { injection Hl as <-. split; [done|lia]. }
  rewrite !seq_ok in Hl. destruct Hl as (_ & _ & _ & _ & [Hall' Hsize]%IH).
  - split; [done|]. rewrite map_size_insert in Hsize. simpl. destruct (_ !! _); simpl in Hsize; lia.
  - by apply map_Forall_insert_2.
Qed.

Lemma lookup_apply_phases phases definitions name :
  map_Forall (λ _ d, svc_ReleasePhase (sd_service d) = 0) definitions →
  match definitions !! name, apply_phases phases definitions !! name with
  | Some d, Some d' => sd_dependencies d' = sd_dependencies d ∧
      sd_environments d' = sd_environments d ∧ svc_ReleasePhase (sd_service d') = get 0 phases name
  | None, None => True
  | _, _ => False
  end.
Proof.
  intros Hall. unfold apply_phases. rewrite map_lookup_imap.
  destruct (definitions !! name) as [d|] eqn:Hd; simpl; [|done].
  unfold get. destruct (phases !! name) as [ph|]; simpl; split_and!; try done. by apply (Hall name).
Qed.

(** What a planner built from contracts guarantees. *)
Lemma NewFromContracts_ordered contracts profiles options p :
  Z.of_nat (length contracts) ≤ int64_max →
  NewFromContracts contracts profiles options = Some (Ok p) →
  (∀ dep name, orders (pl_definitions p) dep name → initial_phase p dep < initial_phase p name) ∧
  (∀ name, is_Some (pl_definitions p !! name) →
    0 ≤ initial_phase p name ≤ Z.of_nat (length contracts)).
Proof.
  intros Hfit. unfold NewFromContracts. case_bool_decide; [done|].
  destruct (load_profiles profiles ∅) as [profs|]; simpl; [|done].
  destruct (load_contracts profs contracts ∅) as [defs|] eqn:Hl; simpl; [|done].
  destruct (check_dependencies_exist defs) as [[]|] eqn:Hc; [|done].
  apply load_contracts_fresh in Hl as [Hz Hsize]; [|apply map_Forall_empty].
  rewrite map_size_empty in Hsize. simpl in Hsize.
  destruct (global_phases_spec defs) as [(phases & -> & Hord & Hrange)|[-> _]];
    [by apply check_dependencies_exist_ok|lia| |done].
  intros [= <-].
  assert (Hph : ∀ name, is_Some (defs !! name) →
    initial_phase (newPlanner (sd_service <$> apply_phases phases defs) (apply_phases phases defs) profs
      (sd_contractHash <$> apply_phases phases defs) (pr_ContentHash <$> profs) options) name = get 0 phases name).
  { intros name [d Hd]. pose proof (lookup_apply_phases phases defs name Hz) as Hlk.
    rewrite Hd in Hlk. unfold initial_phase, newPlanner. cbn [pl_definitions]. unfold get at 1.
    destruct (apply_phases phases defs !! name) as [d'|]; [|done]. simpl. by destruct Hlk as (_ & _ & ->). }
  split.
  - intros dep name (sd & d & Hn & Hd & Ho & Hdep). unfold newPlanner in Hn. cbn [pl_definitions] in Hn.
    pose proof (lookup_apply_phases phases defs name Hz) as Hlk. rewrite Hn in Hlk.
    destruct (defs !! name) as [sd0|] eqn:Hsd0; [|done]. destruct Hlk as (Hdeps & _ & _).
    assert (Hor : orders defs dep name) by (exists sd0, d; by rewrite <-Hdeps).
    rewrite !Hph; [by apply Hord|by eexists|].
    by eapply check_dependencies_exist_ok.
  - intros name [d Hd]. unfold newPlanner in Hd. cbn [pl_definitions] in Hd.
    pose proof (lookup_apply_phases phases defs name Hz) as Hlk. rewrite Hd in Hlk.
    destruct (defs !! name) as [sd0|] eqn:Hsd0; [|done].
    rewrite Hph by by eexists. destruct (Hrange name); [by eexists|]. lia.
Qed.
End global.

(** A plan is current for the planner that made it, until it expires. *)
Lemma PlanIntent_current `{!MapOrder} p intent now plan later :
  PlanIntent p intent now = Some (Ok plan) → now + pl_planTTL p ≠ 0 → later < now + pl_planTTL p →
  plan_current p plan later.
Proof.
  intros Hplan Hne Hlt. unfold PlanIntent in Hplan. destruct (check_intent p intent); [|done].
  destruct (select_phases p a) as [[phase|]|]; [|done..]. injection Hplan as <-. by split.
Qed.

(** ** Theorems *)

(** A plan is what its intent and the planner's definitions demand. *)
Lemma PlanIntent_plan_ok `{!MapOrder} p intent now plan :
  phases_fit p (changes_of intent) →
  PlanIntent p intent now = Some (Ok plan) → plan_ok p intent plan.
Proof.
  intros Hfit Hplan. pose proof (PlanIntent_accepted _ _ _ _ Hplan) as Hi.
  destruct (PlanIntent_cases p intent now Hi Hfit) as [(phase & _ & Hok & Hp)|[_ Hp]];
    rewrite Hp in Hplan; simplify_eq.
  by apply plan_ok_seal, plan_ok_intro.
Qed.

(** C24: a plan has exactly one step per change of the intent, with its
    version and hash; its phases are non-empty and numbered in increasing order;
    every step comes in a strictly later phase than the selected services it
    depends on for its rollout, and in the least such phase above its service's
    own. *)
Theorem PlanIntent_sound `{!MapOrder} p intent now plan :
  phases_fit p (changes_of intent) →
  PlanIntent p intent now = Some (Ok plan) → plan_ok p intent plan.
Proof. apply PlanIntent_plan_ok. Qed.

(** C28: planning an accepted intent always returns: a plan when the
    rollout dependencies among the selected services form no cycle, and the
    dependency-cycle error (which wraps [ErrDependencyCycle]) when they do. *)
Theorem PlanIntent_total `{!MapOrder} p intent now :
  intent_ok p intent → phases_fit p (changes_of intent) →
  let ordered := ∃ rank : string → nat, ∀ a b, waits_for p (changes_of intent) a b → (rank a < rank b)%nat in
  (ordered ∧ ∃ plan, PlanIntent p intent now = Some (Ok plan)) ∨
  (¬ ordered ∧ ∃ e, PlanIntent p intent now = Some (Err e) ∧
     ReasonOf e = Some ReasonDependencyCycle ∧ errors_Is e "planner.ErrDependencyCycle" = true).
Proof.
  intros Hi Hfit ordered.
  assert (Hac : acyclic (selected_edges p (changes_of intent)) ↔ ordered).
  { unfold acyclic, ordered. by setoid_rewrite elem_of_selected_edges. }
  destruct (PlanIntent_cases p intent now Hi Hfit) as [(phase & Ha & _ & ->)|[Hno ->]].
  - left. split; [by apply Hac|eauto].
  - right. rewrite <-Hac. split; [done|]. exists cycle_reason. split_and!; [done| |]; by vm_compute.
Qed.

(** the plan, its hash and its identifier depend neither on
    the order in which Go ranges over its maps nor on the order of the changes in
    the intent. *)
Theorem PlanIntent_deterministic (o1 o2 : MapOrder) p intent changes now plan :
  in_Changes intent ≡ₚ changes → phases_fit p (changes_of intent) →
  @PlanIntent o1 p intent now = Some (Ok plan) →
  @PlanIntent o2 p (intent <| in_Changes := changes |>) now = Some (Ok plan).
Proof.
  intros Hp Hfit Hplan. pose proof (@PlanIntent_accepted o1 _ _ _ _ Hplan) as Hi.
  pose proof (changes_of_perm intent changes (io_nodup _ _ Hi) Hp) as Hch.
  destruct (@PlanIntent_cases o1 p intent now Hi Hfit) as [(ph1 & Hac & Hok & Heq)|[_ Heq]];
    rewrite Heq in Hplan; simplify_eq.
  assert (Hed : ∀ a b, (a, b) ∈ @selected_edges o1 p (changes_of intent) ↔
    (a, b) ∈ @selected_edges o2 p (changes_of intent)) by (intros; by rewrite !elem_of_selected_edges).
  destruct (@PlanIntent_cases o2 p (intent <| in_Changes := changes |>) now
    (intent_ok_perm _ _ _ Hp Hi)) as [(ph2 & Hac2 & Hok2 & ->)|[Hno _]]; rewrite Hch in *; [done| |].
  - assert (Hph : plan_phases (@planned_steps o2 p intent (changes_of intent) ph2) =
      plan_phases (@planned_steps o1 p intent (changes_of intent) ph1)); last first.
    { change (@planned_steps o2 p (intent <| in_Changes := changes |>) (changes_of intent) ph2)
        with (@planned_steps o2 p intent (changes_of intent) ph2).
      unfold unsigned_plan. by rewrite Hph. }
    apply plan_phases_perm; [rewrite planned_services; apply NoDup_range_keys|].
    apply (planned_steps_perm o2 o1). intros name Hname.
    apply (phases_ok_ext _ (@range_keys o2 _ 7 (changes_of intent)) _
      (@selected_edges o2 p (changes_of intent))) in Hok;
      [|intros; by rewrite !elem_of_range_keys|done].
    eapply phases_unique; [|exact Hac2|exact Hok2|exact Hok|by apply elem_of_range_keys].
    intros a b (? & ? & _)%elem_of_selected_edges. by rewrite !elem_of_range_keys.
  - destruct Hno. destruct Hac as [rank Hr]. exists rank. intros a b Hab%Hed. auto.
Qed.

(** the planner accepts the plan it made until the instant it
    expires and from then on refuses it as expired. *)
Theorem ValidatePlan_roundtrip `{!MapOrder} p intent now plan later :
  PlanIntent p intent now = Some (Ok plan) → now + pl_planTTL p ≠ 0 →
  (later < now + pl_planTTL p → ValidatePlan p plan later = Ok tt) ∧
  (now + pl_planTTL p ≤ later → ∃ e, ValidatePlan p plan later = Err e ∧ ReasonOf e = Some ReasonPlanExpired).
Proof.
  intros Hplan Hne. split.
  - intros Hlt. by eapply ValidatePlan_Ok, PlanIntent_current.
  - intros Hle. unfold PlanIntent in Hplan. destruct (check_intent p intent); [|done].
    destruct (select_phases p a) as [[phase|]|]; [|done..]. simplify_eq. unfold ValidatePlan. rewrite planHash_seal.
    cbn [seal_plan modify plan_PlanHash plan_Hash].
    rewrite !bool_decide_false, !bool_decide_true by (done || apply planHash_nonempty).
    cbn [fail_if orb negb]. unfold IsZero, Before. simpl. unfold Add.
    rewrite (proj2 (Z.ltb_ge _ _)) by lia. rewrite orb_true_r. by eexists.
Qed.

(** two plans of valid UTF-8 that carry the same plan hash and are
    both accepted have the same content (phases, steps, contract, profile, policy
    and evidence hashes): a tampered plan is refused, or else exhibits a collision
    of SHA-256. *)
Theorem plan_hash_binds p1 p2 plan1 plan2 now1 now2 :
  utf8_json (plan_canonical plan1) = true → utf8_json (plan_canonical plan2) = true →
  ValidatePlan p1 plan1 now1 = Ok tt → ValidatePlan p2 plan2 now2 = Ok tt →
  plan_PlanHash plan1 = plan_PlanHash plan2 → same_content plan1 plan2 ∨ collision.
Proof.
  intros Ha1 Ha2 H1%ValidatePlan_Ok H2%ValidatePlan_Ok Heq.
  rewrite (pc_hash _ _ _ H1), (pc_hash _ _ _ H2) in Heq.
  apply hash_json_inj in Heq as [Heq|?]; [left|by right|done..]. by apply plan_canonical_inj.
Qed.

(** a planner built from service contracts plans every accepted
    intent, and each step gets exactly the phase its service has in the global
    order of all contracts: selecting fewer services never reorders them. *)
Theorem contracts_plan_global `{!MapOrder} contracts profiles options p intent now :
  Z.of_nat (length contracts) + Z.of_nat (length (in_Changes intent)) ≤ int64_max →
  NewFromContracts contracts profiles options = Some (Ok p) → intent_ok p intent →
  ∃ plan, PlanIntent p intent now = Some (Ok plan) ∧
    ∀ s, s ∈ plan_Phases plan ≫= ph_Steps → ps_Phase s = initial_phase p (ps_Service s).
Proof.
  intros Hlen Hnew Hi.
  assert (Hsmall : Z.of_nat (length contracts) ≤ int64_max) by lia.
  destruct (NewFromContracts_ordered _ _ _ _ Hsmall Hnew) as [Hord Hrange].
  assert (Hdef : ∀ name, is_Some (changes_of intent !! name) → is_Some (pl_definitions p !! name)).
  { intros name. unfold changes_of. rewrite index_by_keys by apply Hi.
    intros (c & -> & Hc)%list_elem_of_fmap. pose proof (io_changes _ _ Hi) as Hall.
    rewrite Forall_forall in Hall. destruct (Hall c Hc) as [(d & Hd & _) _]. by eexists. }
  assert (Hfit : phases_fit p (changes_of intent)).
  { intros name Hn. unfold changes_of. rewrite size_index_by by apply Hi.
    destruct (Hrange name (Hdef _ Hn)). split; [|lia].
    transitivity 0; [vm_compute; discriminate|done]. }
  assert (Hwait : ∀ a b, waits_for p (changes_of intent) a b → initial_phase p a < initial_phase p b).
  { intros a b (_ & [d Hd]%Hdef & dep & Hin & Ho & <-). apply Hord.
    unfold get in Hin. rewrite Hd in Hin. by exists d, dep. }
  destruct (PlanIntent_cases p intent now Hi Hfit) as [(phase & _ & Hok & Hplan)|[Hno _]].
  - eexists. split; [exact Hplan|]. intros s Hs.
    apply elem_of_plan_phases, elem_of_planned in Hs as (name & c & Hc & ->).
    destruct (plan_step_fields p intent phase name c) as (-> & -> & _).
    eapply (phases_unique (range_keys 7 (changes_of intent)) (selected_edges p (changes_of intent)));
      [| |exact Hok| |apply elem_of_range_keys; by eexists].
    + intros a b (? & ? & _)%elem_of_selected_edges. by rewrite !elem_of_range_keys.
    + exists (λ c, Z.to_nat (initial_phase p c)). intros a b Hab%elem_of_selected_edges.
      pose proof (Hwait a b Hab). destruct Hab as (Ha & _). destruct (Hrange a (Hdef _ Ha)). lia.
    + split; [done| |by left]. intros a b Hab%elem_of_selected_edges. auto.
  - destruct Hno. exists (λ c, Z.to_nat (initial_phase p c)). intros a b Hab%elem_of_selected_edges.
    pose proof (Hwait a b Hab). destruct Hab as (Ha & _). destruct (Hrange a (Hdef _ Ha)). lia.
Qed.

(** ** Witnesses *)

Definition demo_profile : ReleaseProfile :=
  {| pr_APIVersion := profile_APIVersion; pr_Kind := profile_Kind; pr_Name := "standard";
     pr_Spec := {| sp_RequiredCapabilities := [CapabilityDeploy]; sp_DeploymentStrategy := "rolling";
                   sp_VerificationRequired := true; sp_ObservationWindow := "5m";
                   sp_RollbackMode := "automatic" |};
     pr_ContentHash := ""; pr_Source := "" |}.

Definition demo_contracts : list ServiceContract :=
  [demo_contract "pay" [demo_dep "auth"]; demo_contract "auth" []].

(** The value of a successful result. *)
Definition value {A} (zero : A) (r : option (result error A)) : A :=
  match r with Some (Ok a) => a | _ => zero end.

Definition succeeds {A} (r : option (result error A)) : bool :=
  match r with Some (Ok _) => true | _ => false end.

Lemma value_eq {A} (zero : A) r : succeeds r = true → r = Some (Ok (value zero r)).
Proof. by destruct r as [[]|]. Qed.

Definition demo_new : option (result error Planner) :=
  @NewFromContracts canonical_order demo_contracts [demo_profile] zero_Options.

Definition demo_planner : Planner := value (newPlanner ∅ ∅ ∅ ∅ ∅ zero_Options) demo_new.

Lemma demo_planner_new : demo_new = Some (Ok demo_planner).
Proof. apply value_eq. vm_compute. reflexivity. Qed.

Definition demo_change (service : string) : Change :=
  {| ch_Service := service; ch_DesiredVersion := "v2"; ch_CISuccess := true;
     ch_DependenciesHealthy := true; ch_DestructiveMigration := false; ch_Risk := "" |}.

Definition demo_intent : ReleaseIntent :=
  {| in_APIVersion := ReleaseIntentAPIVersion; in_Kind := ReleaseIntentKind; in_RequestID := "req_1";
     in_ReleaseVersion := "2026.1"; in_TenantID := "acme"; in_Environment := EnvironmentProduction;
     in_Region := ""; in_Cluster := ""; in_RequestedBy := "alice";
     in_Agent := {| agent_ID := "agent"; agent_Scopes := ["release:execute"] |};
     in_Changes := [demo_change "pay"; demo_change "auth"] |}.

Lemma demo_intent_ok : intent_ok demo_planner demo_intent.
Proof.
  assert (Hok : is_ok (check_intent demo_planner demo_intent) = true) by (vm_compute; reflexivity).
  destruct (check_intent demo_planner demo_intent) as [m|] eqn:Hc; [|done].
  by apply check_intent_Ok in Hc as [? _].
Qed.

Lemma demo_fit : phases_fit demo_planner (changes_of demo_intent).
Proof.
  intros name Hn. apply index_by_keys in Hn; [|apply demo_intent_ok].
  apply elem_of_cons in Hn as [->|[->|[]%elem_of_nil]%elem_of_cons]; vm_compute; split; discriminate.
Qed.

Definition zero_plan : ReleasePlan := unsigned_plan demo_planner demo_intent [] 0.

Definition demo_plan : ReleasePlan :=
  value zero_plan (@PlanIntent canonical_order demo_planner demo_intent 1000).

Lemma demo_plan_eq : @PlanIntent canonical_order demo_planner demo_intent 1000 = Some (Ok demo_plan).
Proof. apply value_eq. vm_compute. reflexivity. Qed.

Lemma PlanIntent_sound_witness : plan_ok demo_planner demo_intent demo_plan.
Proof. exact (@PlanIntent_sound canonical_order _ _ _ _ demo_fit demo_plan_eq). Defined.

Lemma PlanIntent_total_witness :
  ∃ r, @PlanIntent canonical_order demo_planner demo_intent 1000 = Some r.
Proof.
  destruct (@PlanIntent_total canonical_order demo_planner demo_intent 1000 demo_intent_ok demo_fit)
    as [[_ [plan Hp]]|[_ (e & He & _)]]; eauto.
Defined.

Lemma PlanIntent_deterministic_witness :
  @PlanIntent reversed_order demo_planner
    (demo_intent <| in_Changes := [demo_change "auth"; demo_change "pay"] |>) 1000 = Some (Ok demo_plan).
Proof.
  apply (PlanIntent_deterministic canonical_order reversed_order demo_planner demo_intent).
  - apply Permutation_swap.
  - exact demo_fit.
  - exact demo_plan_eq.
Defined.

Lemma ValidatePlan_roundtrip_witness : ValidatePlan demo_planner demo_plan 2000 = Ok tt.
Proof.
  apply (@ValidatePlan_roundtrip canonical_order demo_planner demo_intent 1000 demo_plan 2000 demo_plan_eq);
    vm_compute; [discriminate|reflexivity].
Defined.

Lemma demo_plan_valid : ValidatePlan demo_planner demo_plan 3000 = Ok tt.
Proof.
  apply ValidatePlan_Ok, (@PlanIntent_current canonical_order _ _ _ _ _ demo_plan_eq);
    vm_compute; [discriminate|reflexivity].
Qed.

Lemma demo_plan_ascii : utf8_json (plan_canonical demo_plan) = true.
Proof. vm_compute. reflexivity. Qed.

Lemma plan_hash_binds_witness : same_content demo_plan demo_plan ∨ collision.
Proof.
  exact (plan_hash_binds demo_planner demo_planner demo_plan demo_plan 3000 3000
    demo_plan_ascii demo_plan_ascii demo_plan_valid demo_plan_valid eq_refl).
Defined.

Lemma contracts_plan_global_witness :
  ∃ plan, @PlanIntent canonical_order demo_planner demo_intent 1000 = Some (Ok plan) ∧
    ∀ s, s ∈ plan_Phases plan ≫= ph_Steps → ps_Phase s = initial_phase demo_planner (ps_Service s).
Proof.
  apply (@contracts_plan_global canonical_order demo_contracts [demo_profile] zero_Options).
  - vm_compute. discriminate.
  - exact demo_planner_new.
  - exact demo_intent_ok.
Defined.
