(* ===== verification/Budget.v ===== *)
(** * Concurrency budget (src/internal/scheduler/budget.go)

    Scheduled steps, the configured limits, and the budget that applies the
    intersection of every limit.  [active] is the Go map of counters; the
    invariant relates it to the reservations that are outstanding. *)
From S2P Require Import Prelude GoStd.
Open Scope Z_scope.

(** [Step]: the scheduling projection of a planned release step. *)
Record Step := {
  ss_ID : string;
  ss_Phase : Z;
  ss_Tenant : string;
  ss_Environment : string;
  ss_Region : string;
  ss_Cluster : string;
  ss_Team : string;
  ss_RiskTier : string;
  ss_RunnerGroup : string;
  ss_FailureDomains : list string;
  ss_Dependencies : list string;
}.

#[export] Instance eta_Step : Eta Step := λ r,
  {| ss_ID := ss_ID r; ss_Phase := ss_Phase r; ss_Tenant := ss_Tenant r;
     ss_Environment := ss_Environment r; ss_Region := ss_Region r; ss_Cluster := ss_Cluster r;
     ss_Team := ss_Team r; ss_RiskTier := ss_RiskTier r; ss_RunnerGroup := ss_RunnerGroup r;
     ss_FailureDomains := ss_FailureDomains r; ss_Dependencies := ss_Dependencies r |}.

#[export] Instance Step_eq_dec : EqDecision Step.
Proof. solve_decision. Defined.

(** [Limits] *)
Record Limits := {
  lim_TenantGlobal : Z;
  lim_DefaultPerDimension : Z;
  lim_Environment : gmap string Z;
  lim_Region : gmap string Z;
  lim_Cluster : gmap string Z;
  lim_Team : gmap string Z;
  lim_RiskTier : gmap string Z;
  lim_SharedFailureDomain : Z;
}.

Definition DefaultLimits : Limits :=
  {| lim_TenantGlobal := 20; lim_DefaultPerDimension := 20; lim_Environment := ∅;
     lim_Region := ∅; lim_Cluster := ∅; lim_Team := ∅; lim_RiskTier := ∅;
     lim_SharedFailureDomain := 1 |}.

(** One entry of a per-dimension map of limits. *)
Definition limit_entry_error (name : string) (entry : string * Z) : option error :=
  if bool_decide (entry.1 = "") || (entry.2 <? 1)
  then Some (Errorf (name +:+ " concurrency limit " +:+ quote entry.1 +:+ " must be positive") None)
  else None.

(** [Limits.Validate]; the error reported is that of one of the bad entries. *)
Definition Limits_Validate (l : Limits) : result error unit :=
  if (lim_TenantGlobal l <? 1) || (lim_DefaultPerDimension l <? 1) || (lim_SharedFailureDomain l <? 1)
  then Err (Errorf "all default concurrency limits must be positive" None)
  else
    let errors := dims ← [("environment", lim_Environment l); ("region", lim_Region l);
                          ("cluster", lim_Cluster l); ("team", lim_Team l);
                          ("risk_tier", lim_RiskTier l)];
                  omap (limit_entry_error dims.1) (map_to_list dims.2) in
    match errors with
    | e :: _ => Err e
    | [] => Ok tt
    end.

Abbreviation Dimension := string (only parsing).
Definition DimensionTenant : Dimension := "tenant/global".
Definition DimensionEnvironment : Dimension := "environment".
Definition DimensionRegion : Dimension := "region".
Definition DimensionCluster : Dimension := "cluster".
Definition DimensionTeam : Dimension := "team".
Definition DimensionRiskTier : Dimension := "risk-tier".
Definition DimensionFailureDomain : Dimension := "shared-failure-domain".
Definition DimensionService : Dimension := "service+environment".

(** [Blocked] *)
Record Blocked := {
  bl_Dimension : Dimension;
  bl_Key : string;
  bl_Limit : Z;
}.

#[export] Instance Blocked_eq_dec : EqDecision Blocked.
Proof. solve_decision. Defined.

(** [budgetKey] *)
Record budgetKey := mk_budgetKey {
  bk_dimension : Dimension;
  bk_key : string;
  bk_limitKey : string;
}.

#[export] Instance budgetKey_eq_dec : EqDecision budgetKey.
Proof. solve_decision. Defined.

#[export] Instance budgetKey_countable : Countable budgetKey.
Proof.
  apply (inj_countable' (λ k, (bk_dimension k, bk_key k, bk_limitKey k))
    (λ t, mk_budgetKey t.1.1 t.1.2 t.2)). by intros [].
Defined.

(** [Reservation] *)
Record Reservation := {
  res_step : Step;
  res_keys : list budgetKey;
}.

Definition zero_Step : Step :=
  {| ss_ID := ""; ss_Phase := 0; ss_Tenant := ""; ss_Environment := ""; ss_Region := "";
     ss_Cluster := ""; ss_Team := ""; ss_RiskTier := ""; ss_RunnerGroup := "";
     ss_FailureDomains := []; ss_Dependencies := [] |}.

Definition zero_Reservation : Reservation := {| res_step := zero_Step; res_keys := [] |}.

(** [Budget]; the mutex makes each operation one atomic step. *)
Record Budget := {
  bu_limits : Limits;
  bu_active : gmap budgetKey Z;
}.

#[export] Instance eta_Budget : Eta Budget := λ r,
  {| bu_limits := bu_limits r; bu_active := bu_active r |}.

Definition NewBudget (limits : Limits) : result error Budget :=
  _ ← Limits_Validate limits;
  Ok {| bu_limits := limits; bu_active := ∅ |}.

Definition configuredLimit (values : gmap string Z) (key : string) (fallback : Z) : Z :=
  match values !! key with
  | Some value => value
  | None => fallback
  end.

(** [Budget.limit] *)
Definition limit (l : Limits) (k : budgetKey) : Z :=
  let d := bk_dimension k in
  let fallback := lim_DefaultPerDimension l in
  if bool_decide (d = DimensionTenant) then lim_TenantGlobal l
  else if bool_decide (d = DimensionEnvironment) then
    configuredLimit (lim_Environment l) (bk_limitKey k) fallback
  else if bool_decide (d = DimensionRegion) then
    configuredLimit (lim_Region l) (bk_limitKey k) fallback
  else if bool_decide (d = DimensionCluster) then
    configuredLimit (lim_Cluster l) (bk_limitKey k) fallback
  else if bool_decide (d = DimensionTeam) then
    configuredLimit (lim_Team l) (bk_limitKey k) fallback
  else if bool_decide (d = DimensionRiskTier) then
    configuredLimit (lim_RiskTier l) (bk_limitKey k) fallback
  else if bool_decide (d = DimensionFailureDomain) then lim_SharedFailureDomain l
  else if bool_decide (d = DimensionService) then 1
  else 0.

(** [keysFor] *)
Definition keysFor (step : Step) : list budgetKey :=
  let tenant := if bool_decide (ss_Tenant step = "") then "default" else ss_Tenant step in
  let env := ss_Environment step in
  [ mk_budgetKey DimensionTenant tenant tenant;
    mk_budgetKey DimensionEnvironment (tenant +:+ "/" +:+ env) env;
    mk_budgetKey DimensionRegion (tenant +:+ "/" +:+ env +:+ "/" +:+ ss_Region step) (ss_Region step);
    mk_budgetKey DimensionCluster
      (tenant +:+ "/" +:+ env +:+ "/" +:+ ss_Region step +:+ "/" +:+ ss_Cluster step) (ss_Cluster step);
    mk_budgetKey DimensionTeam (tenant +:+ "/" +:+ ss_Team step) (ss_Team step);
    mk_budgetKey DimensionRiskTier (tenant +:+ "/" +:+ ss_RiskTier step) (ss_RiskTier step);
    mk_budgetKey DimensionService (tenant +:+ "/" +:+ env +:+ "/" +:+ ss_ID step) (ss_ID step) ] ++
  ((λ failureDomain,
      mk_budgetKey DimensionFailureDomain (tenant +:+ "/" +:+ env +:+ "/" +:+ failureDomain) failureDomain)
   <$> sort_Strings (ss_FailureDomains step)).

(** The keys at their limit, in the order of [keys]. *)
Definition blocked_keys (b : Budget) (keys : list budgetKey) : list Blocked :=
  omap (λ key,
    let l := limit (bu_limits b) key in
    if l <=? get 0 (bu_active b) key
    then Some {| bl_Dimension := bk_dimension key; bl_Key := bk_key key; bl_Limit := l |}
    else None) keys.

Definition acquire_keys (active : gmap budgetKey Z) (keys : list budgetKey) : gmap budgetKey Z :=
  foldl (λ active key, <[key := get 0 active key + 1]> active) active keys.

(** [Budget.TryAcquire] *)
Definition TryAcquire (step : Step) : ST Budget (Reservation * list Blocked) := λ b,
  let keys := keysFor step in
  let blocked := blocked_keys b keys in
  match blocked with
  | _ :: _ => (b, (zero_Reservation, blocked))
  | [] => (b <| bu_active := acquire_keys (bu_active b) keys |>,
           ({| res_step := step; res_keys := keys |}, []))
  end.

Definition release_keys (active : gmap budgetKey Z) (keys : list budgetKey) : gmap budgetKey Z :=
  foldl (λ active key,
    if get 0 active key <=? 1 then delete key active
    else <[key := get 0 active key - 1]> active) active keys.

(** [Budget.Release] *)
Definition Release (reservation : Reservation) (b : Budget) : Budget :=
  b <| bu_active := release_keys (bu_active b) (res_keys reservation) |>.

#[global] Arguments acquire_keys : simpl never.
#[global] Arguments release_keys : simpl never.
#[global] Arguments blocked_keys : simpl never.
#[global] Arguments keysFor : simpl never.
#[global] Arguments limit : simpl never.

(** ** The counters and the outstanding reservations *)

(** A counter as the Go map stores it: absent when zero. *)
Definition counter (n : nat) : option Z :=
  match n with O => None | S _ => Some (Z.of_nat n) end.

(** How often the outstanding reservations [rs] hold [k]. *)
Definition held (rs : list Reservation) (k : budgetKey) : nat := occ k (rs ≫= res_keys).

(** How many outstanding reservations hold [k]. *)
Definition holders (rs : list Reservation) (k : budgetKey) : nat :=
  length (filter (λ r, k ∈ res_keys r) rs).

Definition budget_inv (b : Budget) (rs : list Reservation) : Prop :=
  ∀ k, bu_active b !! k = counter (held rs k).

(** The histories of a budget: any interleaving of acquisitions and of releases
    of reservations that are outstanding. *)
Inductive budget_run (limits : Limits) : Budget → list Reservation → Prop :=
| budget_run_new b :
    NewBudget limits = Ok b → budget_run limits b []
| budget_run_acquire b rs step b' r :
    budget_run limits b rs →
    TryAcquire step b = (b', (r, [])) →
    budget_run limits b' (r :: rs)
| budget_run_refused b rs step b' r blocked :
    budget_run limits b rs →
    TryAcquire step b = (b', (r, blocked)) →
    blocked ≠ [] →
    budget_run limits b' rs
| budget_run_release b rs1 r rs2 :
    budget_run limits b (rs1 ++ r :: rs2) →
    budget_run limits (Release r b) (rs1 ++ rs2).

Lemma get_counter (m : gmap budgetKey Z) k n : m !! k = counter n → get 0 m k = Z.of_nat n.
Proof. unfold get. intros ->. by destruct n. Qed.

Lemma held_nil k : held [] k = 0%nat.
Proof. done. Qed.

Lemma held_cons r rs k : held (r :: rs) k = (occ k (res_keys r) + held rs k)%nat.
Proof. unfold held. csimpl. apply occ_app. Qed.

Lemma held_app rs1 rs2 k : held (rs1 ++ rs2) k = (held rs1 k + held rs2 k)%nat.
Proof. unfold held. rewrite bind_app. apply occ_app. Qed.

Lemma holders_cons r rs k :
  holders (r :: rs) k = ((if decide (k ∈ res_keys r) then 1 else 0) + holders rs k)%nat.
Proof. unfold holders. rewrite filter_cons. by case_decide. Qed.

Lemma holders_app rs1 rs2 k : holders (rs1 ++ rs2) k = (holders rs1 k + holders rs2 k)%nat.
Proof. unfold holders. by rewrite filter_app, length_app. Qed.

(** The counts do not depend on the order of the reservations. *)
#[export] Instance holders_Proper : Proper ((≡ₚ) ==> (=) ==> (=)) holders.
Proof. intros rs1 rs2 Hp k ? <-. unfold holders. by rewrite Hp. Qed.

#[export] Instance held_Proper : Proper ((≡ₚ) ==> (=) ==> (=)) held.
Proof. intros rs1 rs2 Hp k ? <-. unfold held. apply occ_perm. by rewrite Hp. Qed.

#[export] Hint Rewrite held_nil held_cons held_app holders_cons holders_app : themisy.

Lemma holders_le_held rs k : (holders rs k ≤ held rs k)%nat.
Proof.
  induction rs as [|r rs IH]; [done|]. rewrite holders_cons, held_cons.
  case_decide as Hk; [|lia]. apply occ_pos in Hk. lia.
Qed.

Lemma acquire_keys_spec keys active (f : budgetKey → nat) :
  (∀ k, active !! k = counter (f k)) →
  ∀ k, acquire_keys active keys !! k = counter (f k + occ k keys).
Proof.
  unfold acquire_keys. revert active f.
  induction keys as [|key keys IH]; intros active f Hf k; simpl.
  - by rewrite occ_nil, Nat.add_0_r.
  - rewrite (IH _ (λ k, (if decide (key = k) then 1 else 0) + f k)%nat).
    + rewrite occ_cons. f_equal. lia.
    + intros k'. rewrite lookup_insert, (get_counter _ _ _ (Hf key)).
      case_decide; [subst; simpl; f_equal; lia | apply Hf].
Qed.

Lemma release_keys_spec keys active (f : budgetKey → nat) :
  (∀ k, active !! k = counter (f k)) →
  (∀ k, (occ k keys ≤ f k)%nat) →
  ∀ k, release_keys active keys !! k = counter (f k - occ k keys).
Proof.
  unfold release_keys. revert active f.
  induction keys as [|key keys IH]; intros active f Hf Hle k; simpl.
  - by rewrite occ_nil, Nat.sub_0_r.
  - assert (Hkey := Hle key). rewrite occ_cons, decide_True in Hkey by done.
    rewrite (IH _ (λ k, f k - (if decide (key = k) then 1 else 0))%nat).
    + rewrite occ_cons. f_equal. lia.
    + intros k'. rewrite (get_counter _ _ _ (Hf key)). case_match; reflect_bools.
      * rewrite lookup_delete. case_decide as Hk; [subst k'|by rewrite Nat.sub_0_r].
        by replace (f key - 1)%nat with 0%nat by lia.
      * rewrite lookup_insert. case_decide as Hk; [subst k'|by rewrite Nat.sub_0_r].
        destruct (f key) as [|[|n]] eqn:E; try lia. simpl. f_equal. lia.
    + intros k'. specialize (Hle k'). rewrite occ_cons in Hle. lia.
Qed.

Lemma release_acquire keys active (f : budgetKey → nat) :
  (∀ k, active !! k = counter (f k)) → release_keys (acquire_keys active keys) keys = active.
Proof.
  intros Hf. apply map_eq. intros k.
  rewrite (release_keys_spec _ _ _ (acquire_keys_spec keys _ _ Hf)); [|intros; lia].
  rewrite Hf. f_equal. lia.
Qed.

(** An acquisition whose list of blocking keys is empty, as an equation. *)
Lemma granted_eq (x : Budget * (Reservation * list Blocked)) :
  x.2.2 = [] → x = (x.1, (x.2.1, [])).
Proof. destruct x as [b [r bl]]. simpl. by intros ->. Qed.

Lemma blocked_keys_nil b keys :
  blocked_keys b keys = [] ↔ ∀ k, k ∈ keys → get 0 (bu_active b) k < limit (bu_limits b) k.
Proof.
  unfold blocked_keys. induction keys as [|key keys IH]; simpl; [set_solver|].
  setoid_rewrite elem_of_cons. destruct (_ <=? _) eqn:E; reflect_bools.
  - split; [done|]. intros Hall. specialize (Hall key (or_introl eq_refl)). lia.
  - rewrite IH. naive_solver.
Qed.

Lemma elem_of_blocked_keys b keys x :
  x ∈ blocked_keys b keys ↔ ∃ k, k ∈ keys ∧ limit (bu_limits b) k ≤ get 0 (bu_active b) k ∧
    x = {| bl_Dimension := bk_dimension k; bl_Key := bk_key k; bl_Limit := limit (bu_limits b) k |}.
Proof.
  unfold blocked_keys. rewrite list_elem_of_omap. split.
  - intros (k & Hk & Hx). case_match; simplify_eq; reflect_bools. eauto.
  - intros (k & Hk & Hle & ->). exists k. split; [done|].
    destruct (_ <=? _) eqn:E; reflect_bools; [done|lia].
Qed.

Lemma TryAcquire_granted step b b' r :
  TryAcquire step b = (b', (r, [])) →
  b' = b <| bu_active := acquire_keys (bu_active b) (keysFor step) |> ∧
  r = {| res_step := step; res_keys := keysFor step |} ∧
  (∀ k, k ∈ keysFor step → get 0 (bu_active b) k < limit (bu_limits b) k).
Proof.
  unfold TryAcquire. intros H. destruct (blocked_keys _ _) eqn:E; simplify_eq.
  split_and!; [done..|]. by apply blocked_keys_nil.
Qed.

Lemma TryAcquire_refused step b b' r blocked :
  TryAcquire step b = (b', (r, blocked)) → blocked ≠ [] →
  b' = b ∧ r = zero_Reservation ∧ blocked = blocked_keys b (keysFor step).
Proof. unfold TryAcquire. intros H ?. by destruct (blocked_keys _ _) eqn:E; simplify_eq. Qed.

Lemma NewBudget_Ok limits b :
  NewBudget limits = Ok b →
  Limits_Validate limits = Ok tt ∧ b = {| bu_limits := limits; bu_active := ∅ |}.
Proof. unfold NewBudget. destruct (Limits_Validate limits) as [[]|]; naive_solver. Qed.

Lemma budget_inv_new limits b : NewBudget limits = Ok b → budget_inv b [].
Proof. intros [_ ->]%NewBudget_Ok k. simpl. by rewrite lookup_empty. Qed.

Lemma budget_inv_acquire b rs step b' r :
  budget_inv b rs → TryAcquire step b = (b', (r, [])) → budget_inv b' (r :: rs).
Proof.
  intros Hinv (-> & -> & _)%TryAcquire_granted k. simpl.
  rewrite (acquire_keys_spec _ _ _ Hinv), held_cons. f_equal. simpl. lia.
Qed.

Lemma budget_inv_release b rs1 r rs2 :
  budget_inv b (rs1 ++ r :: rs2) → budget_inv (Release r b) (rs1 ++ rs2).
Proof.
  intros Hinv k. simpl. rewrite (release_keys_spec _ _ _ Hinv).
  - autorewrite with themisy. f_equal. lia.
  - intros k'. autorewrite with themisy. lia.
Qed.

#[export] Hint Resolve budget_inv_new budget_inv_acquire budget_inv_release : themisy.

Lemma budget_run_limits limits b rs : budget_run limits b rs → bu_limits b = limits.
Proof.
  induction 1 as [b Hb|b rs step b' r _ IH Ht|b rs step b' r bl _ IH Ht Hne|b rs1 r rs2 _ IH].
  - by apply NewBudget_Ok in Hb as [_ ->].
  - by apply TryAcquire_granted in Ht as (-> & _ & _).
  - by apply TryAcquire_refused in Ht as (-> & _ & _).
  - done.
Qed.

Lemma budget_run_inv limits b rs : budget_run limits b rs → budget_inv b rs.
Proof.
  induction 1 as [b Hb|b rs step b' r _ IH Ht|b rs step b' r bl _ IH Ht Hne|b rs1 r rs2 _ IH];
    eauto with themisy.
  by apply TryAcquire_refused in Ht as (-> & _ & _).
Qed.

Lemma budget_inv_get b rs k : budget_inv b rs → get 0 (bu_active b) k = Z.of_nat (held rs k).
Proof. intros Hinv. apply get_counter, Hinv. Qed.

(** Valid limits are at least one for every key of a step. *)
Lemma configuredLimit_pos l name m k d :
  Limits_Validate l = Ok tt → 1 ≤ d →
  (name, m) ∈ [("environment", lim_Environment l); ("region", lim_Region l);
               ("cluster", lim_Cluster l); ("team", lim_Team l); ("risk_tier", lim_RiskTier l)] →
  1 ≤ configuredLimit m k d.
Proof.
  unfold Limits_Validate, configuredLimit. intros Hv Hd Hin. split_if; [done|].
  destruct (_ ≫= _) eqn:Hbind; [clear Hv|done].
  destruct (m !! k) as [v|] eqn:Hk; [|done].
  assert (Hno : ∀ e, e ∉ ([] : list error)) by apply not_elem_of_nil.
  destruct (decide (1 ≤ v)) as [|Hneg]; [done|exfalso].
  eapply (Hno (Errorf _ None)). rewrite <-Hbind.
  apply list_elem_of_bind. exists (name, m). split; [|done]. simpl.
  apply list_elem_of_omap. exists (k, v). rewrite elem_of_map_to_list. split; [done|].
  unfold limit_entry_error. simpl. rewrite (proj2 (Z.ltb_lt v 1)) by lia.
  by rewrite orb_true_r.
Qed.

Lemma limit_pos l step k :
  Limits_Validate l = Ok tt → k ∈ keysFor step → 1 ≤ limit l k.
Proof.
  intros Hv Hk.
  assert (Hbase : 1 ≤ lim_TenantGlobal l ∧ 1 ≤ lim_DefaultPerDimension l ∧
                  1 ≤ lim_SharedFailureDomain l).
  { unfold Limits_Validate in Hv. split_if; [done|]. reflect_bools. lia. }
  destruct Hbase as (? & ? & ?).
  unfold keysFor in Hk. rewrite elem_of_app, list_elem_of_fmap in Hk.
  destruct Hk as [Hk|(fd & -> & _)]; [|unfold limit; simpl; lia].
  repeat (apply elem_of_cons in Hk as [->|Hk]); [..|by apply not_elem_of_nil in Hk];
    unfold limit; simpl; try lia;
    (eapply (configuredLimit_pos l); [exact Hv|assumption|]; repeat econstructor).
Qed.

(** The bound on the holders of a key, for every history. *)
Lemma budget_run_holders limits b rs k :
  budget_run limits b rs → 0 ≤ limit limits k → Z.of_nat (holders rs k) ≤ limit limits k.
Proof.
  intros Hrun Hpos.
  induction Hrun as [b Hb|b rs step b' r Hrun IH Ht|b rs step b' r bl _ IH Ht Hne|b rs1 r rs2 _ IH].
  - done.
  - rewrite holders_cons. case_decide as Hk; [|lia].
    pose proof Ht as (_ & -> & Hlt)%TryAcquire_granted. simpl in Hk.
    specialize (Hlt k Hk).
    rewrite (budget_run_limits _ _ _ Hrun), (budget_inv_get _ rs) in Hlt
      by by eapply budget_run_inv.
    pose proof (holders_le_held rs k). lia.
  - done.
  - rewrite holders_app in *. rewrite holders_cons in IH. lia.
Qed.

(** With nothing outstanding the budget is the initial one. *)
Lemma budget_run_idle limits b :
  budget_run limits b [] → b = {| bu_limits := limits; bu_active := ∅ |}.
Proof.
  intros Hrun. pose proof (budget_run_inv _ _ _ Hrun) as Hinv.
  rewrite <-(budget_run_limits _ _ _ Hrun).
  destruct b as [l active]. simpl. f_equal. apply map_eq. intros k.
  rewrite lookup_empty. apply Hinv.
Qed.

(** Releasing the outstanding reservations one by one, in any order. *)
Lemma budget_run_release_all limits b rs ress :
  budget_run limits b rs → rs ≡ₚ ress →
  budget_run limits (foldl (λ b r, Release r b) b ress) [].
Proof.
  revert b rs. induction ress as [|r ress IH]; intros b rs Hrun Hp; simpl.
  - by apply Permutation_nil_r in Hp as ->.
  - assert (r ∈ rs) as (rs1 & rs2 & ->)%list_elem_of_split by (rewrite Hp; left).
    apply (IH _ (rs1 ++ rs2)); [by apply budget_run_release|].
    rewrite <-Permutation_middle in Hp. by apply (inj (cons r)) in Hp.
Qed.

Lemma fresh_grants limits step :
  Limits_Validate limits = Ok tt →
  blocked_keys {| bu_limits := limits; bu_active := ∅ |} (keysFor step) = [].
Proof.
  intros Hv. apply blocked_keys_nil. intros k Hk. simpl. rewrite get_empty.
  pose proof (limit_pos _ _ _ Hv Hk). lia.
Qed.

(** ** Theorems *)

(** C29: at every point of every history of acquisitions and
    releases, the number of outstanding reservations that hold a budget key
    never exceeds the configured limit of that key: each limit is an upper
    bound on simultaneous dispatch. *)
Theorem budget_limits_respected limits b rs k :
  budget_run limits b rs → 0 ≤ limit limits k → Z.of_nat (holders rs k) ≤ limit limits k.
Proof. apply budget_run_holders. Qed.

(** the counter of every key is exactly the number of times
    the outstanding reservations hold it (and absent when that is zero), so a
    budget whose reservations are all released is back in its initial state. *)
Theorem budget_counters_exact limits b rs :
  budget_run limits b rs →
  (∀ k, get 0 (bu_active b) k = Z.of_nat (held rs k)) ∧
  (rs = [] → b = {| bu_limits := limits; bu_active := ∅ |}).
Proof.
  intros Hrun. split.
  - intros k. by apply budget_inv_get, budget_run_inv with limits.
  - intros ->. by apply budget_run_idle.
Qed.

(** releasing a reservation directly after it was granted
    restores every counter. *)
Theorem budget_acquire_release limits b rs step b' r :
  budget_run limits b rs → TryAcquire step b = (b', (r, [])) → Release r b' = b.
Proof.
  intros Hrun%budget_run_inv (-> & -> & _)%TryAcquire_granted.
  destruct b as [l active]. unfold Release, modify. cbn [bu_active bu_limits res_keys] in *.
  by rewrite (release_acquire _ _ _ Hrun).
Qed.

(** an acquisition is refused exactly when some key of the step
    has reached its limit; a refusal changes nothing and reports precisely the
    exhausted keys with their limits. *)
Theorem budget_refusal_exact step b b' r blocked :
  TryAcquire step b = (b', (r, blocked)) →
  (blocked ≠ [] ↔ ∃ k, k ∈ keysFor step ∧ limit (bu_limits b) k ≤ get 0 (bu_active b) k) ∧
  (blocked ≠ [] → b' = b ∧ res_keys r = []) ∧
  (∀ x, x ∈ blocked ↔ ∃ k, k ∈ keysFor step ∧ limit (bu_limits b) k ≤ get 0 (bu_active b) k ∧
     x = {| bl_Dimension := bk_dimension k; bl_Key := bk_key k; bl_Limit := limit (bu_limits b) k |}).
Proof.
  intros Ht.
  assert (Hb : blocked = blocked_keys b (keysFor step)).
  { unfold TryAcquire in Ht. by destruct (blocked_keys _ _); simplify_eq. }
  assert (Hel : ∀ x, x ∈ blocked ↔ _) by (rewrite Hb; apply elem_of_blocked_keys).
  split_and!; [|by intros Hne; apply (TryAcquire_refused _ _ _ _ _ Ht) in Hne as (-> & -> & _)|done].
  split.
  - intros Hne. destruct blocked as [|x bl]; [done|].
    destruct (proj1 (Hel x)) as (k & ? & ? & _); [by left|eauto].
  - intros (k & Hk & Hle) Hnil.
    apply (not_elem_of_nil (A:=Blocked) {| bl_Dimension := bk_dimension k; bl_Key := bk_key k;
      bl_Limit := limit (bu_limits b) k |}). rewrite <-Hnil. apply Hel. eauto.
Qed.

(** with nothing outstanding and valid limits, every step can
    be dispatched. *)
Theorem budget_idle_grants limits b step :
  NewBudget limits = Ok b → ∃ b' r, TryAcquire step b = (b', (r, [])).
Proof.
  intros [Hv ->]%NewBudget_Ok. unfold TryAcquire.
  rewrite fresh_grants by done. by do 2 eexists.
Qed.

(** ** Witnesses *)

Definition demo_step (id domain : string) : Step :=
  zero_Step <| ss_ID := id |> <| ss_Tenant := "acme" |> <| ss_Environment := "production" |>
    <| ss_FailureDomains := [domain] |>.

Definition demo_budget : Budget := {| bu_limits := DefaultLimits; bu_active := ∅ |}.

Lemma demo_budget_new : NewBudget DefaultLimits = Ok demo_budget.
Proof. reflexivity. Defined.

Definition demo_acquired : Budget * (Reservation * list Blocked) :=
  TryAcquire (demo_step "api" "db") demo_budget.

Lemma demo_budget_run : budget_run DefaultLimits demo_acquired.1 [demo_acquired.2.1].
Proof.
  eapply (budget_run_acquire _ demo_budget [] (demo_step "api" "db")).
  - apply budget_run_new, demo_budget_new.
  - apply (granted_eq demo_acquired). vm_compute. reflexivity.
Defined.

Definition demo_domain_key : budgetKey :=
  mk_budgetKey DimensionFailureDomain "acme/production/db" "db".

Lemma budget_limits_respected_witness :
  Z.of_nat (holders [demo_acquired.2.1] demo_domain_key) ≤ limit DefaultLimits demo_domain_key.
Proof.
  apply (budget_limits_respected DefaultLimits demo_acquired.1 [demo_acquired.2.1] demo_domain_key).
  - exact demo_budget_run.
  - vm_compute. discriminate.
Defined.

Lemma budget_counters_exact_witness :
  get 0 (bu_active demo_acquired.1) demo_domain_key = 1.
Proof.
  exact (proj1 (budget_counters_exact DefaultLimits _ _ demo_budget_run) demo_domain_key).
Defined.

Lemma budget_acquire_release_witness :
  Release demo_acquired.2.1 demo_acquired.1 = demo_budget.
Proof.
  apply (budget_acquire_release DefaultLimits demo_budget [] (demo_step "api" "db")).
  - apply budget_run_new, demo_budget_new.
  - apply (granted_eq demo_acquired). vm_compute. reflexivity.
Defined.

(** A second step of the same failure domain is refused. *)
Lemma budget_refusal_exact_witness :
  (TryAcquire (demo_step "web" "db") demo_acquired.1).2.2 ≠ [].
Proof.
  destruct (TryAcquire (demo_step "web" "db") demo_acquired.1) as [b' [r blocked]] eqn:E.
  apply (budget_refusal_exact _ _ _ _ _ E).
  exists demo_domain_key. split; [|vm_compute; discriminate].
  unfold keysFor. apply elem_of_app. right. vm_compute. left.
Defined.

Lemma budget_idle_grants_witness :
  ∃ b' r, TryAcquire (demo_step "api" "db") demo_budget = (b', (r, [])).
Proof. exact (budget_idle_grants DefaultLimits _ _ demo_budget_new). Defined.
