(* ===== verification/Waves.v ===== *)
(** * Dispatch waves (src/internal/scheduler/waves.go)

    [BuildWaves] groups ready steps into waves.  The Go loop over the [pending]
    map is a fuelled recursion whose fuel, the number of steps, is proved to be
    enough; the order in which Go ranges over [pending] is a parameter. *)
From S2P Require Import Prelude GoStd Budget.
Open Scope Z_scope.

(** [Wave] *)
Record Wave := {
  wv_Number : Z;
  wv_Steps : list Step;
}.

#[export] Instance Wave_eq_dec : EqDecision Wave.
Proof. solve_decision. Defined.

Definition cloneStep (step : Step) : Step :=
  step <| ss_FailureDomains ::= sort_Strings |> <| ss_Dependencies ::= sort_Strings |>.

Definition dependenciesComplete (step : Step) (completed : gmap string bool) : bool :=
  forallb (get false completed) (ss_Dependencies step).

(** The comparison of [sort.Slice(ready, ...)]. *)
Definition ready_less (x y : Step) : bool :=
  if bool_decide (ss_Phase x = ss_Phase y) then String.ltb (ss_ID x) (ss_ID y)
  else ss_Phase x <? ss_Phase y.

(** The loop that fills [pending] from the input. *)
Fixpoint load_pending (steps : list Step) (pending : gmap string Step) :
    result error (gmap string Step) :=
  match steps with
  | [] => Ok pending
  | step :: steps =>
      if bool_decide (ss_ID step = "") then
        Err (Errorf "scheduled step id is required" None)
      else match pending !! ss_ID step with
      | Some _ => Err (Errorf ("duplicate scheduled step " +:+ quote (ss_ID step)) None)
      | None => load_pending steps (<[ss_ID step := cloneStep step]> pending)
      end
  end.

(** The inner loop over the sorted ready steps: stop at another phase, skip a
    step whose reservation is refused. *)
Fixpoint fill_wave (minimumPhase : Z) (ready : list Step) (b : Budget) :
    Budget * (list Step * list Reservation) :=
  match ready with
  | [] => (b, ([], []))
  | step :: ready =>
      if negb (ss_Phase step =? minimumPhase) then (b, ([], []))
      else
        let '(b, (reservation, blocked)) := TryAcquire step b in
        match blocked with
        | _ :: _ => fill_wave minimumPhase ready b
        | [] =>
            let '(b, (steps, reservations)) := fill_wave minimumPhase ready b in
            (b, (step :: steps, reservation :: reservations))
        end
  end.

Definition release_all (reservations : list Reservation) (b : Budget) : Budget :=
  foldl (λ b r, Release r b) b reservations.

Definition remove_steps (steps : list Step) (pending : gmap string Step) : gmap string Step :=
  foldl (λ m s, delete (ss_ID s) m) pending steps.

Definition complete_steps (steps : list Step) (completed : gmap string bool) : gmap string bool :=
  foldl (λ m s, <[ss_ID s := true]> m) completed steps.

Definition cycle_error : error :=
  Errorf "dependency cycle or unknown dependency in scheduling input" None.

Definition limits_error : error :=
  Errorf "configured limits prevent every ready step from dispatching" None.

Section build.
Context `{!MapOrder}.

(** The pending steps whose dependencies are complete, sorted. *)
Definition ready_steps (pending : gmap string Step) (completed : gmap string bool) : list Step :=
  sort_Slice ready_less
    (filter (λ s, dependenciesComplete s completed = true) (range_values 0 pending)).

(** One iteration of the loop: the steps of the next wave and the budget after it. *)
Definition next_wave (b : Budget) (pending : gmap string Step) (completed : gmap string bool) :
    result error (Budget * list Step) :=
  match ready_steps pending completed with
  | [] => Err cycle_error
  | (first :: _) as ready =>
      let '(b, (steps, reservations)) := fill_wave (ss_Phase first) ready b in
      match steps with
      | [] => Err limits_error
      | _ :: _ => Ok (release_all reservations b, steps)
      end
  end.

(** The loop; [None] is "out of fuel". *)
Fixpoint waves_loop (fuel : nat) (b : Budget) (pending : gmap string Step)
    (completed : gmap string bool) (waves : list Wave) : option (result error (list Wave)) :=
  if decide (pending = ∅) then Some (Ok waves)
  else match fuel with
  | O => None
  | S fuel =>
      match next_wave b pending completed with
      | Err e => Some (Err e)
      | Ok (b, steps) =>
          waves_loop fuel b (remove_steps steps pending) (complete_steps steps completed)
            (waves ++ [{| wv_Number := Z.of_nat (length waves); wv_Steps := steps |}])
      end
  end.

(** [BuildWaves] *)
Definition BuildWaves (steps : list Step) (limits : Limits) : option (result error (list Wave)) :=
  match NewBudget limits with
  | Err e => Some (Err e)
  | Ok budget =>
      match load_pending steps ∅ with
      | Err e => Some (Err e)
      | Ok pending => waves_loop (length steps) budget pending ∅ []
      end
  end.
End build.

#[global] Arguments cloneStep : simpl never.

(** ** Specification *)

(** How often the steps of a wave use the budget key [k]. *)
Definition wave_use (steps : list Step) (k : budgetKey) : nat := occ k (steps ≫= keysFor).

(** Every dependency of every step names a step, of smaller rank. *)
Definition well_founded_deps (steps : list Step) : Prop :=
  ∃ rank : string → nat, ∀ s d, s ∈ steps → d ∈ ss_Dependencies s →
    d ∈ ss_ID <$> steps ∧ (rank d < rank (ss_ID s))%nat.

(** The names of the steps dispatched in the waves before the [i]-th. *)
Definition done_before (waves : list Wave) (i : nat) : list string :=
  ss_ID <$> (take i waves ≫= wv_Steps).

(** How many steps of a wave use the budget key [k]. *)
Definition wave_users (steps : list Step) (k : budgetKey) : nat :=
  length (filter (λ s, k ∈ keysFor s) steps).

(** A wave of [steps], taken from [all] after [done] was dispatched. *)
Record wave_ok (limits : Limits) (all : list Step) (done : list string) (steps : list Step) : Prop := {
  wo_nonempty : steps ≠ [];
  wo_nodup : NoDup (ss_ID <$> steps);
  wo_new s : s ∈ steps → s ∈ all ∧ ss_ID s ∉ done;
  (** its dependencies were dispatched before *)
  wo_deps s d : s ∈ steps → d ∈ ss_Dependencies s → d ∈ done;
  (** no step that could be dispatched has a smaller phase *)
  wo_phase s t : s ∈ steps → t ∈ all → ss_ID t ∉ done →
    (∀ d, d ∈ ss_Dependencies t → d ∈ done) → ss_Phase s ≤ ss_Phase t;
  (** every limit bounds the number of steps of the wave *)
  wo_limits k : 0 ≤ limit limits k → Z.of_nat (wave_users steps k) ≤ limit limits k;
  (** a step left out, though ready and of the same phase, would exceed a limit *)
  wo_greedy s : s ∈ all → ss_ID s ∉ done → (∀ d, d ∈ ss_Dependencies s → d ∈ done) →
    (∀ t, t ∈ steps → ss_Phase t = ss_Phase s) →
    s ∈ steps ∨ ∃ k, k ∈ keysFor s ∧ limit limits k ≤ Z.of_nat (wave_use steps k);
}.

Definition waves_ok (limits : Limits) (all : list Step) (waves : list Wave) : Prop :=
  ∀ i w, waves !! i = Some w →
    wv_Number w = Z.of_nat i ∧ wave_ok limits all (done_before waves i) (wv_Steps w).

(** The waves partition the steps and each of them is as specified. *)
Definition schedule_ok (limits : Limits) (all : list Step) (waves : list Wave) : Prop :=
  (waves ≫= wv_Steps) ≡ₚ all ∧ waves_ok limits all waves.

Definition ready_key (s : Step) : Z * string := (ss_Phase s, ss_ID s).

Lemma ready_less_key : ready_less = less_on ready_key (lex_less Z.ltb String.ltb).
Proof. done. Qed.

(** ** The inner loop *)

Definition reservation_of (s : Step) : Reservation := {| res_step := s; res_keys := keysFor s |}.

Lemma held_reservations steps k : held (reservation_of <$> steps) k = wave_use steps k.
Proof.
  unfold held, wave_use. f_equal. induction steps as [|s steps IH]; [done|].
  csimpl. by rewrite IH.
Qed.

Lemma wave_use_app l1 l2 k : wave_use (l1 ++ l2) k = (wave_use l1 k + wave_use l2 k)%nat.
Proof. unfold wave_use. by rewrite bind_app, occ_app. Qed.

(** What filling a wave does, started with [acc] already dispatched. *)
Lemma fill_wave_spec limits ph ready b b' acc steps ress :
  budget_run limits b (reservation_of <$> reverse acc) →
  fill_wave ph ready b = (b', (steps, ress)) →
  budget_run limits b' (reservation_of <$> reverse (acc ++ steps)) ∧
  ress = reservation_of <$> steps ∧
  steps `sublist_of` ready ∧
  (∀ s, s ∈ steps → ss_Phase s = ph).
Proof.
  revert b acc b' steps ress. induction ready as [|s ready IH]; intros b acc b' steps ress Hrun Hf.
  { simpl in Hf. simplify_eq. rewrite app_nil_r. split_and!; [done..|set_solver]. }
  simpl in Hf. destruct (ss_Phase s =? ph) eqn:Hph; simpl in Hf; reflect_bools; last first.
  { simplify_eq. rewrite app_nil_r. split_and!; [done..|apply sublist_nil_l|set_solver]. }
  destruct (TryAcquire s b) as [b1 [r [|x blocked]]] eqn:Ht.
  - destruct (fill_wave ph ready b1) as [b2 [steps' ress']] eqn:Hf'. simplify_eq.
    assert (r = reservation_of s) as -> by (by apply TryAcquire_granted in Ht as (_ & -> & _)).
    apply (IH b1 (acc ++ [s])) in Hf' as (Hr & -> & Hsub & Hall); last first.
    { rewrite reverse_app. csimpl. by eapply budget_run_acquire. }
    rewrite <-app_assoc in Hr. split_and!; [done..|by constructor|].
    intros t [->|Ht']%elem_of_cons; auto.
  - apply (IH b1 acc) in Hf as (Hr & -> & Hsub & Hall); [|by eapply budget_run_refused].
    split_and!; [done..|by constructor|done].
Qed.

(** The wave is greedy: a step of the phase that is left out exceeds a limit. *)
Lemma fill_wave_greedy limits ph ready b b' acc steps ress s :
  budget_run limits b (reservation_of <$> reverse acc) →
  fill_wave ph ready b = (b', (steps, ress)) →
  StronglySorted (λ x y, ss_Phase x ≤ ss_Phase y) ready →
  Forall (λ x, ph ≤ ss_Phase x) ready →
  s ∈ ready → ss_Phase s = ph →
  s ∈ steps ∨ ∃ k, k ∈ keysFor s ∧ limit limits k ≤ Z.of_nat (wave_use (acc ++ steps) k).
Proof.
  revert b acc b' steps ress. induction ready as [|t ready IH]; intros b acc b' steps ress Hrun Hf
    Hss Hall Hin Hph; [set_solver|].
  apply StronglySorted_inv in Hss as [Hss Ht]. apply Forall_cons in Hall as [Htph Hall].
  simpl in Hf. destruct (ss_Phase t =? ph) eqn:Heq; simpl in Hf; reflect_bools; last first.
  { exfalso. apply elem_of_cons in Hin as [->|Hin]; [done|].
    rewrite Forall_forall in Ht. specialize (Ht _ Hin). lia. }
  destruct (TryAcquire t b) as [b1 [r [|x blocked]]] eqn:Hacq.
  - destruct (fill_wave ph ready b1) as [b2 [steps' ress']] eqn:Hf'. simplify_eq.
    apply elem_of_cons in Hin as [->|Hin]; [left; left|].
    assert (r = reservation_of t) as -> by (by apply TryAcquire_granted in Hacq as (_ & -> & _)).
    destruct (IH b1 (acc ++ [t]) _ _ _ ltac:(rewrite reverse_app; csimpl; by eapply budget_run_acquire)
      Hf' Hss Hall Hin Hph) as [?|(k & Hk & Hle)]; [left; by right|right].
    exists k. split; [done|]. by rewrite <-app_assoc in Hle.
  - assert (Hrun1 : budget_run limits b1 (reservation_of <$> reverse acc))
      by by eapply budget_run_refused.
    apply elem_of_cons in Hin as [->|Hin]; [|by eapply IH]. right.
    assert (Hb : blocked_keys b (keysFor t) ≠ []).
    { pose proof (TryAcquire_refused _ _ _ _ _ Hacq) as (_ & _ & <-); done. }
    destruct (blocked_keys b (keysFor t)) as [|y bl] eqn:Hbl; [done|].
    assert (y ∈ blocked_keys b (keysFor t)) as (k & Hk & Hle & _)%elem_of_blocked_keys
      by (rewrite Hbl; left).
    exists k. split; [done|].
    rewrite (budget_run_limits _ _ _ Hrun), (budget_inv_get _ _ _ (budget_run_inv _ _ _ Hrun)) in Hle.
    rewrite held_reservations in Hle. rewrite wave_use_app.
    assert (wave_use (reverse acc) k = wave_use acc k) as Hrev; [|lia].
    unfold wave_use. apply occ_perm. by rewrite reverse_Permutation.
Qed.

(** ** One iteration *)

Lemma holders_reservations steps k : holders (reservation_of <$> steps) k = wave_users steps k.
Proof.
  unfold holders, wave_users. induction steps as [|s steps IH]; [done|].
  csimpl. rewrite !filter_cons. simpl. case_decide; csimpl; by rewrite IH.
Qed.

Definition fresh (limits : Limits) : Budget := {| bu_limits := limits; bu_active := ∅ |}.

Definition pending_ok (pending : gmap string Step) : Prop :=
  ∀ k s, pending !! k = Some s → ss_ID s = k.

Section iteration.
Context `{!MapOrder}.
Implicit Types (pending : gmap string Step) (completed : gmap string bool).

Lemma elem_of_ready pending completed s : pending_ok pending →
  s ∈ ready_steps pending completed ↔
  pending !! ss_ID s = Some s ∧ dependenciesComplete s completed = true.
Proof.
  intros Hok. unfold ready_steps. rewrite elem_of_sort_Slice, list_elem_of_filter.
  unfold range_values. rewrite list_elem_of_fmap. split.
  - intros [Hd ([k s'] & -> & Hin%elem_of_range)]. simpl in *. by rewrite (Hok _ _ Hin).
  - intros [Hin Hd]. split; [done|]. exists (ss_ID s, s). by rewrite elem_of_range.
Qed.

Lemma range_values_IDs site pending : pending_ok pending →
  ss_ID <$> range_values site pending = range_keys site pending.
Proof.
  intros Hok. unfold range_values, range_keys. rewrite <-list_fmap_compose.
  apply list_fmap_ext. intros i [k s] Hi. simpl. apply Hok.
  apply (elem_of_range site). by eapply list_elem_of_lookup_2.
Qed.

Lemma NoDup_ready_IDs pending completed : pending_ok pending →
  NoDup (ss_ID <$> ready_steps pending completed).
Proof.
  intros Hok. unfold ready_steps. rewrite sort_Slice_perm.
  assert (Hnd : NoDup (ss_ID <$> range_values 0 pending)).
  { rewrite range_values_IDs by done. apply NoDup_range_keys. }
  eapply sublist_NoDup; [exact Hnd|]. by apply fmap_sublist, sublist_filter.
Qed.

Lemma ready_sorted pending completed :
  StronglySorted (λ x y, ss_Phase x ≤ ss_Phase y) (ready_steps pending completed).
Proof.
  unfold ready_steps. rewrite ready_less_key.
  eapply StronglySorted_impl; [|apply sort_on_sorted; apply _].
  intros x y. unfold slice_le, less_on, lex_less. simpl.
  case_bool_decide; [lia|]. rewrite Z.ltb_ge. lia.
Qed.

(** The maps of the loop, by the names dispatched so far. *)
Record loop_state (all : list Step) (done : list string) pending completed : Prop := {
  ls_pending k s : pending !! k = Some s ↔ s ∈ all ∧ ss_ID s = k ∧ k ∉ done;
  ls_completed d : get false completed d = true ↔ d ∈ done;
}.

Lemma loop_state_ok all done pending completed :
  loop_state all done pending completed → pending_ok pending.
Proof. by intros [Hp _] k s (_ & ? & _)%Hp. Qed.

Lemma loop_state_ready all done pending completed s :
  loop_state all done pending completed →
  s ∈ ready_steps pending completed ↔
  s ∈ all ∧ (ss_ID s ∉ done) ∧ (∀ d, d ∈ ss_Dependencies s → d ∈ done).
Proof.
  intros Hls. rewrite elem_of_ready by by eapply loop_state_ok.
  destruct Hls as [Hp Hc]. rewrite Hp. unfold dependenciesComplete.
  rewrite forallb_forall. setoid_rewrite <-list_elem_of_In. setoid_rewrite Hc. naive_solver.
Qed.

Lemma next_wave_ok limits all done pending completed b' steps :
  NewBudget limits = Ok (fresh limits) → loop_state all done pending completed →
  next_wave (fresh limits) pending completed = Ok (b', steps) →
  b' = fresh limits ∧ wave_ok limits all done steps.
Proof.
  intros Hb Hls Hnext. unfold next_wave in Hnext.
  pose proof (ready_sorted pending completed) as Hss.
  pose proof (NoDup_ready_IDs pending completed (loop_state_ok _ _ _ _ Hls)) as Hnd.
  assert (Hel := λ s, loop_state_ready _ _ _ _ s Hls).
  destruct (ready_steps pending completed) as [|first ready]; [done|].
  destruct (fill_wave _ _ _) as [b1 [steps' ress]] eqn:Hf.
  destruct steps' as [|s0 steps']; [done|]. injection Hnext as <- <-.
  pose proof Hss as [_ Hfirst]%StronglySorted_inv.
  assert (Hrun : budget_run limits (fresh limits) (reservation_of <$> reverse [])).
  { by apply budget_run_new. }
  pose proof (fill_wave_spec _ _ _ _ _ [] _ _ Hrun Hf) as (Hr1 & -> & Hsub & Hph).
  assert (Hin : ∀ s, s ∈ s0 :: steps' → s ∈ first :: ready).
  { intros s Hs. by apply (elem_of_sublist (s0 :: steps')). }
  assert (Hge : Forall (λ x, ss_Phase first ≤ ss_Phase x) (first :: ready)) by (by constructor).
  split; [|split].
  - apply budget_run_idle. eapply budget_run_release_all; [exact Hr1|].
    by rewrite reverse_Permutation.
  - done.
  - by apply (sublist_NoDup _ _ Hnd), fmap_sublist.
  - intros s (? & ? & _)%Hin%Hel. done.
  - intros s d (_ & _ & Hd)%Hin%Hel. auto.
  - intros s t Hs Ht Hd Hdeps. rewrite (Hph s Hs).
    rewrite Forall_forall in Hge. by apply Hge, Hel.
  - intros k Hk. rewrite <-holders_reservations.
    pose proof (budget_run_holders _ _ _ k Hr1 Hk) as Hh.
    by rewrite reverse_Permutation in Hh.
  - intros s Hs Hd Hdeps Hsame. eapply (fill_wave_greedy _ _ _ _ _ [] _ _ _ Hrun Hf Hss Hge).
    + by apply Hel.
    + rewrite <-(Hsame s0) by left. apply Hph. left.
Qed.

(** An idle budget grants the first ready step, so the error about the limits
    is never returned. *)
Lemma fill_wave_first limits first ready b' steps ress :
  NewBudget limits = Ok (fresh limits) →
  fill_wave (ss_Phase first) (first :: ready) (fresh limits) = (b', (steps, ress)) → steps ≠ [].
Proof.
  intros [Hv _]%NewBudget_Ok Hf. simpl in Hf. rewrite Z.eqb_refl in Hf. simpl in Hf.
  unfold TryAcquire in Hf. unfold fresh in Hf. rewrite fresh_grants in Hf by done.
  destruct (fill_wave _ _ _) as [? [? ?]]. by simplify_eq.
Qed.

Lemma next_wave_err limits all done pending completed e :
  NewBudget limits = Ok (fresh limits) → loop_state all done pending completed →
  next_wave (fresh limits) pending completed = Err e →
  e = cycle_error ∧ ready_steps pending completed = [].
Proof.
  intros Hb Hls Hnext. unfold next_wave in Hnext.
  destruct (ready_steps pending completed) as [|first ready]; [by simplify_eq|].
  destruct (fill_wave _ _ _) as [b1 [steps' ress]] eqn:Hf.
  apply fill_wave_first in Hf; [|done]. by destruct steps'.
Qed.

(** With well-founded dependencies some pending step is ready. *)
Lemma ready_nonempty all done pending completed s :
  well_founded_deps all → loop_state all done pending completed →
  s ∈ all → ss_ID s ∉ done → ready_steps pending completed ≠ [].
Proof.
  intros [rank Hrank] Hls. remember (rank (ss_ID s)) as n eqn:Hn. revert s Hn.
  induction (lt_wf n) as [n _ IH]. intros s -> Hs Hd Hnil.
  destruct (decide (Forall (λ d, d ∈ done) (ss_Dependencies s))) as [Hall|Hex].
  - rewrite Forall_forall in Hall.
    apply (not_elem_of_nil s). rewrite <-Hnil. by apply (loop_state_ready all done).
  - apply not_Forall_Exists in Hex; [|apply _]. apply Exists_exists in Hex as (d & Hin & Hnd).
    destruct (Hrank s d Hs Hin) as [(s' & -> & Hs')%list_elem_of_fmap Hlt].
    by eapply (IH _ Hlt s').
Qed.
End iteration.

(** ** The loop *)

Lemma lookup_remove_steps steps pending k :
  remove_steps steps pending !! k = if decide (k ∈ ss_ID <$> steps) then None else pending !! k.
Proof.
  unfold remove_steps. revert pending. induction steps as [|s steps IH]; intros pending; csimpl.
  - done.
  - rewrite IH, lookup_delete. repeat case_decide; set_solver.
Qed.

Lemma get_complete_steps steps completed d :
  get false (complete_steps steps completed) d =
  if decide (d ∈ ss_ID <$> steps) then true else get false completed d.
Proof.
  unfold complete_steps. revert completed. induction steps as [|s steps IH]; intros completed; csimpl.
  - done.
  - rewrite IH, get_insert. repeat case_decide; rewrite ?elem_of_cons in *; naive_solver.
Qed.

Lemma loop_state_step all done pending completed steps :
  loop_state all done pending completed →
  loop_state all (done ++ (ss_ID <$> steps)) (remove_steps steps pending)
    (complete_steps steps completed).
Proof.
  intros [Hp Hc]. split.
  - intros k s. rewrite lookup_remove_steps, not_elem_of_app.
    case_decide; [naive_solver|]. rewrite Hp. naive_solver.
  - intros d. rewrite get_complete_steps, elem_of_app, <-Hc. case_decide; naive_solver.
Qed.

(** Each iteration shrinks [pending]. *)
Lemma remove_steps_size limits all done pending completed steps :
  loop_state all done pending completed → wave_ok limits all done steps →
  (size (remove_steps steps pending) < size pending)%nat.
Proof.
  intros [Hp _] Hw. destruct steps as [|s steps]; [by destruct (wo_nonempty _ _ _ _ Hw)|].
  destruct (wo_new _ _ _ _ Hw s) as [Hs Hd]; [left|].
  assert (Hlk : pending !! ss_ID s = Some s) by by apply Hp.
  apply map_subset_size, map_subset_alt. split.
  - apply map_subseteq_spec. intros k t. rewrite lookup_remove_steps. by case_decide.
  - exists (ss_ID s). rewrite lookup_remove_steps, decide_True by (csimpl; left).
    split; [done|by eexists].
Qed.

Lemma done_before_snoc waves w i :
  (i ≤ length waves)%nat → done_before (waves ++ [w]) i = done_before waves i.
Proof. intros. unfold done_before. by rewrite take_app_le. Qed.

Lemma done_before_all waves : done_before waves (length waves) = ss_ID <$> (waves ≫= wv_Steps).
Proof. unfold done_before. by rewrite firstn_all. Qed.

Lemma waves_ok_snoc limits all waves steps :
  waves_ok limits all waves → wave_ok limits all (done_before waves (length waves)) steps →
  waves_ok limits all (waves ++ [{| wv_Number := Z.of_nat (length waves); wv_Steps := steps |}]).
Proof.
  intros Hok Hw i w Hi.
  apply lookup_app_Some in Hi as [Hi|[Hle Hi]].
  - rewrite done_before_snoc by (apply lookup_lt_Some in Hi; lia). by apply Hok.
  - apply list_lookup_singleton_Some in Hi as [Hi <-]. simpl.
    assert (i = length waves) as -> by lia. by rewrite done_before_snoc.
Qed.

(** The invariant of the loop head. *)
Record loop_inv (limits : Limits) (all : list Step) (b : Budget) (pending : gmap string Step)
    (completed : gmap string bool) (waves : list Wave) : Prop := {
  li_budget : b = fresh limits;
  li_state : loop_state all (ss_ID <$> (waves ≫= wv_Steps)) pending completed;
  li_nodup : NoDup (ss_ID <$> (waves ≫= wv_Steps));
  li_from s : s ∈ waves ≫= wv_Steps → s ∈ all;
  li_waves : waves_ok limits all waves;
}.

Lemma loop_inv_step `{!MapOrder} limits all b pending completed waves b' steps :
  NewBudget limits = Ok (fresh limits) →
  loop_inv limits all b pending completed waves →
  next_wave b pending completed = Ok (b', steps) →
  loop_inv limits all b' (remove_steps steps pending) (complete_steps steps completed)
    (waves ++ [{| wv_Number := Z.of_nat (length waves); wv_Steps := steps |}]) ∧
  (size (remove_steps steps pending) < size pending)%nat.
Proof.
  intros Hb [-> Hst Hnd Hfrom Hok] Hnext.
  eapply next_wave_ok in Hnext as [-> Hw]; [|done..].
  split; [|by eapply remove_steps_size]. split.
  - done.
  - rewrite bind_app, fmap_app. csimpl. rewrite app_nil_r. by apply loop_state_step.
  - rewrite bind_app, fmap_app. csimpl. rewrite app_nil_r. apply NoDup_app.
    split_and!; [done| |by eapply wo_nodup].
    intros d Hd (s & -> & Hs)%list_elem_of_fmap. by apply (wo_new _ _ _ _ Hw s).
  - intros s. rewrite bind_app, elem_of_app. csimpl. rewrite app_nil_r.
    intros [?|Hs]; [auto|]. by apply (wo_new _ _ _ _ Hw s).
  - apply waves_ok_snoc; [done|]. by rewrite done_before_all.
Qed.

Lemma loop_inv_done limits all b completed waves :
  NoDup (ss_ID <$> all) → loop_inv limits all b ∅ completed waves → schedule_ok limits all waves.
Proof.
  intros Hall [-> [Hp _] Hnd Hfrom Hok]. split; [|done].
  apply NoDup_Permutation; [by eapply NoDup_fmap_1..|].
  intros s. split; [apply Hfrom|]. intros Hs.
  destruct (decide (ss_ID s ∈ ss_ID <$> (waves ≫= wv_Steps))) as [Hin|Hno].
  - apply list_elem_of_fmap in Hin as (t & Hid & Ht).
    by rewrite (NoDup_fmap_elem_eq ss_ID all s t) by auto.
  - assert (Habs : (∅ : gmap string Step) !! ss_ID s = Some s) by by apply Hp.
    by rewrite lookup_empty in Habs.
Qed.

(** The loop returns: the specified waves, or the cycle error on dependencies
    that are not well-founded. *)
Lemma waves_loop_spec `{!MapOrder} limits all fuel b pending completed waves :
  NewBudget limits = Ok (fresh limits) → NoDup (ss_ID <$> all) →
  loop_inv limits all b pending completed waves → (size pending ≤ fuel)%nat →
  (∃ ws, waves_loop fuel b pending completed waves = Some (Ok ws) ∧ schedule_ok limits all ws) ∨
  waves_loop fuel b pending completed waves = Some (Err cycle_error) ∧ ¬ well_founded_deps all.
Proof.
  intros Hb Hall. revert b pending completed waves.
  induction fuel as [|fuel IH]; intros b pending completed waves Hinv Hsize.
  - assert (pending = ∅) as -> by (apply map_size_empty_iff; lia).
    left. exists waves. split; [done|]. by eapply loop_inv_done.
  - simpl. case_decide as Hp.
    { subst. left. exists waves. split; [done|]. by eapply loop_inv_done. }
    destruct (next_wave b pending completed) as [[b' steps]|e] eqn:Hnext.
    + destruct (loop_inv_step _ _ _ _ _ _ _ _ Hb Hinv Hnext) as [Hinv' Hlt].
      apply (IH _ _ _ _ Hinv'). lia.
    + right. destruct Hinv as [-> Hst Hnd Hfrom Hok].
      destruct (next_wave_err _ _ _ _ _ _ Hb Hst Hnext) as [-> Hready].
      split; [done|]. intros Hwf. apply map_choose in Hp as (k & s & Hk).
      apply (ls_pending _ _ _ _ Hst) in Hk as (Hs & <- & Hno).
      by eapply ready_nonempty.
Qed.

(** ** BuildWaves *)

(** The input checks of [BuildWaves]. *)
Definition steps_named (steps : list Step) : Prop :=
  Forall (λ s, ss_ID s ≠ "") steps ∧ NoDup (ss_ID <$> steps).

Lemma load_pending_Ok steps p0 p :
  load_pending steps p0 = Ok p →
  steps_named steps ∧ (∀ s, s ∈ steps → p0 !! ss_ID s = None) ∧
  p = index_by ss_ID cloneStep steps p0.
Proof.
  unfold steps_named. revert p0. induction steps as [|s steps IH]; intros p0 Hl; csimpl.
  { injection Hl as <-. split_and!; [constructor..|set_solver|done]. }
  simpl in Hl. case_bool_decide; [done|]. destruct (p0 !! ss_ID s) eqn:Hs; [done|].
  apply IH in Hl as ([Hne Hnd] & Hfresh & ->).
  assert (Hnot : ss_ID s ∉ ss_ID <$> steps).
  { intros (t & Ht & Hin)%list_elem_of_fmap. specialize (Hfresh t Hin).
    by rewrite <-Ht, lookup_insert_eq in Hfresh. }
  split_and!; [by constructor|by constructor| |done].
  intros t [->|Ht]%elem_of_cons; [done|].
  specialize (Hfresh t Ht). by apply lookup_insert_None in Hfresh as [? _].
Qed.

Lemma load_pending_named steps p0 :
  steps_named steps → (∀ s, s ∈ steps → p0 !! ss_ID s = None) →
  load_pending steps p0 = Ok (index_by ss_ID cloneStep steps p0).
Proof.
  unfold steps_named. revert p0. induction steps as [|s steps IH]; intros p0 [Hne Hnd] Hfresh; [done|].
  csimpl in *. apply Forall_cons in Hne as [Hs Hne]. apply NoDup_cons in Hnd as [Hnot Hnd].
  rewrite bool_decide_false by done. rewrite (Hfresh s) by left. apply IH; [done|].
  intros t Ht. rewrite lookup_insert_ne; [apply Hfresh; by right|].
  intros Heq. apply Hnot. rewrite Heq. by apply list_elem_of_fmap_2.
Qed.

(** The map the input loop builds. *)
Definition pending_of (steps : list Step) : gmap string Step := index_by ss_ID cloneStep steps ∅.

Lemma lookup_pending_of steps k s : NoDup (ss_ID <$> steps) →
  pending_of steps !! k = Some s ↔ s ∈ cloneStep <$> steps ∧ ss_ID s = k.
Proof.
  intros Hnd. unfold pending_of. rewrite lookup_index_by_empty by done.
  rewrite list_elem_of_fmap. split.
  - intros (x & ? & ? & <-). eauto.
  - intros [(x & -> & ?) <-]. eauto.
Qed.

Lemma cloneStep_IDs (steps : list Step) : ss_ID <$> (cloneStep <$> steps) = ss_ID <$> steps.
Proof. by rewrite <-list_fmap_compose. Qed.

Lemma size_pending_of steps : NoDup (ss_ID <$> steps) → size (pending_of steps) = length steps.
Proof. apply size_index_by. Qed.

Lemma loop_inv_init limits steps : NoDup (ss_ID <$> steps) →
  loop_inv limits (cloneStep <$> steps) (fresh limits) (pending_of steps) ∅ [].
Proof.
  intros Hnd. split; [done| |constructor|set_solver|done]. split.
  - intros k s. rewrite lookup_pending_of by done. set_solver.
  - intros d. rewrite get_empty. set_solver.
Qed.

Lemma BuildWaves_unfold `{!MapOrder} steps limits :
  Limits_Validate limits = Ok tt → steps_named steps →
  BuildWaves steps limits = waves_loop (length steps) (fresh limits) (pending_of steps) ∅ [].
Proof.
  intros Hv Hn. unfold BuildWaves, NewBudget. rewrite Hv. simpl.
  rewrite load_pending_named; [done..|]. intros. apply lookup_empty.
Qed.

Lemma BuildWaves_accepted `{!MapOrder} steps limits ws :
  BuildWaves steps limits = Some (Ok ws) → Limits_Validate limits = Ok tt ∧ steps_named steps.
Proof.
  unfold BuildWaves. destruct (NewBudget limits) as [b|] eqn:Hb; [|done].
  apply NewBudget_Ok in Hb as [Hv _].
  destruct (load_pending steps ∅) as [p|] eqn:Hl; [|done].
  by apply load_pending_Ok in Hl as (? & _ & _).
Qed.

Lemma elem_of_clone_deps s d : d ∈ ss_Dependencies (cloneStep s) ↔ d ∈ ss_Dependencies s.
Proof. apply elem_of_sort_Strings. Qed.

Lemma well_founded_deps_clone steps :
  well_founded_deps (cloneStep <$> steps) ↔ well_founded_deps steps.
Proof.
  unfold well_founded_deps. f_equiv. intros rank. rewrite cloneStep_IDs.
  setoid_rewrite list_elem_of_fmap. split.
  - intros H s d Hs Hd. apply (H (cloneStep s)); [by eauto|]. by rewrite elem_of_clone_deps.
  - intros H s d (t & -> & Ht) Hd. apply (H t); [done|]. by rewrite elem_of_clone_deps in Hd.
Qed.

Lemma BuildWaves_cases `{!MapOrder} steps limits :
  Limits_Validate limits = Ok tt → steps_named steps →
  (∃ ws, BuildWaves steps limits = Some (Ok ws) ∧ schedule_ok limits (cloneStep <$> steps) ws) ∨
  BuildWaves steps limits = Some (Err cycle_error) ∧ ¬ well_founded_deps steps.
Proof.
  intros Hv Hn. rewrite BuildWaves_unfold by done. destruct Hn as [_ Hnd].
  rewrite <-well_founded_deps_clone. apply waves_loop_spec.
  - unfold NewBudget. by rewrite Hv.
  - by rewrite cloneStep_IDs.
  - by apply loop_inv_init.
  - by rewrite size_pending_of.
Qed.

(** *** Consequences of the specification *)

Lemma elem_of_done_before waves i d :
  d ∈ done_before waves i ↔
  ∃ j w s, (j < i)%nat ∧ waves !! j = Some w ∧ s ∈ wv_Steps w ∧ ss_ID s = d.
Proof.
  unfold done_before. rewrite list_elem_of_fmap. setoid_rewrite list_elem_of_bind.
  setoid_rewrite list_elem_of_lookup. setoid_rewrite lookup_take_Some. naive_solver.
Qed.

Lemma done_before_mono waves i j : (i ≤ j)%nat → done_before waves i ⊆ done_before waves j.
Proof.
  intros Hle d. rewrite !elem_of_done_before. intros (l & w & s & ? & ?).
  exists l, w, s. split; [lia|done].
Qed.

(** A schedule ranks the steps by their waves. *)
Lemma schedule_well_founded limits all ws :
  NoDup (ss_ID <$> all) → schedule_ok limits all ws → well_founded_deps all.
Proof.
  intros Hnd [Hp Hok].
  set (rank d := default (S (length ws))
    (fst <$> list_find (λ j, d ∈ done_before ws j) (seq 0 (S (length ws))))).
  assert (Hle : ∀ d i, (i ≤ length ws)%nat → d ∈ done_before ws i → (rank d ≤ i)%nat).
  { intros d i Hi Hd. unfold rank.
    destruct (list_find_elem_of (λ j, d ∈ done_before ws j) (seq 0 (S (length ws))) i) as [[j x] Hj];
      [apply elem_of_seq; lia|done|]. rewrite Hj. simpl.
    apply list_find_Some in Hj as (Hj & _ & Hmin).
    destruct (decide (j ≤ i)%nat); [done|].
    destruct (Hmin i i) as []; [apply lookup_seq; lia|lia|done]. }
  assert (Hlt : ∀ d i, d ∉ done_before ws i → (i < rank d)%nat ∨ (length ws < i)%nat).
  { intros d i Hd. unfold rank. destruct (list_find _ _) as [[j x]|] eqn:Hj; simpl; [|lia].
    apply list_find_Some in Hj as (Hj & Hin & _). apply lookup_seq in Hj as [Hx ?].
    destruct (decide (i < j)%nat); [by left|]. destruct Hd.
    eapply (done_before_mono ws x i); [lia|done]. }
  exists rank. intros s d Hs Hd. rewrite <-Hp in Hs.
  apply list_elem_of_bind in Hs as (w & Hs & Hw).
  apply list_elem_of_lookup in Hw as [i Hi]. destruct (Hok i w Hi) as [_ Hw].
  pose proof (lookup_lt_Some _ _ _ Hi) as Hlen.
  pose proof (wo_deps _ _ _ _ Hw s d Hs Hd) as Hdone.
  destruct (wo_new _ _ _ _ Hw s Hs) as [_ Hnew]. split.
  - rewrite <-Hp, <-done_before_all. eapply (done_before_mono ws i); [lia|done].
  - pose proof (Hle d i ltac:(lia) Hdone). destruct (Hlt _ _ Hnew); lia.
Qed.

(** When a phase is never below that of a dependency, waves go up in phase. *)
Lemma schedule_phases limits all ws i j v w s t :
  NoDup (ss_ID <$> all) → schedule_ok limits all ws →
  (∀ x y, x ∈ all → y ∈ all → ss_ID y ∈ ss_Dependencies x → ss_Phase y ≤ ss_Phase x) →
  (i ≤ j)%nat → ws !! i = Some v → ws !! j = Some w → s ∈ wv_Steps v → t ∈ wv_Steps w →
  ss_Phase s ≤ ss_Phase t.
Proof.
  intros Hnd [Hp Hok] Hmono Hij Hi Hj Hs. revert t w Hij Hj.
  induction (lt_wf j) as [j _ IH]. intros t w Hij Hj Ht.
  destruct (Hok i v Hi) as [_ Hv], (Hok j w Hj) as [_ Hw].
  destruct (wo_new _ _ _ _ Hw t Ht) as [Hall Hnew].
  assert (Hnewi : ss_ID t ∉ done_before ws i) by by contradict Hnew; eapply done_before_mono.
  destruct (decide (Forall (λ d, d ∈ done_before ws i) (ss_Dependencies t))) as [Hd|Hd].
  - rewrite Forall_forall in Hd. by eapply (wo_phase _ _ _ _ Hv).
  - apply not_Forall_Exists in Hd; [|apply _]. apply Exists_exists in Hd as (d & Hin & Hno).
    pose proof (wo_deps _ _ _ _ Hw t d Ht Hin) as (l & u & x & Hl & Hu & Hx & Hid)%elem_of_done_before.
    assert (i ≤ l)%nat.
    { destruct (decide (i ≤ l)%nat); [done|]. destruct Hno. apply elem_of_done_before.
      exists l, u, x. split_and!; [lia|done..]. }
    transitivity (ss_Phase x); [by eapply (IH l)|]. apply Hmono; [done| |by rewrite Hid].
    destruct (Hok l u Hu) as [_ Hul]. by apply (wo_new _ _ _ _ Hul x).
Qed.

(** ** Independence of the iteration order and of the input order *)

Lemma ready_steps_canonical (o1 o2 : MapOrder) pending completed :
  pending_ok pending →
  @ready_steps o1 pending completed = @ready_steps o2 pending completed.
Proof.
  intros Hok. unfold ready_steps. rewrite ready_less_key. apply sort_on_canonical.
  - apply _.
  - apply (NoDup_fmap_1 snd). rewrite <-list_fmap_compose.
    pose proof (@NoDup_ready_IDs o1 pending completed Hok) as Hnd.
    unfold ready_steps in Hnd. by rewrite sort_Slice_perm in Hnd.
  - unfold range_values. by rewrite (range_canonical o1 o2 0 0).
Qed.

Lemma waves_loop_canonical (o1 o2 : MapOrder) fuel b pending completed waves :
  pending_ok pending →
  @waves_loop o1 fuel b pending completed waves = @waves_loop o2 fuel b pending completed waves.
Proof.
  revert b pending completed waves. induction fuel as [|fuel IH]; intros b pending completed waves Hok.
  { done. }
  simpl. case_decide; [done|]. unfold next_wave. rewrite (ready_steps_canonical o1 o2) by done.
  destruct (@ready_steps o2 _ _) as [|first ready]; [done|].
  destruct (fill_wave _ _ _) as [b1 [[|s steps] ress]]; [done|].
  apply IH. intros k t. rewrite lookup_remove_steps. case_decide; [done|apply Hok].
Qed.

Lemma pending_of_ok steps : NoDup (ss_ID <$> steps) → pending_ok (pending_of steps).
Proof. by intros Hnd k s [_ ?]%lookup_pending_of. Qed.

Lemma pending_of_perm steps steps' :
  NoDup (ss_ID <$> steps) → steps ≡ₚ steps' → pending_of steps = pending_of steps'.
Proof. apply index_by_perm. Qed.

Lemma steps_named_perm steps steps' : steps ≡ₚ steps' → steps_named steps → steps_named steps'.
Proof. intros Hp [? ?]. split; by rewrite <-Hp. Qed.

(** ** Theorems *)

(** C25: the waves [BuildWaves] returns partition the given steps,
    are numbered from zero, and each of them is non-empty, dispatches only steps
    whose dependencies were dispatched in earlier waves, takes the least phase
    among the steps that are ready, keeps the number of steps on every budget
    key within its limit, and leaves out a ready step of that phase only when
    some limit is exhausted. *)
Theorem BuildWaves_schedule `{!MapOrder} steps limits ws :
  BuildWaves steps limits = Some (Ok ws) → schedule_ok limits (cloneStep <$> steps) ws.
Proof.
  intros Hb. destruct (BuildWaves_accepted _ _ _ Hb) as [Hv Hn].
  destruct (BuildWaves_cases steps limits Hv Hn) as [(ws' & Hb' & Hok)|[Hb' _]]; congruence.
Qed.

(** [BuildWaves] succeeds exactly on valid limits and on steps
    with distinct non-empty names whose dependencies all name given steps and
    form no cycle. *)
Theorem BuildWaves_succeeds_iff `{!MapOrder} steps limits :
  (∃ ws, BuildWaves steps limits = Some (Ok ws)) ↔
  Limits_Validate limits = Ok tt ∧ Forall (λ s, ss_ID s ≠ "") steps ∧
  NoDup (ss_ID <$> steps) ∧ well_founded_deps steps.
Proof.
  split.
  - intros [ws Hb]. destruct (BuildWaves_accepted _ _ _ Hb) as [Hv Hn].
    destruct (BuildWaves_cases steps limits Hv Hn) as [(ws' & Hb' & Hok)|[Hb' _]]; [|congruence].
    split_and!; [done|apply Hn..|]. apply well_founded_deps_clone.
    eapply schedule_well_founded; [|done]. rewrite cloneStep_IDs. apply Hn.
  - intros (Hv & Hne & Hnd & Hwf).
    destruct (BuildWaves_cases steps limits Hv (conj Hne Hnd)) as [(ws & Hb & _)|[_ ?]]; naive_solver.
Qed.

(** The input loop reports other errors than the limits. *)
Lemma load_pending_err steps p e : load_pending steps p = Err e → e ≠ limits_error.
Proof.
  revert p. induction steps as [|s steps IH]; intros p Hl; [done|]. simpl in Hl.
  case_bool_decide; [by simplify_eq|]. destruct (p !! ss_ID s); [by simplify_eq|]. by eapply IH.
Qed.

(** the loop always ends within as many iterations as there are
    steps, and with valid limits never with the error that the limits prevent
    every ready step from dispatching. *)
Theorem BuildWaves_total `{!MapOrder} steps limits :
  ∃ r, BuildWaves steps limits = Some r ∧ (Limits_Validate limits = Ok tt → r ≠ Err limits_error).
Proof.
  unfold BuildWaves. destruct (NewBudget limits) as [b|e] eqn:Hb; last first.
  { eexists. split; [done|]. intros Hv. unfold NewBudget in Hb. by rewrite Hv in Hb. }
  pose proof (NewBudget_Ok _ _ Hb) as [Hv ->].
  destruct (load_pending steps ∅) as [p|e] eqn:Hl; last first.
  { eexists. split; [done|]. intros _ [= ->]. by apply load_pending_err in Hl. }
  pose proof (load_pending_Ok _ _ _ Hl) as (Hn & _ & _).
  pose proof (BuildWaves_cases steps limits Hv Hn) as Hc.
  unfold BuildWaves in Hc. rewrite Hb, Hl in Hc.
  destruct Hc as [(ws & -> & _)|[-> _]]; by eexists.
Qed.

(** the waves depend neither on the order in which Go
    ranges over the map of pending steps nor on the order of the given steps. *)
Theorem BuildWaves_deterministic (o1 o2 : MapOrder) steps steps' limits ws :
  steps ≡ₚ steps' →
  @BuildWaves o1 steps limits = Some (Ok ws) → @BuildWaves o2 steps' limits = Some (Ok ws).
Proof.
  intros Hp Hb. destruct (@BuildWaves_accepted o1 _ _ _ Hb) as [Hv Hn].
  rewrite BuildWaves_unfold in Hb by done.
  rewrite BuildWaves_unfold by (done || by eapply steps_named_perm).
  rewrite <-(Permutation_length Hp), <-(pending_of_perm steps) by (done || apply Hn).
  rewrite <-Hb. by apply waves_loop_canonical, pending_of_ok, Hn.
Qed.

(** when no step has a smaller phase than one of its
    dependencies, the waves never go back to an earlier phase. *)
Theorem BuildWaves_phases `{!MapOrder} steps limits ws i j v w s t :
  BuildWaves steps limits = Some (Ok ws) →
  (∀ x y, x ∈ steps → y ∈ steps → ss_ID y ∈ ss_Dependencies x → ss_Phase y ≤ ss_Phase x) →
  (i ≤ j)%nat → ws !! i = Some v → ws !! j = Some w → s ∈ wv_Steps v → t ∈ wv_Steps w →
  ss_Phase s ≤ ss_Phase t.
Proof.
  intros Hb Hmono. destruct (BuildWaves_accepted _ _ _ Hb) as [Hv Hn].
  destruct (BuildWaves_cases steps limits Hv Hn) as [(ws' & Hb' & Hok)|[Hb' _]]; [|congruence].
  rewrite Hb in Hb'. simplify_eq. eapply schedule_phases; [|exact Hok|].
  - rewrite cloneStep_IDs. apply Hn.
  - intros x y (x' & -> & Hx)%list_elem_of_fmap (y' & -> & Hy)%list_elem_of_fmap.
    rewrite elem_of_clone_deps. exact (Hmono x' y' Hx Hy).
Qed.

(** ** Witnesses *)

Definition demo_waves : list Wave :=
  [{| wv_Number := 0; wv_Steps := [demo_step "api" "db"] |};
   {| wv_Number := 1; wv_Steps := [demo_step "web" "db"] |}].

Definition demo_steps : list Step := [demo_step "web" "db"; demo_step "api" "db"].

Lemma demo_waves_built : @BuildWaves canonical_order demo_steps DefaultLimits = Some (Ok demo_waves).
Proof. vm_compute. reflexivity. Qed.

Lemma BuildWaves_schedule_witness :
  schedule_ok DefaultLimits (cloneStep <$> demo_steps) demo_waves.
Proof. exact (@BuildWaves_schedule canonical_order _ _ _ demo_waves_built). Defined.

Lemma BuildWaves_deterministic_witness :
  @BuildWaves reversed_order [demo_step "api" "db"; demo_step "web" "db"] DefaultLimits =
  Some (Ok demo_waves).
Proof.
  apply (BuildWaves_deterministic canonical_order reversed_order demo_steps).
  - apply Permutation_swap.
  - exact demo_waves_built.
Defined.

Lemma BuildWaves_phases_witness :
  ss_Phase (demo_step "api" "db") ≤ ss_Phase (demo_step "web" "db").
Proof.
  apply (@BuildWaves_phases canonical_order demo_steps DefaultLimits demo_waves 0 1
    {| wv_Number := 0; wv_Steps := [demo_step "api" "db"] |}
    {| wv_Number := 1; wv_Steps := [demo_step "web" "db"] |}).
  - exact demo_waves_built.
  - intros x y Hx Hy Hd. apply elem_of_cons in Hx as [->|[->|[]%elem_of_nil]%elem_of_cons];
      by apply elem_of_nil in Hd.
  - lia.
  - reflexivity.
  - reflexivity.
  - left.
  - left.
Defined.
