(* ===== verification/Breaker.v ===== *)
(** * Circuit breaker (src/internal/scheduler/circuit_breaker.go)

    Error rates are binary64 quotients, as in Go, with the standard library's
    specification of IEEE 754 ([SpecFloat]).  The breaker is refined to the
    history of recorded outcomes: its window is the last [WindowSize] of them
    and its latch is open exactly when some prefix of the history tripped it. *)
From S2P Require Import Prelude GoStd Domain.
From Stdlib Require Import SpecFloat.
Open Scope Z_scope.

(** [float64(n)], [x / y], [x <= y] and [x < y] on binary64. *)
Definition float_of_int (n : Z) : float64 := binary_normalize 53 1024 n 0 false.
Definition float_div (x y : float64) : float64 := SFdiv 53 1024 x y.
Definition float_le (x y : float64) : bool := SFleb x y.
Definition float_lt (x y : float64) : bool := SFltb x y.

Definition ErrCircuitOpen : error :=
  Sentinel "scheduler.ErrCircuitOpen" "production circuit breaker is open".

(** [CircuitPolicy] *)
Record CircuitPolicy := {
  cp_MinimumSamples : Z;
  cp_WindowSize : Z;
  cp_ErrorRate : float64;
}.

(** [CircuitState] *)
Record CircuitState := {
  cs_Open : bool;
  cs_Samples : Z;
  cs_Failures : Z;
  cs_ErrorRate : float64;
}.

#[export] Instance eta_CircuitState : Eta CircuitState := λ r,
  {| cs_Open := cs_Open r; cs_Samples := cs_Samples r; cs_Failures := cs_Failures r;
     cs_ErrorRate := cs_ErrorRate r |}.

Definition zero_CircuitState : CircuitState :=
  {| cs_Open := false; cs_Samples := 0; cs_Failures := 0; cs_ErrorRate := float_of_int 0 |}.

(** [CircuitBreaker]; the mutex makes each operation one atomic step. *)
Record CircuitBreaker := {
  cb_policy : CircuitPolicy;
  cb_windows : gmap string (list bool);
  cb_open : gmap string bool;
}.

#[export] Instance eta_CircuitBreaker : Eta CircuitBreaker := λ r,
  {| cb_policy := cb_policy r; cb_windows := cb_windows r; cb_open := cb_open r |}.

Definition NewCircuitBreaker (policy : CircuitPolicy) : result error CircuitBreaker :=
  if (cp_MinimumSamples policy <? 1) || (cp_WindowSize policy <? cp_MinimumSamples policy)
     || float_le (cp_ErrorRate policy) (float_of_int 0)
     || float_lt (float_of_int 1) (cp_ErrorRate policy)
  then Err (ErrorNew "invalid circuit breaker policy")
  else Ok {| cb_policy := policy; cb_windows := ∅; cb_open := ∅ |}.

Definition tenantKey (tenant : string) : string :=
  if bool_decide (tenant = "") then "default" else tenant.

(** [CircuitBreaker.Allow] *)
Definition Allow (b : CircuitBreaker) (tenant environment : string) : result error unit :=
  if negb (bool_decide (environment = "production")) then Ok tt
  else if get false (cb_open b) (tenantKey tenant) then Err ErrCircuitOpen
  else Ok tt.

Definition count_failures (window : list bool) : Z :=
  foldl (λ n failed, if (failed : bool) then n + 1 else n) 0 window.

Definition stateOf (window : list bool) (open : bool) : CircuitState :=
  let failures := count_failures window in
  let rate := match window with
              | [] => float_of_int 0
              | _ :: _ => float_div (float_of_int failures) (float_of_int (Z.of_nat (length window)))
              end in
  {| cs_Open := open; cs_Samples := Z.of_nat (length window); cs_Failures := failures;
     cs_ErrorRate := rate |}.

(** [CircuitBreaker.Record] *)
Definition Record_ (tenant environment : string) (failed : bool) : ST CircuitBreaker CircuitState := λ b,
  if negb (bool_decide (environment = "production")) then (b, zero_CircuitState)
  else
    let key := tenantKey tenant in
    let size := cp_WindowSize (cb_policy b) in
    let window := get [] (cb_windows b) key ++ [failed] in
    let window := if size <? Z.of_nat (length window)
                  then drop (length window - Z.to_nat size) window else window in
    let b := b <| cb_windows := <[key := window]> (cb_windows b) |> in
    let state := stateOf window (get false (cb_open b) key) in
    if (cp_MinimumSamples (cb_policy b) <=? Z.of_nat (length window))
       && float_le (cp_ErrorRate (cb_policy b)) (cs_ErrorRate state)
    then (b <| cb_open := <[key := true]> (cb_open b) |>, state <| cs_Open := true |>)
    else (b, state).

(** [CircuitBreaker.State] *)
Definition State (b : CircuitBreaker) (tenant : string) : CircuitState :=
  let key := tenantKey tenant in
  stateOf (get [] (cb_windows b) key) (get false (cb_open b) key).

#[global] Arguments stateOf : simpl never.
#[global] Arguments float_le : simpl never.
#[global] Arguments float_div : simpl never.
#[global] Arguments float_of_int : simpl never.

(** ** Specification: the history of outcomes *)

(** One call of [Record]. *)
Record Outcome := {
  oc_tenant : string;
  oc_environment : string;
  oc_failed : bool;
}.

Definition record_all (h : list Outcome) (b : CircuitBreaker) : CircuitBreaker :=
  foldl (λ b o, (Record_ (oc_tenant o) (oc_environment o) (oc_failed o) b).1) b h.

(** The production outcomes of a tenant, oldest first. *)
Definition outcomes (key : string) (h : list Outcome) : list bool :=
  omap (λ o, if bool_decide (oc_environment o = "production" ∧ tenantKey (oc_tenant o) = key)
             then Some (oc_failed o) else None) h.

(** The last [n] elements. *)
Definition last_n {A} (n : nat) (l : list A) : list A := drop (length l - n) l.

(** The window holds enough samples and its error rate reaches the threshold. *)
Definition tripping (policy : CircuitPolicy) (window : list bool) : bool :=
  (cp_MinimumSamples policy <=? Z.of_nat (length window)) &&
  float_le (cp_ErrorRate policy) (cs_ErrorRate (stateOf window false)).

(** Some moment of the history had a tripping window. *)
Definition tripped (policy : CircuitPolicy) (l : list bool) : Prop :=
  ∃ p, p `prefix_of` l ∧ p ≠ [] ∧
    tripping policy (last_n (Z.to_nat (cp_WindowSize policy)) p) = true.

(** ** Refinement *)

Lemma outcomes_snoc key h o :
  outcomes key (h ++ [o]) = outcomes key h ++
    (if bool_decide (oc_environment o = "production" ∧ tenantKey (oc_tenant o) = key)
     then [oc_failed o] else []).
Proof. unfold outcomes. rewrite omap_app. simpl. by case_bool_decide. Qed.

Lemma tripped_snoc policy l x :
  tripped policy (l ++ [x]) ↔
  tripped policy l ∨
  tripping policy (last_n (Z.to_nat (cp_WindowSize policy)) (l ++ [x])) = true.
Proof.
  unfold tripped. split.
  - intros (p & [k Hk] & Hne & Ht). destruct k as [|y k _] using rev_ind.
    { rewrite app_nil_r in Hk. subst. by right. }
    rewrite app_assoc in Hk. apply app_inj_tail in Hk as [-> _].
    left. exists p. split; [by apply prefix_app_r|done].
  - intros [(p & Hp & Hne & Ht)|Ht].
    + exists p. split; [by apply prefix_app_r|done].
    + exists (l ++ [x]). split_and!; [done| |done]. by destruct l.
Qed.

(** The breaker represents the history [h]. *)
Record represents (policy : CircuitPolicy) (h : list Outcome) (b : CircuitBreaker) : Prop := {
  rp_policy : cb_policy b = policy;
  rp_window key : get [] (cb_windows b) key =
    last_n (Z.to_nat (cp_WindowSize policy)) (outcomes key h);
  rp_open key : get false (cb_open b) key = true ↔ tripped policy (outcomes key h);
}.

(** What [Record] does to the breaker, as one equation. *)
Lemma Record_production tenant failed b :
  1 ≤ cp_WindowSize (cb_policy b) →
  let key := tenantKey tenant in
  let window := last_n (Z.to_nat (cp_WindowSize (cb_policy b))) (get [] (cb_windows b) key ++ [failed]) in
  (Record_ tenant "production" failed b).1 =
  {| cb_policy := cb_policy b;
     cb_windows := <[key := window]> (cb_windows b);
     cb_open := if tripping (cb_policy b) window then <[key := true]> (cb_open b) else cb_open b |}.
Proof.
  intros Hsize key window. unfold Record_. rewrite bool_decide_true by done. simpl.
  fold key. set (w := get [] (cb_windows b) key ++ [failed]) in *.
  assert (Hw : (if cp_WindowSize (cb_policy b) <? Z.of_nat (length w)
    then drop (length w - Z.to_nat (cp_WindowSize (cb_policy b))) w else w) = window).
  { unfold window, last_n. split_if; reflect_bools; [done|].
    by replace (length w - Z.to_nat (cp_WindowSize (cb_policy b)))%nat with 0%nat by lia. }
  rewrite Hw. unfold tripping, modify. cbn [cb_policy cb_windows cb_open].
  by destruct ((_ <=? _) && _).
Qed.

Lemma Record_other tenant environment failed b :
  environment ≠ "production" → (Record_ tenant environment failed b).1 = b.
Proof. intros. unfold Record_. by rewrite bool_decide_false. Qed.

(** Appending to the window commutes with taking the last [n] of the history. *)
Lemma last_n_window {A} n (l : list A) x :
  (0 < n)%nat → last_n n (last_n n l ++ [x]) = last_n n (l ++ [x]).
Proof.
  intros Hn. unfold last_n. rewrite !length_app, length_drop. simpl.
  rewrite <-drop_app_le by lia. rewrite drop_drop. f_equal. lia.
Qed.

Lemma Record_represents policy h b o :
  1 ≤ cp_WindowSize policy → represents policy h b →
  represents policy (h ++ [o]) (Record_ (oc_tenant o) (oc_environment o) (oc_failed o) b).1.
Proof.
  intros Hsize [<- Hwin Hopen].
  destruct (decide (oc_environment o = "production")) as [Henv|Henv]; last first.
  { rewrite Record_other by done.
    split; [done| |]; intros key; rewrite outcomes_snoc, bool_decide_false, app_nil_r by tauto; auto. }
  rewrite Henv, Record_production by done. rewrite Hwin, last_n_window by lia.
  split; cbn [cb_policy cb_windows cb_open]; [done| |]; intros key; rewrite outcomes_snoc.
  - rewrite get_insert. case_decide as Hk.
    + subst key. by rewrite bool_decide_true.
    + by rewrite bool_decide_false, app_nil_r by naive_solver.
  - destruct (decide (tenantKey (oc_tenant o) = key)) as [<-|Hk].
    + rewrite bool_decide_true, tripped_snoc, <-Hopen by done.
      destruct (tripping _ _) eqn:Ht; [|naive_solver].
      rewrite get_insert_eq. naive_solver.
    + rewrite bool_decide_false, app_nil_r, <-Hopen by naive_solver.
      destruct (tripping _ _); [|done]. by rewrite get_insert_ne.
Qed.

Lemma NewCircuitBreaker_Ok policy b :
  NewCircuitBreaker policy = Ok b →
  1 ≤ cp_MinimumSamples policy ≤ cp_WindowSize policy ∧
  b = {| cb_policy := policy; cb_windows := ∅; cb_open := ∅ |}.
Proof.
  unfold NewCircuitBreaker. intros H. split_if; [done|]. simplify_eq. reflect_bools. split; [lia|done].
Qed.

Lemma represents_new policy b : NewCircuitBreaker policy = Ok b → represents policy [] b.
Proof.
  intros [_ ->]%NewCircuitBreaker_Ok. split; [done|done|].
  intros key. split; [done|]. intros (p & Hp & Hne & _). by apply prefix_nil_inv in Hp.
Qed.

Lemma record_all_represents policy b h :
  NewCircuitBreaker policy = Ok b → represents policy h (record_all h b).
Proof.
  intros Hb. pose proof (NewCircuitBreaker_Ok _ _ Hb) as [Hs _].
  induction h as [|o h IH] using rev_ind; [by apply represents_new|].
  unfold record_all. rewrite foldl_snoc. apply Record_represents; [lia|done].
Qed.

(** ** Theorems *)

(** C33: after any history of recorded outcomes, the state reported
    for a tenant is that of the last [WindowSize] production outcomes of this
    tenant, and the breaker refuses a dispatch exactly when it is a production
    dispatch of a tenant whose window reached the error rate with enough samples
    at some earlier moment: an open breaker never closes, and neither other
    tenants nor other environments affect it. *)
Theorem breaker_refines_history policy b h tenant environment :
  NewCircuitBreaker policy = Ok b →
  let key := tenantKey tenant in
  let window := last_n (Z.to_nat (cp_WindowSize policy)) (outcomes key h) in
  cs_Samples (State (record_all h b) tenant) = Z.of_nat (length window) ∧
  cs_Failures (State (record_all h b) tenant) = count_failures window ∧
  (cs_Open (State (record_all h b) tenant) = true ↔ tripped policy (outcomes key h)) ∧
  (Allow (record_all h b) tenant environment = Err ErrCircuitOpen ↔
   environment = "production" ∧ tripped policy (outcomes key h)).
Proof.
  intros Hb key window. destruct (record_all_represents _ _ h Hb) as [Hp Hw Ho].
  unfold State, stateOf. cbn [cs_Samples cs_Failures cs_Open]. fold key. rewrite Hw.
  split_and!; [done|done|apply Ho|]. unfold Allow. fold key. rewrite <-Ho.
  case_bool_decide; simpl; [|naive_solver]. split_if; naive_solver.
Qed.

(** once a tenant's breaker is open it refuses every later
    production dispatch of the tenant, whatever is recorded afterwards. *)
Theorem breaker_never_closes policy b h h' tenant :
  NewCircuitBreaker policy = Ok b →
  Allow (record_all h b) tenant "production" = Err ErrCircuitOpen →
  Allow (record_all (h ++ h') b) tenant "production" = Err ErrCircuitOpen.
Proof.
  intros Hb. destruct (record_all_represents _ _ h Hb) as [_ _ Ho],
    (record_all_represents _ _ (h ++ h') Hb) as [_ _ Ho'].
  unfold Allow. rewrite bool_decide_true by done. simpl.
  destruct (get false (cb_open (record_all h b)) _) eqn:Hopen; [|done]. intros _.
  rewrite (proj2 (Ho' _)); [done|]. apply Ho in Hopen as (p & Hp & Hne & Ht).
  exists p. split; [|done]. unfold outcomes. rewrite omap_app. by apply prefix_app_r.
Qed.

(** ** The thresholds in numbers *)

(** The literal [.5]: exactly one half. *)
Definition half : float64 := S754_finite false 4503599627370496 (-53).

(** The policy of the workflow's activities (src/internal/workflow/activities.go). *)
Definition activities_policy : CircuitPolicy :=
  {| cp_MinimumSamples := 5; cp_WindowSize := 20; cp_ErrorRate := half |}.

Definition rate (failures samples : Z) : float64 :=
  float_div (float_of_int failures) (float_of_int samples).

(** On every window of at most 20 samples the rounded quotient is at least one
    half exactly when the exact quotient is. *)
Lemma half_rate_table :
  forallb (λ n, forallb (λ f, Bool.eqb (float_le half (rate (Z.of_nat f) (Z.of_nat n)))
    (n <=? 2 * f)%nat) (seq 0 (S n))) (seq 1 20) = true.
Proof. vm_compute. reflexivity. Qed.

Lemma half_rate (n f : nat) : (1 ≤ n ≤ 20)%nat → (f ≤ n)%nat →
  float_le half (rate (Z.of_nat f) (Z.of_nat n)) = true ↔ (n ≤ 2 * f)%nat.
Proof.
  intros Hn Hf. pose proof half_rate_table as Ht. rewrite forallb_forall in Ht.
  specialize (Ht n). rewrite in_seq in Ht. specialize (Ht ltac:(lia)).
  rewrite forallb_forall in Ht. specialize (Ht f). rewrite in_seq in Ht. specialize (Ht ltac:(lia)).
  apply Bool.eqb_prop in Ht. rewrite Ht. apply Nat.leb_le.
Qed.

(** The failures of a window. *)
Definition failures (window : list bool) : nat := length (filter (λ f, f = true) window).

Lemma count_failures_eq window : count_failures window = Z.of_nat (failures window).
Proof.
  unfold count_failures, failures.
  assert (∀ z, foldl (λ n (failed : bool), if failed then n + 1 else n) z window =
    z + Z.of_nat (length (filter (λ f, f = true) window))) as ->; [|lia].
  induction window as [|[] window IH]; intros z; [simpl; lia|..]; rewrite filter_cons; simpl;
    rewrite IH; lia.
Qed.

Lemma failures_le window : (failures window ≤ length window)%nat.
Proof. apply length_filter. Qed.

Lemma length_last_n {A} n (l : list A) : length (last_n n l) = (n `min` length l)%nat.
Proof. unfold last_n. rewrite length_drop. lia. Qed.

Lemma tripping_activities window : (length window ≤ 20)%nat →
  tripping activities_policy window = true ↔
  (5 ≤ length window ∧ length window ≤ 2 * failures window)%nat.
Proof.
  intros Hlen. unfold tripping. rewrite andb_true_iff, Z.leb_le.
  assert (Hc : ∀ P Q R : Prop, (P ↔ R) → (R → (Q ↔ (length window ≤ 2 * failures window)%nat)) →
    P ∧ Q ↔ R ∧ (length window ≤ 2 * failures window)%nat) by tauto.
  apply Hc; [simpl; lia|]. intros Hmin. rewrite <-half_rate; [|lia|apply failures_le].
  unfold rate. rewrite <-count_failures_eq. unfold stateOf. cbn [cs_ErrorRate].
  by destruct window; [simpl in Hmin; lia|].
Qed.

(** C38: with the policy the workflow installs (5 samples, a window
    of 20, rate .5) the breaker opens exactly when at some moment the last 20
    outcomes are at least 5 and at least half of them failures; the rounding of
    the floating-point quotient never changes the verdict. *)
Theorem breaker_default_threshold b h tenant :
  NewCircuitBreaker activities_policy = Ok b →
  Allow (record_all h b) tenant "production" = Err ErrCircuitOpen ↔
  ∃ p, p `prefix_of` outcomes (tenantKey tenant) h ∧
    let w := last_n 20 p in
    (5 ≤ length w ∧ length w ≤ 2 * failures w)%nat.
Proof.
  intros Hb. destruct (record_all_represents _ _ h Hb) as [_ _ Ho].
  unfold Allow. rewrite bool_decide_true by done. simpl.
  assert (Hiff : get false (cb_open (record_all h b)) (tenantKey tenant) = true ↔
    ∃ p, p `prefix_of` outcomes (tenantKey tenant) h ∧
      let w := last_n 20 p in (5 ≤ length w ∧ length w ≤ 2 * failures w)%nat).
  { rewrite Ho. unfold tripped. apply exist_proper. intros p. change (Z.to_nat _) with 20%nat.
    rewrite tripping_activities by (rewrite length_last_n; lia). simpl.
    split; [tauto|]. intros (? & ? & ?). split_and!; [done| |done..].
    intros ->. rewrite length_last_n in *. simpl in *. lia. }
  rewrite <-Hiff. split_if; naive_solver.
Qed.

(** A policy whose rate is not a number passes the validation (the comparisons
    with it are all false) and yields a breaker that never opens. *)
Lemma nan_policy_never_opens minimum size h tenant environment :
  1 ≤ minimum ≤ size →
  let policy := {| cp_MinimumSamples := minimum; cp_WindowSize := size; cp_ErrorRate := S754_nan |} in
  ∃ b, NewCircuitBreaker policy = Ok b ∧ Allow (record_all h b) tenant environment = Ok tt.
Proof.
  intros Hm policy.
  assert (Hb : NewCircuitBreaker policy = Ok {| cb_policy := policy; cb_windows := ∅; cb_open := ∅ |}).
  { unfold NewCircuitBreaker, policy. simpl.
    rewrite (proj2 (Z.ltb_ge _ _)), (proj2 (Z.ltb_ge _ _)) by lia. done. }
  eexists. split; [exact Hb|]. destruct (record_all_represents _ _ h Hb) as [_ _ Ho].
  unfold Allow. split_if; [done|]. destruct (get _ _ _) eqn:Hopen; [|done].
  apply Ho in Hopen as (p & _ & _ & Ht). unfold tripping in Ht.
  rewrite andb_true_iff in Ht. by destruct Ht as [_ Ht].
Qed.

(** ** Witnesses *)

Definition demo_breaker : CircuitBreaker :=
  {| cb_policy := activities_policy; cb_windows := ∅; cb_open := ∅ |}.

Lemma demo_breaker_new : NewCircuitBreaker activities_policy = Ok demo_breaker.
Proof. vm_compute. reflexivity. Qed.

Definition failed_deploy : Outcome :=
  {| oc_tenant := "acme"; oc_environment := "production"; oc_failed := true |}.

Definition demo_failures : list Outcome := replicate 5 failed_deploy.

Lemma breaker_refines_history_witness :
  cs_Failures (State (record_all demo_failures demo_breaker) "acme") = 5.
Proof.
  pose proof (breaker_refines_history activities_policy demo_breaker demo_failures "acme" "staging"
    demo_breaker_new) as (_ & -> & _ & _). reflexivity.
Defined.

Lemma breaker_default_threshold_witness :
  Allow (record_all demo_failures demo_breaker) "acme" "production" = Err ErrCircuitOpen.
Proof.
  apply (breaker_default_threshold demo_breaker demo_failures "acme" demo_breaker_new).
  exists [true; true; true; true; true]. split; [reflexivity|]. vm_compute. split; repeat constructor.
Defined.

Lemma demo_breaker_opened :
  Allow (record_all demo_failures demo_breaker) "acme" "production" = Err ErrCircuitOpen.
Proof. vm_compute. reflexivity. Qed.

Lemma breaker_never_closes_witness :
  Allow (record_all (demo_failures ++
    [{| oc_tenant := "acme"; oc_environment := "production"; oc_failed := false |}]) demo_breaker)
    "acme" "production" = Err ErrCircuitOpen.
Proof.
  exact (breaker_never_closes activities_policy demo_breaker demo_failures _ "acme"
    demo_breaker_new demo_breaker_opened).
Defined.
