(* ===== verification/Scheduler.v ===== *)
(** * Scheduler (src/internal/scheduler/scheduler.go, backpressure.go) and the
    scheduling activities of the workflow (src/internal/workflow/activities.go)

    A dispatch is gated by backpressure, by the circuit breaker and by the
    concurrency budget, in this order.  The activities keep the dispatches that
    are outstanding; the invariant is that the budget holds exactly their
    reservations. *)
From S2P Require Import Prelude GoStd Domain Budget Waves Breaker.
Open Scope Z_scope.

(** ** Backpressure *)

Abbreviation BackpressureReason := string (only parsing).
Definition BackpressureRunnerCapacity : BackpressureReason := "RUNNER_CAPACITY_EXHAUSTED".
Definition BackpressureAdapterRate : BackpressureReason := "ADAPTER_RATE_LIMITED".
Definition BackpressureQueueDepth : BackpressureReason := "QUEUE_DEPTH_EXCEEDED".

(** [Capacity] *)
Record Capacity := {
  cap_RunnerAvailable : Z;
  cap_AdapterRemaining : Z;
  cap_QueueDepth : Z;
  cap_QueueLimit : Z;
}.

(** [Capacity.Available]; the subtraction wraps as Go's [int] does. *)
Definition Available (capacity : Capacity) : Z * BackpressureReason :=
  if cap_RunnerAvailable capacity <=? 0 then (0, BackpressureRunnerCapacity)
  else if cap_AdapterRemaining capacity <=? 0 then (0, BackpressureAdapterRate)
  else if (cap_QueueLimit capacity <=? 0) || (cap_QueueLimit capacity <=? cap_QueueDepth capacity)
  then (0, BackpressureQueueDepth)
  else (Z.min (Z.min (cap_RunnerAvailable capacity) (cap_AdapterRemaining capacity))
          (int64 (cap_QueueLimit capacity - cap_QueueDepth capacity)), "").

(** ** Scheduler *)

Definition ErrBackpressure : error :=
  Sentinel "scheduler.ErrBackpressure" "dispatch backpressured".

(** [Dispatch] *)
Record Dispatch := {
  dp_Step : Step;
  dp_Reservation : Reservation;
  dp_BlockedBy : list Blocked;
  dp_Pressure : BackpressureReason;
  dp_Err : option error;
}.

#[export] Instance eta_Dispatch : Eta Dispatch := λ r,
  {| dp_Step := dp_Step r; dp_Reservation := dp_Reservation r; dp_BlockedBy := dp_BlockedBy r;
     dp_Pressure := dp_Pressure r; dp_Err := dp_Err r |}.

(** [Scheduler] *)
Record Scheduler := {
  sch_budget : Budget;
  sch_breaker : CircuitBreaker;
}.

#[export] Instance eta_Scheduler : Eta Scheduler := λ r,
  {| sch_budget := sch_budget r; sch_breaker := sch_breaker r |}.

(** [scheduler.New] *)
Definition Scheduler_New (limits : Limits) (policy : CircuitPolicy) : result error Scheduler :=
  budget ← NewBudget limits;
  breaker ← NewCircuitBreaker policy;
  Ok {| sch_budget := budget; sch_breaker := breaker |}.

(** The body of the loop of [Scheduler.Dispatch]: the dispatch of one step and
    the capacity left. *)
Definition dispatch_step (pressure : BackpressureReason) (step : Step) (available : Z) (s : Scheduler) :
    Scheduler * (Z * Dispatch) :=
  let result := {| dp_Step := cloneStep step; dp_Reservation := zero_Reservation; dp_BlockedBy := [];
                   dp_Pressure := ""; dp_Err := None |} in
  if available =? 0 then
    (s, (available, result <| dp_Pressure := pressure |> <| dp_Err := Some ErrBackpressure |>))
  else match Allow (sch_breaker s) (ss_Tenant step) (ss_Environment step) with
  | Err err => (s, (available, result <| dp_Err := Some err |>))
  | Ok _ =>
      let '(budget, (reservation, blocked)) := TryAcquire step (sch_budget s) in
      match blocked with
      | _ :: _ => (s <| sch_budget := budget |>, (available, result <| dp_BlockedBy := blocked |>))
      | [] => (s <| sch_budget := budget |>,
               (int64 (available - 1), result <| dp_Reservation := reservation |>))
      end
  end.

Fixpoint dispatch_loop (pressure : BackpressureReason) (steps : list Step) (available : Z)
    (s : Scheduler) : Scheduler * list Dispatch :=
  match steps with
  | [] => (s, [])
  | step :: steps =>
      let '(s, (available, result)) := dispatch_step pressure step available s in
      let '(s, results) := dispatch_loop pressure steps available s in
      (s, result :: results)
  end.

(** [Scheduler.Dispatch] *)
Definition Scheduler_Dispatch (steps : list Step) (capacity : Capacity) : ST Scheduler (list Dispatch) := λ s,
  let '(available, pressure) := Available capacity in
  dispatch_loop pressure steps available s.

(** [Scheduler.Complete] *)
Definition Scheduler_Complete (dispatch : Dispatch) (failed : bool) : ST Scheduler CircuitState := λ s,
  let s := match res_keys (dp_Reservation dispatch) with
           | _ :: _ => s <| sch_budget ::= Release (dp_Reservation dispatch) |>
           | [] => s
           end in
  let '(breaker, state) :=
    Record_ (ss_Tenant (dp_Step dispatch)) (ss_Environment (dp_Step dispatch)) failed (sch_breaker s) in
  (s <| sch_breaker := breaker |>, state).

(** [Scheduler.CircuitState] *)
Definition Scheduler_CircuitState (s : Scheduler) (tenant : string) : CircuitState :=
  State (sch_breaker s) tenant.

(** ** The scheduling activities *)

(** The part of [Activities] the two scheduling activities use. *)
Record Scheduling := {
  act_Scheduler : Scheduler;
  act_scheduled : gmap string Dispatch;
}.

#[export] Instance eta_Scheduling : Eta Scheduling := λ r,
  {| act_Scheduler := act_Scheduler r; act_scheduled := act_scheduled r |}.

(** [ScheduleResult] *)
Record ScheduleResult := {
  sr_Allowed : bool;
  sr_Reason : string;
  sr_BlockedBy : list Blocked;
}.

Definition allowed_result : ScheduleResult :=
  {| sr_Allowed := true; sr_Reason := ""; sr_BlockedBy := [] |}.

(** [NewActivities]: the scheduler it builds. *)
Definition NewActivities_scheduling : result error Scheduling :=
  coordinator ← Scheduler_New DefaultLimits activities_policy;
  Ok {| act_Scheduler := coordinator; act_scheduled := ∅ |}.

Definition schedule_key (runID stepID : string) : string := runID +:+ NUL +:+ stepID.

(** [Activities.AcquireSchedule]; [capacity] is what [a.Capacity(input)] returns. *)
Definition AcquireSchedule (runID : string) (step : Step) (capacity : Capacity) :
    ST Scheduling (result error ScheduleResult) := λ a,
  let key := schedule_key runID (ss_ID step) in
  match act_scheduled a !! key with
  | Some _ => (a, Ok allowed_result)
  | None =>
      let '(s, results) := Scheduler_Dispatch [step] capacity (act_Scheduler a) in
      let a := a <| act_Scheduler := s |> in
      match results with
      | [result] =>
          match dp_Err result with
          | Some err =>
              (a, Ok {| sr_Allowed := false; sr_Reason := Error err; sr_BlockedBy := dp_BlockedBy result |})
          | None =>
              match dp_BlockedBy result with
              | _ :: _ =>
                  (a, Ok {| sr_Allowed := false; sr_Reason := "concurrency budget exhausted";
                            sr_BlockedBy := dp_BlockedBy result |})
              | [] => (a <| act_scheduled := <[key := result]> (act_scheduled a) |>, Ok allowed_result)
              end
          end
      | _ => (a, Err (ErrorNew "scheduler returned an invalid result count"))
      end
  end.

(** [Activities.CompleteSchedule] *)
Definition CompleteSchedule (runID stepID : string) (failed : bool) : ST Scheduling CircuitState := λ a,
  let key := schedule_key runID stepID in
  match act_scheduled a !! key with
  | None => (a, Scheduler_CircuitState (act_Scheduler a) "")
  | Some dispatch =>
      let a := a <| act_scheduled := delete key (act_scheduled a) |> in
      let '(s, state) := Scheduler_Complete dispatch failed (act_Scheduler a) in
      (a <| act_Scheduler := s |>, state)
  end.

#[global] Arguments TryAcquire : simpl never.
#[global] Arguments Record_ : simpl never.
#[global] Arguments Allow : simpl never.
#[global] Arguments NewBudget : simpl never.
#[global] Arguments NewCircuitBreaker : simpl never.

(** ** Dispatch *)

(** The dispatch holds a reservation. *)
Definition granted (r : Dispatch) : Prop := dp_Err r = None ∧ dp_BlockedBy r = [].

#[export] Instance granted_dec r : base.Decision (granted r).
Proof.
  unfold granted. destruct (dp_Err r); [right; naive_solver|].
  destruct (dp_BlockedBy r); [by left|right; naive_solver].
Defined.

Lemma dispatch_step_cases pressure step available s s' available' r :
  dispatch_step pressure step available s = (s', (available', r)) →
  dp_Step r = cloneStep step ∧ sch_breaker s' = sch_breaker s ∧
  (granted r ∧ available ≠ 0 ∧ available' = int64 (available - 1) ∧
   Allow (sch_breaker s) (ss_Tenant step) (ss_Environment step) = Ok tt ∧
   TryAcquire step (sch_budget s) = (sch_budget s', (dp_Reservation r, [])) ∨
   ¬ granted r ∧ available' = available ∧ s' = s ∧ dp_Reservation r = zero_Reservation).
Proof.
  unfold dispatch_step, granted. intros H. split_if; reflect_bools.
  { simplify_eq. simpl. naive_solver. }
  destruct (Allow _ _ _) as [[]|e] eqn:Ha; [|simplify_eq; naive_solver].
  destruct (TryAcquire step (sch_budget s)) as [b [res [|x bl]]] eqn:Ht; simplify_eq; simpl.
  - naive_solver.
  - pose proof (TryAcquire_refused _ _ _ _ _ Ht) as (-> & _ & _); [done|]. by destruct s; naive_solver.
Qed.

Lemma dispatch_loop_spec limits rs pressure steps available s s' results :
  budget_run limits (sch_budget s) rs → 0 ≤ available ≤ int64_max →
  dispatch_loop pressure steps available s = (s', results) →
  dp_Step <$> results = cloneStep <$> steps ∧ sch_breaker s' = sch_breaker s ∧
  budget_run limits (sch_budget s')
    (reverse (dp_Reservation <$> filter granted results) ++ rs) ∧
  Z.of_nat (length (filter granted results)) ≤ available ∧
  (∀ r, r ∈ results → granted r →
    Allow (sch_breaker s) (ss_Tenant (dp_Step r)) (ss_Environment (dp_Step r)) = Ok tt ∧
    res_keys (dp_Reservation r) ≠ []).
Proof.
  revert available s rs results. induction steps as [|step steps IH]; intros available s rs results Hrun Hav Hd.
  { simpl in Hd. simplify_eq. split_and!; [done..|simpl; lia|set_solver]. }
  simpl in Hd. destruct (dispatch_step _ _ _ _) as [s1 [available1 r]] eqn:Hs.
  destruct (dispatch_loop _ _ _ _) as [s2 results'] eqn:Hl. simplify_eq.
  apply dispatch_step_cases in Hs as (Hstep & Hbr & [(Hg & Hne & -> & Ha & Ht)|(Hg & -> & -> & Hr)]).
  - rewrite int64_id in Hl by (unfold in_int64, int64_min, int64_max in *; lia).
    apply (IH _ _ (dp_Reservation r :: rs)) in Hl as (Hsteps & Hbr' & Hrun' & Hlen & Hall);
      [|by eapply budget_run_acquire|lia].
    rewrite filter_cons, decide_True by done. csimpl. rewrite reverse_cons, <-app_assoc.
    split_and!; [by rewrite Hstep, Hsteps|by rewrite Hbr'|done|lia|].
    intros r' [->|Hin]%elem_of_cons Hgr; [|rewrite <-Hbr; auto].
    rewrite Hstep. split; [done|]. by apply TryAcquire_granted in Ht as (_ & -> & _).
  - apply (IH _ _ rs) in Hl as (Hsteps & Hbr' & Hrun' & Hlen & Hall); [|done..].
    rewrite filter_cons, decide_False by done. csimpl.
    split_and!; [by rewrite Hstep, Hsteps|done..|].
    intros r' [->|Hin]%elem_of_cons Hgr; [done|auto].
Qed.

(** The queue arithmetic of [Available] does not overflow. *)
Definition capacity_ok (capacity : Capacity) : Prop :=
  in_int64 (cap_QueueLimit capacity - cap_QueueDepth capacity).

Lemma Available_range capacity : capacity_ok capacity → 0 ≤ (Available capacity).1 ≤ int64_max.
Proof.
  unfold capacity_ok, Available. intros Hok. rewrite int64_id by done.
  repeat split_if; reflect_bools; simpl; unfold in_int64, int64_max in *; lia.
Qed.

(** ** The activities *)

Definition outstanding (a : Scheduling) : list Reservation :=
  (λ e, dp_Reservation e.2) <$> map_to_list (act_scheduled a).

(** The budget holds exactly the reservations of the scheduled dispatches. *)
Definition scheduling_inv (limits : Limits) (a : Scheduling) : Prop :=
  (∃ rs, budget_run limits (sch_budget (act_Scheduler a)) rs ∧ rs ≡ₚ outstanding a) ∧
  (∀ key d, act_scheduled a !! key = Some d → res_keys (dp_Reservation d) ≠ []).

(** The activities of a worker: any sequence of acquisitions and completions. *)
Inductive activity :=
| AcquireActivity (runID : string) (step : Step) (capacity : Capacity)
| CompleteActivity (runID stepID : string) (failed : bool).

Definition run_activity (x : activity) (a : Scheduling) : Scheduling :=
  match x with
  | AcquireActivity runID step capacity => (AcquireSchedule runID step capacity a).1
  | CompleteActivity runID stepID failed => (CompleteSchedule runID stepID failed a).1
  end.

Definition activity_ok (x : activity) : Prop :=
  match x with
  | AcquireActivity _ _ capacity => capacity_ok capacity
  | CompleteActivity _ _ _ => True
  end.

Definition run_activities (l : list activity) (a : Scheduling) : Scheduling :=
  foldl (λ a x, run_activity x a) a l.

(** Dispatching one step. *)
Lemma Dispatch_one limits rs step capacity s s' results :
  capacity_ok capacity → budget_run limits (sch_budget s) rs →
  Scheduler_Dispatch [step] capacity s = (s', results) →
  ∃ r, results = [r] ∧
    (granted r ∧ budget_run limits (sch_budget s') (dp_Reservation r :: rs) ∧
       res_keys (dp_Reservation r) ≠ [] ∨
     ¬ granted r ∧ s' = s).
Proof.
  intros Hok Hrun Hd. unfold Scheduler_Dispatch in Hd.
  destruct (Available capacity) as [available pressure] eqn:Hav. simpl in Hd.
  destruct (dispatch_step _ _ _ _) as [s1 [available1 r]] eqn:Hs. simplify_eq.
  exists r. split; [done|].
  apply dispatch_step_cases in Hs as (_ & _ & [(? & _ & _ & _ & Ht)|(? & _ & -> & _)]); [left|by right].
  split_and!; [done|by eapply budget_run_acquire|].
  by apply TryAcquire_granted in Ht as (_ & -> & _).
Qed.

Lemma AcquireSchedule_inv limits runID step capacity a :
  capacity_ok capacity → scheduling_inv limits a →
  scheduling_inv limits (AcquireSchedule runID step capacity a).1.
Proof.
  intros Hok [(rs & Hrun & Hrs) Hkeys]. unfold AcquireSchedule.
  destruct (act_scheduled a !! _) as [d|] eqn:Hlk; [split; [by exists rs|done]|].
  destruct (Scheduler_Dispatch _ _ _) as [s' results] eqn:Hd.
  destruct (Dispatch_one _ _ _ _ _ _ _ Hok Hrun Hd) as (r & -> & [([Herr Hbl] & Hrun' & Hk)|[Hng ->]]).
  - rewrite Herr, Hbl. split; simpl.
    + exists (dp_Reservation r :: rs). split; [done|]. unfold outstanding. simpl.
      rewrite map_to_list_insert by done. csimpl. by rewrite Hrs.
    + intros key d [[_ <-]|[_ ?]]%lookup_insert_Some; eauto.
  - destruct a as [s m]. simpl in *.
    assert (Hsame : scheduling_inv limits {| act_Scheduler := s; act_scheduled := m |}).
    { split; [by exists rs|done]. }
    destruct (dp_Err r) eqn:Herr; [done|]. destruct (dp_BlockedBy r) eqn:Hbl; [|done].
    by destruct Hng.
Qed.

Lemma CompleteSchedule_inv limits runID stepID failed a :
  scheduling_inv limits a → scheduling_inv limits (CompleteSchedule runID stepID failed a).1.
Proof.
  intros [(rs & Hrun & Hrs) Hkeys]. unfold CompleteSchedule.
  destruct (act_scheduled a !! _) as [d|] eqn:Hlk; [|split; [by exists rs|done]].
  pose proof (Hkeys _ _ Hlk) as Hd. unfold Scheduler_Complete. simpl.
  destruct (res_keys (dp_Reservation d)) as [|k ks] eqn:Hk; [done|].
  destruct (Record_ _ _ _ _) as [b' st]. simpl. split; simpl.
  - assert (Hin : rs ≡ₚ dp_Reservation d :: outstanding (a <| act_scheduled ::= delete
      (schedule_key runID stepID) |>)).
    { rewrite Hrs. unfold outstanding. simpl.
      rewrite <-(map_to_list_delete (act_scheduled a) _ _ Hlk). done. }
    assert (dp_Reservation d ∈ rs) as (rs1 & rs2 & ->)%list_elem_of_split by (rewrite Hin; left).
    exists (rs1 ++ rs2). split; [by apply budget_run_release|].
    rewrite <-Permutation_middle in Hin. by apply (inj (cons (dp_Reservation d))) in Hin.
  - intros key d' [_ Hd']%lookup_delete_Some. eauto.
Qed.

Lemma run_activity_inv limits x a :
  activity_ok x → scheduling_inv limits a → scheduling_inv limits (run_activity x a).
Proof. destruct x; simpl; intros; [by apply AcquireSchedule_inv|by apply CompleteSchedule_inv]. Qed.

Lemma run_activities_inv limits l a :
  Forall activity_ok l → scheduling_inv limits a → scheduling_inv limits (run_activities l a).
Proof.
  unfold run_activities. intros Hl. revert a.
  induction Hl as [|x l Hx Hl IH]; intros a Ha; simpl; [done|]. by apply IH, run_activity_inv.
Qed.

Lemma NewActivities_inv a : NewActivities_scheduling = Ok a → scheduling_inv DefaultLimits a.
Proof.
  unfold NewActivities_scheduling, Scheduler_New.
  rewrite demo_budget_new, demo_breaker_new.
  intros [= <-]. split; simpl; [|by intros key d; rewrite lookup_empty].
  exists []. split; [apply budget_run_new, demo_budget_new|]. unfold outstanding. simpl. by rewrite map_to_list_empty.
Qed.

(** ** Theorems *)

(** dispatching a batch of steps answers each of them in order; the
    steps it grants are at most as many as the capacity allows, hold exactly the
    reservations added to the budget (so every limit still bounds them), and are
    all allowed by the circuit breaker, which the dispatch does not change. *)
Theorem Dispatch_sound limits rs steps capacity s s' results :
  capacity_ok capacity → budget_run limits (sch_budget s) rs →
  Scheduler_Dispatch steps capacity s = (s', results) →
  dp_Step <$> results = cloneStep <$> steps ∧ sch_breaker s' = sch_breaker s ∧
  budget_run limits (sch_budget s') (reverse (dp_Reservation <$> filter granted results) ++ rs) ∧
  Z.of_nat (length (filter granted results)) ≤ (Available capacity).1 ∧
  (∀ r, r ∈ results → granted r →
    Allow (sch_breaker s) (ss_Tenant (dp_Step r)) (ss_Environment (dp_Step r)) = Ok tt).
Proof.
  intros Hok Hrun Hd. unfold Scheduler_Dispatch in Hd.
  pose proof (Available_range _ Hok) as Hrange.
  destruct (Available capacity) as [available pressure]. simpl in *.
  destruct (dispatch_loop_spec _ _ _ _ _ _ _ _ Hrun Hrange Hd) as (? & ? & ? & ? & Hall).
  split_and!; [done..|]. intros r Hr Hg. by apply Hall.
Qed.

(** after any sequence of acquisitions and completions by the
    workflow's activities, the budget holds exactly the reservations of the
    dispatches that are still scheduled: their number on a budget key never
    exceeds its limit, and the budget is idle again when none is scheduled. *)
Theorem activities_budget_exact a l k :
  NewActivities_scheduling = Ok a → Forall activity_ok l →
  let a' := run_activities l a in
  (0 ≤ limit DefaultLimits k → Z.of_nat (holders (outstanding a') k) ≤ limit DefaultLimits k) ∧
  (act_scheduled a' = ∅ → sch_budget (act_Scheduler a') = fresh DefaultLimits).
Proof.
  intros Ha Hl a'.
  destruct (run_activities_inv _ l a Hl (NewActivities_inv a Ha)) as [(rs & Hrun & Hrs) _].
  fold a' in Hrun, Hrs. split.
  - intros Hk. rewrite <-Hrs. by apply (budget_run_holders _ _ _ _ Hrun).
  - intros He. unfold outstanding in Hrs. rewrite He, map_to_list_empty in Hrs.
    apply Permutation_nil_r in Hrs as ->. by apply budget_run_idle.
Qed.

(** What an acquisition that was allowed has done. *)
Lemma AcquireSchedule_allowed limits runID step capacity a a' r :
  capacity_ok capacity → scheduling_inv limits a →
  AcquireSchedule runID step capacity a = (a', Ok r) → sr_Allowed r = true →
  is_Some (act_scheduled a' !! schedule_key runID (ss_ID step)) ∧
  (act_scheduled a !! schedule_key runID (ss_ID step) = None →
   ∃ d, act_scheduled a' = <[schedule_key runID (ss_ID step) := d]> (act_scheduled a) ∧
     TryAcquire step (sch_budget (act_Scheduler a)) =
       (sch_budget (act_Scheduler a'), (dp_Reservation d, []))).
Proof.
  intros Hok Hinv. unfold AcquireSchedule.
  destruct (act_scheduled a !! _) as [d|] eqn:Hlk; [intros; simplify_eq; by rewrite Hlk|].
  unfold Scheduler_Dispatch. destruct (Available capacity) as [available pressure]. simpl.
  destruct (dispatch_step _ _ _ _) as [s1 [available1 d]] eqn:Hs. simpl.
  apply dispatch_step_cases in Hs as (_ & _ & [([-> ->] & _ & _ & _ & Ht)|(Hng & _ & _ & _)]).
  - intros [= <- <-] _. simpl. split; [rewrite lookup_insert_eq; by eexists|]. eauto.
  - unfold granted in Hng. destruct (dp_Err d); [intros; by simplify_eq|].
    destruct (dp_BlockedBy d); [naive_solver|]. intros; by simplify_eq.
Qed.

(** acquiring a schedule twice for the same step takes one
    reservation, completing it gives back exactly what was acquired, and
    completing it again changes nothing. *)
Theorem schedule_roundtrip limits runID step capacity capacity' failed failed' a a1 r a2 st :
  capacity_ok capacity → scheduling_inv limits a →
  act_scheduled a !! schedule_key runID (ss_ID step) = None →
  AcquireSchedule runID step capacity a = (a1, Ok r) → sr_Allowed r = true →
  CompleteSchedule runID (ss_ID step) failed a1 = (a2, st) →
  AcquireSchedule runID step capacity' a1 = (a1, Ok allowed_result) ∧
  sch_budget (act_Scheduler a2) = sch_budget (act_Scheduler a) ∧
  act_scheduled a2 = act_scheduled a ∧
  (CompleteSchedule runID (ss_ID step) failed' a2).1 = a2.
Proof.
  intros Hok Hinv Hnone Hacq Hr Hc.
  destruct (AcquireSchedule_allowed _ _ _ _ _ _ _ Hok Hinv Hacq Hr) as [[d0 Hd0] Hnew].
  destruct (Hnew Hnone) as (d & Hm & Ht). unfold CompleteSchedule in Hc.
  rewrite Hm, lookup_insert_eq in Hc. unfold Scheduler_Complete in Hc.
  pose proof (TryAcquire_granted _ _ _ _ Ht) as (Hb & Hres & _).
  rewrite Hres in Hc. simpl in Hc.
  destruct (Record_ _ _ _ _) as [b' st']. injection Hc as <- <-. simpl.
  assert (Hdel : delete (schedule_key runID (ss_ID step))
    (<[schedule_key runID (ss_ID step) := d]> (act_scheduled a)) = act_scheduled a)
    by by apply delete_insert_id.
  split_and!.
  - unfold AcquireSchedule. by rewrite Hd0.
  - destruct Hinv as [(rs & Hrun & _) _]. rewrite Hb. apply budget_run_inv in Hrun.
    destruct (sch_budget (act_Scheduler a)) as [lim active]. unfold Release, modify. simpl in *.
    by rewrite (release_acquire _ _ _ Hrun).
  - done.
  - unfold CompleteSchedule. simpl. by rewrite Hdel, Hnone.
Qed.

(** ** Witnesses *)

Definition demo_scheduling : Scheduling :=
  {| act_Scheduler := {| sch_budget := demo_budget; sch_breaker := demo_breaker |};
     act_scheduled := ∅ |}.

Definition demo_capacity : Capacity :=
  {| cap_RunnerAvailable := 20; cap_AdapterRemaining := 20; cap_QueueDepth := 0; cap_QueueLimit := 100 |}.

Lemma demo_scheduling_new : NewActivities_scheduling = Ok demo_scheduling.
Proof. vm_compute. reflexivity. Qed.

Lemma demo_capacity_ok : capacity_ok demo_capacity.
Proof. vm_compute. split; discriminate. Qed.

Lemma Dispatch_sound_witness :
  dp_Step <$> (Scheduler_Dispatch [demo_step "api" "db"] demo_capacity (act_Scheduler demo_scheduling)).2 =
  cloneStep <$> [demo_step "api" "db"].
Proof.
  destruct (Scheduler_Dispatch _ _ _) as [s' results] eqn:Hd.
  apply (Dispatch_sound DefaultLimits [] _ _ (act_Scheduler demo_scheduling) _ _ demo_capacity_ok
    (budget_run_new _ _ demo_budget_new) Hd).
Defined.

Lemma activities_budget_exact_witness :
  let a' := run_activities [AcquireActivity "run_1" (demo_step "api" "db") demo_capacity] demo_scheduling in
  Z.of_nat (holders (outstanding a') demo_domain_key) ≤ 1.
Proof.
  apply (activities_budget_exact demo_scheduling _ demo_domain_key demo_scheduling_new).
  - constructor; [exact demo_capacity_ok|constructor].
  - vm_compute. discriminate.
Defined.

Definition demo_acquire : Scheduling * result error ScheduleResult :=
  AcquireSchedule "run_1" (demo_step "api" "db") demo_capacity demo_scheduling.

Lemma demo_acquire_allowed : demo_acquire.2 = Ok allowed_result.
Proof. vm_compute. reflexivity. Qed.

Lemma schedule_roundtrip_witness :
  act_scheduled (CompleteSchedule "run_1" "api" false demo_acquire.1).1 = ∅.
Proof.
  destruct (CompleteSchedule "run_1" "api" false demo_acquire.1) as [a2 st] eqn:Hc.
  apply (schedule_roundtrip DefaultLimits "run_1" (demo_step "api" "db") demo_capacity demo_capacity
    false true demo_scheduling demo_acquire.1 allowed_result a2 st).
  - exact demo_capacity_ok.
  - exact (NewActivities_inv _ demo_scheduling_new).
  - reflexivity.
  - rewrite <-demo_acquire_allowed. apply surjective_pairing.
  - reflexivity.
  - exact Hc.
Defined.
