(* ===== verification/Protocol.v ===== *)
(** * Runner protocol (src/pkg/protocol)

    Action grants, targets, actions and results as they travel between the
    control plane and a runner, and the shape check every grant passes before
    it is signed, verified or decoded. *)
From S2P Require Import Prelude GoStd.
Open Scope Z_scope.

Definition VersionV1Alpha1 : string := "themisy.protocol/v1alpha1".

(** [ValidateVersion] *)
Definition ValidateVersion (version : string) : result error unit :=
  fail_if (negb (bool_decide (version = VersionV1Alpha1)))
    (Errorf ("UNSUPPORTED_PROTOCOL_VERSION: " +:+ quote version) None).

(** ** capability.go, result.go, action_grant.go *)

Module protocol.
Abbreviation Capability := string (only parsing).
Definition CapabilityDeploy : Capability := "release.deploy".
Definition CapabilityRollback : Capability := "release.rollback".
End protocol.

(** [Action] *)
Record Action := {
  an_Capability : string;
  an_ArtifactDigest : string;
  an_ExternalExecutionID : string;
}.

#[export] Instance eta_Action : Eta Action := λ r,
  {| an_Capability := an_Capability r; an_ArtifactDigest := an_ArtifactDigest r;
     an_ExternalExecutionID := an_ExternalExecutionID r |}.

#[export] Instance Action_eq_dec : EqDecision Action.
Proof. solve_decision. Defined.

(** [Target] *)
Record Target := {
  tg_Service : string;
  tg_Environment : string;
}.

#[export] Instance eta_Target : Eta Target := λ r,
  {| tg_Service := tg_Service r; tg_Environment := tg_Environment r |}.

#[export] Instance Target_eq_dec : EqDecision Target.
Proof. solve_decision. Defined.

(** [Signature] *)
Record Signature := {
  sig_Algorithm : string;
  sig_KeyID : string;
  sig_Value : string;
}.

#[export] Instance eta_Signature : Eta Signature := λ r,
  {| sig_Algorithm := sig_Algorithm r; sig_KeyID := sig_KeyID r; sig_Value := sig_Value r
     |}.

#[export] Instance Signature_eq_dec : EqDecision Signature.
Proof. solve_decision. Defined.

Definition zero_Signature : Signature := {| sig_Algorithm := ""; sig_KeyID := ""; sig_Value := "" |}.

Abbreviation ResultStatus := string (only parsing).
Definition ResultSucceeded : ResultStatus := "SUCCEEDED".
Definition ResultRejected : ResultStatus := "REJECTED".
Definition ResultUnknown : ResultStatus := "UNKNOWN".
Definition ResultReconciliation : ResultStatus := "RECONCILIATION_REQUIRED".

(** [Result] *)
Record Result := {
  rs_ProtocolVersion : string;
  rs_GrantID : string;
  rs_RunID : string;
  rs_StepID : string;
  rs_Status : ResultStatus;
  rs_ReasonCode : string;
  rs_ExternalExecutionID : string;
  rs_CompletedAt : time;
  rs_Signature : Signature;
}.

#[export] Instance eta_Result : Eta Result := λ r,
  {| rs_ProtocolVersion := rs_ProtocolVersion r; rs_GrantID := rs_GrantID r; rs_RunID :=
     rs_RunID r; rs_StepID := rs_StepID r; rs_Status := rs_Status r; rs_ReasonCode :=
     rs_ReasonCode r; rs_ExternalExecutionID := rs_ExternalExecutionID r; rs_CompletedAt :=
     rs_CompletedAt r; rs_Signature := rs_Signature r |}.

#[export] Instance Result_eq_dec : EqDecision Result.
Proof. solve_decision. Defined.

Definition zero_Result : Result :=
  {| rs_ProtocolVersion := ""; rs_GrantID := ""; rs_RunID := ""; rs_StepID := ""; rs_Status := "";
     rs_ReasonCode := ""; rs_ExternalExecutionID := ""; rs_CompletedAt := 0;
     rs_Signature := zero_Signature |}.

(** [ActionGrant] *)
Record ActionGrant := {
  gr_ProtocolVersion : string;
  gr_GrantID : string;
  gr_Issuer : string;
  gr_TenantID : string;
  gr_RunnerGroup : string;
  gr_RunID : string;
  gr_StepID : string;
  gr_SubjectType : string;
  gr_UserSubject : string;
  gr_UserIdentityProof : string;
  gr_AgentID : string;
  gr_DelegationRef : string;
  gr_Target : Target;
  gr_Action : Action;
  gr_Risk : string;
  gr_PlanHash : string;
  gr_ContractHash : string;
  gr_ProfileHash : string;
  gr_PolicyHash : string;
  gr_PolicyInputHash : string;
  gr_EvidenceHash : string;
  gr_ApprovalProofs : list string;
  gr_IdempotencyKey : string;
  gr_Nonce : string;
  gr_IssuedAt : time;
  gr_ExpiresAt : time;
  gr_Signature : Signature;
}.

#[export] Instance eta_ActionGrant : Eta ActionGrant := λ r,
  {| gr_ProtocolVersion := gr_ProtocolVersion r; gr_GrantID := gr_GrantID r; gr_Issuer :=
     gr_Issuer r; gr_TenantID := gr_TenantID r; gr_RunnerGroup := gr_RunnerGroup r; gr_RunID
     := gr_RunID r; gr_StepID := gr_StepID r; gr_SubjectType := gr_SubjectType r;
     gr_UserSubject := gr_UserSubject r; gr_UserIdentityProof := gr_UserIdentityProof r;
     gr_AgentID := gr_AgentID r; gr_DelegationRef := gr_DelegationRef r; gr_Target :=
     gr_Target r; gr_Action := gr_Action r; gr_Risk := gr_Risk r; gr_PlanHash := gr_PlanHash
     r; gr_ContractHash := gr_ContractHash r; gr_ProfileHash := gr_ProfileHash r;
     gr_PolicyHash := gr_PolicyHash r; gr_PolicyInputHash := gr_PolicyInputHash r;
     gr_EvidenceHash := gr_EvidenceHash r; gr_ApprovalProofs := gr_ApprovalProofs r;
     gr_IdempotencyKey := gr_IdempotencyKey r; gr_Nonce := gr_Nonce r; gr_IssuedAt :=
     gr_IssuedAt r; gr_ExpiresAt := gr_ExpiresAt r; gr_Signature := gr_Signature r |}.

#[export] Instance ActionGrant_eq_dec : EqDecision ActionGrant.
Proof. solve_decision. Defined.

(** [ActionGrant.SigningCopy] *)
Definition SigningCopy (g : ActionGrant) : ActionGrant :=
  g <| gr_Signature := zero_Signature |> <| gr_ApprovalProofs ::= sort_Strings |>.

(** ** canonical.go: the shape of a grant *)

(** The map literal [required]. *)
Definition required_fields (g : ActionGrant) : gmap string string :=
  list_to_map
    [("grant_id", gr_GrantID g); ("issuer", gr_Issuer g); ("tenant_id", gr_TenantID g);
     ("runner_group", gr_RunnerGroup g); ("run_id", gr_RunID g); ("step_id", gr_StepID g);
     ("subject_type", gr_SubjectType g);
     ("user_subject", gr_UserSubject g); ("user_identity_proof", gr_UserIdentityProof g);
     ("agent_id", gr_AgentID g); ("delegation_ref", gr_DelegationRef g);
     ("target.service", tg_Service (gr_Target g)); ("target.environment", tg_Environment (gr_Target g));
     ("action.capability", an_Capability (gr_Action g));
     ("action.artifact_digest", an_ArtifactDigest (gr_Action g));
     ("risk", gr_Risk g); ("plan_hash", gr_PlanHash g); ("contract_hash", gr_ContractHash g);
     ("profile_hash", gr_ProfileHash g); ("policy_hash", gr_PolicyHash g);
     ("policy_input_hash", gr_PolicyInputHash g); ("evidence_hash", gr_EvidenceHash g);
     ("idempotency_key", gr_IdempotencyKey g); ("nonce", gr_Nonce g)].

(** The fields that hold digests, in the order they are checked. *)
Definition digest_fields (g : ActionGrant) : list (string * string) :=
  [("artifact_digest", an_ArtifactDigest (gr_Action g)); ("plan_hash", gr_PlanHash g);
   ("contract_hash", gr_ContractHash g); ("profile_hash", gr_ProfileHash g);
   ("policy_hash", gr_PolicyHash g); ("policy_input_hash", gr_PolicyInputHash g);
   ("evidence_hash", gr_EvidenceHash g)].

(** One pass of the loop over [digest_fields]. *)
Definition check_digest (field : string * string) : result error unit :=
  let bad := Errorf ("INVALID_ACTION_GRANT: " +:+ fst field +:+ " must be a sha256 digest") None in
  fail_if (negb (HasPrefix (snd field) "sha256:")
           || negb (bool_decide (String.length (snd field) = (String.length "sha256:" + 64)%nat))) bad;;
  fail_if (negb (hex_decodable (TrimPrefix (snd field) "sha256:"))) bad.

(** The final switch on the capability. *)
Definition check_capability (action : Action) : result error unit :=
  if bool_decide (an_Capability action = protocol.CapabilityDeploy) then
    fail_if (negb (bool_decide (an_ExternalExecutionID action = "")))
      (Errorf "INVALID_ACTION_GRANT: deploy cannot name an external execution" None)
  else if bool_decide (an_Capability action = protocol.CapabilityRollback) then
    fail_if (bool_decide (TrimSpace (an_ExternalExecutionID action) = ""))
      (Errorf "INVALID_ACTION_GRANT: rollback requires external_execution_id" None)
  else Err (Errorf ("INVALID_ACTION_GRANT: unsupported capability " +:+ quote (an_Capability action)) None).

Section shape.
Context `{!MapOrder}.

(** [validateGrantShape]; the field named first depends on the iteration order
    of [required]. *)
Definition validateGrantShape (g : ActionGrant) : result error unit :=
  ValidateVersion (gr_ProtocolVersion g);;
  check_all (λ '(field, value), fail_if (bool_decide (TrimSpace value = ""))
      (Errorf ("INVALID_ACTION_GRANT: " +:+ field +:+ " is required") None))
    (range 30 (required_fields g));;
  fail_if (negb (bool_decide (gr_SubjectType g = "user")) && negb (bool_decide (gr_SubjectType g = "ci")))
    (Errorf "INVALID_ACTION_GRANT: subject_type must be user or ci" None);;
  fail_if (IsZero (gr_IssuedAt g) || IsZero (gr_ExpiresAt g) || negb (After (gr_ExpiresAt g) (gr_IssuedAt g)))
    (Errorf "INVALID_ACTION_GRANT: valid issued_at and expires_at are required" None);;
  check_all check_digest (digest_fields g);;
  check_capability (gr_Action g).
End shape.
