(* ===== verification/Grant.v ===== *)
(** * Action grants (src/pkg/protocol/canonical.go, src/internal/grant)

    The canonical bytes of a grant, its hash, the signers and the verifier of a
    runner.  [crypto/ed25519] is the class [Ed25519]: a signature scheme of which
    only the documented law is used, that a signature verifies under the public key
    of the private key that made it.  [time.Now] and the configured clock are the
    argument [now] of [Verify]. *)
From S2P Require Import Prelude GoStd Sha256 Json Rfc3339 Base64 Protocol.
Open Scope Z_scope.

(** ** canonical.go *)

(** [time.Time.MarshalJSON] *)
Definition time_json (t : time) : json := JString (Format t).

Definition marshalable (t : time) : bool := (0 <=? Year t) && (Year t <=? 9999).

Definition year_error : error :=
  Errorf "json: error calling MarshalJSON for type time.Time: Time.MarshalJSON: year outside of range [0,9999]" None.

Definition Target_json (t : Target) : json :=
  JObject (field "service" (JString (tg_Service t)) ++ field "environment" (JString (tg_Environment t))).

Definition Action_json (a : Action) : json :=
  JObject (
    field "capability" (JString (an_Capability a)) ++
    field "artifact_digest" (JString (an_ArtifactDigest a)) ++
    string_omit "external_execution_id" (an_ExternalExecutionID a)).

Definition Signature_json (s : Signature) : json :=
  JObject (
    field "algorithm" (JString (sig_Algorithm s)) ++ field "key_id" (JString (sig_KeyID s)) ++
    field "value" (JString (sig_Value s))).

Definition ActionGrant_json (g : ActionGrant) : json :=
  JObject (
    field "protocol_version" (JString (gr_ProtocolVersion g)) ++
    field "grant_id" (JString (gr_GrantID g)) ++
    field "issuer" (JString (gr_Issuer g)) ++
    field "tenant_id" (JString (gr_TenantID g)) ++
    field "runner_group" (JString (gr_RunnerGroup g)) ++
    field "run_id" (JString (gr_RunID g)) ++
    field "step_id" (JString (gr_StepID g)) ++
    field "subject_type" (JString (gr_SubjectType g)) ++
    field "user_subject" (JString (gr_UserSubject g)) ++
    field "user_identity_proof" (JString (gr_UserIdentityProof g)) ++
    field "agent_id" (JString (gr_AgentID g)) ++
    field "delegation_ref" (JString (gr_DelegationRef g)) ++
    field "target" (Target_json (gr_Target g)) ++
    field "action" (Action_json (gr_Action g)) ++
    field "risk" (JString (gr_Risk g)) ++
    field "plan_hash" (JString (gr_PlanHash g)) ++
    field "contract_hash" (JString (gr_ContractHash g)) ++
    field "profile_hash" (JString (gr_ProfileHash g)) ++
    field "policy_hash" (JString (gr_PolicyHash g)) ++
    field "policy_input_hash" (JString (gr_PolicyInputHash g)) ++
    field "evidence_hash" (JString (gr_EvidenceHash g)) ++
    field "approval_proofs" (slice_json JString (gr_ApprovalProofs g)) ++
    field "idempotency_key" (JString (gr_IdempotencyKey g)) ++
    field "nonce" (JString (gr_Nonce g)) ++
    field "issued_at" (time_json (gr_IssuedAt g)) ++
    field "expires_at" (time_json (gr_ExpiresAt g)) ++
    field "signature" (Signature_json (gr_Signature g))).

Section canonical.
Context `{!MapOrder}.

(** [CanonicalGrantPayload] *)
Definition CanonicalGrantPayload (grant : ActionGrant) : result error string :=
  let copy := SigningCopy grant in
  validateGrantShape copy;;
  fail_if (negb (marshalable (gr_IssuedAt copy) && marshalable (gr_ExpiresAt copy))) year_error;;
  Ok (encode (ActionGrant_json copy)).

(** [GrantHash] *)
Definition GrantHash (grant : ActionGrant) : result error string :=
  match CanonicalGrantPayload grant with
  | Err err => Err err
  | Ok payload => Ok (sha256_ref payload)
  end.
End canonical.

(** ** signer.go *)

Definition AlgorithmEd25519 : string := "Ed25519".

(** [ed25519.Sign], [ed25519.Verify] and the public key of a private key. *)
Class Ed25519 := {
  ed_sign : string → string → string;
  ed_verify : string → string → string → bool;
  ed_public : string → string;
  ed_correct key message : ed_verify (ed_public key) message (ed_sign key message) = true;
  ed_nonempty key message : ed_sign key message ≠ "";
}.

Definition PrivateKeySize : nat := 64.

(** The interface [Signer]. *)
Abbreviation Signer := (string → result error Signature) (only parsing).

(** [KMSSigner]; a nil client is [None]. *)
Record KMSSigner := {
  kms_Client : option (string → string → result error string);
  kms_KeyID : string;
  kms_Algorithm : string;
}.

Definition KMSSigner_Sign (s : KMSSigner) : Signer := λ payload,
  let unconfigured := Err (Errorf "KMS signer is not configured" None) in
  match kms_Client s with
  | None => unconfigured
  | Some client =>
      if bool_decide (kms_KeyID s = "") || bool_decide (kms_Algorithm s = "") then unconfigured
      else match client (kms_KeyID s) payload with
           | Err err => Err (Errorf ("KMS sign: " +:+ Error err) (Some err))
           | Ok value => Ok {| sig_Algorithm := kms_Algorithm s; sig_KeyID := kms_KeyID s;
                               sig_Value := EncodeToString64 value |}
           end
  end.

(** [DevelopmentSigner] *)
Record DevelopmentSigner := {
  dev_keyID : string;
  dev_key : string;
}.

Section signing.
Context `{!MapOrder, !Ed25519}.

(** [NewDevelopmentSigner]; [generated] is what [ed25519.GenerateKey] returns. *)
Definition NewDevelopmentSigner (keyID : string) (generated : result error string) :
    result error (DevelopmentSigner * string) :=
  if bool_decide (keyID = "") then Err (Errorf "development key id is required" None)
  else match generated with
       | Err err => Err err
       | Ok private => Ok ({| dev_keyID := keyID; dev_key := private |}, ed_public private)
       end.

Definition DevelopmentSigner_Sign (s : DevelopmentSigner) : Signer := λ payload,
  if negb (bool_decide (String.length (dev_key s) = PrivateKeySize))
  then Err (Errorf "development signer is not initialized" None)
  else Ok {| sig_Algorithm := AlgorithmEd25519; sig_KeyID := dev_keyID s;
             sig_Value := EncodeToString64 (ed_sign (dev_key s) payload) |}.

(** [SignActionGrant] *)
Definition SignActionGrant (sign : Signer) (actionGrant : ActionGrant) : result error ActionGrant :=
  match CanonicalGrantPayload actionGrant with
  | Err err => Err err
  | Ok payload =>
      match sign payload with
      | Err err => Err err
      | Ok signature => Ok (actionGrant <| gr_Signature := signature |>)
      end
  end.

(** ** verifier.go *)

Definition ErrInvalidProtocol : error := Sentinel "grant.ErrInvalidProtocol" "INVALID_PROTOCOL_VERSION".
Definition ErrInvalidSignature : error := Sentinel "grant.ErrInvalidSignature" "INVALID_GRANT_SIGNATURE".
Definition ErrInvalidIssuer : error := Sentinel "grant.ErrInvalidIssuer" "INVALID_GRANT_ISSUER".
Definition ErrWrongAudience : error := Sentinel "grant.ErrWrongAudience" "WRONG_RUNNER_AUDIENCE".
Definition ErrWrongTenant : error := Sentinel "grant.ErrWrongTenant" "WRONG_TENANT".
Definition ErrExpired : error := Sentinel "grant.ErrExpired" "EXPIRED_GRANT".

(** [fmt.Errorf("%w: %v", sentinel, err)] *)
Definition caused (sentinel : error) (detail : string) : error :=
  Errorf (Error sentinel +:+ ": " +:+ detail) (Some sentinel).

(** The interface [KeyResolver]. *)
Abbreviation KeyResolver := (string → string → result error string) (only parsing).

(** [StaticKeys] *)
Definition ResolveGrantKey (s : gmap string string) : KeyResolver := λ issuer keyID,
  match s !! (issuer +:+ NUL +:+ keyID) with
  | None => Err (Errorf "unknown grant key" None)
  | Some key => Ok key
  end.

#[global] Arguments ResolveGrantKey : simpl never.

(** [Verifier]; a nil resolver is [None]. *)
Record Verifier := {
  vf_Issuer : string;
  vf_RunnerGroup : string;
  vf_TenantID : string;
  vf_Keys : option KeyResolver;
  vf_ClockSkew : duration;
}.

(** [Verifier.Verify] at the time [now]. *)
Definition Verifier_Verify (v : Verifier) (now : time) (g : ActionGrant) : result error unit :=
  match ValidateVersion (gr_ProtocolVersion g) with
  | Err err => Err (caused ErrInvalidProtocol (Error err))
  | Ok _ =>
  match CanonicalGrantPayload g with
  | Err err => Err (caused ErrInvalidSignature (Error err))
  | Ok payload =>
      let sign := gr_Signature g in
      if negb (bool_decide (sig_Algorithm sign = AlgorithmEd25519)) || bool_decide (sig_KeyID sign = "")
         || bool_decide (sig_Value sign = "") then Err ErrInvalidSignature
      else if negb (bool_decide (gr_Issuer g = vf_Issuer v)) then Err ErrInvalidIssuer
      else if negb (bool_decide (gr_RunnerGroup g = vf_RunnerGroup v)) then Err ErrWrongAudience
      else if bool_decide (vf_TenantID v = "") || negb (bool_decide (gr_TenantID g = vf_TenantID v))
      then Err ErrWrongTenant
      else match vf_Keys v with
           | None => Err (caused ErrInvalidSignature "key resolver unavailable")
           | Some keys =>
               match keys (gr_Issuer g) (sig_KeyID sign) with
               | Err err => Err (caused ErrInvalidSignature (Error err))
               | Ok publicKey =>
                   match DecodeString64 (sig_Value sign) with
                   | None => Err ErrInvalidSignature
                   | Some value =>
                       if negb (ed_verify publicKey payload value) then Err ErrInvalidSignature
                       else if After (gr_IssuedAt g) (Add now (vf_ClockSkew v))
                               || negb (After (gr_ExpiresAt g) (Add now (- vf_ClockSkew v)))
                       then Err ErrExpired
                       else Ok tt
                   end
               end
           end
  end end.
End signing.

(** ** Properties *)

(** The text a signature covers is valid UTF-8.  [json.Marshal] writes U+FFFD for every other byte, so two
    grants that differ in such bytes only have the same payload ([invalid_text_collides]). *)
Definition utf8_grant (g : ActionGrant) : Prop := utf8_json (ActionGrant_json (SigningCopy g)) = true.

Lemma SigningCopy_signature g s : SigningCopy (g <| gr_Signature := s |>) = SigningCopy g.
Proof. by destruct g. Qed.

Lemma SigningCopy_idem g : SigningCopy (SigningCopy g) = SigningCopy g.
Proof. destruct g. unfold SigningCopy, modify; simpl. f_equal. apply sort_Strings_idem. Qed.

Section grant_facts.
Context `{!MapOrder}.

Lemma Canonical_signature g s :
  CanonicalGrantPayload (g <| gr_Signature := s |>) = CanonicalGrantPayload g.
Proof. unfold CanonicalGrantPayload. by rewrite SigningCopy_signature. Qed.

Lemma marshalable_year t : marshalable t = true → 0 ≤ Year t ≤ 9999.
Proof. unfold marshalable. intros [??]%andb_prop. lia. Qed.

(** What a payload says about its grant. *)
Lemma CanonicalGrantPayload_Ok g payload :
  CanonicalGrantPayload g = Ok payload →
  validateGrantShape (SigningCopy g) = Ok tt ∧
  marshalable (gr_IssuedAt g) = true ∧ marshalable (gr_ExpiresAt g) = true ∧
  payload = encode (ActionGrant_json (SigningCopy g)).
Proof.
  unfold CanonicalGrantPayload. destruct (validateGrantShape (SigningCopy g)) as [[]|] eqn:Hshape; [|done].
  unfold fail_if. change (gr_IssuedAt (SigningCopy g)) with (gr_IssuedAt g).
  change (gr_ExpiresAt (SigningCopy g)) with (gr_ExpiresAt g).
  destruct (marshalable (gr_IssuedAt g)), (marshalable (gr_ExpiresAt g)); simpl; try done.
  by intros [= <-].
Qed.

(** The encoding of a grant determines every field the runner reads. *)
Lemma ActionGrant_json_inj g h :
  marshalable (gr_IssuedAt g) = true → marshalable (gr_ExpiresAt g) = true →
  marshalable (gr_IssuedAt h) = true → marshalable (gr_ExpiresAt h) = true →
  ActionGrant_json g = ActionGrant_json h → g = h.
Proof.
  intros Hg1%marshalable_year Hg2%marshalable_year Hh1%marshalable_year Hh2%marshalable_year.
  unfold ActionGrant_json, Target_json, Action_json, Signature_json, time_json. intros Heq. json_inj Heq.
  repeat match goal with Hf : Format _ = Format _ |- _ => apply Format_inj in Hf; [|done..] end.
  destruct g as [????????????[][]????????????[]], h as [????????????[][]????????????[]]. simpl in *. by subst.
Qed.

Lemma payload_binds g h payload :
  utf8_grant g → utf8_grant h →
  CanonicalGrantPayload g = Ok payload → CanonicalGrantPayload h = Ok payload →
  SigningCopy g = SigningCopy h.
Proof.
  intros Hg Hh (_ & ? & ? & ->)%CanonicalGrantPayload_Ok (_ & ? & ? & Heq)%CanonicalGrantPayload_Ok.
  apply encode_inj in Heq; [|done..]. by apply ActionGrant_json_inj in Heq.
Qed.

(** Every required field of a well-shaped grant is more than white space. *)
Lemma shape_required g k value :
  validateGrantShape g = Ok tt → required_fields g !! k = Some value → value ≠ "".
Proof.
  unfold validateGrantShape. rewrite !seq_ok, check_all_ok. intros (_ & Hall & _) Hk ->.
  rewrite Forall_forall in Hall. apply (elem_of_range 30), Hall in Hk. done.
Qed.

Lemma shape_version g : validateGrantShape g = Ok tt → ValidateVersion (gr_ProtocolVersion g) = Ok tt.
Proof. unfold validateGrantShape. rewrite seq_ok. tauto. Qed.

Lemma shape_tenant g : validateGrantShape (SigningCopy g) = Ok tt → gr_TenantID g ≠ "".
Proof. intros Hshape. by apply (shape_required _ "tenant_id" _ Hshape). Qed.

Context `{!Ed25519}.

(** The verifier, with its guards read off one by one. *)
Lemma Verify_Ok v now g :
  Verifier_Verify v now g = Ok tt ↔
  ∃ payload keys key value,
    CanonicalGrantPayload g = Ok payload ∧
    sig_Algorithm (gr_Signature g) = AlgorithmEd25519 ∧ sig_KeyID (gr_Signature g) ≠ "" ∧
    sig_Value (gr_Signature g) ≠ "" ∧
    gr_Issuer g = vf_Issuer v ∧ gr_RunnerGroup g = vf_RunnerGroup v ∧ gr_TenantID g = vf_TenantID v ∧
    vf_Keys v = Some keys ∧ keys (gr_Issuer g) (sig_KeyID (gr_Signature g)) = Ok key ∧
    DecodeString64 (sig_Value (gr_Signature g)) = Some value ∧ ed_verify key payload value = true ∧
    gr_IssuedAt g ≤ now + vf_ClockSkew v ∧ now - vf_ClockSkew v < gr_ExpiresAt g.
Proof.
  unfold Verifier_Verify. split.
  - destruct (ValidateVersion (gr_ProtocolVersion g)) as [[]|]; [|done].
    destruct (CanonicalGrantPayload g) as [payload|] eqn:Hp; [|done].
    destruct (negb _ || _ || _) eqn:Hsig; [done|]. apply orb_false_elim in Hsig as [[Ha Hk]%orb_false_elim Hv].
    destruct (bool_decide (gr_Issuer g = vf_Issuer v)) eqn:Hi; [apply bool_decide_eq_true in Hi; cbn [negb]|done].
    destruct (bool_decide (gr_RunnerGroup g = _)) eqn:Hr; [apply bool_decide_eq_true in Hr; cbn [negb]|done].
    destruct (bool_decide (vf_TenantID v = "")); [done|].
    destruct (bool_decide (gr_TenantID g = _)) eqn:Ht; [apply bool_decide_eq_true in Ht; cbn [negb orb]|done].
    destruct (vf_Keys v) as [keys|]; [|done]. destruct (keys _ _) as [key|] eqn:Hkey; [|done].
    destruct (DecodeString64 _) as [value|]; [|done]. destruct (ed_verify key payload value) eqn:Hver; [|done].
    cbn [negb]. unfold After, Add. destruct (_ || _) eqn:Htime; [done|]. intros _.
    apply orb_false_elim in Htime as [? ?%negb_false_iff]. apply negb_false_iff, bool_decide_eq_true in Ha.
    apply bool_decide_eq_false in Hk, Hv. exists payload, keys, key, value. repeat split; try done; lia.
  - intros (payload & keys & key & value & Hp & Ha & Hk & Hv & Hi & Hr & Ht & Hks & Hkey & Hd & Hver & ? & ?).
    pose proof (CanonicalGrantPayload_Ok _ _ Hp) as (Hshape & _).
    apply shape_version in Hshape as Hversion. change (gr_ProtocolVersion (SigningCopy g)) with (gr_ProtocolVersion g) in Hversion.
    rewrite Hversion, Hp, Hks. cbn [negb orb]. apply shape_tenant in Hshape.
    repeat first [rewrite bool_decide_true by congruence | rewrite bool_decide_false by congruence].
    cbn [negb orb].
    rewrite Hkey, Hd, Hver. cbn [negb]. unfold After, Add.
    destruct (Z.ltb_spec (now + vf_ClockSkew v) (gr_IssuedAt g)); [lia|].
    by destruct (Z.ltb_spec (now + - vf_ClockSkew v) (gr_ExpiresAt g)); [|lia].
Qed.
End grant_facts.

(** ** Claims *)

Section grant_claims.
Context `{!MapOrder, !Ed25519}.

(** What [SignActionGrant] with a development signer returns. *)
Lemma SignActionGrant_Ok s g signed :
  SignActionGrant (DevelopmentSigner_Sign s) g = Ok signed →
  ∃ payload, CanonicalGrantPayload g = Ok payload ∧
    signed = g <| gr_Signature := {| sig_Algorithm := AlgorithmEd25519; sig_KeyID := dev_keyID s;
                                     sig_Value := EncodeToString64 (ed_sign (dev_key s) payload) |} |>.
Proof.
  unfold SignActionGrant, DevelopmentSigner_Sign. destruct (CanonicalGrantPayload g) as [payload|]; [|done].
  destruct (negb _); [done|]. intros [= <-]. by exists payload.
Qed.

(** C30: a grant signed by a signer whose public key the runner knows under the
    grant's issuer verifies exactly at a verifier of the same issuer, runner group and tenant, from
    its issue until just before its expiry, each widened by the clock skew. *)
Theorem grant_sign_verify s g signed v keys now :
  SignActionGrant (DevelopmentSigner_Sign s) g = Ok signed → dev_keyID s ≠ "" →
  vf_Keys v = Some (ResolveGrantKey keys) →
  keys !! (gr_Issuer g +:+ NUL +:+ dev_keyID s) = Some (ed_public (dev_key s)) →
  Verifier_Verify v now signed = Ok tt ↔
  gr_Issuer g = vf_Issuer v ∧ gr_RunnerGroup g = vf_RunnerGroup v ∧ gr_TenantID g = vf_TenantID v ∧
  gr_IssuedAt g ≤ now + vf_ClockSkew v ∧ now - vf_ClockSkew v < gr_ExpiresAt g.
Proof.
  intros (payload & Hp & ->)%SignActionGrant_Ok Hid Hkeys Hkey. rewrite Verify_Ok, Canonical_signature.
  unfold modify. cbn. split; [naive_solver|]. intros (? & ? & ? & ? & ?).
  exists payload, (ResolveGrantKey keys), (ed_public (dev_key s)), (ed_sign (dev_key s) payload).
  unfold ResolveGrantKey. rewrite Hkey, Decode_Encode64, ed_correct.
  repeat split; try done. apply EncodeToString64_nonempty, ed_nonempty.
Qed.

(** C31: a signature cannot be moved to another grant whose text is valid UTF-8.  If a signature verifies
    for no message but the one it was made for, then whatever such grant carries the signature of a
    signed grant of valid UTF-8 and is accepted by a verifier that resolves the signer's key is that grant:
    every field is equal, the approval proofs up to their order.  Bytes that are not UTF-8 are not covered by
    a signature: the encoder replaces them before signing. *)
Theorem grant_tampering_detected s g signed forged v keys now :
  SignActionGrant (DevelopmentSigner_Sign s) g = Ok signed →
  vf_Keys v = Some (ResolveGrantKey keys) →
  keys !! (gr_Issuer forged +:+ NUL +:+ dev_keyID s) = Some (ed_public (dev_key s)) →
  (∀ payload message, CanonicalGrantPayload g = Ok payload →
    ed_verify (ed_public (dev_key s)) message (ed_sign (dev_key s) payload) = true → message = payload) →
  utf8_grant g → utf8_grant forged →
  gr_Signature forged = gr_Signature signed → Verifier_Verify v now forged = Ok tt →
  SigningCopy forged = SigningCopy g.
Proof.
  intros (payload & Hp & ->)%SignActionGrant_Ok Hkeys Hkey Hbind Hg Hf Hsig
    (payload' & ? & key & value & Hp' & _ & _ & _ & _ & _ & _ & Hks & Hres & Hd & Hver & _)%Verify_Ok.
  rewrite Hsig in Hres, Hd. unfold modify in Hres, Hd. cbn in Hres, Hd.
  rewrite Hkeys in Hks. injection Hks as <-. unfold ResolveGrantKey in Hres. rewrite Hkey in Hres.
  injection Hres as <-. rewrite Decode_Encode64 in Hd. injection Hd as <-.
  apply (Hbind _ _ Hp) in Hver as ->. by eapply payload_binds.
Qed.
End grant_claims.

(** ** Witnesses *)

(** A scheme with the laws of the class, whose signatures carry the message. *)
Definition carrying_signatures : Ed25519 := {|
  ed_sign := λ key message, "s" +:+ message;
  ed_verify := λ public message signature, bool_decide (signature = "s" +:+ message);
  ed_public := λ key, key;
  ed_correct := λ key message, bool_decide_true _ eq_refl;
  ed_nonempty := λ key message Heq, match Heq in _ = s return (if s is EmptyString then False else True) with eq_refl => I end;
|}.

Definition demo_digest : string := "sha256:" +:+ Join (replicate 64 "a") "".

Definition demo_grant : ActionGrant :=
  {| gr_ProtocolVersion := VersionV1Alpha1; gr_GrantID := "grant-1"; gr_Issuer := "control";
     gr_TenantID := "acme"; gr_RunnerGroup := "prod-runners"; gr_RunID := "run-1"; gr_StepID := "payments";
     gr_SubjectType := "user"; gr_UserSubject := "alice"; gr_UserIdentityProof := "token";
     gr_AgentID := "agent"; gr_DelegationRef := "delegation-1";
     gr_Target := {| tg_Service := "payments"; tg_Environment := "production" |};
     gr_Action := {| an_Capability := protocol.CapabilityDeploy; an_ArtifactDigest := demo_digest;
                     an_ExternalExecutionID := "" |};
     gr_Risk := "high"; gr_PlanHash := demo_digest; gr_ContractHash := demo_digest;
     gr_ProfileHash := demo_digest; gr_PolicyHash := demo_digest; gr_PolicyInputHash := demo_digest;
     gr_EvidenceHash := demo_digest; gr_ApprovalProofs := ["approval-2"; "approval-1"];
     gr_IdempotencyKey := "run-1/payments"; gr_Nonce := "n-1";
     gr_IssuedAt := 63082281600 * Second; gr_ExpiresAt := 63082281600 * Second + 5 * Minute;
     gr_Signature := zero_Signature |}.

Definition demo_key : string := Join (replicate 64 "k") "".
Definition demo_signer : DevelopmentSigner := {| dev_keyID := "key-1"; dev_key := demo_key |}.

Definition demo_keys : gmap string string := {[ "control" +:+ NUL +:+ "key-1" := demo_key ]}.

Definition demo_verifier : Verifier :=
  {| vf_Issuer := "control"; vf_RunnerGroup := "prod-runners"; vf_TenantID := "acme";
     vf_Keys := Some (ResolveGrantKey demo_keys); vf_ClockSkew := 30 * Second |}.

Definition demo_payload : string := encode (ActionGrant_json (SigningCopy demo_grant)).

Definition demo_signed : ActionGrant :=
  demo_grant <| gr_Signature := {| sig_Algorithm := AlgorithmEd25519; sig_KeyID := "key-1";
    sig_Value := EncodeToString64 ("s" +:+ demo_payload) |} |>.

#[local] Existing Instance canonical_order.
#[local] Existing Instance carrying_signatures.

Lemma demo_payload_Ok : CanonicalGrantPayload demo_grant = Ok demo_payload.
Proof.
  unfold CanonicalGrantPayload. assert (validateGrantShape (SigningCopy demo_grant) = Ok tt) as -> by by vm_compute.
  done.
Qed.

Lemma demo_signed_Ok : SignActionGrant (DevelopmentSigner_Sign demo_signer) demo_grant = Ok demo_signed.
Proof. unfold SignActionGrant. rewrite demo_payload_Ok. done. Qed.

Lemma grant_sign_verify_witness :
  Verifier_Verify demo_verifier (63082281600 * Second + 2 * Minute) demo_signed = Ok tt ∧
  Verifier_Verify demo_verifier (63082281600 * Second + 6 * Minute) demo_signed ≠ Ok tt.
Proof.
  assert (H := λ now, grant_sign_verify demo_signer demo_grant demo_signed demo_verifier demo_keys now
    demo_signed_Ok ltac:(done) eq_refl ltac:(by vm_compute)).
  split.
  - apply H. repeat split; done.
  - rewrite H. intros (_ & _ & _ & _ & Ht). by vm_compute in Ht.
Defined.

Lemma grant_tampering_detected_witness :
  let forged := demo_signed <| gr_ApprovalProofs := ["approval-1"; "approval-2"] |> in
  SigningCopy forged = SigningCopy demo_grant.
Proof.
  apply (grant_tampering_detected demo_signer demo_grant demo_signed _ demo_verifier demo_keys
    (63082281600 * Second + 2 * Minute) demo_signed_Ok eq_refl).
  - by vm_compute.
  - intros payload message _ Heq%bool_decide_eq_true. by injection Heq.
  - by vm_compute.
  - by vm_compute.
  - done.
  - by vm_compute.
Defined.
