(* ===== verification/Wire.v ===== *)
(** * The wire form of action grants (src/pkg/protocol/canonical.go)

    A grant travels from the control plane to a runner as JSON.  [EncodeActionGrant] writes it
    without the HTML escapes of the signed payload; [DecodeActionGrant] reads one value strictly
    and checks its shape.  A grant that was encoded is decoded to itself, so its signature is
    as good at the runner as it was at the control plane. *)
From S2P Require Import Prelude GoStd Sha256 Json Rfc3339 Base64 JsonDecode Protocol Grant.
From Stdlib Require Import Ascii.
Open Scope Z_scope.

(** ** The decoders of the structs *)

Definition zero_Target : Target := {| tg_Service := ""; tg_Environment := "" |}.
Definition zero_Action : Action := {| an_Capability := ""; an_ArtifactDigest := ""; an_ExternalExecutionID := "" |}.
Definition zero_ActionGrant : ActionGrant :=
  {| gr_ProtocolVersion := ""; gr_GrantID := ""; gr_Issuer := ""; gr_TenantID := ""; gr_RunnerGroup := ""; gr_RunID := "";
     gr_StepID := ""; gr_SubjectType := ""; gr_UserSubject := ""; gr_UserIdentityProof := ""; gr_AgentID := "";
     gr_DelegationRef := ""; gr_Target := zero_Target; gr_Action := zero_Action; gr_Risk := ""; gr_PlanHash := "";
     gr_ContractHash := ""; gr_ProfileHash := ""; gr_PolicyHash := ""; gr_PolicyInputHash := ""; gr_EvidenceHash := "";
     gr_ApprovalProofs := []; gr_IdempotencyKey := ""; gr_Nonce := ""; gr_IssuedAt := 0; gr_ExpiresAt := 0;
     gr_Signature := zero_Signature |}.

Definition Target_members : fields_of Target :=
  member "service" into_string tg_Service ++ member "environment" into_string tg_Environment.
Definition Action_members : fields_of Action :=
  member "capability" into_string an_Capability ++ member "artifact_digest" into_string an_ArtifactDigest ++
  member "external_execution_id" into_string an_ExternalExecutionID.
Definition Signature_members : fields_of Signature :=
  member "algorithm" into_string sig_Algorithm ++ member "key_id" into_string sig_KeyID ++ member "value" into_string sig_Value.
Definition ActionGrant_members : fields_of ActionGrant :=
  member "protocol_version" into_string gr_ProtocolVersion ++
  member "grant_id" into_string gr_GrantID ++
  member "issuer" into_string gr_Issuer ++
  member "tenant_id" into_string gr_TenantID ++
  member "runner_group" into_string gr_RunnerGroup ++
  member "run_id" into_string gr_RunID ++
  member "step_id" into_string gr_StepID ++
  member "subject_type" into_string gr_SubjectType ++
  member "user_subject" into_string gr_UserSubject ++
  member "user_identity_proof" into_string gr_UserIdentityProof ++
  member "agent_id" into_string gr_AgentID ++
  member "delegation_ref" into_string gr_DelegationRef ++
  member "target" (into_struct true Target_members) gr_Target ++
  member "action" (into_struct true Action_members) gr_Action ++
  member "risk" into_string gr_Risk ++
  member "plan_hash" into_string gr_PlanHash ++
  member "contract_hash" into_string gr_ContractHash ++
  member "profile_hash" into_string gr_ProfileHash ++
  member "policy_hash" into_string gr_PolicyHash ++
  member "policy_input_hash" into_string gr_PolicyInputHash ++
  member "evidence_hash" into_string gr_EvidenceHash ++
  member "approval_proofs" (into_slice into_string "") gr_ApprovalProofs ++
  member "idempotency_key" into_string gr_IdempotencyKey ++
  member "nonce" into_string gr_Nonce ++
  member "issued_at" into_time gr_IssuedAt ++
  member "expires_at" into_time gr_ExpiresAt ++
  member "signature" (into_struct true Signature_members) gr_Signature.

Section wire.
Context `{!MapOrder} (json_error : string → error).

(** [DecodeActionGrant]; [json_error] is the error the decoder reports for a text. *)
Definition DecodeActionGrant (text : string) : result error ActionGrant :=
  let decoded := '(d, rest) ← Decode text; g ← into_struct true ActionGrant_members d zero_ActionGrant; Some (g, rest) in
  match decoded with
  | None => let err := json_error text in Err (Errorf ("decode action grant: " +:+ Error err) (Some err))
  | Some (grant, rest) =>
      if negb (at_EOF rest) then Err (Errorf "decode action grant: trailing JSON" None)
      else match CanonicalGrantPayload grant with
           | Err err => Err err
           | Ok _ => Ok grant
           end
  end.

(** [EncodeActionGrant]: the encoder ends the value with a newline, which is trimmed. *)
Definition EncodeActionGrant (grant : ActionGrant) : result error string :=
  match CanonicalGrantPayload grant with
  | Err err => Err err
  | Ok _ => Ok (TrimSpace (encode_with escape_plain (ActionGrant_json grant) +:+ char 10))
  end.
End wire.

(** ** The round trip *)

Lemma escape_plain_timely n : (45 ≤ n ≤ 58 ∨ 65 ≤ n ≤ 90)%nat → escape_plain n = char n.
Proof. intros Hn. do 91 (destruct n as [|n]; [reflexivity || lia|]). lia. Qed.

Lemma rev_app_string s t u : String.rev_app (s +:+ t) u = String.rev_app t (String.rev_app s u).
Proof. revert u. induction s as [|c s IH]; intros u; [done|]. rewrite app_cons. simpl. apply IH. Qed.

Lemma rev_app_rev s t u : String.rev_app (String.rev_app s t) u = String.rev_app t (s +:+ u).
Proof.
  revert t u. induction s as [|c s IH]; intros t u; [done|]. simpl. rewrite IH. simpl. by rewrite app_cons.
Qed.

(** The newline after an object is trimmed, nothing else. *)
Lemma TrimSpace_line s : TrimSpace (("{" +:+ s +:+ "}") +:+ char 10) = "{" +:+ s +:+ "}".
Proof.
  rewrite (app_assoc_string "{" s "}"). set (text := "{" +:+ s). unfold TrimSpace.
  assert (Hleft : trim_left (String.length ((text +:+ "}") +:+ char 10)) space_runes ((text +:+ "}") +:+ char 10) =
    (text +:+ "}") +:+ char 10) by (by destruct (String.length _)).
  rewrite Hleft. unfold String.rev at 3. rewrite !rev_app_string, !length_app_string.
  change (String.rev_app (char 10) (String.rev_app "}" (String.rev_app text "")))
    with (String "010" (String "}" (String.rev_app text ""))).
  replace (String.length text + String.length "}" + String.length (char 10))%nat with (S (S (String.length text)))
    by (simpl; lia).
  change (trim_left (S (S (String.length text))) (String.rev <$> space_runes) (String "010" (String "}" (String.rev_app text ""))))
    with (String "}" (String.rev_app text "")).
  unfold String.rev. simpl. by rewrite rev_app_rev.
Qed.

Lemma Target_reads esc t : reads_as esc Target_json (into_struct true Target_members) t.
Proof. intros old. by destruct t. Qed.

Lemma Signature_reads esc s : reads_as esc Signature_json (into_struct true Signature_members) s.
Proof. intros old. by destruct s. Qed.

(** The field that may be missing is empty in the old value. *)
Lemma Action_reads esc a : into_struct true Action_members (document_of esc (Action_json a)) zero_Action = Some a.
Proof. destruct a as [capability digest external]. unfold Action_json, string_omit, field_omit. simpl. by case_bool_decide; subst. Qed.

Lemma time_json_reads t : marshalable t = true → reads_as escape_plain time_json into_time t.
Proof. intros Ht. apply time_reads; [apply escape_plain_timely|by apply marshalable_year]. Qed.

Lemma proofs_read l : reads_as escape_plain (slice_json JString) (into_slice into_string "") l.
Proof. apply slice_reads, Forall_true. intros s old. done. Qed.

Ltac read_action :=
  match goal with |- context [into_struct true Action_members _ ?old] => change old with zero_Action end;
  rewrite Action_reads.

Lemma ActionGrant_reads g :
  marshalable (gr_IssuedAt g) = true → marshalable (gr_ExpiresAt g) = true →
  into_struct true ActionGrant_members (document_of escape_plain (ActionGrant_json g)) zero_ActionGrant = Some g.
Proof.
  intros Hi He. pose proof (time_json_reads _ Hi) as Hir. pose proof (time_json_reads _ He) as Her.
  change (into_members true ActionGrant_members (document_members escape_plain (
    match ActionGrant_json g with JObject l => l | _ => [] end)) zero_ActionGrant = Some g).
  unfold ActionGrant_json, reads_as, zero_ActionGrant in *.
  assert (Ht := Target_reads escape_plain (gr_Target g)). assert (Hs := Signature_reads escape_plain (gr_Signature g)).
  assert (Hp := proofs_read (gr_ApprovalProofs g)). unfold reads_as in *.
  do 26 (eapply eq_trans; [eapply read_field; [reflexivity|
    cbv beta; lazymatch goal with
      | |- context [time_json (gr_IssuedAt g)] => rewrite Hir
      | |- context [time_json (gr_ExpiresAt g)] => rewrite Her
      | |- context [Target_json _] => rewrite Ht
      | |- context [slice_json _ _] => rewrite Hp
      | |- context [Action_json _] => read_action
      | |- _ => idtac
      end; cbn; reflexivity]|]).
  eapply eq_trans; [eapply read_field_last; [reflexivity|cbv beta; rewrite Hs; cbn; reflexivity]|].
  by destruct g.
Qed.

(** Nesting, from the fields and elements. *)
Lemma height_object l n : Forall (λ kv, height kv.2 ≤ n)%N l → (height (JObject l) ≤ n + 1)%N.
Proof. intros Hl. simpl. assert (foldr N.max 0 (map (λ kv, height kv.2) l) ≤ n)%N; [|lia]. induction Hl; simpl; lia. Qed.

Lemma height_array l n : Forall (λ v, height v ≤ n)%N l → (height (JArray l) ≤ n + 1)%N.
Proof. intros Hl. simpl. assert (foldr N.max 0 (map height l) ≤ n)%N; [|lia]. induction Hl; simpl; lia. Qed.

Lemma grant_shallow g : shallow (ActionGrant_json g) = true.
Proof.
  apply N.leb_le. transitivity (1 + 1)%N; [|done]. apply height_object.
  repeat (apply Forall_app; split); (apply Forall_cons; split; [cbn [snd]|apply Forall_nil, I]); try done.
  - apply (height_object _ 0). unfold string_omit, field_omit. destruct (bool_decide _); by repeat constructor.
  - destruct (gr_ApprovalProofs g) as [|p l]; [done|]. apply (height_array _ 0), Forall_fmap, Forall_true. done.
Qed.

Section wire_claims.
Context `{!MapOrder} (json_error : string → error).

(** C39: the wire form of a grant whose text is valid UTF-8.  Whatever such grant can be encoded is decoded to itself, so the runner
    checks the signature of exactly the grant that was signed; and whatever the decoder accepts has
    the shape of a grant and can be encoded again. *)
Theorem grant_wire_roundtrip g :
  utf8_json (ActionGrant_json g) = true →
  (∀ text, EncodeActionGrant g = Ok text → DecodeActionGrant json_error text = Ok g) ∧
  (∀ text, DecodeActionGrant json_error text = Ok g → ∃ text', EncodeActionGrant g = Ok text').
Proof.
  intros Ha. unfold EncodeActionGrant, DecodeActionGrant. split; intros text.
  - destruct (CanonicalGrantPayload g) as [payload|] eqn:Hp; [|done]. intros Htext.
    pose proof (CanonicalGrantPayload_Ok _ _ Hp) as (_ & Hi & He & _).
    assert (text = encode_with escape_plain (ActionGrant_json g)) as ->.
    { transitivity (TrimSpace (encode_with escape_plain (ActionGrant_json g) +:+ char 10)); [congruence|apply TrimSpace_line]. }
    rewrite <-(app_empty_r (encode_with _ _)), Decode_encode by (done || apply _ || apply grant_shallow).
    cbv beta zeta. unfold mbind, option_bind. rewrite ActionGrant_reads by done. by rewrite Hp.
  - destruct ('(d, rest) ← Decode text; g' ← _; Some (g', rest)) as [[g' rest]|]; [|done].
    destruct (at_EOF rest); [|done]. destruct (CanonicalGrantPayload g') eqn:Hp; [|done]. intros [= <-]. rewrite Hp. by eexists.
Qed.
End wire_claims.

(** ** Witness: the signed demonstration grant *)

#[local] Existing Instance canonical_order.

Lemma grant_wire_roundtrip_witness :
  ∃ text, EncodeActionGrant demo_signed = Ok text ∧
    DecodeActionGrant (λ _, ErrorNew "invalid JSON") text = Ok demo_signed.
Proof.
  destruct (EncodeActionGrant demo_signed) as [text|err] eqn:He.
  - exists text. split; [done|].
    apply (grant_wire_roundtrip (λ _, ErrorNew "invalid JSON") demo_signed); [by vm_compute|exact He].
  - exfalso. revert He. unfold EncodeActionGrant.
    rewrite (Canonical_signature demo_grant _ : CanonicalGrantPayload demo_signed = _), demo_payload_Ok. done.
Defined.
