(* ===== verification/Identity.v ===== *)
(** * Subjects and delegations (src/internal/identity)

    A delegation says for which agent, actions, services, environments and risk
    a user lets an agent act.  [path.Match] is modelled on bytes, as the library
    does it: [scanChunk] cuts the pattern at stars, [matchChunk] matches a piece
    without stars, and [Match] looks for the first place after a star where the
    next piece fits. *)
From S2P Require Import Prelude GoStd Json Protocol.
From Stdlib Require Import Ascii.
Open Scope Z_scope.

(** ** path.Match *)

(** [utf8.DecodeRuneInString] on bytes: the rune and its width. *)
Definition RuneError : Z := 65533.

Definition decode_rune (l : list nat) : Z * nat :=
  let low (i : nat) := Z.of_nat (nth i l 0%nat) - 128 in
  match l with
  | [] => (RuneError, 0%nat)
  | b :: _ =>
      if (b <? 128)%nat then (Z.of_nat b, 1%nat)
      else match rune_width l with
           | 2%nat => ((Z.of_nat b - 192) * 64 + low 1%nat, 2%nat)
           | 3%nat => ((Z.of_nat b - 224) * 4096 + low 1%nat * 64 + low 2%nat, 3%nat)
           | 4%nat => ((Z.of_nat b - 240) * 262144 + low 1%nat * 4096 + low 2%nat * 64 + low 3%nat, 4%nat)
           | _ => (RuneError, 1%nat)
           end
  end.

(** Bytes with a meaning in patterns. *)
Definition STAR : nat := 42.
Definition QUERY : nat := 63.
Definition OPEN : nat := 91.
Definition CLOSE : nat := 93.
Definition CARET : nat := 94.
Definition DASH : nat := 45.
Definition BACKSLASH : nat := 92.
Definition SLASH : nat := 47.

(** The scan of [scanChunk]: up to the first star outside a class. *)
Fixpoint scan (inrange : bool) (pattern : list nat) : list nat * list nat :=
  match pattern with
  | [] => ([], [])
  | c :: rest =>
      if Nat.eqb c BACKSLASH then
        match rest with
        | [] => ([c], [])
        | d :: rest => let '(chunk, rest) := scan inrange rest in (c :: d :: chunk, rest)
        end
      else if Nat.eqb c STAR && negb inrange then ([], pattern)
      else
        let inrange := if Nat.eqb c OPEN then true else if Nat.eqb c CLOSE then false else inrange in
        let '(chunk, rest) := scan inrange rest in (c :: chunk, rest)
  end.

Fixpoint skip_stars (pattern : list nat) : bool * list nat :=
  match pattern with
  | c :: rest => if Nat.eqb c STAR then (true, snd (skip_stars rest)) else (false, pattern)
  | [] => (false, [])
  end.

(** [scanChunk]: whether stars came first, the chunk, the rest of the pattern. *)
Definition scanChunk (pattern : list nat) : bool * list nat * list nat :=
  let '(star, pattern) := skip_stars pattern in (star, (scan false pattern).1, (scan false pattern).2).

(** [getEsc]: a possibly escaped rune of a class; [None] is [ErrBadPattern]. *)
Definition getEsc (chunk : list nat) : option (Z * list nat) :=
  match chunk with
  | [] => None
  | c :: rest =>
      if Nat.eqb c DASH || Nat.eqb c CLOSE then None
      else
        let chunk := if Nat.eqb c BACKSLASH then rest else chunk in
        match chunk with
        | [] => None
        | _ :: _ =>
            let '(r, n) := decode_rune chunk in
            if (r =? RuneError) && Nat.eqb n 1%nat then None
            else match drop n chunk with [] => None | nchunk => Some (r, nchunk) end
        end
  end.

(** The loop over the ranges of a class, after [nrange] of them; every round consumes a byte. *)
Fixpoint ranges (fuel : nat) (r : option Z) (started matched : bool) (chunk : list nat) : option (bool * list nat) :=
  match fuel with
  | O => None
  | S fuel =>
      match chunk with
      | c :: rest =>
          if Nat.eqb c CLOSE && started then Some (matched, rest)
          else
            '(lo, chunk) ← getEsc chunk;
            '(hi, chunk) ← match chunk with
                           | d :: rest => if Nat.eqb d DASH then getEsc rest else Some (lo, chunk)
                           | [] => None
                           end;
            let here := match r with Some r => (lo <=? r) && (r <=? hi) | None => (lo <=? 0) && (0 <=? hi) end in
            ranges fuel r true (matched || here) chunk
      | [] => None
      end
  end.

(** What [matchChunk] returns: [ErrBadPattern], no match, or the rest of the name. *)
Inductive chunk_match := BadPattern | NoMatch | Matched (rest : list nat).

(** [matchChunk]; the name is [None] once the match has failed. *)
Fixpoint matchChunk (fuel : nat) (chunk : list nat) (s : option (list nat)) : chunk_match :=
  let s := match s with Some [] => match chunk with [] => s | _ :: _ => None end | _ => s end in
  match fuel with
  | O => BadPattern
  | S fuel =>
      match chunk with
      | [] => match s with Some s => Matched s | None => NoMatch end
      | c :: rest =>
          if Nat.eqb c OPEN then
            let '(negated, rest) :=
              match rest with d :: rest' => if Nat.eqb d CARET then (true, rest') else (false, rest) | [] => (false, rest) end in
            match ranges (S (length rest)) (s ← s; Some (decode_rune s).1) false false rest with
            | None => BadPattern
            | Some (matched, rest) =>
                matchChunk fuel rest
                  (s ← s; if Bool.eqb matched negated then None else Some (drop (decode_rune s).2 s))
            end
          else if Nat.eqb c QUERY then
            matchChunk fuel rest
              (s ← s; if bool_decide (head s = Some SLASH) then None else Some (drop (decode_rune s).2 s))
          else if Nat.eqb c BACKSLASH then
            match rest with
            | [] => BadPattern
            | d :: rest => matchChunk fuel rest (s ← s; if bool_decide (head s = Some d) then Some (tail s) else None)
            end
          else matchChunk fuel rest (s ← s; if bool_decide (head s = Some c) then Some (tail s) else None)
      end
  end.

(** The loop that skips bytes after a star: where the chunk first fits, ending the name if the
    pattern ends. *)
Fixpoint skip_match (chunk : list nat) (last : bool) (name : list nat) : chunk_match :=
  match name with
  | [] => NoMatch
  | c :: name =>
      if Nat.eqb c SLASH then NoMatch
      else match matchChunk (S (length chunk)) chunk (Some name) with
           | BadPattern => BadPattern
           | NoMatch => skip_match chunk last name
           | Matched t => if last && negb (bool_decide (t = [])) then skip_match chunk last name else Matched t
           end
  end.

(** [path.Match(pattern, name)] returned [true, nil]; every round consumes a byte of the pattern. *)
Fixpoint match_loop (fuel : nat) (pattern name : list nat) : bool :=
  match pattern with
  | [] => bool_decide (name = [])
  | _ :: _ =>
      match fuel with
      | O => false
      | S fuel =>
          let '(star, chunk, pattern) := scanChunk pattern in
          let last := bool_decide (pattern = []) in
          if star && bool_decide (chunk = []) then negb (bool_decide (SLASH ∈ name))
          else
            let otherwise :=
              if star then match skip_match chunk last name with
                           | Matched t => match_loop fuel pattern t
                           | _ => false
                           end
              else false in
            match matchChunk (S (length chunk)) chunk (Some name) with
            | BadPattern => false
            | Matched t => if bool_decide (t = []) || negb last then match_loop fuel pattern t else otherwise
            | NoMatch => otherwise
            end
      end
  end.

Definition byte_list (s : string) : list nat := nat_of_ascii <$> String.list_ascii_of_string s.

Definition path_Match (pattern name : string) : bool :=
  match_loop (length (byte_list pattern)) (byte_list pattern) (byte_list name).

Lemma path_Match_examples :
  path_Match "payments" "payments" = true ∧ path_Match "pay*" "payments" = true ∧
  path_Match "pay*" "orders" = false ∧ path_Match "*" "a/b" = false ∧ path_Match "*s" "payments" = true ∧
  path_Match "[a-p]ay?ents" "payments" = true ∧ path_Match "[^p]*" "payments" = false ∧
  path_Match "a*b*c" "axxbxbc" = true ∧ path_Match "[a" "a" = false ∧ path_Match "\*" "*" = true.
Proof. vm_compute. repeat split; reflexivity. Qed.

(** ** subject.go, delegation.go *)

(** [Subject]; the raw claims are not read by the code modelled here. *)
Record Subject := {
  sub_Issuer : string;
  sub_ID : string;
  sub_Audience : list string;
  sub_ExpiresAt : time;
  sub_IssuedAt : time;
  sub_Claims : gmap string any;
}.

Definition ErrDelegationDenied : error := Sentinel "identity.ErrDelegationDenied" "AGENT_DELEGATION_DENIED".

Record Delegation := {
  dg_ID : string;
  dg_Issuer : string;
  dg_UserSubject : string;
  dg_AgentID : string;
  dg_Actions : list string;
  dg_ServiceSelectors : list string;
  dg_Environments : list string;
  dg_MaximumRisk : string;
  dg_ExpiresAt : time;
}.

(** The interface [DelegationResolver] and the map that implements it. *)
Abbreviation DelegationResolver := (string → result error Delegation) (only parsing).

Definition ResolveDelegation (s : gmap string Delegation) : DelegationResolver := λ reference,
  match s !! reference with
  | None => Err (Errorf "delegation not found" None)
  | Some delegation => Ok delegation
  end.

Record DelegationRequest := {
  dq_Reference : string;
  dq_Subject : Subject;
  dq_AgentID : string;
  dq_Capability : string;
  dq_Service : string;
  dq_Environment : string;
  dq_Risk : string;
}.

Definition capabilityAllowed (values : list string) (expected : string) : bool :=
  existsb (λ value, bool_decide (value = expected)) values.

Definition stringAllowed (values : list string) (expected : string) : bool :=
  existsb (λ value, bool_decide (value = expected)) values.

Definition serviceAllowed (selectors : list string) (service : string) : bool :=
  existsb (λ selector, path_Match selector service) selectors.

Definition riskLevel (risk : string) : Z :=
  if bool_decide (risk = "low") then 1
  else if bool_decide (risk = "medium") then 2
  else if bool_decide (risk = "high") then 3
  else 0.

(** [DelegationVerifier.Verify] at the time [now]; a nil resolver is [None]. *)
Definition DelegationVerifier_Verify (resolver : option DelegationResolver) (now : time)
    (request : DelegationRequest) : result error Delegation :=
  match resolver with
  | None => Err ErrDelegationDenied
  | Some resolve =>
      if bool_decide (dq_Reference request = "") then Err ErrDelegationDenied
      else match resolve (dq_Reference request) with
           | Err err => Err (Errorf (Error ErrDelegationDenied +:+ ": " +:+ Error err) (Some ErrDelegationDenied))
           | Ok delegation =>
               if negb (bool_decide (dg_ID delegation = dq_Reference request))
                  || negb (bool_decide (dg_UserSubject delegation = sub_ID (dq_Subject request)))
                  || negb (bool_decide (dg_Issuer delegation = sub_Issuer (dq_Subject request)))
                  || negb (bool_decide (dg_AgentID delegation = dq_AgentID request))
                  || negb (After (dg_ExpiresAt delegation) now)
               then Err ErrDelegationDenied
               else
                 let requestedRisk := riskLevel (dq_Risk request) in
                 let maximumRisk := riskLevel (dg_MaximumRisk delegation) in
                 if (requestedRisk =? 0) || (maximumRisk =? 0)
                    || negb (capabilityAllowed (dg_Actions delegation) (dq_Capability request))
                    || negb (stringAllowed (dg_Environments delegation) (dq_Environment request))
                    || negb (serviceAllowed (dg_ServiceSelectors delegation) (dq_Service request))
                    || (maximumRisk <? requestedRisk)
                 then Err ErrDelegationDenied
                 else Ok delegation
           end
  end.

(** ** What a verified delegation says *)

(** The delegation covers the request at [now]. *)
Record delegation_covers (now : time) (request : DelegationRequest) (d : Delegation) : Prop := {
  dc_reference : dg_ID d = dq_Reference request;
  dc_subject : dg_UserSubject d = sub_ID (dq_Subject request) ∧ dg_Issuer d = sub_Issuer (dq_Subject request);
  dc_agent : dg_AgentID d = dq_AgentID request;
  dc_unexpired : now < dg_ExpiresAt d;
  dc_capability : dq_Capability request ∈ dg_Actions d;
  dc_environment : dq_Environment request ∈ dg_Environments d;
  dc_service : ∃ selector, selector ∈ dg_ServiceSelectors d ∧ path_Match selector (dq_Service request) = true;
  dc_risk : 1 ≤ riskLevel (dq_Risk request) ≤ riskLevel (dg_MaximumRisk d);
}.

Lemma riskLevel_range risk : 0 ≤ riskLevel risk ≤ 3.
Proof. unfold riskLevel. repeat case_bool_decide; lia. Qed.

Lemma allowed_elem (values : list string) expected :
  existsb (λ value, bool_decide (value = expected)) values = true ↔ expected ∈ values.
Proof.
  rewrite existsb_exists. setoid_rewrite bool_decide_eq_true. setoid_rewrite list_elem_of_In. naive_solver.
Qed.

Lemma serviceAllowed_spec selectors service :
  serviceAllowed selectors service = true ↔ ∃ s, s ∈ selectors ∧ path_Match s service = true.
Proof. unfold serviceAllowed. rewrite existsb_exists. by setoid_rewrite list_elem_of_In. Qed.

(** A delegation is granted exactly when the resolver knows it and it covers the request. *)
Lemma DelegationVerifier_Ok resolver now request d :
  DelegationVerifier_Verify resolver now request = Ok d ↔
  dq_Reference request ≠ "" ∧ (∃ resolve, resolver = Some resolve ∧ resolve (dq_Reference request) = Ok d) ∧
  delegation_covers now request d.
Proof.
  unfold DelegationVerifier_Verify. destruct resolver as [resolve|]; [|split; [done|]; by intros (_ & (? & ? & _) & _)].
  destruct (bool_decide (dq_Reference request = "")) eqn:Href.
  { apply bool_decide_eq_true in Href. split; [done|]. by intros (? & _). }
  apply bool_decide_eq_false in Href. destruct (resolve (dq_Reference request)) as [d'|] eqn:Hres;
    [|split; [done|]; intros (_ & (? & [= <-] & ?) & _); congruence].
  pose proof (riskLevel_range (dq_Risk request)). pose proof (riskLevel_range (dg_MaximumRisk d')).
  split.
  - destruct (_ || _) eqn:Hid; [done|]. unfold capabilityAllowed, stringAllowed.
    destruct ((_ =? 0) || _ || _ || _ || _ || _) eqn:Hscope; [done|]. intros [= <-].
    unfold After in *. rewrite !orb_false_iff, !negb_false_iff, !bool_decide_eq_true in Hid.
    rewrite !orb_false_iff, !negb_false_iff, !allowed_elem, serviceAllowed_spec in Hscope.
    repeat split; try naive_solver; lia.
  - intros (_ & (? & [= <-] & [= ->]%(eq_trans (eq_sym Hres))) & Hc). destruct Hc as [Hr [Hs Hi] Ha Hx Hcap Henv Hsvc Hrisk].
    unfold After, capabilityAllowed, stringAllowed.
    rewrite !bool_decide_true by done. apply allowed_elem in Hcap, Henv. apply serviceAllowed_spec in Hsvc.
    rewrite Hcap, Henv, Hsvc. cbn [negb orb].
    destruct (Z.ltb_spec now (dg_ExpiresAt d)); [|lia]. destruct (Z.eqb_spec (riskLevel (dq_Risk request)) 0); [lia|].
    destruct (Z.eqb_spec (riskLevel (dg_MaximumRisk d)) 0); [lia|].
    by destruct (Z.ltb_spec (riskLevel (dg_MaximumRisk d)) (riskLevel (dq_Risk request))); [lia|].
Qed.
