(* ===== verification/Oidc.v ===== *)
(** * Identity proofs (src/internal/identity/oidc.go)

    A user proves who they are with a signed JSON web token of a trusted issuer.  [OIDCVerifier.Verify]
    checks the form, the algorithm, the signature by the issuer's key, and then issuer, subject,
    audience and times; instants in seconds wrap around like Go's.

    Parameters: Ed25519 (Grant.v), RSA with PKCS #1 v1.5 ([rsa_verify]), the resolver of keys, and the
    Go value of an untyped JSON value ([untyped]), which a subject carries as its claims. *)
From S2P Require Import Prelude GoStd Sha256 Json Rfc3339 Base64 JsonDecode JsonAny Protocol Grant Identity.
From Stdlib Require Import Ascii.
Open Scope Z_scope.

Definition ErrInvalidIdentityProof : error :=
  Sentinel "identity.ErrInvalidIdentityProof" "INVALID_USER_IDENTITY_PROOF".

(** [crypto.PublicKey]: an Ed25519 key, an RSA key with its modulus ([None] is nil), or another. *)
Inductive PublicKey :=
| Ed25519Key (key : string)
| RSAKey (key : string) (modulus : option Z)
| OtherKey.

(** [StaticOIDCKeys.ResolveOIDCKey] *)
Definition ResolveOIDCKey (keys : gmap string PublicKey) (issuer keyID : string) : result error PublicKey :=
  match keys !! (issuer +:+ NUL +:+ keyID) with
  | Some key => Ok key
  | None => Err (Errorf "unknown OIDC key" None)
  end.

(** [OIDCVerifier]; the clock is read once. *)
Record OIDCVerifier := {
  ov_Issuer : string;
  ov_Audience : string;
  ov_Keys : option (string → string → result error PublicKey);
  ov_ClockSkew : duration;
}.

(** [jwtHeader] *)
Record jwtHeader := {
  jh_Algorithm : string;
  jh_KeyID : string;
  jh_Type : string;
}.

#[export] Instance eta_jwtHeader : Eta jwtHeader := λ r,
  {| jh_Algorithm := jh_Algorithm r; jh_KeyID := jh_KeyID r; jh_Type := jh_Type r |}.

Definition jwtHeader_members : fields_of jwtHeader :=
  member "alg" into_string jh_Algorithm ++ member "kid" into_string jh_KeyID ++ member "typ" into_string jh_Type.
Definition zero_jwtHeader : jwtHeader := {| jh_Algorithm := ""; jh_KeyID := ""; jh_Type := "" |}.

(** [jwtClaims] *)
Record jwtClaims := {
  jc_Issuer : string;
  jc_Subject : string;
  jc_Audience : list string;
  jc_ExpiresAt : Z;
  jc_IssuedAt : Z;
}.

#[export] Instance eta_jwtClaims : Eta jwtClaims := λ r,
  {| jc_Issuer := jc_Issuer r; jc_Subject := jc_Subject r; jc_Audience := jc_Audience r; jc_ExpiresAt := jc_ExpiresAt r;
     jc_IssuedAt := jc_IssuedAt r |}.

(** [audience.UnmarshalJSON]: one string, or a list of them. *)
Definition into_audience : into (list string) := λ d _,
  match into_string d "" with
  | Some one => Some [one]
  | None => into_slice into_string "" d []
  end.

Definition jwtClaims_members : fields_of jwtClaims :=
  member "iss" into_string jc_Issuer ++ member "sub" into_string jc_Subject ++ member "aud" into_audience jc_Audience ++
  member "exp" into_int64 jc_ExpiresAt ++ member "iat" into_int64 jc_IssuedAt.
Definition zero_jwtClaims : jwtClaims :=
  {| jc_Issuer := ""; jc_Subject := ""; jc_Audience := []; jc_ExpiresAt := 0; jc_IssuedAt := 0 |}.

(** [time.Unix(sec, 0)]: the seconds since the zero time are an int64. *)
Definition wrap64 (z : Z) : Z := (z + 2 ^ 63) `mod` 2 ^ 64 - 2 ^ 63.
Definition zero_to_unix : Z := 62135596800.
Definition unix_time (sec : Z) : time := wrap64 (sec + zero_to_unix) * Second.

(** [json.Unmarshal(data, &value)] *)
Definition unmarshal_into {A} (from : into A) (zero : A) (data : string) : option A := d ← Unmarshal data; from d zero.

Section verifier.
Context `{!Ed25519} (rsa_verify : string → list Z → string → bool) (untyped : document → any).

(** [verifyJWTSignature] *)
Definition verifyJWTSignature (algorithm : string) (key : PublicKey) (input signature : string) : bool :=
  if bool_decide (algorithm = "EdDSA") then
    match key with Ed25519Key public => ed_verify public input signature | _ => false end
  else if bool_decide (algorithm = "RS256") then
    match key with
    | RSAKey public (Some n) => if n <=? 0 then false else rsa_verify public (Sum256 input) signature
    | _ => false
    end
  else false.

(** The checks on the claims, at the time [now]. *)
Definition claims_accepted (v : OIDCVerifier) (claims : jwtClaims) (now : time) : bool :=
  negb (negb (bool_decide (jc_Issuer claims = ov_Issuer v)) || bool_decide (jc_Subject claims = "")
        || negb (bool_decide (ov_Audience v ∈ jc_Audience claims)) || (jc_ExpiresAt claims =? 0)
        || negb (After (unix_time (jc_ExpiresAt claims)) (Add now (- ov_ClockSkew v)))) &&
  negb (negb (jc_IssuedAt claims =? 0) && After (unix_time (jc_IssuedAt claims)) (Add now (ov_ClockSkew v))).

Definition subject_of (claims : jwtClaims) (all : option (list (string * document))) : Subject :=
  {| sub_Issuer := jc_Issuer claims; sub_ID := jc_Subject claims; sub_Audience := jc_Audience claims;
     sub_ExpiresAt := unix_time (jc_ExpiresAt claims); sub_IssuedAt := unix_time (jc_IssuedAt claims);
     sub_Claims := list_to_map (reverse ((λ kv, (kv.1, untyped kv.2)) <$> default [] all)) |}.

(** [OIDCVerifier.Verify] at the time [now]. *)
Definition OIDC_Verify (v : OIDCVerifier) (now : time) (token : string) : result error Subject :=
  match Split token "."%char, ov_Keys v with
  | [p0; p1; p2], Some keys =>
      if bool_decide (ov_Issuer v = "") || bool_decide (ov_Audience v = "") then Err ErrInvalidIdentityProof
      else match DecodeString64 p0, DecodeString64 p1, DecodeString64 p2 with
      | Some headerBytes, Some payload, Some signature =>
          match unmarshal_into (into_struct false jwtHeader_members) zero_jwtHeader headerBytes with
          | None => Err ErrInvalidIdentityProof
          | Some h =>
              if bool_decide (jh_KeyID h = "") || (negb (bool_decide (jh_Algorithm h = "EdDSA")) && negb (bool_decide (jh_Algorithm h = "RS256")))
              then Err ErrInvalidIdentityProof
              else match keys (ov_Issuer v) (jh_KeyID h) with
              | Err err => Err (Errorf (Error ErrInvalidIdentityProof +:+ ": " +:+ Error err) (Some ErrInvalidIdentityProof))
              | Ok key =>
                  if negb (verifyJWTSignature (jh_Algorithm h) key (p0 +:+ "." +:+ p1) signature) then Err ErrInvalidIdentityProof
                  else match unmarshal_into (into_struct false jwtClaims_members) zero_jwtClaims payload,
                             unmarshal_into into_any_map None payload with
                  | Some claims, Some all =>
                      if claims_accepted v claims now then Ok (subject_of claims all) else Err ErrInvalidIdentityProof
                  | _, _ => Err ErrInvalidIdentityProof
                  end
              end
          end
      | _, _, _ => Err ErrInvalidIdentityProof
      end
  | _, _ => Err ErrInvalidIdentityProof
  end.
End verifier.

(** ** Tokens of an issuer *)

Definition claims_json (claims : jwtClaims) : json :=
  JObject (field "iss" (JString (jc_Issuer claims)) ++ field "sub" (JString (jc_Subject claims)) ++
    field "aud" (JArray (JString <$> jc_Audience claims)) ++ field "exp" (JInt (jc_ExpiresAt claims)) ++
    field "iat" (JInt (jc_IssuedAt claims))).

Definition header_json (kid : string) : json :=
  JObject (field "alg" (JString "EdDSA") ++ field "kid" (JString kid) ++ field "typ" (JString "JWT")).

(** The compact form of the claims under an Ed25519 key. *)
Definition signing_input (kid : string) (claims : jwtClaims) : string :=
  EncodeToString64 (encode (header_json kid)) +:+ "." +:+ EncodeToString64 (encode (claims_json claims)).
Definition mint `{!Ed25519} (key kid : string) (claims : jwtClaims) : string :=
  signing_input kid claims +:+ "." +:+ EncodeToString64 (ed_sign key (signing_input kid claims)).

(** *** Form *)

Lemma Encode64_no_dot value : lacks "." (EncodeToString64 value) = true.
Proof.
  unfold lacks, EncodeToString64. pose proof (sextets_range _ (string_bytes_range value)) as Hr.
  induction Hr as [|z l Hz _ IH]; [done|]. rewrite fmap_cons. cbn [String.string_of_list_ascii string_forall]. rewrite IH, andb_true_r.
  destruct (Ascii.eqb_spec (sextet_char z) ".") as [Heq|]; [|done]. exfalso.
  destruct (sextet_char_spec z Hz) as [Hs _]. rewrite Heq in Hs. by vm_compute in Hs.
Qed.

Lemma Split_mint `{!Ed25519} key kid claims :
  Split (mint key kid claims) "." =
  [EncodeToString64 (encode (header_json kid)); EncodeToString64 (encode (claims_json claims));
   EncodeToString64 (ed_sign key (signing_input kid claims))].
Proof.
  unfold mint. unfold signing_input at 1. rewrite <- !app_assoc_string. rewrite (Split_sep ".") by apply Encode64_no_dot.
  rewrite (Split_sep ".") by apply Encode64_no_dot. by rewrite Split_lacks by apply Encode64_no_dot.
Qed.

(** *** Content *)

Lemma unmarshal_encode {A} (from : into A) zero v :
  utf8_json v = true → shallow v = true → unmarshal_into from zero (encode v) = from (document_of escape_ascii v) zero.
Proof. intros Ha Hs. unfold unmarshal_into. rewrite <- encode_with_html. by rewrite (Unmarshal_encode escape_ascii). Qed.

Lemma header_reads kid :
  into_struct false jwtHeader_members (document_of escape_ascii (header_json kid)) zero_jwtHeader =
  Some {| jh_Algorithm := "EdDSA"; jh_KeyID := kid; jh_Type := "JWT" |}.
Proof. done. Qed.

Lemma audience_reads l old : into_audience (document_of escape_ascii (JArray (JString <$> l))) old = Some l.
Proof.
  assert (Hl : mapM (λ d, into_string d "") (map (document_of escape_ascii) (JString <$> l)) = Some l); [|exact Hl].
  induction l as [|a l IH]; [done|]. cbn. by rewrite IH.
Qed.

Definition in_int64 (z : Z) : bool := (- 2 ^ 63 <=? z) && (z <? 2 ^ 63).

Lemma claims_read claims :
  in_int64 (jc_ExpiresAt claims) = true → in_int64 (jc_IssuedAt claims) = true →
  into_struct false jwtClaims_members (document_of escape_ascii (claims_json claims)) zero_jwtClaims = Some claims.
Proof.
  intros [He1%Z.leb_le He2%Z.ltb_lt]%andb_prop [Hi1%Z.leb_le Hi2%Z.ltb_lt]%andb_prop.
  pose proof (int64_reads escape_ascii (jc_ExpiresAt claims) (conj He1 He2)) as He.
  pose proof (int64_reads escape_ascii (jc_IssuedAt claims) (conj Hi1 Hi2)) as Hi. unfold reads_as in He, Hi.
  change (into_members false jwtClaims_members (document_members escape_ascii (
    match claims_json claims with JObject l => l | _ => [] end)) zero_jwtClaims = Some claims).
  unfold claims_json, zero_jwtClaims.
  do 4 (eapply eq_trans; [eapply read_field; [reflexivity|
    cbv beta; lazymatch goal with
      | |- context [JInt (jc_ExpiresAt claims)] => rewrite He
      | |- context [JArray _] => rewrite audience_reads
      | |- _ => idtac
      end; cbn; reflexivity]|]).
  eapply eq_trans; [eapply read_field_last; [reflexivity|cbv beta; rewrite Hi; cbn; reflexivity]|].
  by destruct claims.
Qed.

(** The claims as they stand in the token. *)
Definition claim_documents (claims : jwtClaims) : list (string * document) :=
  [("iss", document_of escape_ascii (JString (jc_Issuer claims))); ("sub", document_of escape_ascii (JString (jc_Subject claims)));
   ("aud", document_of escape_ascii (JArray (JString <$> jc_Audience claims)));
   ("exp", document_of escape_ascii (JInt (jc_ExpiresAt claims))); ("iat", document_of escape_ascii (JInt (jc_IssuedAt claims)))].

Lemma claims_any claims :
  in_int64 (jc_ExpiresAt claims) = true → in_int64 (jc_IssuedAt claims) = true →
  into_any_map (document_of escape_ascii (claims_json claims)) None = Some (Some (claim_documents claims)).
Proof.
  intros [He1%Z.leb_le He2%Z.ltb_lt]%andb_prop [Hi1%Z.leb_le Hi2%Z.ltb_lt]%andb_prop.
  unfold into_any_map, claims_json, claim_documents.
  assert (Hfits : fits_any (document_of escape_ascii (claims_json claims)) = true); [|unfold claims_json in Hfits; simpl in *; by rewrite Hfits].
  unfold claims_json. simpl. rewrite !itoa_fits by lia. rewrite !andb_true_r.
  induction (jc_Audience claims) as [|a l IH]; [done|]. simpl. exact IH.
Qed.

Lemma claims_shallow claims : shallow (claims_json claims) = true.
Proof.
  apply N.leb_le. unfold claims_json. simpl.
  assert (foldr N.max 0 (map height (JString <$> jc_Audience claims)) = 0)%N as ->; [|vm_compute; done].
  induction (jc_Audience claims) as [|a l IH]; [done|]. rewrite fmap_cons. cbn [map foldr]. by rewrite IH.
Qed.

(** ** What a verifier accepts *)

(** Claims that a verifier accepts at a time. *)
Record claims_hold (v : OIDCVerifier) (now : time) (claims : jwtClaims) : Prop := {
  hold_issuer : jc_Issuer claims = ov_Issuer v;
  hold_subject : jc_Subject claims ≠ "";
  hold_audience : ov_Audience v ∈ jc_Audience claims;
  hold_expires : jc_ExpiresAt claims ≠ 0 ∧ now - ov_ClockSkew v < unix_time (jc_ExpiresAt claims);
  hold_issued : jc_IssuedAt claims = 0 ∨ unix_time (jc_IssuedAt claims) ≤ now + ov_ClockSkew v;
}.

Lemma claims_accepted_iff v claims now : claims_accepted v claims now = true ↔ claims_hold v now claims.
Proof.
  unfold claims_accepted, After, Add. rewrite andb_true_iff, !negb_true_iff, !orb_false_iff, !negb_false_iff, andb_false_iff, negb_false_iff.
  rewrite !bool_decide_eq_true, !bool_decide_eq_false, !Z.eqb_neq, !Z.eqb_eq, !Z.ltb_lt, !Z.ltb_ge. split.
  - intros (((((Hi & Hs) & Ha) & He) & Hx) & Hd). by split.
  - by intros [Hi Hs Ha [He Hx] Hd].
Qed.

(** Seconds beyond the range of Go's clock wrap around: such an expiry has passed, whatever the (positive) time. *)
Lemma far_expiry_expired v now claims :
  2 ^ 63 - zero_to_unix ≤ jc_ExpiresAt claims < 2 ^ 63 → ov_ClockSkew v ≤ now → claims_accepted v claims now = false.
Proof.
  intros Hfar Hskew. destruct (claims_accepted v claims now) eqn:Ha; [|done]. apply claims_accepted_iff in Ha as [_ _ _ [_ Hx] _].
  exfalso. unfold unix_time, wrap64, zero_to_unix in *.
  assert (Hw : (jc_ExpiresAt claims + 62135596800 + 2 ^ 63) `mod` 2 ^ 64 = jc_ExpiresAt claims + 62135596800 + 2 ^ 63 - 2 ^ 64).
  { symmetry. apply (Z.mod_unique _ _ 1); lia. }
  rewrite Hw in Hx. unfold Second in Hx. lia.
Qed.

Section roundtrip.
Context `{!Ed25519} (rsa_verify : string → list Z → string → bool) (untyped : document → any).

Lemma signed_verifies key message : verifyJWTSignature rsa_verify "EdDSA" (Ed25519Key (ed_public key)) message (ed_sign key message) = true.
Proof. apply ed_correct. Qed.

(** Verifying a token of an issuer comes down to its claims. *)
Lemma Verify_mint v keys key kid claims now :
  ov_Keys v = Some keys → keys (ov_Issuer v) kid = Ok (Ed25519Key (ed_public key)) →
  kid ≠ "" → ov_Audience v ≠ "" → ov_Issuer v ≠ "" →
  utf8_json (header_json kid) = true → utf8_json (claims_json claims) = true →
  in_int64 (jc_ExpiresAt claims) = true → in_int64 (jc_IssuedAt claims) = true →
  OIDC_Verify rsa_verify untyped v now (mint key kid claims) =
    if claims_accepted v claims now then Ok (subject_of untyped claims (Some (claim_documents claims))) else Err ErrInvalidIdentityProof.
Proof.
  intros Hkeys Hkey Hkid Haud Hiss Hah Hac He Hi. pose proof (claims_any claims He Hi) as Hall.
  unfold OIDC_Verify. rewrite Split_mint, Hkeys, !Decode_Encode64, !bool_decide_false by done. cbn [orb].
  rewrite !unmarshal_encode by (done || apply claims_shallow). rewrite header_reads. cbn [jh_KeyID jh_Algorithm].
  rewrite bool_decide_false by done. cbn [orb negb andb]. rewrite Hkey.
  rewrite bool_decide_true by done. cbn [orb negb andb]. fold (signing_input kid claims). rewrite signed_verifies. cbn [negb].
  by rewrite claims_read, Hall.
Qed.

Lemma subject_claims claims name :
  sub_Claims (subject_of untyped claims (Some (claim_documents claims))) !! name =
  untyped <$> (list_to_map (claim_documents claims) : gmap string document) !! name.
Proof.
  unfold subject_of. cbn [sub_Claims default]. rewrite <- lookup_fmap. f_equal.
Qed.

(** C35: a token of valid UTF-8 that an issuer signs with the Ed25519 key its key id resolves to is accepted
    exactly when its claims hold for the verifier: the trusted issuer, a subject, the verifier among the
    audience, and a clock between issue and expiry, give or take the skew.  The subject is the one that was
    signed: its issuer, identifier, audience, expiry and time of issue are those of the token, and its map of
    claims holds the five claims of the token and nothing else. *)
Theorem oidc_token_roundtrip v keys key kid claims now :
  ov_Keys v = Some keys → keys (ov_Issuer v) kid = Ok (Ed25519Key (ed_public key)) →
  kid ≠ "" → ov_Audience v ≠ "" → ov_Issuer v ≠ "" →
  utf8_json (header_json kid) = true → utf8_json (claims_json claims) = true →
  in_int64 (jc_ExpiresAt claims) = true → in_int64 (jc_IssuedAt claims) = true →
  match OIDC_Verify rsa_verify untyped v now (mint key kid claims) with
  | Ok subject => claims_hold v now claims ∧ sub_Issuer subject = jc_Issuer claims ∧ sub_ID subject = jc_Subject claims ∧
                  sub_Audience subject = jc_Audience claims ∧ sub_ExpiresAt subject = unix_time (jc_ExpiresAt claims) ∧
                  sub_IssuedAt subject = unix_time (jc_IssuedAt claims) ∧
                  ∀ name, sub_Claims subject !! name = untyped <$> (list_to_map (claim_documents claims) : gmap string document) !! name
  | Err err => ¬ claims_hold v now claims ∧ err = ErrInvalidIdentityProof
  end.
Proof.
  intros Hkeys Hkey Hkid Haud Hiss Hah Hac He Hi.
  rewrite (Verify_mint v keys key kid claims now Hkeys Hkey Hkid Haud Hiss Hah Hac He Hi).
  destruct (claims_accepted v claims now) eqn:Ha.
  - apply claims_accepted_iff in Ha. do 6 (split; [done|]). apply subject_claims.
  - split; [|done]. rewrite <- claims_accepted_iff. congruence.
Qed.

(** Whatever token is accepted has a signature by a key of the trusted issuer over the header and claims it was read
    from, and claims that hold. *)
Lemma OIDC_Verify_sound v now token subject :
  OIDC_Verify rsa_verify untyped v now token = Ok subject →
  ∃ keys key h claims p0 p1 p2 payload signature, ov_Keys v = Some keys ∧ Split token "." = [p0; p1; p2] ∧
    DecodeString64 p1 = Some payload ∧ DecodeString64 p2 = Some signature ∧ jh_KeyID h ≠ "" ∧
    keys (ov_Issuer v) (jh_KeyID h) = Ok key ∧
    verifyJWTSignature rsa_verify (jh_Algorithm h) key (p0 +:+ "." +:+ p1) signature = true ∧
    unmarshal_into (into_struct false jwtClaims_members) zero_jwtClaims payload = Some claims ∧ claims_hold v now claims ∧
    sub_ID subject = jc_Subject claims ∧ sub_Issuer subject = ov_Issuer v.
Proof.
  unfold OIDC_Verify. destruct (Split token ".") as [|p0 [|p1 [|p2 []]]] eqn:Hsplit; try done.
  destruct (ov_Keys v) as [keys|]; [|done]. destruct (_ || _); [done|].
  destruct (DecodeString64 p0) as [hb|], (DecodeString64 p1) as [payload|] eqn:Hp, (DecodeString64 p2) as [signature|] eqn:Hs; try done.
  destruct (unmarshal_into _ _ hb) as [h|]; [|done]. destruct (bool_decide (jh_KeyID h = "")) eqn:Hkid; [done|].
  apply bool_decide_eq_false in Hkid. destruct (_ && _); [done|]. simpl. destruct (keys _ _) as [key|] eqn:Hk; [|done].
  destruct (verifyJWTSignature _ _ _ _ _) eqn:Hv; [|done]. simpl.
  destruct (unmarshal_into (into_struct _ _) _ payload) as [claims|] eqn:Hc; [|done].
  destruct (unmarshal_into into_any_map _ payload) as [all|]; [|done].
  destruct (claims_accepted v claims now) eqn:Ha; [|done]. intros [= <-]. apply claims_accepted_iff in Ha.
  exists keys, key, h, claims, p0, p1, p2, payload, signature. repeat (split; [done|]). apply Ha.
Qed.
End roundtrip.

(** ** Witness *)

#[local] Existing Instance carrying_signatures.

Definition alice_claims : jwtClaims :=
  {| jc_Issuer := "idp"; jc_Subject := "alice"; jc_Audience := ["themisy"; "other"]; jc_ExpiresAt := 2000; jc_IssuedAt := 1000 |}.
Definition idp_keys (issuer kid : string) : result error PublicKey :=
  if bool_decide (issuer = "idp") && bool_decide (kid = "k1") then Ok (Ed25519Key (ed_public "secret")) else Err (ErrorNew "unknown").
Definition idp_verifier : OIDCVerifier :=
  {| ov_Issuer := "idp"; ov_Audience := "themisy"; ov_Keys := Some idp_keys; ov_ClockSkew := 30 * Second |}.
Definition no_rsa (key : string) (digest : list Z) (signature : string) : bool := false.
Definition no_value_of (d : document) : any := ABool true.

Lemma oidc_token_roundtrip_witness :
  ∃ subject, OIDC_Verify no_rsa no_value_of idp_verifier (unix_time 1500) (mint "secret" "k1" alice_claims) = Ok subject ∧
    sub_ID subject = "alice".
Proof.
  pose proof (oidc_token_roundtrip no_rsa no_value_of idp_verifier idp_keys "secret" "k1" alice_claims (unix_time 1500)
    eq_refl eq_refl ltac:(discriminate) ltac:(discriminate) ltac:(discriminate) eq_refl eq_refl eq_refl eq_refl) as H.
  destruct (OIDC_Verify _ _ _ _ _) as [subject|err].
  - destruct H as (_ & _ & Hid & _). exists subject. split; [reflexivity|exact Hid].
  - destruct H as [Hno _]. exfalso. apply Hno. apply claims_accepted_iff. reflexivity.
Defined.
