(* ===== verification/Adapter.v ===== *)
(** * Credentials and the adapter SDK (src/pkg/credentials, src/pkg/adapter)

    What a runner hands to an adapter: credentials with an expiry from a broker, and typed
    deploy, rollback and reconcile requests.  Brokers and adapters act on external state; the
    interfaces are records of operations over a state [X] of the outside world. *)
From S2P Require Import Prelude GoStd Sha256.
Open Scope Z_scope.

(** ** credentials/broker.go *)

Module credentials.
Abbreviation Purpose := string (only parsing).
Definition PurposeDeploy : Purpose := "deploy".
Definition PurposeRollback : Purpose := "rollback".
Definition PurposeVerify : Purpose := "verify".

(** [Request] *)
Record Request := {
  cq_Provider : string;
  cq_TenantID : string;
  cq_Service : string;
  cq_Environment : string;
  cq_Purpose : Purpose;
}.

#[export] Instance eta_Request : Eta Request := λ r,
  {| cq_Provider := cq_Provider r; cq_TenantID := cq_TenantID r; cq_Service := cq_Service r;
     cq_Environment := cq_Environment r; cq_Purpose := cq_Purpose r |}.

#[export] Instance Request_eq_dec : EqDecision Request.
Proof. solve_decision. Defined.

(** [Request.Validate] *)
Definition Request_Validate (r : Request) : result error unit :=
  if bool_decide (cq_Provider r = "") || bool_decide (cq_TenantID r = "") || bool_decide (cq_Service r = "")
     || bool_decide (cq_Environment r = "")
  then Err (ErrorNew "provider, tenant, service, and environment are required")
  else if bool_decide (cq_Purpose r = PurposeDeploy) || bool_decide (cq_Purpose r = PurposeRollback)
          || bool_decide (cq_Purpose r = PurposeVerify)
  then Ok tt
  else Err (Errorf ("unsupported credential purpose " +:+ quote (cq_Purpose r)) None).

(** [Credential]: named secrets and their expiry. *)
Record Credential := {
  cr_values : gmap string string;
  cr_ExpiresAt : time;
}.

#[export] Instance eta_Credential : Eta Credential := λ r,
  {| cr_values := cr_values r; cr_ExpiresAt := cr_ExpiresAt r |}.

#[export] Instance Credential_eq_dec : EqDecision Credential.
Proof. solve_decision. Defined.

(** [New] copies the values; a value of the model is its own copy. *)
Definition New (values : gmap string string) (expiresAt : time) : Credential :=
  {| cr_values := values; cr_ExpiresAt := expiresAt |}.

Definition Value (c : Credential) (name : string) : string := get "" (cr_values c) name.

Definition ValidAt (c : Credential) (now : time) : bool :=
  (0 <? Z.of_nat (size (cr_values c))) && negb (IsZero (cr_ExpiresAt c)) && Before now (cr_ExpiresAt c).

Definition Clone (c : Credential) : Credential := New (cr_values c) (cr_ExpiresAt c).

(** The interface [Broker], over the outside world. *)
Abbreviation Broker X := (Request → X → X * result error Credential) (only parsing).

(** ** credentials/static_dev.go *)

(** [NewStaticDevelopmentBroker] at the time [now]: the broker is its credential. *)
Definition NewStaticDevelopmentBroker (values : gmap string string) (expiresAt now : time) : result error Credential :=
  let credential := New values expiresAt in
  if negb (ValidAt credential now) then Err (ErrorNew "development credential must be non-empty and unexpired")
  else Ok credential.

(** [StaticDevelopmentBroker.Acquire] at the time [now]. *)
Definition StaticDevelopmentBroker_Acquire (credential : Credential) (now : time) (request : Request) :
    result error Credential :=
  match Request_Validate request with
  | Err err => Err err
  | Ok _ =>
      if negb (ValidAt credential now) then Err (ErrorNew "development credential expired")
      else Ok (Clone credential)
  end.
End credentials.

(** ** adapter/types.go, adapter/deploy.go *)

Module adapter.
Definition ProviderGitHubActions : string := "github-actions".
Definition ProviderDatadog : string := "datadog".

(** [Target] *)
Record Target := {
  at_Service : string;
  at_Environment : string;
}.

#[export] Instance eta_Target : Eta Target := λ r,
  {| at_Service := at_Service r; at_Environment := at_Environment r |}.

#[export] Instance Target_eq_dec : EqDecision Target.
Proof. solve_decision. Defined.

(** [Deployment] *)
Record Deployment := {
  ad_ExternalExecutionID : string;
  ad_CorrelationID : string;
  ad_StartedAt : time;
  ad_FinishedAt : time;
}.

#[export] Instance eta_Deployment : Eta Deployment := λ r,
  {| ad_ExternalExecutionID := ad_ExternalExecutionID r; ad_CorrelationID :=
     ad_CorrelationID r; ad_StartedAt := ad_StartedAt r; ad_FinishedAt := ad_FinishedAt r
     |}.

#[export] Instance Deployment_eq_dec : EqDecision Deployment.
Proof. solve_decision. Defined.

Abbreviation ReconcileStatus := string (only parsing).
Definition ReconcileNotFound : ReconcileStatus := "NOT_FOUND".
Definition ReconcilePending : ReconcileStatus := "PENDING".
Definition ReconcileSucceeded : ReconcileStatus := "SUCCEEDED".
Definition ReconcileFailed : ReconcileStatus := "FAILED".

(** [DeployRequest] *)
Record DeployRequest := {
  adr_Target : Target;
  adr_ArtifactDigest : string;
  adr_IdempotencyKey : string;
}.

#[export] Instance eta_DeployRequest : Eta DeployRequest := λ r,
  {| adr_Target := adr_Target r; adr_ArtifactDigest := adr_ArtifactDigest r;
     adr_IdempotencyKey := adr_IdempotencyKey r |}.

#[export] Instance DeployRequest_eq_dec : EqDecision DeployRequest.
Proof. solve_decision. Defined.

(** [RollbackRequest] *)
Record RollbackRequest := {
  arb_Target : Target;
  arb_OriginalDeployment : Deployment;
  arb_IdempotencyKey : string;
}.

#[export] Instance eta_RollbackRequest : Eta RollbackRequest := λ r,
  {| arb_Target := arb_Target r; arb_OriginalDeployment := arb_OriginalDeployment r;
     arb_IdempotencyKey := arb_IdempotencyKey r |}.

#[export] Instance RollbackRequest_eq_dec : EqDecision RollbackRequest.
Proof. solve_decision. Defined.

(** [ReconcileRequest] *)
Record ReconcileRequest := {
  arq_IdempotencyKey : string;
  arq_DispatchedAt : time;
}.

#[export] Instance eta_ReconcileRequest : Eta ReconcileRequest := λ r,
  {| arq_IdempotencyKey := arq_IdempotencyKey r; arq_DispatchedAt := arq_DispatchedAt r |}.

#[export] Instance ReconcileRequest_eq_dec : EqDecision ReconcileRequest.
Proof. solve_decision. Defined.

(** [ReconcileResult] *)
Record ReconcileResult := {
  arr_Status : ReconcileStatus;
  arr_Deployment : Deployment;
}.

#[export] Instance eta_ReconcileResult : Eta ReconcileResult := λ r,
  {| arr_Status := arr_Status r; arr_Deployment := arr_Deployment r |}.

#[export] Instance ReconcileResult_eq_dec : EqDecision ReconcileResult.
Proof. solve_decision. Defined.

(** The interface [DeployAdapter], over the outside world. *)
Record DeployAdapter (X : Type) := {
  da_Deploy : DeployRequest → credentials.Credential → X → X * result error Deployment;
  da_Rollback : RollbackRequest → credentials.Credential → X → X * result error Deployment;
  da_Reconcile : ReconcileRequest → credentials.Credential → X → X * result error ReconcileResult;
}.
#[global] Arguments da_Deploy {X}.
#[global] Arguments da_Rollback {X}.
#[global] Arguments da_Reconcile {X}.

(** [validateDigest] *)
Definition validateDigest (value : string) : result error unit :=
  let bad := ErrorNew "artifact digest must be sha256" in
  fail_if (negb (HasPrefix value "sha256:")
           || negb (bool_decide (String.length value = (String.length "sha256:" + 64)%nat))) bad;;
  fail_if (negb (hex_decodable (TrimPrefix value "sha256:"))) bad.

Definition blank (s : string) : bool := bool_decide (TrimSpace s = "").

(** [ValidateDeployRequest] *)
Definition ValidateDeployRequest (request : DeployRequest) : result error unit :=
  fail_if (blank (at_Service (adr_Target request)) || blank (at_Environment (adr_Target request))
           || blank (adr_IdempotencyKey request))
    (ErrorNew "target service, environment, and idempotency key are required");;
  validateDigest (adr_ArtifactDigest request).

(** [ValidateRollbackRequest] *)
Definition ValidateRollbackRequest (request : RollbackRequest) : result error unit :=
  fail_if (blank (at_Service (arb_Target request)) || blank (at_Environment (arb_Target request))
           || blank (arb_IdempotencyKey request)
           || blank (ad_ExternalExecutionID (arb_OriginalDeployment request)))
    (ErrorNew "target, original external execution ID, and idempotency key are required").

(** [CorrelationID] *)
Definition CorrelationID (idempotencyKey : string) : string := sha256_ref idempotencyKey.

(** ** adapter/errors.go: the struct is [AdapterError] of GoStd *)

Abbreviation ErrorClass := string (only parsing).
Definition ErrorRetryable : ErrorClass := "RETRYABLE".
Definition ErrorTerminal : ErrorClass := "TERMINAL".
Definition ErrorUnknown : ErrorClass := "UNKNOWN_EXTERNAL_STATE".

(** [IsClass]: the first adapter error of the chain has the class. *)
Fixpoint IsClass (err : error) (class : ErrorClass) : bool :=
  match err with
  | AdapterError c _ _ _ => bool_decide (c = class)
  | Sentinel _ _ | ErrorNew _ | Errorf _ None | ReasonError _ _ _ None | Rejection _ None => false
  | Errorf _ (Some w) | ReasonError _ _ _ (Some w) | Rejection _ (Some w) | ClassifiedError _ _ w => IsClass w class
  end.

(** ** adapter/conformance.go *)

Record ConformanceReport := {
  crep_Deployment : Deployment;
  crep_Rollback : Deployment;
  crep_Reconciled : ReconcileResult;
}.

(** [RunConformance]; [now1] and [now2] are the two readings of the clock.  A call that fails
    returns the zero result besides its error. *)
Definition RunConformance {X} (a : option (DeployAdapter X)) (credential : credentials.Credential)
    (deploy : DeployRequest) (now1 now2 : time) (x : X) : X * result error ConformanceReport :=
  match a with
  | None => (x, Err (ErrorNew "adapter and valid staging credential are required"))
  | Some a =>
      if negb (credentials.ValidAt credential now1)
      then (x, Err (ErrorNew "adapter and valid staging credential are required"))
      else match ValidateDeployRequest deploy with
      | Err err => (x, Err err)
      | Ok _ =>
      let '(x, r) := da_Deploy a deploy credential x in
      match r with
      | Err err => (x, Err (Errorf ("conformance deploy: " +:+ Error err) (Some err)))
      | Ok deployed =>
      if bool_decide (ad_ExternalExecutionID deployed = "")
      then (x, Err (ErrorNew "deploy adapter returned no external execution ID"))
      else
      let '(x, r) := da_Reconcile a {| arq_IdempotencyKey := adr_IdempotencyKey deploy;
                                       arq_DispatchedAt := Add now2 (- Minute) |} credential x in
      match r with
      | Err err => (x, Err (Errorf ("conformance reconcile: status= err=" +:+ Error err) (Some err)))
      | Ok reconciled =>
      if bool_decide (arr_Status reconciled = ReconcileNotFound)
      then (x, Err (Errorf ("conformance reconcile: status=" +:+ arr_Status reconciled +:+ " err=%!w(<nil>)") None))
      else
      let '(x, r) := da_Rollback a {| arb_Target := adr_Target deploy; arb_OriginalDeployment := deployed;
                                      arb_IdempotencyKey := adr_IdempotencyKey deploy +:+ "/rollback" |} credential x in
      match r with
      | Err err => (x, Err (Errorf ("conformance rollback: " +:+ Error err) (Some err)))
      | Ok rolledBack =>
      if bool_decide (ad_ExternalExecutionID rolledBack = "")
      then (x, Err (ErrorNew "rollback adapter returned no external execution ID"))
      else (x, Ok {| crep_Deployment := deployed; crep_Rollback := rolledBack; crep_Reconciled := reconciled |})
      end end end end
  end.
End adapter.
