(* ===== verification/GitHub.v ===== *)
(** * The GitHub Actions adapter (src/adapters/githubactions)

    A typed deployment is a dispatch of a workflow file that the runner's configuration names.
    The adapter keeps no state; what it does is the requests it sends (Http.v).  Whether a
    dispatch took place is decided by the class of its error, and [Reconcile] looks for the
    run with the title that carries the correlation id.

    Not modelled: cancelling through the context. *)
From S2P Require Import Prelude GoStd Sha256 Json Rfc3339 JsonDecode JsonAny Http Adapter.
From Stdlib Require Import Ascii.
Import adapter.
Open Scope Z_scope.

Definition AdapterName : string := "github-actions".
Definition AdapterVersion : string := "github-actions/v1".
Definition apiBaseURL : string := "https://api.github.com".
Definition apiVersion : string := "2026-03-10".
Definition correlationRunNamePrefix : string := "themisy:".

(** ** Configuration (config.go) *)

(** [^[A-Za-z0-9_.-]+$] and [^[A-Za-z0-9_./-]+$] *)
Definition word_char (c : ascii) : bool :=
  is_digit c || byte_in 65 90 c || byte_in 97 122 c || bool_decide (c ∈ ["_"; "."; "-"]%char).
Definition nonempty_of (p : ascii → bool) (s : string) : bool := negb (bool_decide (s = "")) && string_forall p s.
Definition repositoryPart (s : string) : bool := nonempty_of word_char s.
Definition gitRef (s : string) : bool := nonempty_of (λ c, word_char c || Ascii.eqb c "/") s.

Definition HasSuffix (s suffix : string) : bool :=
  bool_decide (drop_bytes (String.length s - String.length suffix) s = suffix).

(** [^[A-Za-z0-9_.-]+\.ya?ml$]: a suffix after at least one character. *)
Definition workflowFile (s : string) : bool :=
  string_forall word_char s &&
  ((HasSuffix s ".yml" && (4 <? String.length s)%nat) || (HasSuffix s ".yaml" && (5 <? String.length s)%nat)).

(** [strings.Contains] *)
Fixpoint Contains (s sub : string) : bool :=
  HasPrefix s sub || match s with EmptyString => false | String _ r => Contains r sub end.

(** [TargetKey] *)
Record TargetKey := {
  tk_Service : string;
  tk_Environment : string;
}.

#[export] Instance TargetKey_eq_dec : EqDecision TargetKey.
Proof. solve_decision. Defined.

#[export] Instance TargetKey_countable : Countable TargetKey.
Proof.
  refine (inj_countable' (λ k, (tk_Service k, tk_Environment k)) (λ p, {| tk_Service := p.1; tk_Environment := p.2 |}) _).
  by intros [].
Defined.

(** [Target] *)
Record GitHubTarget := {
  gt_Owner : string;
  gt_Repository : string;
  gt_DeployWorkflow : string;
  gt_RollbackWorkflow : string;
  gt_Ref : string;
}.

(** [Config] *)
Abbreviation Config := (gmap TargetKey GitHubTarget).

Definition target_name (key : TargetKey) : string := tk_Service key +:+ "/" +:+ tk_Environment key.

(** The body of the loop of [Config.Validate]. *)
Definition validate_target (key : TargetKey) (target : GitHubTarget) : result error unit :=
  fail_if (blank (tk_Service key) || blank (tk_Environment key))
    (ErrorNew "GitHub Actions target service and environment are required");;
  fail_if (negb (repositoryPart (gt_Owner target)) || negb (repositoryPart (gt_Repository target)))
    (Errorf ("invalid GitHub repository for " +:+ target_name key) None);;
  fail_if (negb (workflowFile (gt_DeployWorkflow target)) || negb (workflowFile (gt_RollbackWorkflow target)))
    (Errorf ("workflow must be a .yml or .yaml basename for " +:+ target_name key) None);;
  fail_if (negb (gitRef (gt_Ref target)) || Contains (gt_Ref target) ".." || HasPrefix (gt_Ref target) "/")
    (Errorf ("invalid GitHub ref for " +:+ target_name key) None).

Fixpoint validate_targets (l : list (TargetKey * GitHubTarget)) : result error unit :=
  match l with
  | [] => Ok tt
  | (key, target) :: l => validate_target key target;; validate_targets l
  end.

(** [Config.Validate], with the targets in the order in which the map is ranged over. *)
Definition Config_Validate (config : Config) (order : list (TargetKey * GitHubTarget)) : result error unit :=
  fail_if (bool_decide (size config = 0%nat)) (ErrorNew "at least one GitHub Actions target is required");;
  validate_targets order.

(** ** Requests *)

(** [authorize] *)
Definition github_authorize (credential : credentials.Credential) : list (string * string) :=
  [("Accept", "application/vnd.github+json"); ("Authorization", "Bearer " +:+ credentials.Value credential "token");
   ("Content-Type", "application/json"); ("X-GitHub-Api-Version", apiVersion)].

Definition workflow_url (target : GitHubTarget) (workflow : string) : string :=
  apiBaseURL +:+ "/repos/" +:+ PathEscape (gt_Owner target) +:+ "/" +:+ PathEscape (gt_Repository target) +:+
  "/actions/workflows/" +:+ PathEscape workflow.

(** The request of [dispatch]; [inputs] in the order of their keys. *)
Definition dispatch_request (target : GitHubTarget) (workflow : string) (inputs : list (string * string))
    (credential : credentials.Credential) : HTTPRequest :=
  {| hq_Method := "POST"; hq_URL := workflow_url target workflow +:+ "/dispatches"; hq_Header := github_authorize credential;
     hq_Body := encode (JObject [("ref", JString (gt_Ref target)); ("inputs", JObject ((λ kv, (kv.1, JString kv.2)) <$> inputs))]) |}.

(** The request of [findRun]. *)
Definition runs_request (target : GitHubTarget) (workflow : string) (dispatchedAt : time)
    (credential : credentials.Credential) : HTTPRequest :=
  {| hq_Method := "GET";
     hq_URL := workflow_url target workflow +:+ "/runs?" +:+
       encode_query [("created", ">=" +:+ Format_seconds (Add dispatchedAt (- Minute)));
                     ("event", "workflow_dispatch"); ("per_page", "100")];
     hq_Header := github_authorize credential; hq_Body := "" |}.

(** ** Responses *)

Definition dispatched_run : into Z := into_struct false [("workflow_run_id", into_int64)].

(** A run as GitHub lists it. *)
Record workflow_run := {
  wr_ID : Z;
  wr_DisplayTitle : string;
  wr_Status : string;
  wr_Conclusion : string;
  wr_CreatedAt : time;
  wr_UpdatedAt : time;
}.

#[export] Instance eta_workflow_run : Eta workflow_run := λ r,
  {| wr_ID := wr_ID r; wr_DisplayTitle := wr_DisplayTitle r; wr_Status := wr_Status r; wr_Conclusion := wr_Conclusion r;
     wr_CreatedAt := wr_CreatedAt r; wr_UpdatedAt := wr_UpdatedAt r |}.

Definition zero_workflow_run : workflow_run :=
  {| wr_ID := 0; wr_DisplayTitle := ""; wr_Status := ""; wr_Conclusion := ""; wr_CreatedAt := 0; wr_UpdatedAt := 0 |}.

Definition workflow_run_members : fields_of workflow_run :=
  member "id" into_int64 wr_ID ++ member "display_title" into_string wr_DisplayTitle ++ member "status" into_string wr_Status ++
  member "conclusion" into_string wr_Conclusion ++ member "created_at" into_time wr_CreatedAt ++
  member "updated_at" into_time wr_UpdatedAt.

Definition listed_runs : into (list workflow_run) :=
  into_struct false [("workflow_runs", into_slice (into_struct false workflow_run_members) zero_workflow_run)].

(** [mapRunStatus] *)
Definition mapRunStatus (status conclusion : string) : ReconcileStatus :=
  if negb (bool_decide (status = "completed")) then ReconcilePending
  else if bool_decide (conclusion = "success") then ReconcileSucceeded else ReconcileFailed.

(** [validRunTitle] *)
Definition validRunTitle (title correlation : string) : bool :=
  bool_decide (TrimSpace title = correlationRunNamePrefix +:+ correlation).

Definition matches_run (correlation : string) (run : workflow_run) : bool :=
  (0 <? wr_ID run) && validRunTitle (wr_DisplayTitle run) correlation.

Definition run_result (correlation : string) (run : workflow_run) : ReconcileResult :=
  {| arr_Status := mapRunStatus (wr_Status run) (wr_Conclusion run);
     arr_Deployment := {| ad_ExternalExecutionID := itoa (wr_ID run); ad_CorrelationID := correlation;
                          ad_StartedAt := wr_CreatedAt run; ad_FinishedAt := wr_UpdatedAt run |} |}.

Definition zero_Deployment : Deployment :=
  {| ad_ExternalExecutionID := ""; ad_CorrelationID := ""; ad_StartedAt := 0; ad_FinishedAt := 0 |}.

(** ** The adapter *)

Section github.
Context {X : Type} (now_at : nat → time) (client : HTTPDoer X) (config : Config).
Abbreviation W := (HTTPWorld X).

Definition returns {A} (a : A) : ST W (result error A) := mret (Ok a).
Definition fails {A} (class operation correlation : string) (err : error) : ST W (result error A) :=
  mret (Err (AdapterError class operation correlation err)).

Definition http_error (status : Z) : error := Errorf ("GitHub returned HTTP " +:+ itoa status) None.

(** [credential.ValidAt(a.now()) && len(credential.Value("token")) != 0] *)
Definition usable (credential : credentials.Credential) (now : time) : bool :=
  credentials.ValidAt credential now && negb (bool_decide (credentials.Value credential "token" = "")).

(** What [dispatch] makes of the answer. *)
Definition dispatch_outcome (correlation operation : string) (started : time) (r : result error HTTPResponse) : result error Deployment :=
  let failed class err := Err (AdapterError class (operation +:+ ".dispatch") correlation err) in
  match r with
  | Err _ => failed ErrorUnknown (ErrorNew "GitHub dispatch response unavailable")
  | Ok response =>
      if negb (hp_StatusCode response =? 200)
      then failed (if unavailable (hp_StatusCode response) then ErrorUnknown else ErrorTerminal) (http_error (hp_StatusCode response))
      else match decode_front dispatched_run 0 (2 ^ 20) (hp_Body response) with
           | Some id =>
               if id <=? 0 then failed ErrorUnknown (ErrorNew "GitHub returned no workflow run ID")
               else Ok {| ad_ExternalExecutionID := itoa id; ad_CorrelationID := correlation; ad_StartedAt := started; ad_FinishedAt := 0 |}
           | None => failed ErrorUnknown (ErrorNew "GitHub returned no workflow run ID")
           end
  end.

(** [Adapter.dispatch] *)
Definition github_dispatch (target : GitHubTarget) (workflow : string) (inputs : list (string * string)) (correlation : string)
    (credential : credentials.Credential) (operation : string) : ST W (result error Deployment) :=
  now ← http_now now_at;
  if negb (usable credential now)
  then fails ErrorTerminal (operation +:+ ".credential") correlation (ErrorNew "valid GitHub credential required")
  else
    started ← http_now now_at;
    response ← http_Do client (dispatch_request target workflow inputs credential);
    mret (dispatch_outcome correlation operation started response).

Definition key_of (target : Target) : TargetKey :=
  {| tk_Service := at_Service target; tk_Environment := at_Environment target |}.

Definition deploy_inputs (request : DeployRequest) : list (string * string) :=
  [("themisy_artifact_digest", adr_ArtifactDigest request); ("themisy_environment", at_Environment (adr_Target request));
   ("themisy_idempotency_key", CorrelationID (adr_IdempotencyKey request)); ("themisy_service", at_Service (adr_Target request))].

(** [Adapter.Deploy] *)
Definition github_Deploy (request : DeployRequest) (credential : credentials.Credential) : ST W (result error Deployment) :=
  match ValidateDeployRequest request with
  | Err err => fails ErrorTerminal "deploy.validate" "" err
  | Ok _ =>
      match config !! key_of (adr_Target request) with
      | None => fails ErrorTerminal "deploy.target" "" (ErrorNew "target is not allow-listed")
      | Some target =>
          github_dispatch target (gt_DeployWorkflow target) (deploy_inputs request)
            (CorrelationID (adr_IdempotencyKey request)) credential "deploy"
      end
  end.

Definition rollback_inputs (request : RollbackRequest) : list (string * string) :=
  [("themisy_environment", at_Environment (arb_Target request));
   ("themisy_idempotency_key", CorrelationID (arb_IdempotencyKey request));
   ("themisy_original_execution_id", ad_ExternalExecutionID (arb_OriginalDeployment request));
   ("themisy_service", at_Service (arb_Target request))].

(** [Adapter.Rollback] *)
Definition github_Rollback (request : RollbackRequest) (credential : credentials.Credential) : ST W (result error Deployment) :=
  match ValidateRollbackRequest request with
  | Err err => fails ErrorTerminal "rollback.validate" "" err
  | Ok _ =>
      match config !! key_of (arb_Target request) with
      | None => fails ErrorTerminal "rollback.target" "" (ErrorNew "target is not allow-listed")
      | Some target =>
          github_dispatch target (gt_RollbackWorkflow target) (rollback_inputs request)
            (CorrelationID (arb_IdempotencyKey request)) credential "rollback"
      end
  end.

(** What [findRun] makes of the answer. *)
Definition find_outcome (correlation : string) (r : result error HTTPResponse) : result error (option ReconcileResult) :=
  let failed class operation err := Err (AdapterError class operation correlation err) in
  match r with
  | Err _ => failed ErrorRetryable "reconcile.list" (ErrorNew "GitHub workflow runs unavailable")
  | Ok response =>
      if negb (hp_StatusCode response =? 200)
      then failed (if unavailable (hp_StatusCode response) then ErrorRetryable else ErrorTerminal) "reconcile.list"
             (http_error (hp_StatusCode response))
      else match decode_front listed_runs [] (2 ^ 22) (hp_Body response) with
           | None => failed ErrorRetryable "reconcile.decode" (ErrorNew "invalid GitHub workflow run response")
           | Some runs => Ok (run_result correlation ∘ snd <$> list_find (λ run, matches_run correlation run = true) runs)
           end
  end.

(** [Adapter.findRun] *)
Definition findRun (target : GitHubTarget) (workflow : string) (dispatchedAt : time) (correlation : string)
    (credential : credentials.Credential) : ST W (result error (option ReconcileResult)) :=
  response ← http_Do client (runs_request target workflow dispatchedAt credential);
  mret (find_outcome correlation response).

Definition key_less (a b : TargetKey) : bool :=
  if negb (bool_decide (tk_Service a = tk_Service b)) then String.ltb (tk_Service a) (tk_Service b)
  else String.ltb (tk_Environment a) (tk_Environment b).

(** The workflows of the targets, in the order of the loops of [Reconcile]. *)
Definition target_workflows (key : TargetKey) : list (GitHubTarget * string) :=
  match config !! key with
  | Some target => [(target, gt_DeployWorkflow target); (target, gt_RollbackWorkflow target)]
  | None => []
  end.

Definition workflow_identity (tw : GitHubTarget * string) : string :=
  gt_Owner tw.1 +:+ NUL +:+ gt_Repository tw.1 +:+ NUL +:+ tw.2.

Fixpoint github_reconcile_loop (l : list (GitHubTarget * string)) (seen : list string) (dispatchedAt : time) (correlation : string)
    (credential : credentials.Credential) : ST W (result error ReconcileResult) :=
  match l with
  | [] => returns {| arr_Status := ReconcileNotFound; arr_Deployment := zero_Deployment |}
  | tw :: l =>
      if bool_decide (workflow_identity tw ∈ seen) then github_reconcile_loop l seen dispatchedAt correlation credential
      else
        found ← findRun tw.1 tw.2 dispatchedAt correlation credential;
        match found with
        | Err err => mret (Err err)
        | Ok (Some result) => returns result
        | Ok None => github_reconcile_loop l (workflow_identity tw :: seen) dispatchedAt correlation credential
        end
  end.

(** [Adapter.Reconcile], with the keys in the order in which the map is ranged over. *)
Definition github_Reconcile (order : list TargetKey) (request : ReconcileRequest) (credential : credentials.Credential) :
    ST W (result error ReconcileResult) :=
  if bool_decide (arq_IdempotencyKey request = "") || IsZero (arq_DispatchedAt request)
  then fails ErrorTerminal "reconcile.validate" "" (ErrorNew "idempotency key and dispatch time are required")
  else
    now ← http_now now_at;
    if negb (usable credential now)
    then fails ErrorTerminal "reconcile.credential" "" (ErrorNew "valid GitHub credential required")
    else github_reconcile_loop (sort_Slice key_less order ≫= target_workflows) [] (arq_DispatchedAt request)
           (CorrelationID (arq_IdempotencyKey request)) credential.

(** The adapter as the SDK's interface. *)
Definition github_adapter (order : list TargetKey) : DeployAdapter W :=
  {| da_Deploy := github_Deploy; da_Rollback := github_Rollback; da_Reconcile := github_Reconcile order |}.
End github.

(** ** The configuration *)

(** A workflow file: a base name and one of the two extensions. *)
Definition workflow_name (s : string) : Prop :=
  string_forall word_char s = true ∧ ∃ base extension, s = base +:+ extension ∧ base ≠ "" ∧ extension ∈ [".yml"; ".yaml"].

(** A target that names one repository, two workflow files and a ref, all of them plain. *)
Record valid_target (key : TargetKey) (target : GitHubTarget) : Prop := {
  vt_service : blank (tk_Service key) = false;
  vt_environment : blank (tk_Environment key) = false;
  vt_owner : gt_Owner target ≠ "" ∧ string_forall word_char (gt_Owner target) = true;
  vt_repository : gt_Repository target ≠ "" ∧ string_forall word_char (gt_Repository target) = true;
  vt_deploy : workflow_name (gt_DeployWorkflow target);
  vt_rollback : workflow_name (gt_RollbackWorkflow target);
  vt_ref : gt_Ref target ≠ "" ∧ string_forall (λ c, word_char c || Ascii.eqb c "/") (gt_Ref target) = true ∧
    Contains (gt_Ref target) ".." = false ∧ HasPrefix (gt_Ref target) "/" = false;
}.

Lemma fail_if_Ok {A} (b : bool) err (k : result error A) x : (fail_if b err;; k) = Ok x → b = false ∧ k = Ok x.
Proof. by destruct b. Qed.

Lemma fail_if_iff {A} (b : bool) err (k : result error A) x : (fail_if b err;; k) = Ok x ↔ b = false ∧ k = Ok x.
Proof. split; [apply fail_if_Ok|]. by intros [-> ->]. Qed.

Lemma nonempty_of_iff p s : nonempty_of p s = true ↔ s ≠ "" ∧ string_forall p s = true.
Proof. unfold nonempty_of. by rewrite andb_true_iff, negb_true_iff, bool_decide_eq_false. Qed.

Lemma split_bytes n s : s = take_bytes n s +:+ drop_bytes n s.
Proof. revert s. induction n as [|n IH]; intros [|c s]; try done. cbn [take_bytes drop_bytes]. by rewrite app_cons, <- IH. Qed.

(** A suffix of a longer string. *)
Lemma HasSuffix_iff s suffix :
  HasSuffix s suffix && (String.length suffix <? String.length s)%nat = true ↔ ∃ base, s = base +:+ suffix ∧ base ≠ "".
Proof.
  unfold HasSuffix. rewrite andb_true_iff, bool_decide_eq_true, Nat.ltb_lt. split.
  - intros [Hs Hl]. exists (take_bytes (String.length s - String.length suffix) s). split.
    + rewrite <- Hs at 2. apply split_bytes.
    + destruct s as [|c s]; [simpl in Hl; lia|].
      destruct (String.length (String c s) - String.length suffix)%nat eqn:Hn; [lia|done].
  - intros (base & -> & Hb). rewrite length_app_string, Nat.add_sub. split; [apply drop_bytes_app|].
    destruct base; [done|]. simpl. lia.
Qed.

Lemma workflowFile_iff s : workflowFile s = true ↔ workflow_name s.
Proof.
  unfold workflowFile, workflow_name. rewrite andb_true_iff, orb_true_iff.
  rewrite (HasSuffix_iff s ".yml"), (HasSuffix_iff s ".yaml"). split.
  - intros [Hw [(base & -> & ?)|(base & -> & ?)]]; (split; [done|]); [exists base, ".yml"|exists base, ".yaml"]; set_solver.
  - intros [Hw (base & extension & -> & Hb & He)]. split; [done|]. set_unfold in He. destruct_or! He; subst; eauto.
Qed.

Lemma fail_if_unit (b : bool) err : fail_if b err = Ok tt ↔ b = false.
Proof. by destruct b. Qed.

(** The check of [Config.Validate] is exact. *)
Lemma validate_target_iff key target : validate_target key target = Ok tt ↔ valid_target key target.
Proof.
  unfold validate_target. rewrite !fail_if_iff, fail_if_unit, !orb_false_iff, !negb_false_iff.
  unfold repositoryPart, gitRef. rewrite !nonempty_of_iff, !workflowFile_iff. split.
  - intros ([??] & [??] & [??] & [[[??]?]?]). done.
  - intros [???????]. naive_solver.
Qed.

Lemma validate_targets_spec l key target : validate_targets l = Ok tt → (key, target) ∈ l → valid_target key target.
Proof.
  induction l as [|[k t] l IH]; [by intros _ ?%elem_of_nil|]. simpl. intros H Hin.
  destruct (validate_target k t) as [[]|] eqn:Ht; [|done]. apply elem_of_cons in Hin as [[= -> ->]|Hin]; [by apply validate_target_iff|].
  by apply IH.
Qed.

Lemma Config_Validate_spec (config : Config) order key target :
  order ≡ₚ map_to_list config → Config_Validate config order = Ok tt → config !! key = Some target → valid_target key target.
Proof.
  intros Hp [_ Hv]%fail_if_Ok Ht. apply (validate_targets_spec order); [done|]. rewrite Hp. by apply elem_of_map_to_list.
Qed.

Lemma word_char_unreserved c : word_char c = true → unreserved c = true.
Proof.
  unfold word_char, unreserved. intros H. apply orb_true_iff in H as [->|H%bool_decide_eq_true]; [done|].
  rewrite bool_decide_true by set_solver. apply orb_true_r.
Qed.

Lemma PathEscape_word s : string_forall word_char s = true → PathEscape s = s.
Proof. intros Hs. by apply PathEscape_id, (string_forall_impl word_char), Hs; apply word_char_unreserved. Qed.

(** The URL of a workflow, as it is configured. *)
Definition plain_url (target : GitHubTarget) (workflow : string) : string :=
  "https://api.github.com/repos/" +:+ gt_Owner target +:+ "/" +:+ gt_Repository target +:+ "/actions/workflows/" +:+ workflow.

Lemma workflow_url_plain key target workflow :
  valid_target key target → workflow ∈ [gt_DeployWorkflow target; gt_RollbackWorkflow target] →
  workflow_url target workflow = plain_url target workflow ∧ string_forall word_char workflow = true.
Proof.
  intros [_ _ [_ Ho] [_ Hr] [Hd _] [Hb _] _] Hw.
  assert (Hword : string_forall word_char workflow = true) by (apply elem_of_cons in Hw as [->|[->|?%elem_of_nil]%elem_of_cons]; done).
  split; [|done]. unfold workflow_url, plain_url. by rewrite !PathEscape_word.
Qed.

(** ** Writes *)

Inductive github_write :=
| GDeploy (request : DeployRequest)
| GRollback (request : RollbackRequest).

Definition gw_key (g : github_write) : TargetKey :=
  match g with GDeploy r => key_of (adr_Target r) | GRollback r => key_of (arb_Target r) end.
Definition gw_workflow (g : github_write) (target : GitHubTarget) : string :=
  match g with GDeploy _ => gt_DeployWorkflow target | GRollback _ => gt_RollbackWorkflow target end.
Definition gw_inputs (g : github_write) : list (string * string) :=
  match g with GDeploy r => deploy_inputs r | GRollback r => rollback_inputs r end.
Definition gw_correlation (g : github_write) : string :=
  CorrelationID match g with GDeploy r => adr_IdempotencyKey r | GRollback r => arb_IdempotencyKey r end.
Definition gw_valid (g : github_write) : result error unit :=
  match g with GDeploy r => ValidateDeployRequest r | GRollback r => ValidateRollbackRequest r end.

(** GitHub has refused the dispatch: it answered with a status that is neither 200 nor a sign of trouble. *)
Definition answered_no (r : result error HTTPResponse) : Prop :=
  ∃ response, r = Ok response ∧ hp_StatusCode response ≠ 200 ∧ unavailable (hp_StatusCode response) = false.

Section properties.
Context {X : Type} (now_at : nat → time) (client : HTTPDoer X) (config : Config).
Abbreviation W := (HTTPWorld X).

Definition github_run (g : github_write) (credential : credentials.Credential) : ST W (result error Deployment) :=
  match g with
  | GDeploy r => github_Deploy now_at client config r credential
  | GRollback r => github_Rollback now_at client config r credential
  end.

(** Nothing was sent, and the error says so. *)
Definition not_sent (w w' : W) (r : result error Deployment) : Prop :=
  hw_net w' = hw_net w ∧ hw_sent w' = hw_sent w ∧ ∃ operation correlation err, r = Err (AdapterError ErrorTerminal operation correlation err).

(** One request was sent; what came back decides the outcome. *)
Definition sent_once (correlation : string) (request : HTTPRequest) (w w' : W) (r : result error Deployment) : Prop :=
  hw_sent w' = hw_sent w ++ [request] ∧ ∃ response, client request (hw_net w) = (hw_net w', response) ∧
  match r with
  | Ok d => (∃ answer id, response = Ok answer ∧ hp_StatusCode answer = 200 ∧
               decode_front dispatched_run 0 (2 ^ 20) (hp_Body answer) = Some id ∧ 0 < id ∧ ad_ExternalExecutionID d = itoa id) ∧
            ad_CorrelationID d = correlation
  | Err err => (IsClass err ErrorTerminal = true ∧ answered_no response) ∨ (IsClass err ErrorUnknown = true ∧ ¬ answered_no response)
  end.

Lemma dispatch_outcome_spec correlation operation started response :
  match dispatch_outcome correlation operation started response with
  | Ok d => (∃ answer id, response = Ok answer ∧ hp_StatusCode answer = 200 ∧
               decode_front dispatched_run 0 (2 ^ 20) (hp_Body answer) = Some id ∧ 0 < id ∧ ad_ExternalExecutionID d = itoa id) ∧
            ad_CorrelationID d = correlation
  | Err err => (IsClass err ErrorTerminal = true ∧ answered_no response) ∨ (IsClass err ErrorUnknown = true ∧ ¬ answered_no response)
  end.
Proof.
  unfold dispatch_outcome, answered_no. destruct response as [answer|err].
  - destruct (hp_StatusCode answer =? 200) eqn:H200; simpl.
    + apply Z.eqb_eq in H200. destruct (decode_front _ _ _ _) as [id|] eqn:Hd.
      * destruct (id <=? 0) eqn:Hid; simpl; [right; split; [done|naive_solver]|]. apply Z.leb_gt in Hid. naive_solver.
      * right. split; [done|]. naive_solver.
    + apply Z.eqb_neq in H200. destruct (unavailable _) eqn:Hu; [right|left]; (split; [done|]); naive_solver congruence.
  - right. split; [done|]. naive_solver.
Qed.

Lemma github_dispatch_spec target workflow inputs correlation credential operation (w w' : W) r :
  github_dispatch now_at client target workflow inputs correlation credential operation w = (w', r) →
  not_sent w w' r ∨ sent_once correlation (dispatch_request target workflow inputs credential) w w' r.
Proof.
  unfold github_dispatch, mbind, st_bind, http_now, http_Do. simpl. destruct (usable _ _); simpl; intros H.
  - right. destruct (client _ (hw_net w)) as [x response] eqn:Hc. injection H as <- <-. split; [done|]. exists response.
    split; [done|]. apply dispatch_outcome_spec.
  - left. injection H as <- <-. split; [done|]. split; [done|]. by do 3 eexists.
Qed.

Lemma github_run_spec g credential (w w' : W) r :
  github_run g credential w = (w', r) →
  not_sent w w' r ∨
  ∃ target, gw_valid g = Ok tt ∧ config !! gw_key g = Some target ∧
    sent_once (gw_correlation g) (dispatch_request target (gw_workflow g target) (gw_inputs g) credential) w w' r.
Proof.
  assert (Hstop : ∀ operation correlation err, fails ErrorTerminal operation correlation err w = (w', r) → not_sent w w' r).
  { intros operation correlation err [= <- <-]. split; [done|]. split; [done|]. by do 3 eexists. }
  destruct g as [request|request]; simpl; unfold github_Deploy, github_Rollback;
    [destruct (ValidateDeployRequest request) as [[]|] eqn:Hv|destruct (ValidateRollbackRequest request) as [[]|] eqn:Hv];
    try (by left; eapply Hstop);
    destruct (config !! _) as [target|] eqn:Ht; try (by left; eapply Hstop);
    intros [?|?]%github_dispatch_spec; try (by left); right; by exists target.
Qed.

End properties.

(** ** Reconciliation *)

(** The workflows that the loop of [Reconcile] asks for: each identity once. *)
Fixpoint distinct_workflows (l : list (GitHubTarget * string)) (seen : list string) : list (GitHubTarget * string) :=
  match l with
  | [] => []
  | tw :: l =>
      if bool_decide (workflow_identity tw ∈ seen) then distinct_workflows l seen
      else tw :: distinct_workflows l (workflow_identity tw :: seen)
  end.

Lemma distinct_workflows_cover l seen tw :
  tw ∈ l → workflow_identity tw ∈ seen ∨ ∃ tw', tw' ∈ distinct_workflows l seen ∧ workflow_identity tw' = workflow_identity tw.
Proof.
  revert seen. induction l as [|x l IH]; intros seen; [by intros ?%elem_of_nil|]. simpl.
  intros [->|Hin]%elem_of_cons; case_bool_decide as Hx.
  - by left.
  - right. exists x. split; [apply elem_of_cons; by left|done].
  - by apply IH.
  - destruct (IH (workflow_identity x :: seen) Hin) as [[Heq|?]%elem_of_cons|(tw' & ? & ?)].
    + right. exists x. split; [apply elem_of_cons; by left|done].
    + by left.
    + right. exists tw'. split; [apply elem_of_cons; by right|done].
Qed.

Lemma distinct_workflows_NoDup l seen :
  NoDup (workflow_identity <$> distinct_workflows l seen) ∧ ∀ tw, tw ∈ distinct_workflows l seen → workflow_identity tw ∉ seen.
Proof.
  revert seen. induction l as [|x l IH]; intros seen; simpl; [split; [constructor|by intros ? ?%elem_of_nil]|].
  case_bool_decide as Hx; [apply IH|]. destruct (IH (workflow_identity x :: seen)) as [Hnd Hnot]. split.
  - rewrite fmap_cons. constructor; [|done]. intros (tw & Heq & Hin)%list_elem_of_fmap. apply (Hnot tw Hin). rewrite <- Heq.
    apply elem_of_cons. by left.
  - intros tw [->|Hin]%elem_of_cons; [done|]. intros Hseen. apply (Hnot tw Hin). apply elem_of_cons. by right.
Qed.

Lemma distinct_workflows_sub l seen tw : tw ∈ distinct_workflows l seen → tw ∈ l.
Proof.
  revert seen. induction l as [|x l IH]; intros seen; [done|]. simpl. case_bool_decide.
  - intros ?%IH. apply elem_of_cons. by right.
  - intros [->|?%IH]%elem_of_cons; apply elem_of_cons; auto.
Qed.

(** The answers to a sequence of requests. *)
Fixpoint exchange {X} (client : HTTPDoer X) (requests : list HTTPRequest) (x : X) : X * list (result error HTTPResponse) :=
  match requests with
  | [] => (x, [])
  | request :: requests =>
      let '(x, response) := client request x in
      let '(x, responses) := exchange client requests x in (x, response :: responses)
  end.

(** How [Reconcile] ends, given the answers: the first one that is an error or has the run decides. *)
Fixpoint decided (correlation : string) (responses : list (result error HTTPResponse)) : result error (option ReconcileResult) :=
  match responses with
  | [] => Ok None
  | response :: responses =>
      match find_outcome correlation response with
      | Ok None => decided correlation responses
      | outcome => outcome
      end
  end.

Lemma matches_run_inj k1 k2 run :
  matches_run (CorrelationID k1) run = true → matches_run (CorrelationID k2) run = true → k1 = k2 ∨ collision.
Proof.
  unfold matches_run, validRunTitle. intros [_ H1%bool_decide_eq_true]%andb_prop [_ H2%bool_decide_eq_true]%andb_prop.
  rewrite H1 in H2. apply (inj (String.append _)) in H2. by apply sha256_ref_inj.
Qed.

(** A run that GitHub listed in an answer. *)
Definition lists_run (response : result error HTTPResponse) (run : workflow_run) : Prop :=
  ∃ answer runs, response = Ok answer ∧ hp_StatusCode answer = 200 ∧
    decode_front listed_runs [] (2 ^ 22) (hp_Body answer) = Some runs ∧ run ∈ runs.

Lemma find_outcome_found correlation response result :
  find_outcome correlation response = Ok (Some result) →
  ∃ run, lists_run response run ∧ matches_run correlation run = true ∧ result = run_result correlation run.
Proof.
  unfold find_outcome. destruct response as [answer|]; [|done]. destruct (hp_StatusCode answer =? 200) eqn:H200; [|done]. simpl.
  destruct (decode_front _ _ _ _) as [runs|] eqn:Hd; [|done]. destruct (list_find _ runs) as [[i run]|] eqn:Hf; [|done].
  intros [= <-]. apply list_find_Some in Hf as (Hi & Hm & _). exists run. split; [|done].
  exists answer, runs. apply Z.eqb_eq in H200. by apply list_elem_of_lookup_2 in Hi.
Qed.

Lemma find_outcome_none correlation response :
  find_outcome correlation response = Ok None → ∀ run, lists_run response run → matches_run correlation run = false.
Proof.
  unfold find_outcome. intros Hn run (answer & runs & -> & H200 & Hd & Hin). rewrite H200, Hd in Hn. simpl in Hn.
  destruct (list_find _ runs) as [[i r]|] eqn:Hf; [done|]. apply list_find_None in Hf. rewrite Forall_forall in Hf.
  specialize (Hf _ Hin). by destruct (matches_run correlation run).
Qed.

Section reconcile.
Context {X : Type} (now_at : nat → time) (client : HTTPDoer X) (config : Config).
Abbreviation W := (HTTPWorld X).

(** Only the last answer can decide. *)
Definition stops_at_first (correlation : string) (responses : list (result error HTTPResponse)) : Prop :=
  ∀ earlier response later, responses = earlier ++ response :: later → later ≠ [] → find_outcome correlation response = Ok None.

Lemma stops_at_first_single correlation response : stops_at_first correlation [response].
Proof. intros [|? []] response' later; [by intros [= -> <-]|done..]. Qed.

Lemma stops_at_first_cons correlation response responses :
  find_outcome correlation response = Ok None → stops_at_first correlation responses → stops_at_first correlation (response :: responses).
Proof. intros Ho Hs [|x earlier] response' later; [by intros [= <- <-]|]. intros [= -> Heq]. by eapply Hs. Qed.

(** The loop, by the answers it got. *)
Lemma reconcile_loop_spec l seen dispatchedAt correlation credential (w w' : W) r :
  github_reconcile_loop client l seen dispatchedAt correlation credential w = (w', r) →
  ∃ asked rest responses,
    distinct_workflows l seen = asked ++ rest ∧
    hw_sent w' = hw_sent w ++ ((λ tw, runs_request tw.1 tw.2 dispatchedAt credential) <$> asked) ∧
    exchange client ((λ tw, runs_request tw.1 tw.2 dispatchedAt credential) <$> asked) (hw_net w) = (hw_net w', responses) ∧
    stops_at_first correlation responses ∧
    match decided correlation responses with
    | Err err => r = Err err
    | Ok (Some result) => r = Ok result
    | Ok None => r = Ok {| arr_Status := ReconcileNotFound; arr_Deployment := zero_Deployment |} ∧ rest = []
    end.
Proof.
  revert seen w. induction l as [|tw l IH]; intros seen w.
  - intros [= <- <-]. exists [], [], []. split; [done|]. simpl. rewrite app_nil_r. split; [done|]. split; [done|]. split; [|done].
    by intros [] ??.
  - simpl. case_bool_decide as Hseen; [apply IH|].
    unfold findRun, mbind, st_bind, http_Do. simpl.
    destruct (client _ (hw_net w)) as [x response] eqn:Hc. simpl.
    destruct (find_outcome correlation response) as [[result|]|err] eqn:Ho; simpl.
    + intros [= <- <-]. exists [tw], (distinct_workflows l (workflow_identity tw :: seen)), [response]. simpl. rewrite Hc, Ho.
      split; [done|]. split; [done|]. split; [done|]. split; [apply stops_at_first_single|done].
    + intros (asked & rest & responses & Hd & Hs & He & Hst & Hr)%IH. exists (tw :: asked), rest, (response :: responses). cbn [hw_net hw_sent] in *.
      rewrite fmap_cons. cbn [exchange decided fst snd]. rewrite Hd, Hc, He, Ho, Hs. rewrite <- (assoc_L (++)).
      split; [done|]. split; [done|]. split; [done|]. split; [by apply stops_at_first_cons|done].
    + intros [= <- <-]. exists [tw], (distinct_workflows l (workflow_identity tw :: seen)), [response]. simpl. rewrite Hc, Ho.
      split; [done|]. split; [done|]. split; [done|]. split; [apply stops_at_first_single|done].
Qed.

(** The first answer that lists the run decides, and it is the last that was asked for. *)
Lemma decided_found correlation responses result :
  decided correlation responses = Ok (Some result) → stops_at_first correlation responses →
  ∃ earlier response run, responses = earlier ++ [response] ∧
    (∀ response' run', response' ∈ earlier → lists_run response' run' → matches_run correlation run' = false) ∧
    lists_run response run ∧ matches_run correlation run = true ∧ result = run_result correlation run.
Proof.
  induction responses as [|response responses IH]; [done|]. simpl.
  destruct (find_outcome correlation response) as [[res|]|] eqn:Ho; [intros [= <-]|intros Hd|done]; intros Hst.
  - destruct responses as [|next responses]; [|by rewrite (Hst [] response (next :: responses)) in Ho].
    apply find_outcome_found in Ho as (run & ? & ? & ?). exists [], response, run. split; [done|]. split; [by intros ?? ?%elem_of_nil|done].
  - destruct (IH Hd) as (earlier & last & run & -> & He & ?).
    { intros before x later Heq. apply (Hst (response :: before)). by rewrite Heq. }
    exists (response :: earlier), last, run. split; [done|]. split; [|done].
    intros response' run' [->|Hin]%elem_of_cons; [exact (find_outcome_none _ _ Ho run')|by apply He].
Qed.

Lemma decided_none correlation responses :
  decided correlation responses = Ok None →
  ∀ response run, response ∈ responses → lists_run response run → matches_run correlation run = false.
Proof.
  induction responses as [|response responses IH]; simpl; [by intros _ ?? ?%elem_of_nil|].
  destruct (find_outcome correlation response) as [[res|]|] eqn:Ho; [done| |done].
  intros Hd response' run [->|Hin]%elem_of_cons; [exact (find_outcome_none _ _ Ho run)|by apply IH].
Qed.

Lemma configured_workflows order key target workflow :
  order ≡ₚ (map_to_list config).*1 → config !! key = Some target →
  workflow ∈ [gt_DeployWorkflow target; gt_RollbackWorkflow target] →
  (target, workflow) ∈ sort_Slice key_less order ≫= target_workflows config.
Proof.
  intros Hp Ht Hw. apply list_elem_of_bind. exists key. split.
  - unfold target_workflows. rewrite Ht. set_solver.
  - apply elem_of_sort_Slice. rewrite Hp. apply list_elem_of_fmap. exists (key, target). split; [done|]. by apply elem_of_map_to_list.
Qed.

#[export] Instance key_less_strict : StrictOrderBool key_less.
Proof.
  split; unfold key_less.
  - intros x. rewrite bool_decide_eq_true_2 by done. apply less_irrefl.
  - intros [s1 e1] [s2 e2] [s3 e3]. cbn [tk_Service tk_Environment]. intros Hyx Hzy.
    destruct (decide (s2 = s1)) as [->|H21], (decide (s3 = s1)) as [->|H31];
      repeat first [rewrite bool_decide_eq_true_2 in * by done|rewrite bool_decide_eq_false_2 in * by done]; cbn [negb] in *;
      [by eapply less_trans|done|destruct H21; by apply less_total|].
    destruct (decide (s3 = s2)) as [->|H32]; [done|]. rewrite bool_decide_eq_false_2 in Hzy by done. by eapply less_trans.
  - intros [s1 e1] [s2 e2]. cbn [tk_Service tk_Environment]. destruct (decide (s1 = s2)) as [->|Hne].
    + rewrite !bool_decide_eq_true_2 by done. cbn [negb]. intros. f_equal. by apply less_total.
    + rewrite !bool_decide_eq_false_2 by done. cbn [negb]. intros. destruct Hne. by apply less_total.
  - intros [s1 e1] [s2 e2]. cbn [tk_Service tk_Environment]. destruct (decide (s1 = s2)) as [->|Hne].
    + rewrite !bool_decide_eq_true_2 by done. cbn [negb]. apply less_asym.
    + rewrite !bool_decide_eq_false_2 by done. cbn [negb]. apply less_asym.
Qed.

End reconcile.

(** ** Witnesses *)

Definition staging_key : TargetKey := {| tk_Service := "identity"; tk_Environment := "staging" |}.
Definition staging_target : GitHubTarget :=
  {| gt_Owner := "acme"; gt_Repository := "releases"; gt_DeployWorkflow := "deploy.yml"; gt_RollbackWorkflow := "rollback.yml";
     gt_Ref := "main" |}.
Definition staging_config : Config := {[ staging_key := staging_target ]}.
Definition staging_credential : credentials.Credential := credentials.New {[ "token" := "t" ]} 100.
Definition staging_clock (n : nat) : time := Z.of_nat n.

(** A network that answers every dispatch with run 123 and lists no runs; its state says whether it was used. *)
Definition quiet_github (request : HTTPRequest) (used : bool) : bool * result error HTTPResponse :=
  (true, Ok {| hp_StatusCode := 200;
               hp_Body := {| hb_Data := quoted (if bool_decide (hq_Method request = "POST") then "{'workflow_run_id':123}" else "{'workflow_runs':[]}");
                             hb_Broken := false |} |}).

Definition staging_world : HTTPWorld bool := {| hw_net := false; hw_ticks := 0; hw_sent := [] |}.

Definition staging_deploy : DeployRequest :=
  {| adr_Target := {| at_Service := "identity"; at_Environment := "staging" |};
     adr_ArtifactDigest := "sha256:aaaaaaaaaaaaaaaaaaaaaaaaaaaaaaaaaaaaaaaaaaaaaaaaaaaaaaaaaaaaaaaa"; adr_IdempotencyKey := "run/identity/v1" |}.

Definition staging_deployed : HTTPWorld bool * result error Deployment :=
  github_run staging_clock quiet_github staging_config (GDeploy staging_deploy) staging_credential staging_world.


Definition staging_reconciled : HTTPWorld bool * result error ReconcileResult :=
  github_Reconcile staging_clock quiet_github staging_config [staging_key]
    {| arq_IdempotencyKey := "run/identity/v1"; arq_DispatchedAt := 60 * Minute |} staging_credential staging_world.

