(* ===== verification/Brokers.v ===== *)
(** * Credential brokers (src/pkg/credentials/github.go, datadog.go)

    Short-lived credentials that a sidecar writes into files of the runner: the sources read a file
    that only its owner may access, the brokers hand its credential out for allow-listed targets and one
    kind of purpose, when it is good for another thirty seconds.

    Parameters: the file system ([os_Open]) and the errors of encoding/json ([json_error]). *)
From S2P Require Import Prelude GoStd Sha256 Json Rfc3339 JsonDecode JsonAny Http Adapter GitHub.
From Stdlib Require Import Ascii.
Import credentials.
Open Scope Z_scope.

(** An open file: the permission bits that [Stat] reports, and its content. *)
Record OpenFile := {
  of_Perm : result error Z;
  of_Body : HTTPBody;
}.

Section sources.
Context (os_Open : string → result error OpenFile) (json_error : string → error).

(** The document of a file: one JSON value of at most 64 KiB without unknown fields, and nothing after it. *)
Definition decode_file {A} (name : string) (from : into A) (zero : A) (body : HTTPBody) : result error A :=
  let body := limited (2 ^ 16) body in
  let bad := let err := json_error (hb_Data body) in Err (Errorf ("decode " +:+ name +:+ " file: " +:+ Error err) (Some err)) in
  match Decode (hb_Data body) with
  | None => bad
  | Some (d, rest) =>
      if open_ended d && bool_decide (rest = "") && hb_Broken body then bad
      else match from d zero with
           | None => bad
           | Some a => if at_EOF rest && negb (hb_Broken body) then Ok a
                       else Err (ErrorNew (name +:+ " file contains trailing JSON"))
           end
  end.

(** Opening a file that neither group nor others may access. *)
Definition open_private (name path : string) : result error HTTPBody :=
  if bool_decide (TrimSpace path = "") then Err (ErrorNew (name +:+ " file is required"))
  else match os_Open path with
       | Err err => Err (Errorf ("open " +:+ name +:+ " file: " +:+ Error err) (Some err))
       | Ok file =>
           match of_Perm file with
           | Err err => Err (Errorf ("stat " +:+ name +:+ " file: " +:+ Error err) (Some err))
           | Ok perm =>
               if negb (Z.land perm 63 =? 0) then Err (ErrorNew (name +:+ " file must not be group or world accessible"))
               else Ok (of_Body file)
           end
       end.

(** *** GitHub *)

Record github_document := {
  gd_Token : string;
  gd_ExpiresAt : time;
}.

#[export] Instance eta_github_document : Eta github_document := λ r, {| gd_Token := gd_Token r; gd_ExpiresAt := gd_ExpiresAt r |}.

Definition github_document_members : fields_of github_document :=
  member "token" into_string gd_Token ++ member "expires_at" into_time gd_ExpiresAt.

(** [GitHubTokenFileSource.Token] *)
Definition GitHubTokenFileSource_Token (path : string) : result error Credential :=
  body ← open_private "github token" path;
  document ← decode_file "github token" (into_struct true github_document_members) {| gd_Token := ""; gd_ExpiresAt := 0 |} body;
  if bool_decide (TrimSpace (gd_Token document) = "") || IsZero (gd_ExpiresAt document)
  then Err (ErrorNew "github token and expiry are required")
  else Ok (New {[ "token" := gd_Token document ]} (gd_ExpiresAt document)).

(** *** Datadog *)

Record datadog_document := {
  dd_APIKey : string;
  dd_AppKey : string;
  dd_ExpiresAt : time;
}.

#[export] Instance eta_datadog_document : Eta datadog_document := λ r,
  {| dd_APIKey := dd_APIKey r; dd_AppKey := dd_AppKey r; dd_ExpiresAt := dd_ExpiresAt r |}.

Definition datadog_document_members : fields_of datadog_document :=
  member "api_key" into_string dd_APIKey ++ member "app_key" into_string dd_AppKey ++ member "expires_at" into_time dd_ExpiresAt.

(** [DatadogCredentialFileSource.Credential] *)
Definition DatadogCredentialFileSource_Credential (path : string) : result error Credential :=
  body ← open_private "Datadog credential" path;
  document ← decode_file "Datadog credential" (into_struct true datadog_document_members)
    {| dd_APIKey := ""; dd_AppKey := ""; dd_ExpiresAt := 0 |} body;
  if bool_decide (TrimSpace (dd_APIKey document) = "") || bool_decide (TrimSpace (dd_AppKey document) = "") || IsZero (dd_ExpiresAt document)
  then Err (ErrorNew "Datadog API key, application key, and expiry are required")
  else Ok (New {[ "api_key" := dd_APIKey document; "app_key" := dd_AppKey document ]} (dd_ExpiresAt document)).
End sources.

(** ** Brokers *)

(** [GitHubTarget] and [DatadogTarget]: tenant, service and environment. *)
Abbreviation broker_target := (string * string * string)%type.
Definition target_of (request : Request) : broker_target := (cq_TenantID request, cq_Service request, cq_Environment request).

Definition GitHubProvider : string := "github-actions".
Definition DatadogProvider : string := "datadog".

(** [GitHubBroker.Acquire] at the time [now]; a nil source is [None]. *)
Definition GitHubBroker_Acquire (source : option (result error Credential)) (allowed : gset broker_target) (now : time)
    (request : Request) : result error Credential :=
  match Request_Validate request with
  | Err err => Err err
  | Ok _ =>
      if negb (bool_decide (cq_Provider request = GitHubProvider))
         || (negb (bool_decide (cq_Purpose request = PurposeDeploy)) && negb (bool_decide (cq_Purpose request = PurposeRollback)))
      then Err (ErrorNew "github broker only serves deploy and rollback")
      else if negb (bool_decide (target_of request ∈ allowed)) then Err (ErrorNew "github credential target is not allow-listed")
      else match source with
           | None => Err (ErrorNew "github token source unavailable")
           | Some (Err err) => Err err
           | Some (Ok credential) =>
               if bool_decide (Value credential "token" = "") || negb (ValidAt credential (Add now (30 * Second)))
               then Err (ErrorNew "github token is missing or too close to expiry")
               else Ok (Clone credential)
           end
  end.

(** [DatadogBroker.Acquire] *)
Definition DatadogBroker_Acquire (source : option (result error Credential)) (allowed : gset broker_target) (now : time)
    (request : Request) : result error Credential :=
  match Request_Validate request with
  | Err err => Err err
  | Ok _ =>
      if negb (bool_decide (cq_Provider request = DatadogProvider)) || negb (bool_decide (cq_Purpose request = PurposeVerify))
      then Err (ErrorNew "Datadog broker only serves verification")
      else if negb (bool_decide (target_of request ∈ allowed)) then Err (ErrorNew "Datadog credential target is not allow-listed")
      else match source with
           | None => Err (ErrorNew "Datadog credential source unavailable")
           | Some (Err err) => Err err
           | Some (Ok credential) =>
               if bool_decide (Value credential "api_key" = "") || bool_decide (Value credential "app_key" = "")
                  || negb (ValidAt credential (Add now (30 * Second)))
               then Err (ErrorNew "Datadog credential is missing or too close to expiry")
               else Ok (Clone credential)
           end
  end.

(** ** What brokers hand out *)

Lemma ValidAt_earlier c t u : t ≤ u → ValidAt c u = true → ValidAt c t = true.
Proof. unfold ValidAt, Before. intros Htu [[-> ->]%andb_prop H%Z.ltb_lt]%andb_prop. simpl. apply Z.ltb_lt. lia. Qed.

(** A credential for a deployment: it comes from the source, for an allow-listed target and purpose, and the adapter can
    use it for the next thirty seconds. *)
Theorem github_broker_scoped source allowed now request credential :
  GitHubBroker_Acquire source allowed now request = Ok credential →
  source = Some (Ok credential) ∧ target_of request ∈ allowed ∧ cq_Provider request = GitHubProvider ∧
  cq_Purpose request ∈ [PurposeDeploy; PurposeRollback] ∧
  ∀ t, now ≤ t ≤ now + 30 * Second → usable credential t = true.
Proof.
  unfold GitHubBroker_Acquire. destruct (Request_Validate request); [|done].
  destruct (negb _ || _) eqn:Hp; [done|]. rewrite orb_false_iff, negb_false_iff, andb_false_iff, !negb_false_iff, !bool_decide_eq_true in Hp.
  case_bool_decide as Ht; [|done]. simpl. destruct source as [[c|]|]; try done.
  destruct (_ || _) eqn:Hc; [done|]. intros [= <-]. rewrite orb_false_iff, negb_false_iff, bool_decide_eq_false in Hc.
  destruct Hp as [Hprovider Hpurpose], Hc as [Hv Hvalid]. destruct c as [values expires]. split; [done|]. split; [done|]. split; [done|].
  split; [set_solver|]. intros t Ht'. unfold usable. rewrite (ValidAt_earlier _ t (Add now (30 * Second))); [|unfold Add; lia|done].
  by rewrite bool_decide_false.
Qed.

(** The credential of a file: the file was private, and the credential has a token and an expiry. *)
Lemma github_source_private os_Open json_error path credential :
  GitHubTokenFileSource_Token os_Open json_error path = Ok credential →
  ∃ file perm, os_Open path = Ok file ∧ of_Perm file = Ok perm ∧ Z.land perm 63 = 0 ∧
    Value credential "token" ≠ "" ∧ cr_ExpiresAt credential ≠ 0.
Proof.
  unfold GitHubTokenFileSource_Token, open_private, mbind, result_bind. case_bool_decide; [done|].
  destruct (os_Open path) as [file|]; [|done]. destruct (of_Perm file) as [perm|] eqn:Hp; [|done].
  destruct (Z.land perm 63 =? 0) eqn:Hz; [|done]. simpl. destruct (decode_file _ _ _ _ _) as [document|]; [|done].
  destruct (_ || _) eqn:Hd; [done|]. intros [= <-]. rewrite orb_false_iff, bool_decide_eq_false in Hd. destruct Hd as [Ht He].
  exists file, perm. apply Z.eqb_eq in Hz. split; [done|]. split; [done|]. split; [done|]. unfold Value, get. simpl.
  rewrite lookup_singleton_eq. split; [|by apply Z.eqb_neq]. simpl. intros Hempty. apply Ht. by rewrite Hempty.
Qed.
