(* ===== verification/Store.v ===== *)
(** * Release store (src/internal/store/store.go, memory.go)

    The in-memory store: runs with optimistic versions, idempotent creation by
    request id, audit trails, adapter executions, the outbox with its projection
    events, and the runner journal.  Every method of [Memory] holds the mutex for
    its whole body, so a concurrent history is a sequence of the operations below.

    [cloneRun] and [clonePlan] marshal to JSON and back: they return a fresh
    value equal to their argument, and the model, whose values are immutable,
    stores the argument itself. *)
From S2P Require Import Prelude GoStd Domain Protocol.
Open Scope Z_scope.

(** ** store.go *)

Definition ErrNotFound : error := Sentinel "store.ErrNotFound" "resource not found".
Definition ErrConflict : error := Sentinel "store.ErrConflict" "release run state version conflict".
Definition ErrDuplicateExecution : error :=
  Sentinel "store.ErrDuplicateExecution" "duplicate adapter idempotency key".
Definition ErrUnknownExternalState : error :=
  Sentinel "store.ErrUnknownExternalState" "external execution state is unknown".
Definition ErrJournalUnavailable : error :=
  Sentinel "store.ErrJournalUnavailable" "runner journal is unavailable".

(** [ExecutionStatus]; the caller of [CompleteExecution] chooses it. *)
Abbreviation ExecutionStatus := string (only parsing).
Definition ExecutionReserved : ExecutionStatus := "RESERVED".
Definition ExecutionSucceeded : ExecutionStatus := "SUCCEEDED".
Definition ExecutionFailed : ExecutionStatus := "FAILED".
Definition ExecutionUnknown : ExecutionStatus := "UNKNOWN".

(** [ExecutionRecord] *)
Record ExecutionRecord := {
  er_ID : string;
  er_RunID : string;
  er_Service : string;
  er_Adapter : string;
  er_IdempotencyKey : string;
  er_Status : ExecutionStatus;
  er_ExternalExecutionID : string;
  er_Payload : details;
  er_StateVersion : Z;
  er_CreatedAt : time;
  er_UpdatedAt : time;
}.

#[export] Instance eta_ExecutionRecord : Eta ExecutionRecord := λ r,
  {| er_ID := er_ID r; er_RunID := er_RunID r; er_Service := er_Service r; er_Adapter :=
     er_Adapter r; er_IdempotencyKey := er_IdempotencyKey r; er_Status := er_Status r;
     er_ExternalExecutionID := er_ExternalExecutionID r; er_Payload := er_Payload r;
     er_StateVersion := er_StateVersion r; er_CreatedAt := er_CreatedAt r; er_UpdatedAt :=
     er_UpdatedAt r |}.

#[export] Instance ExecutionRecord_eq_dec : EqDecision ExecutionRecord.
Proof. solve_decision. Defined.

(** [RunnerActionStatus] *)
Abbreviation RunnerActionStatus := string (only parsing).
Definition RunnerActionReserved : RunnerActionStatus := "RESERVED".
Definition RunnerActionSucceeded : RunnerActionStatus := "SUCCEEDED".
Definition RunnerActionUnknown : RunnerActionStatus := "UNKNOWN".
Definition RunnerActionRejected : RunnerActionStatus := "REJECTED".

(** [RunnerActionRecord] *)
Record RunnerActionRecord := {
  ra_GrantID : string;
  ra_RunID : string;
  ra_StepID : string;
  ra_TenantID : string;
  ra_RunnerGroup : string;
  ra_Nonce : string;
  ra_IdempotencyKey : string;
  ra_RequestHash : string;
  ra_Target : Target;
  ra_Action : Action;
  ra_Status : RunnerActionStatus;
  ra_Result : Result;
  ra_StateVersion : Z;
  ra_CreatedAt : time;
  ra_UpdatedAt : time;
}.

#[export] Instance eta_RunnerActionRecord : Eta RunnerActionRecord := λ r,
  {| ra_GrantID := ra_GrantID r; ra_RunID := ra_RunID r; ra_StepID := ra_StepID r;
     ra_TenantID := ra_TenantID r; ra_RunnerGroup := ra_RunnerGroup r; ra_Nonce := ra_Nonce
     r; ra_IdempotencyKey := ra_IdempotencyKey r; ra_RequestHash := ra_RequestHash r;
     ra_Target := ra_Target r; ra_Action := ra_Action r; ra_Status := ra_Status r; ra_Result
     := ra_Result r; ra_StateVersion := ra_StateVersion r; ra_CreatedAt := ra_CreatedAt r;
     ra_UpdatedAt := ra_UpdatedAt r |}.

#[export] Instance RunnerActionRecord_eq_dec : EqDecision RunnerActionRecord.
Proof. solve_decision. Defined.

(** The zero value, read from a map that lacks the key. *)
Definition zero_RunnerActionRecord : RunnerActionRecord :=
  {| ra_GrantID := ""; ra_RunID := ""; ra_StepID := ""; ra_TenantID := ""; ra_RunnerGroup := "";
     ra_Nonce := ""; ra_IdempotencyKey := ""; ra_RequestHash := "";
     ra_Target := {| tg_Service := ""; tg_Environment := "" |};
     ra_Action := {| an_Capability := ""; an_ArtifactDigest := ""; an_ExternalExecutionID := "" |};
     ra_Status := ""; ra_Result := zero_Result; ra_StateVersion := 0; ra_CreatedAt := 0;
     ra_UpdatedAt := 0 |}.

Definition zero_ReleasePlan : ReleasePlan :=
  {| plan_APIVersion := ""; plan_ID := ""; plan_ReleaseVersion := ""; plan_Environment := "";
     plan_Phases := []; plan_Hash := ""; plan_PlanHash := ""; plan_ContractHashes := ∅;
     plan_ProfileHashes := ∅; plan_ContextSnapshotRef := ""; plan_PolicyHash := "";
     plan_EvidenceHash := ""; plan_CreatedAt := 0; plan_ExpiresAt := 0 |}.

(** [cloneRun(nil)]: JSON [null] decodes to the zero run. *)
Definition zero_ReleaseRun : ReleaseRun :=
  {| run_ID := ""; run_RequestID := ""; run_ReleaseVersion := ""; run_Environment := "";
     run_RequestedBy := ""; run_SubjectType := ""; run_SubjectIssuer := "";
     run_UserIdentityProof := ""; run_TenantID := ""; run_Region := ""; run_Cluster := "";
     run_RunnerGroup := ""; run_DelegationRef := "";
     run_Agent := {| agent_ID := ""; agent_Scopes := [] |}; run_Plan := zero_ReleasePlan;
     run_Status := RunStatusNone; run_PausedFrom := RunStatusNone; run_Steps := [];
     run_StateVersion := 0; run_WorkflowID := ""; run_TemporalRunID := ""; run_CreatedAt := 0;
     run_UpdatedAt := 0 |}.

(** ** memory.go *)

(** [Memory] *)
Record Memory := {
  mem_runs : gmap string ReleaseRun;
  mem_plans : gmap string ReleasePlan;
  mem_runByRequestID : gmap string string;
  mem_audit : gmap string (list AuditEvent);
  mem_executions : gmap string ExecutionRecord;
  mem_outbox : list OutboxEvent;
  mem_projections : gmap string ReleaseRun;
  mem_runnerActions : gmap string RunnerActionRecord;
  mem_runnerByKey : gmap string string;
  mem_journalError : option error;
}.

#[export] Instance eta_Memory : Eta Memory := λ r,
  {| mem_runs := mem_runs r; mem_plans := mem_plans r; mem_runByRequestID :=
     mem_runByRequestID r; mem_audit := mem_audit r; mem_executions := mem_executions r;
     mem_outbox := mem_outbox r; mem_projections := mem_projections r; mem_runnerActions :=
     mem_runnerActions r; mem_runnerByKey := mem_runnerByKey r; mem_journalError :=
     mem_journalError r |}.


Definition NewMemory : Memory :=
  {| mem_runs := ∅; mem_plans := ∅; mem_runByRequestID := ∅; mem_audit := ∅; mem_executions := ∅;
     mem_outbox := []; mem_projections := ∅; mem_runnerActions := ∅; mem_runnerByKey := ∅;
     mem_journalError := None |}.

Definition executionKey (adapter idempotencyKey : string) : string :=
  adapter +:+ NUL +:+ idempotencyKey.

Definition runnerNonceKey (tenant runnerGroup nonce : string) : string :=
  tenant +:+ NUL +:+ runnerGroup +:+ NUL +:+ nonce.

Definition runnerIdempotencyKey (tenant runnerGroup key : string) : string :=
  tenant +:+ NUL +:+ runnerGroup +:+ NUL +:+ key.

(** The trail of [event.CorrelationID] grows by [event]. *)
Definition append_event (audit : gmap string (list AuditEvent)) (event : AuditEvent) :
    gmap string (list AuditEvent) :=
  <[ae_CorrelationID event := get [] audit (ae_CorrelationID event) ++ [event]]> audit.

Definition appendAtomic (audit : list AuditEvent) (outbox : list OutboxEvent) (m : Memory) : Memory :=
  m <| mem_audit := foldl append_event (mem_audit m) audit |>
    <| mem_outbox := mem_outbox m ++ outbox |>.

(** The event [appendProjection] adds. *)
Definition projection_event (run : ReleaseRun) : OutboxEvent :=
  {| ob_ID := "projection/" +:+ run_ID run +:+ "/" +:+ itoa (run_StateVersion run);
     ob_AggregateType := "release_run"; ob_AggregateID := run_ID run;
     ob_EventType := "release.run.project"; ob_Payload := ∅; ob_PayloadRun := Some run;
     ob_CreatedAt := run_UpdatedAt run; ob_AvailableAt := run_UpdatedAt run;
     ob_PublishedAt := None; ob_Attempts := 0 |}.

Definition appendProjection (events : list OutboxEvent) (run : ReleaseRun) : list OutboxEvent :=
  events ++ [projection_event run].

(** *** Plans *)

Definition SavePlan (plan : ReleasePlan) (m : Memory) : Memory :=
  m <| mem_plans := <[plan_ID plan := plan]> (mem_plans m) |>.

Definition GetPlan (id : string) (m : Memory) : result error ReleasePlan :=
  match mem_plans m !! id with Some plan => Ok plan | None => Err ErrNotFound end.

(** *** Runs *)

(** [CreateRunAtomic]: the run that is now stored for the request, and whether
    this call created it. *)
Definition CreateRunAtomic (run : ReleaseRun) (audit : list AuditEvent) (outbox : list OutboxEvent)
    (m : Memory) : Memory * result error (ReleaseRun * bool) :=
  match mem_runByRequestID m !! run_RequestID run with
  | Some existingID => (m, Ok (get zero_ReleaseRun (mem_runs m) existingID, false))
  | None =>
      match mem_runs m !! run_ID run with
      | Some _ => (m, Err (Errorf ("duplicate run id " +:+ quote (run_ID run)) None))
      | None =>
          let m := m <| mem_runs := <[run_ID run := run]> (mem_runs m) |>
                     <| mem_projections := <[run_ID run := run]> (mem_projections m) |>
                     <| mem_runByRequestID := <[run_RequestID run := run_ID run]> (mem_runByRequestID m) |> in
          (appendAtomic audit (appendProjection outbox run) m, Ok (run, true))
      end
  end.

Definition CreateRun (run : ReleaseRun) (m : Memory) : Memory * result error (ReleaseRun * bool) :=
  CreateRunAtomic run [] [] m.

Definition GetRun (id : string) (m : Memory) : result error ReleaseRun :=
  match mem_runs m !! id with Some run => Ok run | None => Err ErrNotFound end.

(** The comparison of [ListRuns]: newest first, then by id. *)
Definition newer (a b : ReleaseRun) : bool :=
  if bool_decide (run_CreatedAt a = run_CreatedAt b) then String.ltb (run_ID a) (run_ID b)
  else After (run_CreatedAt a) (run_CreatedAt b).

Definition ListRuns `{!MapOrder} (m : Memory) : list ReleaseRun :=
  sort_Slice newer (range_values 40 (mem_runs m)).

(** [UpdateRunAtomic]; the caller's run gets the new version, so it is returned. *)
Definition UpdateRunAtomic (run : ReleaseRun) (expectedVersion : Z) (audit : list AuditEvent)
    (outbox : list OutboxEvent) (m : Memory) : Memory * result error ReleaseRun :=
  match mem_runs m !! run_ID run with
  | None => (m, Err ErrNotFound)
  | Some current =>
      if negb (run_StateVersion current =? expectedVersion) then (m, Err ErrConflict)
      else
        let updated := run <| run_StateVersion := int64 (expectedVersion + 1) |> in
        let m := m <| mem_runs := <[run_ID run := updated]> (mem_runs m) |>
                   <| mem_projections := <[run_ID run := updated]> (mem_projections m) |> in
        (appendAtomic audit (appendProjection outbox updated) m, Ok updated)
  end.

Definition UpdateRun (run : ReleaseRun) (expectedVersion : Z) (m : Memory) :
    Memory * result error ReleaseRun :=
  UpdateRunAtomic run expectedVersion [] [] m.

Definition RebuildProjection (runID : string) (m : Memory) : Memory * result error unit :=
  match mem_projections m !! runID with
  | None => (m, Err ErrNotFound)
  | Some projection => (m <| mem_runs := <[runID := projection]> (mem_runs m) |>, Ok tt)
  end.

(** *** Audit trails *)

Definition AppendAudit (event : AuditEvent) (m : Memory) : Memory :=
  m <| mem_audit := append_event (mem_audit m) event |>.

Definition AuditEvents (correlationID : string) (m : Memory) : list AuditEvent :=
  get [] (mem_audit m) correlationID.

(** *** Adapter executions *)

Definition ReserveExecution (record : ExecutionRecord) (audit : AuditEvent) (outbox : OutboxEvent)
    (m : Memory) : Memory * (ExecutionRecord * bool) :=
  let key := executionKey (er_Adapter record) (er_IdempotencyKey record) in
  match mem_executions m !! key with
  | Some existing => (m, (existing, false))
  | None =>
      let record := record <| er_StateVersion := 1 |> <| er_Status := ExecutionReserved |> in
      let m := m <| mem_executions := <[key := record]> (mem_executions m) |> in
      (appendAtomic [audit] [outbox] m, (record, true))
  end.

Definition CompleteExecution (record : ExecutionRecord) (expectedVersion : Z) (audit : AuditEvent)
    (outbox : OutboxEvent) (m : Memory) : Memory * result error unit :=
  let key := executionKey (er_Adapter record) (er_IdempotencyKey record) in
  match mem_executions m !! key with
  | None => (m, Err ErrNotFound)
  | Some current =>
      if negb (er_StateVersion current =? expectedVersion) then (m, Err ErrConflict)
      else
        let record := record <| er_StateVersion := int64 (expectedVersion + 1) |> in
        let m := m <| mem_executions := <[key := record]> (mem_executions m) |> in
        (appendAtomic [audit] [outbox] m, Ok tt)
  end.

Definition GetExecution (adapter idempotencyKey : string) (m : Memory) : result error ExecutionRecord :=
  match mem_executions m !! executionKey adapter idempotencyKey with
  | Some record => Ok record
  | None => Err ErrNotFound
  end.

(** *** Outbox *)

(** The condition under which [pendingOutbox] selects an event. *)
Definition is_pending (eventType : string) (event : OutboxEvent) : bool :=
  bool_decide (ob_PublishedAt event = None) &&
  (bool_decide (eventType = "") || bool_decide (ob_EventType event = eventType)).

(** The loop over the outbox, with its [break] when [limit] events are found. *)
Fixpoint pending_loop (eventType : string) (limit : Z) (events result : list OutboxEvent) :
    list OutboxEvent :=
  match events with
  | [] => result
  | event :: events =>
      if is_pending eventType event then
        let result := result ++ [event] in
        if Z.of_nat (length result) =? limit then result
        else pending_loop eventType limit events result
      else pending_loop eventType limit events result
  end.

Definition pendingOutbox (eventType : string) (limit : Z) (m : Memory) : list OutboxEvent :=
  let count := Z.of_nat (length (mem_outbox m)) in
  let limit := if (limit <=? 0) || (count <? limit) then count else limit in
  pending_loop eventType limit (mem_outbox m) [].

Definition PendingOutbox (limit : Z) (m : Memory) : list OutboxEvent := pendingOutbox "" limit m.

Definition PendingOutboxByType (eventType : string) (limit : Z) (m : Memory) : list OutboxEvent :=
  pendingOutbox eventType limit m.

(** The loop of [MarkOutboxPublished]: the first event with this id. *)
Fixpoint mark_published (id : string) (publishedAt : time) (events : list OutboxEvent) :
    option (list OutboxEvent) :=
  match events with
  | [] => None
  | event :: events =>
      if bool_decide (ob_ID event = id)
      then Some (event <| ob_PublishedAt := Some publishedAt |> :: events)
      else cons event <$> mark_published id publishedAt events
  end.

Definition MarkOutboxPublished (id : string) (publishedAt : time) (m : Memory) :
    Memory * result error unit :=
  match mark_published id publishedAt (mem_outbox m) with
  | Some events => (m <| mem_outbox := events |>, Ok tt)
  | None => (m, Err ErrNotFound)
  end.

(** *** Runner journal *)

Definition SetRunnerJournalError (err : option error) (m : Memory) : Memory :=
  m <| mem_journalError := err |>.

Definition GetRunnerAction (tenantID runnerGroup nonce : string) (m : Memory) :
    result error RunnerActionRecord :=
  match mem_journalError m with
  | Some err => Err err
  | None =>
      match mem_runnerActions m !! runnerNonceKey tenantID runnerGroup nonce with
      | Some record => Ok record
      | None => Err ErrNotFound
      end
  end.

Definition ReserveRunnerAction (record : RunnerActionRecord) (audit : AuditEvent) (m : Memory) :
    Memory * result error (RunnerActionRecord * bool) :=
  match mem_journalError m with
  | Some err => (m, Err err)
  | None =>
      let nonceKey := runnerNonceKey (ra_TenantID record) (ra_RunnerGroup record) (ra_Nonce record) in
      match mem_runnerActions m !! nonceKey with
      | Some existing => (m, Ok (existing, false))
      | None =>
          let idempotencyKey :=
            runnerIdempotencyKey (ra_TenantID record) (ra_RunnerGroup record) (ra_IdempotencyKey record) in
          match mem_runnerByKey m !! idempotencyKey with
          | Some existingNonce =>
              (m, Ok (get zero_RunnerActionRecord (mem_runnerActions m) existingNonce, false))
          | None =>
              let record := record <| ra_Status := RunnerActionReserved |> <| ra_StateVersion := 1 |> in
              (m <| mem_runnerActions := <[nonceKey := record]> (mem_runnerActions m) |>
                 <| mem_runnerByKey := <[idempotencyKey := nonceKey]> (mem_runnerByKey m) |>
                 <| mem_audit := append_event (mem_audit m) audit |>, Ok (record, true))
          end
      end
  end.

Definition CompleteRunnerAction (record : RunnerActionRecord) (expected : Z) (audit : AuditEvent)
    (m : Memory) : Memory * result error unit :=
  match mem_journalError m with
  | Some err => (m, Err err)
  | None =>
      let key := runnerNonceKey (ra_TenantID record) (ra_RunnerGroup record) (ra_Nonce record) in
      match mem_runnerActions m !! key with
      | None => (m, Err ErrNotFound)
      | Some current =>
          if negb (ra_StateVersion current =? expected) then (m, Err ErrConflict)
          else
            let record := record <| ra_StateVersion := int64 (expected + 1) |> in
            (m <| mem_runnerActions := <[key := record]> (mem_runnerActions m) |>
               <| mem_audit := append_event (mem_audit m) audit |>, Ok tt)
      end
  end.

(** The condition under which [PendingRunnerActions] selects a record. *)
Definition is_unsettled (tenantID runnerGroup : string) (record : RunnerActionRecord) : bool :=
  bool_decide (ra_TenantID record = tenantID) && bool_decide (ra_RunnerGroup record = runnerGroup) &&
  (bool_decide (ra_Status record = RunnerActionReserved) || bool_decide (ra_Status record = RunnerActionUnknown)).

Fixpoint unsettled_loop (tenantID runnerGroup : string) (limit : Z)
    (records result : list RunnerActionRecord) : list RunnerActionRecord :=
  match records with
  | [] => result
  | record :: records =>
      if is_unsettled tenantID runnerGroup record then
        let result := result ++ [record] in
        if (0 <? limit) && (limit <=? Z.of_nat (length result)) then result
        else unsettled_loop tenantID runnerGroup limit records result
      else unsettled_loop tenantID runnerGroup limit records result
  end.

Definition PendingRunnerActions `{!MapOrder} (tenantID runnerGroup : string) (limit : Z) (m : Memory) :
    result error (list RunnerActionRecord) :=
  match mem_journalError m with
  | Some err => Err err
  | None => Ok (unsettled_loop tenantID runnerGroup limit (range_values 41 (mem_runnerActions m)) [])
  end.


(** ** Histories

    The operations that change the store, and a history of them: every operation
    with whether it took effect (the boolean result of the [Reserve] and [Create]
    operations, a nil error for the others). *)

Inductive store_op :=
| OpSavePlan (plan : ReleasePlan)
| OpCreateRun (run : ReleaseRun) (audit : list AuditEvent) (outbox : list OutboxEvent)
| OpUpdateRun (run : ReleaseRun) (expectedVersion : Z) (audit : list AuditEvent) (outbox : list OutboxEvent)
| OpRebuildProjection (runID : string)
| OpAppendAudit (event : AuditEvent)
| OpReserveExecution (record : ExecutionRecord) (audit : AuditEvent) (outbox : OutboxEvent)
| OpCompleteExecution (record : ExecutionRecord) (expectedVersion : Z) (audit : AuditEvent) (outbox : OutboxEvent)
| OpMarkOutboxPublished (id : string) (publishedAt : time)
| OpSetRunnerJournalError (err : option error)
| OpReserveRunnerAction (record : RunnerActionRecord) (audit : AuditEvent)
| OpCompleteRunnerAction (record : RunnerActionRecord) (expected : Z) (audit : AuditEvent).

(** Whether a [Create] or [Reserve] result says that the call took effect. *)
Definition took {A} (r : result error (A * bool)) : bool :=
  match r with Ok (_, b) => b | Err _ => false end.

Definition run_op (op : store_op) (m : Memory) : Memory * bool :=
  match op with
  | OpSavePlan plan => (SavePlan plan m, true)
  | OpCreateRun run audit outbox => prod_map id took (CreateRunAtomic run audit outbox m)
  | OpUpdateRun run v audit outbox => prod_map id is_ok (UpdateRunAtomic run v audit outbox m)
  | OpRebuildProjection runID => prod_map id is_ok (RebuildProjection runID m)
  | OpAppendAudit event => (AppendAudit event m, true)
  | OpReserveExecution record audit outbox => prod_map id snd (ReserveExecution record audit outbox m)
  | OpCompleteExecution record v audit outbox => prod_map id is_ok (CompleteExecution record v audit outbox m)
  | OpMarkOutboxPublished id t => prod_map Datatypes.id is_ok (MarkOutboxPublished id t m)
  | OpSetRunnerJournalError err => (SetRunnerJournalError err m, true)
  | OpReserveRunnerAction record audit => prod_map id took (ReserveRunnerAction record audit m)
  | OpCompleteRunnerAction record v audit => prod_map id is_ok (CompleteRunnerAction record v audit m)
  end.

Fixpoint run_ops (ops : list store_op) (m : Memory) : Memory * list (store_op * bool) :=
  match ops with
  | [] => (m, [])
  | op :: ops =>
      let '(m, done) := run_op op m in
      let '(m, log) := run_ops ops m in
      (m, (op, done) :: log)
  end.

(** Only [appendProjection] puts a run into an outbox event. *)
Definition op_ok (op : store_op) : bool :=
  match op with
  | OpCreateRun _ _ outbox | OpUpdateRun _ _ _ outbox => forallb (λ e, bool_decide (ob_PayloadRun e = None)) outbox
  | OpReserveExecution _ _ outbox | OpCompleteExecution _ _ _ outbox => bool_decide (ob_PayloadRun outbox = None)
  | _ => true
  end.

(** A consumer of the projection events rebuilds the table of runs. *)
Definition project (runs : gmap string ReleaseRun) (event : OutboxEvent) : gmap string ReleaseRun :=
  match ob_PayloadRun event with
  | Some run => <[ob_AggregateID event := run]> runs
  | None => runs
  end.

Definition replay (events : list OutboxEvent) : gmap string ReleaseRun := foldl project ∅ events.

(** The invariant of the store. *)
Record store_inv (m : Memory) : Prop := {
  si_runs : ∀ id r, mem_runs m !! id = Some r → run_ID r = id;
  si_projections : mem_projections m = mem_runs m;
  si_replay : replay (mem_outbox m) = mem_runs m;
  si_requests : ∀ q id, mem_runByRequestID m !! q = Some id → is_Some (mem_runs m !! id);
  si_keys : ∀ k n, mem_runnerByKey m !! k = Some n → is_Some (mem_runnerActions m !! n);
  si_keys_inj : ∀ k1 k2 n,
    mem_runnerByKey m !! k1 = Some n → mem_runnerByKey m !! k2 = Some n → k1 = k2;
  si_nonces : ∀ n, is_Some (mem_runnerActions m !! n) → ∃ k, mem_runnerByKey m !! k = Some n;
}.

(** *** Projection events *)

Lemma replay_app events events' : replay (events ++ events') = foldl project (replay events) events'.
Proof. apply foldl_app. Qed.

Lemma project_plain runs events :
  forallb (λ e, bool_decide (ob_PayloadRun e = None)) events = true → foldl project runs events = runs.
Proof.
  revert runs. induction events as [|e events IH]; intros runs; simpl; [done|].
  intros [He Hevents]%andb_true_iff. apply bool_decide_eq_true in He.
  unfold project at 2. rewrite He. by apply IH.
Qed.

Lemma replay_appendProjection events outbox run :
  forallb (λ e, bool_decide (ob_PayloadRun e = None)) outbox = true →
  replay (events ++ appendProjection outbox run) = <[run_ID run := run]> (replay events).
Proof. intros Hout. unfold appendProjection. by rewrite app_assoc, !replay_app, (project_plain _ outbox). Qed.

Lemma replay_plain events e : ob_PayloadRun e = None → replay (events ++ [e]) = replay events.
Proof. intros He. rewrite replay_app. simpl. unfold project. by rewrite He. Qed.

Lemma mark_published_project id t events events' runs :
  mark_published id t events = Some events' → foldl project runs events' = foldl project runs events.
Proof.
  revert events' runs. induction events as [|e events IH]; simpl; intros events' runs; [done|].
  case_bool_decide; [by intros [= <-]|].
  intros (l & Hl & ->)%fmap_Some. simpl. by apply IH.
Qed.

(** *** The invariant is kept *)

Lemma NewMemory_inv : store_inv NewMemory.
Proof. split; simpl; try done; intros; simplify_map_eq. by destruct H. Qed.

(** Unfolds one operation and splits on its tests, with the updated fields computed. *)
Ltac store_cases :=
  repeat match goal with
  | |- context [match ?x with _ => _ end] => destruct x eqn:?; simpl
  end; unfold modify in *; simpl in *.

Lemma CreateRunAtomic_inv run audit outbox m :
  forallb (λ e, bool_decide (ob_PayloadRun e = None)) outbox = true →
  store_inv m → store_inv (fst (CreateRunAtomic run audit outbox m)).
Proof.
  intros Hout [? ? ? Hreq ? ? ?]. unfold CreateRunAtomic, appendAtomic. store_cases; [done..|].
  split; simpl; try done.
  - intros id r. rewrite lookup_insert_Some. naive_solver.
  - congruence.
  - rewrite replay_appendProjection by done. congruence.
  - intros q id. rewrite lookup_insert_Some. intros [[_ <-]|[_ Hq]].
    + rewrite lookup_insert_eq. eauto.
    + apply lookup_insert_is_Some'. eauto.
Qed.

Lemma UpdateRunAtomic_inv run v audit outbox m :
  forallb (λ e, bool_decide (ob_PayloadRun e = None)) outbox = true →
  store_inv m → store_inv (fst (UpdateRunAtomic run v audit outbox m)).
Proof.
  intros Hout [? ? ? Hreq ? ? ?]. unfold UpdateRunAtomic, appendAtomic. store_cases; [done| |done].
  split; simpl; try done.
  - intros id r'. rewrite lookup_insert_Some. naive_solver.
  - congruence.
  - rewrite replay_appendProjection by done. simpl. congruence.
  - intros q id Hq. apply lookup_insert_is_Some'. eauto.
Qed.

Lemma RebuildProjection_id id m : store_inv m → fst (RebuildProjection id m) = m.
Proof.
  intros [? Hproj ? ? ? ? ?]. unfold RebuildProjection. rewrite Hproj. store_cases; [|done].
  rewrite insert_id by done. by destruct m.
Qed.

Lemma ReserveRunnerAction_inv record audit m :
  store_inv m → store_inv (fst (ReserveRunnerAction record audit m)).
Proof.
  intros [? ? ? ? Hkeys Hinj Hnonces]. unfold ReserveRunnerAction. store_cases; [done..|].
  set (n := runnerNonceKey _ _ _) in *. set (k := runnerIdempotencyKey _ _ _) in *.
  assert (∀ k', mem_runnerByKey m !! k' ≠ Some n) as Hfresh
    by (intros k' [? ?]%Hkeys; congruence).
  split; simpl; try done.
  - intros k' n'. rewrite lookup_insert_Some, lookup_insert_is_Some'. naive_solver.
  - intros k1 k2 n'. rewrite !lookup_insert_Some. naive_solver.
  - intros n'. rewrite lookup_insert_is_Some'. intros [<-|[k' Hk']%Hnonces].
    + exists k. by rewrite lookup_insert_eq.
    + exists k'. rewrite lookup_insert_ne by congruence. done.
Qed.

Lemma CompleteRunnerAction_inv record v audit m :
  store_inv m → store_inv (fst (CompleteRunnerAction record v audit m)).
Proof.
  intros [? ? ? ? Hkeys Hinj Hnonces]. unfold CompleteRunnerAction. store_cases; [done..| |done].
  split; simpl; try done.
  - intros k' n' Hk. apply lookup_insert_is_Some'. eauto.
  - intros n'. rewrite lookup_insert_is_Some'. intros [<-|?]; eauto.
Qed.

Lemma run_op_inv op m : op_ok op = true → store_inv m → store_inv (fst (run_op op m)).
Proof.
  intros Hop Hinv. destruct op; simpl in *.
  - by destruct Hinv.
  - destruct (CreateRunAtomic _ _ _ _) eqn:Heq.
    pose proof (CreateRunAtomic_inv run audit outbox m Hop Hinv) as Hi. by rewrite Heq in Hi.
  - destruct (UpdateRunAtomic _ _ _ _ _) eqn:Heq.
    pose proof (UpdateRunAtomic_inv run expectedVersion audit outbox m Hop Hinv) as Hi. by rewrite Heq in Hi.
  - pose proof (RebuildProjection_id runID m Hinv) as Hi.
    destruct (RebuildProjection _ _); simpl in *. congruence.
  - by destruct Hinv.
  - apply bool_decide_eq_true in Hop. destruct Hinv.
    unfold ReserveExecution, appendAtomic. store_cases; split; simpl; try done.
    by rewrite replay_plain.
  - apply bool_decide_eq_true in Hop. destruct Hinv.
    unfold CompleteExecution, appendAtomic. store_cases; split; simpl; try done.
    by rewrite replay_plain.
  - destruct Hinv. unfold MarkOutboxPublished. store_cases; split; simpl; try done.
    unfold replay. erewrite mark_published_project by done. done.
  - by destruct Hinv.
  - pose proof (ReserveRunnerAction_inv record audit m Hinv) as Hi.
    by destruct (ReserveRunnerAction _ _ _).
  - pose proof (CompleteRunnerAction_inv record expected audit m Hinv) as Hi.
    by destruct (CompleteRunnerAction _ _ _ _).
Qed.

Lemma run_ops_inv ops m m' log :
  forallb op_ok ops = true → store_inv m → run_ops ops m = (m', log) → store_inv m'.
Proof.
  revert m log. induction ops as [|op ops IH]; simpl; intros m log; [by intros ? ? [= <- <-]|].
  intros [Hop Hops]%andb_true_iff Hinv. pose proof (run_op_inv op m Hop Hinv) as Hinv1.
  destruct (run_op op m) as [m1 d], (run_ops ops m1) as [m2 l] eqn:Hrun. intros [= <- <-]. eauto.
Qed.

(** ** Optimistic versions *)

(** The updates of run [id] in a history that took effect. *)
Definition is_update (id : string) (entry : store_op * bool) : bool :=
  match entry with
  | (OpUpdateRun run _ _ _, true) => bool_decide (run_ID run = id)
  | _ => false
  end.

Definition updates (id : string) (log : list (store_op * bool)) : Z :=
  Z.of_nat (length (filter (λ e, is_update id e = true) log)).

(** One operation either updates the run, adding one to its version, or leaves it as it is. *)
Lemma run_op_version op m id r :
  store_inv m → mem_runs m !! id = Some r →
  ∃ r', mem_runs (fst (run_op op m)) !! id = Some r' ∧
    if is_update id (op, snd (run_op op m))
    then run_StateVersion r' = int64 (run_StateVersion r + 1) else r' = r.
Proof.
  intros Hinv Hr. destruct op; simpl; try by eauto.
  - unfold CreateRunAtomic, appendAtomic. store_cases; eauto.
    exists r. split; [|done]. rewrite lookup_insert_ne; [done|]. congruence.
  - unfold UpdateRunAtomic, appendAtomic. store_cases; eauto.
    all: reflect_bools; subst; simplify_eq.
    + rewrite lookup_insert_eq. eauto.
    + rewrite lookup_insert_ne by done. eauto.
  - pose proof (RebuildProjection_id runID m Hinv) as Hi.
    destruct (RebuildProjection _ _); simpl in *. subst. eauto.
  - unfold ReserveExecution, appendAtomic. store_cases; eauto.
  - unfold CompleteExecution, appendAtomic. store_cases; eauto.
  - unfold MarkOutboxPublished. store_cases; eauto.
  - unfold ReserveRunnerAction. store_cases; eauto.
  - unfold CompleteRunnerAction. store_cases; eauto.
Qed.

Lemma int64_add_l a b : int64 (int64 a + b) = int64 (a + b).
Proof.
  unfold int64. f_equal. rewrite (Z.add_comm _ b), <-!Z.add_assoc.
  replace (b + ((a + 2 ^ 63) `mod` 2 ^ 64 - 2 ^ 63 + 2 ^ 63)) with (b + (a + 2 ^ 63) `mod` 2 ^ 64) by lia.
  rewrite Z.add_mod_idemp_r by done. f_equal. lia.
Qed.

Lemma updates_cons id e log :
  updates id (e :: log) = (if is_update id e then 1 else 0) + updates id log.
Proof. unfold updates. rewrite filter_cons. destruct (is_update id e); simpl; lia. Qed.

Lemma run_ops_version ops m m' log id r :
  forallb op_ok ops = true → store_inv m → mem_runs m !! id = Some r → in_int64 (run_StateVersion r) →
  run_ops ops m = (m', log) →
  ∃ r', mem_runs m' !! id = Some r' ∧
    run_StateVersion r' = int64 (run_StateVersion r + updates id log) ∧ (updates id log = 0 → r' = r).
Proof.
  revert m r log. induction ops as [|op ops IH]; simpl; intros m r log.
  - intros _ _ Hr Hin [= <- <-]. exists r. unfold updates; simpl. rewrite Z.add_0_r, int64_id by done. done.
  - intros [Hop Hops]%andb_true_iff Hinv Hr Hin. pose proof (run_op_inv op m Hop Hinv) as Hinv1.
    destruct (run_op_version op m id r Hinv Hr) as (r1 & Hr1 & Hv).
    destruct (run_op op m) as [m1 d], (run_ops ops m1) as [m2 l] eqn:Hrun. intros [= <- <-]. cbn [fst snd] in *.
    assert (in_int64 (run_StateVersion r1)) as Hin1
      by (destruct (is_update id (op, d)); [rewrite Hv; apply int64_range|by subst]).
    destruct (IH m1 r1 l Hops Hinv1 Hr1 Hin1 Hrun) as (r' & Hr' & Hv' & Hid).
    exists r'. split; [done|]. rewrite updates_cons.
    assert (0 ≤ updates id l) by (unfold updates; lia).
    destruct (is_update id (op, d)).
    + split; [|lia]. rewrite Hv', Hv, int64_add_l. f_equal. lia.
    + subst r1. split; [rewrite Hv'; f_equal; lia|]. intros ?. apply Hid. lia.
Qed.

(** A version does not come back before it has wrapped around. *)
Lemma int64_add_neq v n : in_int64 v → 0 < n < 2 ^ 64 → int64 (v + n) ≠ v.
Proof.
  unfold in_int64, int64, int64_min, int64_max. intros Hv Hn Heq.
  destruct (decide (v + n < 2 ^ 63)).
  - rewrite Z.mod_small in Heq; lia.
  - replace (v + n + 2 ^ 63) with (v + n + 2 ^ 63 - 2 ^ 64 + 1 * 2 ^ 64) in Heq by lia.
    rewrite Z.mod_add, Z.mod_small in Heq by lia. lia.
Qed.

(** whoever reads a run and writes it back with the version it read succeeds exactly
    when no update of that run took effect in between (whatever other operations ran), and then
    the run is still the one it read: no update is lost.  The bound is the wrap-around of the
    64-bit version. *)
Theorem update_no_lost_update ops m m' log id r run audit outbox :
  forallb op_ok ops = true → store_inv m → GetRun id m = Ok r → in_int64 (run_StateVersion r) →
  run_ops ops m = (m', log) → updates id log < 2 ^ 64 → run_ID run = id →
  is_ok (snd (UpdateRunAtomic run (run_StateVersion r) audit outbox m')) = bool_decide (updates id log = 0) ∧
  (updates id log = 0 → GetRun id m' = Ok r) ∧
  (updates id log = 0 → GetRun id (fst (UpdateRunAtomic run (run_StateVersion r) audit outbox m')) =
    Ok (run <| run_StateVersion := int64 (run_StateVersion r + 1) |>)).
Proof.
  unfold GetRun. intros Hops Hinv Hget Hin Hrun Hbound <-.
  destruct (mem_runs m !! run_ID run) as [r0|] eqn:Hr; simplify_eq.
  destruct (run_ops_version ops m m' log _ r Hops Hinv Hr Hin Hrun) as (r' & Hr' & Hv & Hid).
  assert (0 ≤ updates (run_ID run) log) by (unfold updates; lia).
  unfold UpdateRunAtomic. rewrite Hr'.
  destruct (decide (updates (run_ID run) log = 0)) as [H0|H0].
  - rewrite (Hid H0), Z.eqb_refl, bool_decide_eq_true_2 by done. simpl.
    unfold appendAtomic, modify; simpl. by rewrite lookup_insert_eq.
  - rewrite bool_decide_eq_false_2 by done. split; [|done].
    rewrite Hv. destruct (Z.eqb_spec (int64 (run_StateVersion r + updates (run_ID run) log)) (run_StateVersion r));
      [|done].
    by destruct (int64_add_neq (run_StateVersion r) (updates (run_ID run) log)); [|lia|].
Qed.

(** ** Once-only keys

    A key that an operation takes in a history is free before and stays taken. *)
Section once.
Context {K : Type} (taken : K → Memory → Prop) (takes : store_op * bool → option K).
Hypothesis taken_mono : ∀ op m k, taken k m → taken k (fst (run_op op m)).
Hypothesis takes_fresh : ∀ op m k,
  takes (op, snd (run_op op m)) = Some k → ¬ taken k m ∧ taken k (fst (run_op op m)).

Lemma taken_mono_ops ops m m' log k : run_ops ops m = (m', log) → taken k m → taken k m'.
Proof.
  revert m log. induction ops as [|op ops IH]; simpl; intros m log; [by intros [= <- <-]|].
  intros Hrun Hk%(taken_mono op). destruct (run_op op m) as [m1 d].
  destruct (run_ops ops m1) as [m2 l] eqn:Hr. injection Hrun as <- <-. eauto.
Qed.

Lemma takes_once ops m m' log :
  run_ops ops m = (m', log) →
  NoDup (omap takes log) ∧ ∀ k, k ∈ omap takes log → ¬ taken k m ∧ taken k m'.
Proof.
  revert m log. induction ops as [|op ops IH]; intros m log; simpl.
  { intros [= <- <-]. split; [constructor|]. simpl. by intros k ?%elem_of_nil. }
  pose proof (takes_fresh op m) as Hfresh. pose proof (taken_mono op m) as Hmono.
  destruct (run_op op m) as [m1 d], (run_ops ops m1) as [m2 l] eqn:Hrun. intros [= <- <-].
  destruct (IH m1 l Hrun) as [Hnodup Hk]. simpl in *.
  assert (∀ k, k ∈ omap takes l → ¬ taken k m ∧ taken k m2) as Hrest
    by (intros k [? ?]%Hk; naive_solver).
  destruct (takes (op, d)) as [k|]; [|done]. destruct (Hfresh k eq_refl) as [Hno Hyes].
  split.
  - constructor; [|done]. intros [? _]%Hk. done.
  - intros k' [->|?]%elem_of_cons; [|by apply Hrest].
    split; [done|]. by eapply taken_mono_ops.
Qed.
End once.

(** ** Projections *)

(** C27: after any history the run table is exactly what a consumer of the outbox
    rebuilds from the projection events, the projection table agrees with it, and
    [RebuildProjection] therefore changes nothing and fails only on an unknown run. *)
Theorem store_replay_faithful ops m log :
  forallb op_ok ops = true → run_ops ops NewMemory = (m, log) →
  replay (mem_outbox m) = mem_runs m ∧ mem_projections m = mem_runs m ∧
  (∀ id, GetRun id m = match replay (mem_outbox m) !! id with Some r => Ok r | None => Err ErrNotFound end) ∧
  ∀ id, RebuildProjection id m = (m, if mem_runs m !! id is Some _ then Ok tt else Err ErrNotFound).
Proof.
  intros Hops Hrun. pose proof (run_ops_inv _ _ _ _ Hops NewMemory_inv Hrun) as Hinv.
  split_and!; [apply Hinv|apply Hinv|by intros id; rewrite (si_replay m Hinv)|].
  intros id. pose proof (RebuildProjection_id id m Hinv) as Hid.
  unfold RebuildProjection in *. rewrite (si_projections m Hinv) in *.
  destruct (mem_runs m !! id); simpl in *; congruence.
Qed.

(** ** Creation by request id *)

Definition created_request (entry : store_op * bool) : option (string * string) :=
  match entry with
  | (OpCreateRun run _ _, true) => Some (run_RequestID run, run_ID run)
  | _ => None
  end.

Definition bound_request (k : string * string) (m : Memory) : Prop :=
  mem_runByRequestID m !! fst k = Some (snd k).

(** No operation but creation touches the request index. *)
Lemma run_op_requests op m :
  mem_runByRequestID (fst (run_op op m)) =
    match created_request (op, snd (run_op op m)) with
    | Some (q, id) => <[q := id]> (mem_runByRequestID m)
    | None => mem_runByRequestID m
    end ∧
  ∀ q id, created_request (op, snd (run_op op m)) = Some (q, id) → mem_runByRequestID m !! q = None.
Proof.
  destruct op; simpl;
    unfold CreateRunAtomic, UpdateRunAtomic, RebuildProjection, ReserveExecution, CompleteExecution,
      MarkOutboxPublished, ReserveRunnerAction, CompleteRunnerAction, appendAtomic;
    store_cases; naive_solver.
Qed.

Lemma bound_request_mono op m k : bound_request k m → bound_request k (fst (run_op op m)).
Proof.
  destruct k as [q id], (run_op_requests op m) as [Heq Hfresh]. unfold bound_request; cbn [fst snd]. intros Hq.
  rewrite Heq. destruct (created_request _) as [[q' id']|] eqn:Hc; [|done].
  rewrite lookup_insert_ne; [done|]. intros ->. rewrite (Hfresh q id') in Hq; done.
Qed.

Lemma bound_request_fresh op m k :
  created_request (op, snd (run_op op m)) = Some k → ¬ bound_request k m ∧ bound_request k (fst (run_op op m)).
Proof.
  destruct k as [q id], (run_op_requests op m) as [Heq Hfresh]. unfold bound_request; cbn [fst snd]. intros Hc.
  rewrite Heq, Hc, (Hfresh q id) by done. by rewrite lookup_insert_eq.
Qed.

(** over any history a request id creates at most one run, and every later
    creation with that request id returns the stored run of the first one, reports that it did
    not create it, and changes nothing: no audit event, no outbox event, no second run. *)
Theorem create_run_idempotent ops m log run audit outbox :
  forallb op_ok ops = true → run_ops ops NewMemory = (m, log) →
  (OpCreateRun run audit outbox, true) ∈ log →
  NoDup (omap created_request log).*1 ∧
  ∃ stored, GetRun (run_ID run) m = Ok stored ∧ run_ID stored = run_ID run ∧
    ∀ run' audit' outbox', run_RequestID run' = run_RequestID run →
      CreateRunAtomic run' audit' outbox' m = (m, Ok (stored, false)).
Proof.
  intros Hops Hrun Hin. pose proof (run_ops_inv _ _ _ _ Hops NewMemory_inv Hrun) as Hinv.
  destruct (takes_once bound_request created_request bound_request_mono bound_request_fresh _ _ _ _ Hrun)
    as [Hnodup Hbound].
  split.
  - apply NoDup_fmap_2_strong; [|done]. intros [q1 i1] [q2 i2] [_ H1]%Hbound [_ H2]%Hbound Heq.
    unfold bound_request in *. simpl in *. congruence.
  - destruct (Hbound (run_RequestID run, run_ID run)) as [_ Hid].
    { apply list_elem_of_omap. by eexists. }
    unfold bound_request in Hid. simpl in Hid.
    destruct (si_requests m Hinv _ _ Hid) as [stored Hstored].
    exists stored. unfold GetRun. rewrite Hstored. split_and!; [done|by eapply si_runs|].
    intros run' audit' outbox' Hq. unfold CreateRunAtomic. rewrite Hq, Hid. unfold get.
    by rewrite Hstored.
Qed.

(** ** Reservations *)

Definition reserved_execution (entry : store_op * bool) : option string :=
  match entry with
  | (OpReserveExecution r _ _, true) => Some (executionKey (er_Adapter r) (er_IdempotencyKey r))
  | _ => None
  end.

Definition has_execution (k : string) (m : Memory) : Prop := is_Some (mem_executions m !! k).

Lemma has_execution_mono op m k : has_execution k m → has_execution k (fst (run_op op m)).
Proof.
  unfold has_execution. destruct op; simpl;
    unfold CreateRunAtomic, UpdateRunAtomic, RebuildProjection, ReserveExecution, CompleteExecution,
      MarkOutboxPublished, ReserveRunnerAction, CompleteRunnerAction, appendAtomic;
    store_cases; try done; rewrite lookup_insert_is_Some'; by right.
Qed.

Lemma has_execution_fresh op m k :
  reserved_execution (op, snd (run_op op m)) = Some k → ¬ has_execution k m ∧ has_execution k (fst (run_op op m)).
Proof.
  unfold has_execution. destruct op; simpl; try done.
  unfold ReserveExecution, appendAtomic. destruct (mem_executions m !! _) eqn:Hex; simpl; [done|].
  intros [= <-]. unfold modify; simpl.
  rewrite lookup_insert_eq. split; [|done]. intros [? ?]. congruence.
Qed.

(** over any history an adapter's idempotency key is reserved at most once, and once
    it is, every further reservation returns the recorded execution and changes nothing, so one
    adapter call is made per key; keys of different adapters never collide. *)
Theorem execution_reserved_once ops m log :
  run_ops ops NewMemory = (m, log) →
  NoDup (omap reserved_execution log) ∧
  (∀ record audit outbox,
     executionKey (er_Adapter record) (er_IdempotencyKey record) ∈ omap reserved_execution log →
     ∃ existing, GetExecution (er_Adapter record) (er_IdempotencyKey record) m = Ok existing ∧
       ReserveExecution record audit outbox m = (m, (existing, false))) ∧
  (∀ a1 k1 a2 k2, no_nul a1 = true → no_nul a2 = true →
     executionKey a1 k1 = executionKey a2 k2 → a1 = a2 ∧ k1 = k2).
Proof.
  intros Hrun.
  destruct (takes_once has_execution reserved_execution has_execution_mono has_execution_fresh _ _ _ _ Hrun)
    as [Hnodup Htaken].
  split_and!; [done| |intros *; apply nul_join_inj].
  intros record audit outbox [_ [existing Hex]]%Htaken. exists existing.
  unfold GetExecution, ReserveExecution. by rewrite Hex.
Qed.

(** ** The runner journal *)

Definition nonce_key (r : RunnerActionRecord) : string :=
  runnerNonceKey (ra_TenantID r) (ra_RunnerGroup r) (ra_Nonce r).
Definition idempotency_key (r : RunnerActionRecord) : string :=
  runnerIdempotencyKey (ra_TenantID r) (ra_RunnerGroup r) (ra_IdempotencyKey r).

Definition reserved_action (entry : store_op * bool) : option RunnerActionRecord :=
  match entry with
  | (OpReserveRunnerAction r _, true) => Some r
  | _ => None
  end.

Definition reserved_by (key : RunnerActionRecord → string) (entry : store_op * bool) : option string :=
  key <$> reserved_action entry.

Definition has_nonce (k : string) (m : Memory) : Prop := is_Some (mem_runnerActions m !! k).
Definition has_key (k : string) (m : Memory) : Prop := is_Some (mem_runnerByKey m !! k).

Lemma journal_mono op m :
  (∀ k, has_nonce k m → has_nonce k (fst (run_op op m))) ∧ (∀ k, has_key k m → has_key k (fst (run_op op m))).
Proof.
  unfold has_nonce, has_key. destruct op; simpl;
    unfold CreateRunAtomic, UpdateRunAtomic, RebuildProjection, ReserveExecution, CompleteExecution,
      MarkOutboxPublished, ReserveRunnerAction, CompleteRunnerAction, appendAtomic;
    store_cases; try done; split; intros k; try done; rewrite lookup_insert_is_Some'; by right.
Qed.

Lemma journal_fresh op m r :
  reserved_action (op, snd (run_op op m)) = Some r →
  (¬ has_nonce (nonce_key r) m ∧ has_nonce (nonce_key r) (fst (run_op op m))) ∧
  ¬ has_key (idempotency_key r) m ∧ has_key (idempotency_key r) (fst (run_op op m)).
Proof.
  destruct op; simpl; try done.
  unfold has_nonce, has_key, ReserveRunnerAction. store_cases; try done. intros [= <-].
  unfold nonce_key, idempotency_key. rewrite !lookup_insert_eq, <-!eq_None_not_Some. done.
Qed.

Lemma reserved_nonces_once ops m m' log :
  run_ops ops m = (m', log) →
  NoDup (omap (reserved_by nonce_key) log) ∧
  ∀ k, k ∈ omap (reserved_by nonce_key) log → ¬ has_nonce k m ∧ has_nonce k m'.
Proof.
  apply takes_once; [intros ????; by apply journal_mono|].
  intros op m0 k (r & Hr & ->)%fmap_Some. by apply journal_fresh in Hr as [? _].
Qed.

Lemma reserved_keys_once ops m m' log :
  run_ops ops m = (m', log) →
  NoDup (omap (reserved_by idempotency_key) log) ∧
  ∀ k, k ∈ omap (reserved_by idempotency_key) log → ¬ has_key k m ∧ has_key k m'.
Proof.
  apply takes_once; [intros ????; by apply journal_mono|].
  intros op m0 k (r & Hr & ->)%fmap_Some. by apply journal_fresh in Hr as [_ ?].
Qed.

(** C13: over any history the runner journal accepts at most one reservation per nonce
    and at most one per idempotency key (within a tenant and runner group).  A replay with either
    of them is answered from the journal with the record it holds, marked as not new, and changes
    nothing; when the journal is unavailable nothing is reserved at all. *)
Theorem runner_action_reserved_once ops m log :
  forallb op_ok ops = true → run_ops ops NewMemory = (m, log) →
  NoDup (omap (reserved_by nonce_key) log) ∧ NoDup (omap (reserved_by idempotency_key) log) ∧
  ∀ record audit,
    match mem_journalError m with
    | Some err => ReserveRunnerAction record audit m = (m, Err err)
    | None =>
        nonce_key record ∈ omap (reserved_by nonce_key) log ∨
        idempotency_key record ∈ omap (reserved_by idempotency_key) log →
        ∃ n existing, mem_runnerActions m !! n = Some existing ∧
          ReserveRunnerAction record audit m = (m, Ok (existing, false))
    end.
Proof.
  intros Hops Hrun. pose proof (run_ops_inv _ _ _ _ Hops NewMemory_inv Hrun) as Hinv.
  destruct (reserved_nonces_once _ _ _ _ Hrun) as [Hnd1 Hn].
  destruct (reserved_keys_once _ _ _ _ Hrun) as [Hnd2 Hk].
  split_and!; [done..|]. intros record audit. unfold ReserveRunnerAction.
  destruct (mem_journalError m); [done|].
  fold (nonce_key record) (idempotency_key record).
  destruct (mem_runnerActions m !! nonce_key record) as [existing|] eqn:Hex; [by eauto|].
  intros [[_ [? ?]]%Hn|[_ [n Hkey]]%Hk]; [congruence|].
  rewrite Hkey. destruct (si_keys m Hinv _ _ Hkey) as [existing Hex'].
  exists n, existing. unfold get. by rewrite Hex'.
Qed.

(** ** Outbox delivery *)

Lemma pending_loop_take ty limit events found :
  Z.of_nat (length found) < limit →
  pending_loop ty limit events found =
    found ++ take (Z.to_nat limit - length found) (filter (λ e, is_pending ty e = true) events).
Proof.
  revert found. induction events as [|e events IH]; intros found Hlim; simpl.
  { by rewrite filter_nil, take_nil, app_nil_r. }
  rewrite filter_cons. destruct (is_pending ty e) eqn:He; simpl; [|by apply IH].
  destruct (Z.eqb_spec (Z.of_nat (length (found ++ [e]))) limit) as [Heq|Hne]; rewrite length_app in *; simpl in *.
  - replace (Z.to_nat limit - length found)%nat with 1%nat by lia. simpl. by rewrite take_0.
  - rewrite IH by (rewrite length_app; simpl; lia). rewrite length_app; simpl.
    replace (Z.to_nat limit - length found)%nat with (S (Z.to_nat limit - (length found + 1)))%nat by lia.
    simpl. by rewrite <-app_assoc.
Qed.

Definition pending_events (ty : string) (m : Memory) : list OutboxEvent :=
  filter (λ e, is_pending ty e = true) (mem_outbox m).

Lemma pendingOutbox_take ty limit m :
  pendingOutbox ty limit m =
    if limit <=? 0 then pending_events ty m else take (Z.to_nat limit) (pending_events ty m).
Proof.
  unfold pendingOutbox, pending_events.
  set (out := mem_outbox m). set (p := filter _ out).
  assert (length p ≤ length out)%nat by apply length_filter.
  destruct (decide (out = [])) as [Hnil|Hne].
  { subst p. rewrite Hnil. destruct (limit <=? 0); simpl; by rewrite ?filter_nil, ?take_nil. }
  assert (0 < Z.of_nat (length out)) by (destruct out; simpl in *; [done|lia]).
  rewrite pending_loop_take; simpl; [|destruct (Z.leb_spec limit 0), (Z.ltb_spec (Z.of_nat (length out)) limit); simpl; lia].
  rewrite Nat.sub_0_r. fold p.
  destruct (Z.leb_spec limit 0); simpl; [by rewrite take_ge by lia|].
  destruct (Z.ltb_spec (Z.of_nat (length out)) limit); [|done].
  by rewrite !take_ge by lia.
Qed.

Lemma mark_published_filter ty id t events :
  NoDup (ob_ID <$> events) → id ∈ ob_ID <$> events →
  ∃ events', mark_published id t events = Some events' ∧ ob_ID <$> events' = ob_ID <$> events ∧
    filter (λ e, is_pending ty e = true) events' =
      filter (λ e, ob_ID e ≠ id) (filter (λ e, is_pending ty e = true) events).
Proof.
  induction events as [|e events IH]; csimpl; [by intros _ ?%elem_of_nil|].
  rewrite NoDup_cons. intros [He Hnd] Hin. case_bool_decide as Hid.
  - subst id. eexists; split_and!; [done..|].
    assert (filter (λ x, ob_ID x ≠ ob_ID e) (filter (λ e, is_pending ty e = true) events) =
            filter (λ e, is_pending ty e = true) events) as Hrest.
    { apply filter_all. intros x [_ Hx]%list_elem_of_filter Heq. apply He. rewrite <-Heq.
      by apply list_elem_of_fmap_2. }
    rewrite !(filter_cons (λ e, is_pending ty e = true)), decide_False by done.
    destruct (decide (is_pending ty e = true)); [|done].
    by rewrite filter_cons, decide_False by naive_solver.
  - apply elem_of_cons in Hin as [->|Hin]; [done|].
    destruct (IH Hnd Hin) as (l & -> & Hids & Hf). eexists; split_and!; [done|csimpl; by rewrite Hids|].
    rewrite !filter_cons, Hf. case_decide; [|done]. rewrite filter_cons, decide_True by done. done.
Qed.

(** the outbox is polled in the order the events were written (all of the pending
    events of the type, or the first [limit] of them), and marking one as published succeeds and
    removes exactly that event from every later poll, leaving the order of the rest. *)
Theorem outbox_delivery ty limit m t event :
  NoDup (ob_ID <$> mem_outbox m) → event ∈ pendingOutbox ty limit m →
  pendingOutbox ty limit m =
    (if limit <=? 0 then pending_events ty m else take (Z.to_nat limit) (pending_events ty m)) ∧
  ∃ m', MarkOutboxPublished (ob_ID event) t m = (m', Ok tt) ∧
    ob_ID <$> mem_outbox m' = ob_ID <$> mem_outbox m ∧ mem_runs m' = mem_runs m ∧
    ∀ ty', pendingOutbox ty' 0 m' = filter (λ e, ob_ID e ≠ ob_ID event) (pendingOutbox ty' 0 m).
Proof.
  intros Hnd Hin. split; [apply pendingOutbox_take|].
  assert (ob_ID event ∈ ob_ID <$> mem_outbox m) as Hid.
  { apply list_elem_of_fmap_2. rewrite pendingOutbox_take in Hin.
    assert (event ∈ pending_events ty m) as Hp.
    { destruct (limit <=? 0); [done|]. apply list_elem_of_lookup in Hin as [i Hi].
      apply lookup_take_Some in Hi as [Hi _]. by eapply list_elem_of_lookup_2. }
    by apply list_elem_of_filter in Hp as [_ Hp]. }
  destruct (mark_published_filter ty (ob_ID event) t _ Hnd Hid) as (l & Hl & Hids & _).
  unfold MarkOutboxPublished. rewrite Hl. eexists; split_and!; [done|done|done|].
  intros ty'. rewrite !pendingOutbox_take. simpl. unfold pending_events.
  destruct (mark_published_filter ty' (ob_ID event) t _ Hnd Hid) as (l' & Hl' & _ & Hf).
  simplify_eq. done.
Qed.

(** ** Examples *)

Definition demo_run (id request : string) : ReleaseRun :=
  zero_ReleaseRun <| run_ID := id |> <| run_RequestID := request |> <| run_StateVersion := 1 |>
    <| run_Status := RunPending |>.

Definition demo_event (id ty : string) : OutboxEvent :=
  {| ob_ID := id; ob_AggregateType := "release_run"; ob_AggregateID := "run-1"; ob_EventType := ty;
     ob_Payload := ∅; ob_PayloadRun := None; ob_CreatedAt := 0; ob_AvailableAt := 0;
     ob_PublishedAt := None; ob_Attempts := 0 |}.

Definition demo_audit (action : string) : AuditEvent :=
  {| ae_ID := "audit-1"; ae_CorrelationID := "run-1"; ae_ActorType := "user"; ae_ActorID := "alice";
     ae_DelegatedBy := ""; ae_Action := action; ae_ResourceType := "release_run";
     ae_ResourceID := "run-1"; ae_Result := "ok"; ae_Details := ∅; ae_Timestamp := 0 |}.

Definition demo_record (nonce key : string) : RunnerActionRecord :=
  zero_RunnerActionRecord <| ra_TenantID := "acme" |> <| ra_RunnerGroup := "prod" |>
    <| ra_Nonce := nonce |> <| ra_IdempotencyKey := key |>.

Definition demo_execution (key : string) : ExecutionRecord :=
  {| er_ID := key; er_RunID := "run-1"; er_Service := "api"; er_Adapter := "github"; er_IdempotencyKey := key;
     er_Status := ""; er_ExternalExecutionID := ""; er_Payload := ∅; er_StateVersion := 0;
     er_CreatedAt := 0; er_UpdatedAt := 0 |}.

(** Two runs, a competing creation, a stale and a current update, reservations and replays. *)
Definition demo_ops : list store_op :=
  [OpCreateRun (demo_run "run-1" "req-1") [demo_audit "release.create"] [demo_event "evt-1" "release.workflow.requested"];
   OpCreateRun (demo_run "run-2" "req-2") [] [];
   OpCreateRun (demo_run "run-3" "req-1") [] [];
   OpUpdateRun ((demo_run "run-1" "req-1") <| run_Status := RunRunning |>) 1 [] [];
   OpUpdateRun ((demo_run "run-1" "req-1") <| run_Status := RunFailed |>) 1 [] [];
   OpReserveExecution (demo_execution "k1") (demo_audit "deploy") (demo_event "evt-2" "execution");
   OpReserveExecution (demo_execution "k1") (demo_audit "deploy") (demo_event "evt-3" "execution");
   OpReserveRunnerAction (demo_record "n1" "k1") (demo_audit "runner");
   OpReserveRunnerAction (demo_record "n2" "k1") (demo_audit "runner");
   OpReserveRunnerAction (demo_record "n2" "k2") (demo_audit "runner")].

Definition demo_store : Memory := fst (run_ops demo_ops NewMemory).
Definition demo_log : list (store_op * bool) := snd (run_ops demo_ops NewMemory).

Example demo_log_effects :
  demo_log.*2 = [true; true; false; true; false; true; false; true; false; true].
Proof. by vm_compute. Qed.

Lemma demo_store_inv : store_inv demo_store.
Proof.
  apply (run_ops_inv demo_ops NewMemory _ demo_log); [by vm_compute|apply NewMemory_inv|].
  apply surjective_pairing.
Qed.

Definition demo_later : list store_op :=
  [OpUpdateRun (demo_run "run-2" "req-2") 1 [] []; OpAppendAudit (demo_audit "note")].

Definition demo_read : ReleaseRun :=
  (demo_run "run-1" "req-1") <| run_Status := RunRunning |> <| run_StateVersion := 2 |>.

Definition demo_after : Memory := fst (run_ops demo_later demo_store).
Definition demo_later_log : list (store_op * bool) := snd (run_ops demo_later demo_store).

Lemma update_no_lost_update_witness :
  is_ok (snd (UpdateRunAtomic demo_read (run_StateVersion demo_read) [] [] demo_after)) =
  bool_decide (updates "run-1" demo_later_log = 0).
Proof.
  apply (update_no_lost_update demo_later demo_store demo_after demo_later_log "run-1" demo_read demo_read [] []).
  - by vm_compute.
  - apply demo_store_inv.
  - by vm_compute.
  - by vm_compute.
  - apply surjective_pairing.
  - by vm_compute.
  - done.
Defined.

Lemma store_replay_faithful_witness : replay (mem_outbox demo_store) = mem_runs demo_store.
Proof. refine (proj1 (store_replay_faithful demo_ops demo_store demo_log _ _)); [by vm_compute|apply surjective_pairing]. Defined.

Lemma create_run_idempotent_witness : NoDup (omap created_request demo_log).*1.
Proof.
  refine (proj1 (create_run_idempotent demo_ops demo_store demo_log (demo_run "run-1" "req-1")
    [demo_audit "release.create"] [demo_event "evt-1" "release.workflow.requested"] _ _ _));
    [by vm_compute|apply surjective_pairing|].
  left.
Defined.

Lemma execution_reserved_once_witness : NoDup (omap reserved_execution demo_log).
Proof. refine (proj1 (execution_reserved_once demo_ops demo_store demo_log _)); apply surjective_pairing. Defined.

Lemma runner_action_reserved_once_witness : NoDup (omap (reserved_by nonce_key) demo_log).
Proof. refine (proj1 (runner_action_reserved_once demo_ops demo_store demo_log _ _)); [by vm_compute|apply surjective_pairing]. Defined.

Lemma outbox_delivery_witness :
  pendingOutbox "execution" 1 demo_store = [demo_event "evt-2" "execution"] ∧
  ∃ m', MarkOutboxPublished "evt-2" 5 demo_store = (m', Ok tt).
Proof.
  split; [by vm_compute|].
  destruct (outbox_delivery "execution" 1 demo_store 5 (demo_event "evt-2" "execution")) as (_ & m' & H & _).
  - apply (bool_decide_unpack (NoDup (ob_ID <$> mem_outbox demo_store))). by vm_compute.
  - apply (bool_decide_unpack (_ ∈ pendingOutbox "execution" 1 demo_store)). by vm_compute.
  - by exists m'.
Defined.
