(* ===== verification/Policy.v ===== *)
(** * Policy (src/internal/policy, src/policies/baseline/main.rego)

    The canonical policy input and its hash, the built-in evaluator, the wrapper
    around an OPA query, the embedded baseline policy, and the engine that turns
    an evaluation, or its failure, into a decision.  The OPA library is not part
    of the repository: a prepared query is a parameter, a function from the input
    to a result set. *)
From S2P Require Import Prelude GoStd Json Sha256 Domain Protocol.
From Stdlib Require Import Ascii.
Open Scope Z_scope.

(** ** input.go *)

Definition InputVersionV1Alpha1 : string := "themisy.policy.input/v1alpha1".

(** [Input] *)
Record Input := {
  pi_Version : string;
  pi_TenantID : string;
  pi_RunnerGroup : string;
  pi_SubjectType : string;
  pi_UserID : string;
  pi_UserIssuer : string;
  pi_AgentID : string;
  pi_DelegationRef : string;
  pi_AgentScopes : list string;
  pi_Environment : Environment;
  pi_Service : string;
  pi_Capability : string;
  pi_ArtifactDigest : string;
  pi_Risk : string;
  pi_PlanHash : string;
  pi_ContractHash : string;
  pi_ProfileHash : string;
  pi_PolicyHash : string;
  pi_EvidenceHash : string;
  pi_ApprovalProofs : list string;
  pi_CISuccess : bool;
  pi_DependenciesHealthy : bool;
  pi_DestructiveMigration : bool;
}.

#[export] Instance eta_Input : Eta Input := λ r,
  {| pi_Version := pi_Version r; pi_TenantID := pi_TenantID r; pi_RunnerGroup :=
     pi_RunnerGroup r; pi_SubjectType := pi_SubjectType r; pi_UserID := pi_UserID r;
     pi_UserIssuer := pi_UserIssuer r; pi_AgentID := pi_AgentID r; pi_DelegationRef :=
     pi_DelegationRef r; pi_AgentScopes := pi_AgentScopes r; pi_Environment :=
     pi_Environment r; pi_Service := pi_Service r; pi_Capability := pi_Capability r;
     pi_ArtifactDigest := pi_ArtifactDigest r; pi_Risk := pi_Risk r; pi_PlanHash :=
     pi_PlanHash r; pi_ContractHash := pi_ContractHash r; pi_ProfileHash := pi_ProfileHash
     r; pi_PolicyHash := pi_PolicyHash r; pi_EvidenceHash := pi_EvidenceHash r;
     pi_ApprovalProofs := pi_ApprovalProofs r; pi_CISuccess := pi_CISuccess r;
     pi_DependenciesHealthy := pi_DependenciesHealthy r; pi_DestructiveMigration :=
     pi_DestructiveMigration r |}.

#[export] Instance Input_eq_dec : EqDecision Input.
Proof. solve_decision. Defined.

Definition zero_Input : Input :=
  {| pi_Version := ""; pi_TenantID := ""; pi_RunnerGroup := ""; pi_SubjectType := ""; pi_UserID := "";
     pi_UserIssuer := ""; pi_AgentID := ""; pi_DelegationRef := ""; pi_AgentScopes := [];
     pi_Environment := ""; pi_Service := ""; pi_Capability := ""; pi_ArtifactDigest := "";
     pi_Risk := ""; pi_PlanHash := ""; pi_ContractHash := ""; pi_ProfileHash := "";
     pi_PolicyHash := ""; pi_EvidenceHash := ""; pi_ApprovalProofs := []; pi_CISuccess := false;
     pi_DependenciesHealthy := false; pi_DestructiveMigration := false |}.

Definition NormalizeInput (input : Input) : Input :=
  let input := if bool_decide (pi_Version input = "")
               then input <| pi_Version := InputVersionV1Alpha1 |> else input in
  input <| pi_ApprovalProofs ::= sort_Strings |>.

(** The JSON fields of [Input]; [AgentScopes] and [DestructiveMigration] are tagged [-]. *)
Definition Input_fields (i : Input) : list (string * json) :=
  string_omit "version" (pi_Version i) ++
  string_omit "tenant_id" (pi_TenantID i) ++
  string_omit "runner_group" (pi_RunnerGroup i) ++
  string_omit "subject_type" (pi_SubjectType i) ++
  field "user_id" (JString (pi_UserID i)) ++
  string_omit "user_issuer" (pi_UserIssuer i) ++
  field "agent_id" (JString (pi_AgentID i)) ++
  string_omit "delegation_ref" (pi_DelegationRef i) ++
  field "environment" (JString (pi_Environment i)) ++
  field "service" (JString (pi_Service i)) ++
  string_omit "capability" (pi_Capability i) ++
  string_omit "artifact_digest" (pi_ArtifactDigest i) ++
  field "risk" (JString (pi_Risk i)) ++
  string_omit "plan_hash" (pi_PlanHash i) ++
  string_omit "contract_hash" (pi_ContractHash i) ++
  string_omit "profile_hash" (pi_ProfileHash i) ++
  string_omit "policy_hash" (pi_PolicyHash i) ++
  string_omit "evidence_hash" (pi_EvidenceHash i) ++
  slice_omit "approval_proofs" JString (pi_ApprovalProofs i) ++
  field "ci_success" (JBool (pi_CISuccess i)) ++
  field "dependencies_healthy" (JBool (pi_DependenciesHealthy i)).

Definition Input_json (i : Input) : json := JObject (Input_fields i).

Definition CanonicalInput (input : Input) : string := encode (Input_json (NormalizeInput input)).

Definition InputHash (input : Input) : string := sha256_ref (CanonicalInput input).

(** The inner loop of [InputForRelease]: the first step of the phase for the service. *)
Definition phase_step (service : string) (phase : PlanPhase) : option PlanStep :=
  head (filter (λ planned, ps_Service planned = service) (ph_Steps phase)).

(** The outer loop: [break] leaves the inner loop only, so a later phase overrides. *)
Definition pin_hashes (service : string) (input : Input) (phase : PlanPhase) : Input :=
  match phase_step service phase with
  | Some planned => input <| pi_ContractHash := ps_ContractHash planned |>
                          <| pi_ProfileHash := ps_ProfileHash planned |>
  | None => input
  end.

Definition InputForRelease (run : ReleaseRun) (step : ReleaseStep) : Input :=
  let result :=
    {| pi_Version := InputVersionV1Alpha1; pi_TenantID := run_TenantID run;
       pi_RunnerGroup := run_RunnerGroup run; pi_SubjectType := run_SubjectType run;
       pi_UserID := run_RequestedBy run; pi_UserIssuer := run_SubjectIssuer run;
       pi_AgentID := agent_ID (run_Agent run); pi_DelegationRef := run_DelegationRef run;
       pi_AgentScopes := agent_Scopes (run_Agent run); pi_Environment := run_Environment run;
       pi_Service := st_Service step; pi_Capability := protocol.CapabilityDeploy;
       pi_ArtifactDigest := ch_DesiredVersion (st_Change step); pi_Risk := ch_Risk (st_Change step);
       pi_PlanHash := plan_Hash (run_Plan run); pi_ContractHash := ""; pi_ProfileHash := "";
       pi_PolicyHash := plan_PolicyHash (run_Plan run);
       pi_EvidenceHash := plan_EvidenceHash (run_Plan run); pi_ApprovalProofs := [];
       pi_CISuccess := ch_CISuccess (st_Change step);
       pi_DependenciesHealthy := ch_DependenciesHealthy (st_Change step);
       pi_DestructiveMigration := ch_DestructiveMigration (st_Change step) |} in
  let result := foldl (pin_hashes (st_Service step)) result (plan_Phases (run_Plan run)) in
  let result :=
    match st_Approval step with
    | Some approval =>
        if bool_decide (ap_Status approval = ApprovalApproved)
        then result <| pi_ApprovalProofs := [ap_ID approval] |> else result
    | None => result
    end in
  NormalizeInput result.

Definition InputForGrant (grant : ActionGrant)
    (userIssuer verifiedUser verifiedAgent verifiedDelegation : string) : Input :=
  NormalizeInput
    {| pi_Version := InputVersionV1Alpha1; pi_TenantID := gr_TenantID grant;
       pi_RunnerGroup := gr_RunnerGroup grant; pi_SubjectType := gr_SubjectType grant;
       pi_UserID := verifiedUser; pi_UserIssuer := userIssuer; pi_AgentID := verifiedAgent;
       pi_DelegationRef := verifiedDelegation; pi_AgentScopes := [];
       pi_Environment := tg_Environment (gr_Target grant); pi_Service := tg_Service (gr_Target grant);
       pi_Capability := an_Capability (gr_Action grant);
       pi_ArtifactDigest := an_ArtifactDigest (gr_Action grant); pi_Risk := gr_Risk grant;
       pi_PlanHash := gr_PlanHash grant; pi_ContractHash := gr_ContractHash grant;
       pi_ProfileHash := gr_ProfileHash grant; pi_PolicyHash := gr_PolicyHash grant;
       pi_EvidenceHash := gr_EvidenceHash grant; pi_ApprovalProofs := gr_ApprovalProofs grant;
       pi_CISuccess := true; pi_DependenciesHealthy := true; pi_DestructiveMigration := false |}.

(** ** engine.go: evaluations and evaluators *)

(** [Evaluation] *)
Record Evaluation := {
  eval_Decision : Decision;
  eval_Reasons : list string;
  eval_RequiredRoles : list string;
  eval_InputHash : string;
  eval_PolicyVersion : string;
  eval_PolicyHash : string;
}.

(** The interface [Evaluator]; [evaluator_hash] is its optional method [PolicyHash]. *)
Record Evaluator := {
  evaluate : Input → result error Evaluation;
  evaluator_hash : option string;
}.

(** [Engine]; a nil engine and an engine without evaluator are the same to its callers. *)
Record PolicyEngine := { pe_evaluator : option Evaluator }.

Definition NewEngine (evaluator : Evaluator) : PolicyEngine := {| pe_evaluator := Some evaluator |}.

Definition EvaluateContext (e : PolicyEngine) (input : Input) : result error Evaluation :=
  match pe_evaluator e with
  | None => Err (Errorf "POLICY_UNAVAILABLE" None)
  | Some evaluator => evaluate evaluator (NormalizeInput input)
  end.

Definition PolicyHash (e : PolicyEngine) : string :=
  match pe_evaluator e with
  | None => ""
  | Some evaluator => default "" (evaluator_hash evaluator)
  end.

(** [Engine.Evaluate] at the time [createdAt]. *)
Definition PolicyEngine_Evaluate (e : PolicyEngine) (input : Input) (createdAt : time) : PolicyDecision :=
  match EvaluateContext e input with
  | Err err =>
      {| pd_Decision := DecisionDeny; pd_PolicyVersion := "unavailable";
         pd_ReasonCode := "POLICY_UNAVAILABLE"; pd_ReasonDetail := Error err; pd_RequiredRoles := [];
         pd_InputHash := InputHash input; pd_CreatedAt := createdAt |}
  | Ok evaluation =>
      {| pd_Decision := eval_Decision evaluation; pd_PolicyVersion := eval_PolicyVersion evaluation;
         pd_ReasonCode := default "POLICY_ALLOW" (head (eval_Reasons evaluation));
         pd_ReasonDetail := Join (eval_Reasons evaluation) ", ";
         pd_RequiredRoles := eval_RequiredRoles evaluation;
         pd_InputHash := eval_InputHash evaluation; pd_CreatedAt := createdAt |}
  end.

(** ** policy.go: the built-in evaluator *)

Definition policy_Version : string := "builtin-v1".

Definition containsString (values : list string) (expected : string) : bool :=
  existsb (λ value, bool_decide (value = expected)) values.

(** The switch: decision, reasons and required roles. *)
Definition builtin_decision (input : Input) : Decision * list string * list string :=
  if bool_decide (pi_UserID input = "") || bool_decide (pi_AgentID input = "")
  then (DecisionDeny, ["MISSING_SUBJECT"], [])
  else if negb (containsString (pi_AgentScopes input) "release:deploy")
  then (DecisionDeny, ["MISSING_DELEGATED_SCOPE"], [])
  else if bool_decide (pi_Environment input = EnvironmentProduction) &&
          negb (containsString (pi_AgentScopes input) "release:production")
  then (DecisionDeny, ["MISSING_PRODUCTION_SCOPE"], [])
  else if negb (pi_CISuccess input) then (DecisionDeny, ["CI_NOT_SUCCESSFUL"], [])
  else if negb (pi_DependenciesHealthy input) then (DecisionDeny, ["DEPENDENCIES_UNHEALTHY"], [])
  else if pi_DestructiveMigration input
  then (DecisionRequireApproval, ["DESTRUCTIVE_DB_MIGRATION"], ["service-owner"; "sre"])
  else if bool_decide (pi_Risk input = "high")
  then (DecisionRequireApproval, ["HIGH_BLAST_RADIUS"], ["service-owner"])
  else (DecisionAllow, ["POLICY_ALLOW"], []).

Definition builtin_Evaluate (input : Input) : result error Evaluation :=
  let '(decision, reasons, requiredRoles) := builtin_decision input in
  Ok {| eval_Decision := decision; eval_Reasons := reasons; eval_RequiredRoles := requiredRoles;
        eval_InputHash := InputHash input; eval_PolicyVersion := policy_Version; eval_PolicyHash := "" |}.

Definition builtinEvaluator : Evaluator := {| evaluate := builtin_Evaluate; evaluator_hash := None |}.

(** [policy.New] *)
Definition policy_New : PolicyEngine := NewEngine builtinEvaluator.

(** ** opa.go: evaluation through a prepared query *)

(** The values of a result set, as the OPA library decodes them. *)
Inductive rego_value :=
| RNull
| RBool (b : bool)
| RNumber (n : Z)
| RString (s : string)
| RArray (l : list rego_value)
| RObject (m : list (string * rego_value)).

(** [object[key]] on a [map[string]any]; a missing key reads as nil. *)
Fixpoint rego_get (m : list (string * rego_value)) (key : string) : rego_value :=
  match m with
  | [] => RNull
  | (k, v) :: m => if bool_decide (k = key) then v else rego_get m key
  end.

(** [stableReasonCode]: an upper case letter followed by 2 to 63 upper case letters, digits or underscores. *)
Definition stableReasonCode (s : string) : bool :=
  match s with
  | EmptyString => false
  | String c t =>
      is_upper c && (2 <=? String.length t)%nat && (String.length t <=? 63)%nat &&
      string_forall (λ d, is_upper d || is_digit d || Ascii.eqb d "_"%char) t
  end.

(** The loop of [stringSlice]. *)
Fixpoint reason_texts (values : list rego_value) : result error (list string) :=
  match values with
  | [] => Ok []
  | RString text :: values =>
      if stableReasonCode text
      then match reason_texts values with Ok l => Ok (text :: l) | Err e => Err e end
      else Err (Errorf "POLICY_UNAVAILABLE: reason is invalid" None)
  | _ :: _ => Err (Errorf "POLICY_UNAVAILABLE: reason is invalid" None)
  end.

Definition stringSlice (value : rego_value) : result error (list string) :=
  match value with
  | RArray values => reason_texts values
  | _ => Err (Errorf "POLICY_UNAVAILABLE: reasons are invalid" None)
  end.

(** The loop of [optionalStringSlice]. *)
Fixpoint role_texts (values : list rego_value) : result error (list string) :=
  match values with
  | [] => Ok []
  | RString text :: values =>
      if bool_decide (text = "") then Err (Errorf "POLICY_UNAVAILABLE: required role is invalid" None)
      else match role_texts values with Ok l => Ok (text :: l) | Err e => Err e end
  | _ :: _ => Err (Errorf "POLICY_UNAVAILABLE: required role is invalid" None)
  end.

Definition optionalStringSlice (value : rego_value) : result error (list string) :=
  match value with
  | RNull => Ok []
  | RArray values => match role_texts values with Ok l => Ok (sort_Strings l) | Err e => Err e end
  | _ => Err (Errorf "POLICY_UNAVAILABLE: required roles are invalid" None)
  end.

(** [OPA]: the prepared query returns the values of each result's expressions, or an error. *)
Record OPA := {
  opa_query : Input → result error (list (list rego_value));
  opa_bundleVersion : string;
  opa_bundleHash : string;
}.

(** The object of the single expression of the single result. *)
Definition query_object (r : result error (list (list rego_value))) :
    result error (list (string * rego_value)) :=
  let invalid text w := Err (Errorf ("POLICY_UNAVAILABLE: invalid OPA result: " +:+ text) w) in
  match r with
  | Err err => invalid (Error err) (Some err)
  | Ok [[RObject object]] => Ok object
  | Ok [[_]] => Err (Errorf "POLICY_UNAVAILABLE: result is not an object" None)
  | Ok _ => invalid "%!w(<nil>)" None
  end.

Definition OPA_Evaluate (o : OPA) (input : Input) : result error Evaluation :=
  let input := NormalizeInput input in
  match query_object (opa_query o input) with
  | Err e => Err e
  | Ok object =>
      match rego_get object "allow" with
      | RBool allowed =>
          match stringSlice (rego_get object "reasons") with
          | Err e => Err e
          | Ok reasons =>
              let reasons := sort_Strings reasons in
              let requireApproval := match rego_get object "require_approval" with RBool b => b | _ => false end in
              let '(decision, reasons) :=
                if allowed then (DecisionAllow, if decide (reasons = []) then ["POLICY_ALLOW"] else reasons)
                else if requireApproval then (DecisionRequireApproval, reasons)
                else (DecisionDeny, reasons) in
              match optionalStringSlice (rego_get object "required_roles") with
              | Err e => Err e
              | Ok requiredRoles =>
                  Ok {| eval_Decision := decision; eval_Reasons := reasons;
                        eval_RequiredRoles :=
                          if bool_decide (decision = DecisionRequireApproval) then requiredRoles else [];
                        eval_InputHash := InputHash input; eval_PolicyVersion := opa_bundleVersion o;
                        eval_PolicyHash := opa_bundleHash o |}
              end
          end
      | _ => Err (Errorf "POLICY_UNAVAILABLE: allow is missing" None)
      end
  end.

Definition OPA_Evaluator (o : OPA) : Evaluator :=
  {| evaluate := OPA_Evaluate o; evaluator_hash := Some (opa_bundleHash o) |}.

(** ** policies/baseline/main.rego

    The input document is the JSON of [Input]; a reference to a missing key is
    undefined and makes its rule body fail. *)

Fixpoint input_ref (fields : list (string * json)) (key : string) : option json :=
  match fields with
  | [] => None
  | (k, v) :: fields => if bool_decide (k = key) then Some v else input_ref fields key
  end.

(** [input.key == s] *)
Definition input_is (fields : list (string * json)) (key s : string) : bool :=
  match input_ref fields key with Some (JString t) => bool_decide (t = s) | _ => false end.

(** [input.key != s]: undefined, hence false, when the key is missing. *)
Definition input_differs (fields : list (string * json)) (key s : string) : bool :=
  match input_ref fields key with
  | Some (JString t) => negb (bool_decide (t = s))
  | Some _ => true
  | None => false
  end.

(** [startswith(object.get(input, key, ""), "sha256:")] *)
Definition pinned (fields : list (string * json)) (key : string) : bool :=
  match input_ref fields key with Some (JString t) => HasPrefix t "sha256:" | _ => false end.

Definition baseline_deny (fields : list (string * json)) : list string :=
  let production := input_is fields "environment" "production" in
  let rule (body : bool) (reason : string) := if body then [reason] else [] in
  rule (input_is fields "user_id" "") "MISSING_SUBJECT" ++
  rule (input_is fields "agent_id" "") "MISSING_AGENT" ++
  rule (production && negb (input_is fields "subject_type" "user" || input_is fields "subject_type" "ci"))
    "INVALID_SUBJECT_TYPE" ++
  rule (production && input_is fields "delegation_ref" "") "MISSING_DELEGATION" ++
  rule (input_differs fields "version" "themisy.policy.input/v1alpha1") "UNSUPPORTED_POLICY_INPUT" ++
  rule (production && existsb (λ key, negb (pinned fields key))
          ["plan_hash"; "contract_hash"; "profile_hash"; "policy_hash"; "evidence_hash"])
    "MISSING_PINNED_CONTEXT".

Definition baseline_approval_required (fields : list (string * json)) : list string :=
  let no_proofs := match input_ref fields "approval_proofs" with
                   | Some (JArray l) => bool_decide (length l = 0%nat)
                   | _ => true
                   end in
  if input_is fields "risk" "high" && no_proofs then ["MISSING_APPROVAL_PROOF"] else [].

Definition baseline_decision (fields : list (string * json)) : rego_value :=
  let deny := baseline_deny fields in
  let approval_required := baseline_approval_required fields in
  let empty (l : list string) := bool_decide (l = []) in
  RObject
    [("allow", RBool (empty deny && empty approval_required));
     ("require_approval", RBool (empty deny && negb (empty approval_required)));
     ("reasons", RArray (RString <$> sort_Strings (sort_Strings deny ++ sort_Strings approval_required)));
     ("required_roles", RArray [RString "service-owner"])].

(** [NewMandatoryEngine]: the engine over the embedded baseline. *)
Definition baseline_OPA (bundleHash : string) : OPA :=
  {| opa_query := λ input, Ok [[baseline_decision (Input_fields input)]];
     opa_bundleVersion := "embedded-baseline-v1"; opa_bundleHash := bundleHash |}.

Definition NewMandatoryEngine (bundleHash : string) : PolicyEngine :=
  NewEngine (OPA_Evaluator (baseline_OPA bundleHash)).


(** ** Reading the input document *)

Lemma input_ref_app l1 l2 k :
  input_ref (l1 ++ l2) k = match input_ref l1 k with Some v => Some v | None => input_ref l2 k end.
Proof. induction l1 as [|[k' v] l1 IH]; simpl; [done|]. case_bool_decide; [done|apply IH]. Qed.

Lemma input_ref_omit_eq n s : input_ref (string_omit n s) n = if bool_decide (s = "") then None else Some (JString s).
Proof.
  unfold string_omit, field_omit. case_bool_decide; simpl; [done|]. by rewrite bool_decide_eq_true_2.
Qed.

Lemma input_ref_omit_ne n s k : n ≠ k → input_ref (string_omit n s) k = None.
Proof.
  intros Hn. unfold string_omit, field_omit. case_bool_decide; simpl; [done|].
  by rewrite bool_decide_eq_false_2.
Qed.

Lemma input_ref_field_eq n v : input_ref (field n v) n = Some v.
Proof. unfold field; simpl. by rewrite bool_decide_eq_true_2. Qed.

Lemma input_ref_field_ne n v k : n ≠ k → input_ref (field n v) k = None.
Proof. intros Hn. unfold field; simpl. by rewrite bool_decide_eq_false_2. Qed.

Lemma input_ref_slice_eq n l :
  input_ref (slice_omit n JString l) n = if bool_decide (l = []) then None else Some (JArray (JString <$> l)).
Proof. destruct l; simpl; [done|]. by rewrite bool_decide_eq_true_2. Qed.

Lemma input_ref_slice_ne n l k : n ≠ k → input_ref (slice_omit n JString l) k = None.
Proof. intros Hn. destruct l; simpl; [done|]. by rewrite bool_decide_eq_false_2. Qed.

(** A key with [omitempty]: absent when the value is empty. *)
Definition present (s : string) : option json := if bool_decide (s = "") then None else Some (JString s).

(** Computes [input_ref (Input_fields i) k] for a literal [k]. *)
Ltac input_refs :=
  unfold Input_fields;
  rewrite !input_ref_app;
  repeat first
    [ rewrite input_ref_omit_eq | rewrite input_ref_field_eq | rewrite input_ref_slice_eq
    | rewrite input_ref_omit_ne by done | rewrite input_ref_field_ne by done
    | rewrite input_ref_slice_ne by done ];
  unfold present; try done; by case_bool_decide.

Lemma ref_version i : input_ref (Input_fields i) "version" = present (pi_Version i).
Proof. input_refs. Qed.
Lemma ref_user i : input_ref (Input_fields i) "user_id" = Some (JString (pi_UserID i)).
Proof. input_refs. Qed.
Lemma ref_agent i : input_ref (Input_fields i) "agent_id" = Some (JString (pi_AgentID i)).
Proof. input_refs. Qed.
Lemma ref_environment i : input_ref (Input_fields i) "environment" = Some (JString (pi_Environment i)).
Proof. input_refs. Qed.
Lemma ref_risk i : input_ref (Input_fields i) "risk" = Some (JString (pi_Risk i)).
Proof. input_refs. Qed.
Lemma ref_subject i : input_ref (Input_fields i) "subject_type" = present (pi_SubjectType i).
Proof. input_refs. Qed.
Lemma ref_delegation i : input_ref (Input_fields i) "delegation_ref" = present (pi_DelegationRef i).
Proof. input_refs. Qed.
Lemma ref_plan i : input_ref (Input_fields i) "plan_hash" = present (pi_PlanHash i).
Proof. input_refs. Qed.
Lemma ref_contract i : input_ref (Input_fields i) "contract_hash" = present (pi_ContractHash i).
Proof. input_refs. Qed.
Lemma ref_profile i : input_ref (Input_fields i) "profile_hash" = present (pi_ProfileHash i).
Proof. input_refs. Qed.
Lemma ref_policy i : input_ref (Input_fields i) "policy_hash" = present (pi_PolicyHash i).
Proof. input_refs. Qed.
Lemma ref_evidence i : input_ref (Input_fields i) "evidence_hash" = present (pi_EvidenceHash i).
Proof. input_refs. Qed.
Lemma ref_proofs i :
  input_ref (Input_fields i) "approval_proofs" =
    if bool_decide (pi_ApprovalProofs i = []) then None else Some (JArray (JString <$> pi_ApprovalProofs i)).
Proof. input_refs. Qed.

Create Rewrite HintDb policy_refs.
#[export] Hint Rewrite ref_version ref_user ref_agent ref_environment ref_risk ref_subject ref_delegation
  ref_plan ref_contract ref_profile ref_policy ref_evidence ref_proofs : policy_refs.

Lemma input_is_present fields k v s :
  input_ref fields k = present v → s ≠ "" → input_is fields k s = bool_decide (v = s).
Proof.
  intros Href Hs. unfold input_is. rewrite Href. unfold present. case_bool_decide; [|done].
  subst. by rewrite bool_decide_eq_false_2.
Qed.

Lemma input_is_absent fields k v : input_ref fields k = present v → input_is fields k "" = false.
Proof.
  intros Href. unfold input_is. rewrite Href. unfold present. case_bool_decide; [done|].
  by apply bool_decide_eq_false_2.
Qed.

Lemma pinned_present fields k v :
  input_ref fields k = present v → pinned fields k = HasPrefix v "sha256:".
Proof. intros Href. unfold pinned. rewrite Href. unfold present. case_bool_decide; [by subst|done]. Qed.

(** ** The baseline policy *)

Definition subject_ok (i : Input) : bool :=
  bool_decide (pi_SubjectType i = "user") || bool_decide (pi_SubjectType i = "ci").

Definition context_pinned (i : Input) : bool :=
  forallb (λ hash, HasPrefix hash "sha256:")
    [pi_PlanHash i; pi_ContractHash i; pi_ProfileHash i; pi_PolicyHash i; pi_EvidenceHash i].

(** What the baseline demands before it allows or asks for approval. *)
Definition baseline_admits (i : Input) : bool :=
  negb (bool_decide (pi_UserID i = "")) && negb (bool_decide (pi_AgentID i = "")) &&
  bool_decide (pi_Version i = InputVersionV1Alpha1) &&
  (negb (bool_decide (pi_Environment i = EnvironmentProduction)) || subject_ok i && context_pinned i).

Definition needs_proof (i : Input) : bool :=
  bool_decide (pi_Risk i = "high") && bool_decide (pi_ApprovalProofs i = []).

Lemma baseline_deny_nil i :
  pi_Version i ≠ "" → bool_decide (baseline_deny (Input_fields i) = []) = baseline_admits i.
Proof.
  intros Hv. unfold baseline_deny, baseline_admits, subject_ok, context_pinned.
  rewrite !(input_is_present _ _ _ _ (ref_subject i)), (input_is_absent _ _ _ (ref_delegation i)) by done.
  simpl existsb. rewrite (pinned_present _ _ _ (ref_plan i)), (pinned_present _ _ _ (ref_contract i)),
    (pinned_present _ _ _ (ref_profile i)), (pinned_present _ _ _ (ref_policy i)),
    (pinned_present _ _ _ (ref_evidence i)).
  unfold input_is, input_differs. autorewrite with policy_refs. unfold present.
  rewrite (bool_decide_eq_false_2 (pi_Version i = "")) by done. fold InputVersionV1Alpha1.
  fold EnvironmentProduction. simpl forallb.
  repeat match goal with |- context [bool_decide (?s = ?t)] =>
    lazymatch s with _ ++ _ => fail | _ => destruct (bool_decide (s = t)) end end; simpl; try done.
  all: repeat match goal with |- context [HasPrefix ?s ?t] => destruct (HasPrefix s t); simpl end; done.
Qed.

Lemma baseline_approval_nil i :
  bool_decide (baseline_approval_required (Input_fields i) = []) = negb (needs_proof i).
Proof.
  unfold baseline_approval_required, needs_proof, input_is. autorewrite with policy_refs.
  destruct (bool_decide (pi_Risk i = "high")); [|done].
  destruct (bool_decide (pi_ApprovalProofs i = [])) eqn:Hp; [done|].
  apply bool_decide_eq_false in Hp. rewrite length_fmap.
  rewrite (bool_decide_eq_false_2 (length _ = 0%nat)); [done|]. by destruct (pi_ApprovalProofs i).
Qed.

Lemma reason_texts_ok l : forallb stableReasonCode l = true → reason_texts (RString <$> l) = Ok l.
Proof.
  induction l as [|s l IH]; csimpl; [done|]. intros [Hs Hl]%andb_true_iff.
  by rewrite Hs, IH.
Qed.

Lemma forallb_perm {A} (f : A → bool) l1 l2 : l1 ≡ₚ l2 → forallb f l1 = forallb f l2.
Proof. induction 1; simpl; try congruence. by rewrite !andb_assoc, (andb_comm (f y)). Qed.

Lemma baseline_reasons_ok fields :
  forallb stableReasonCode
    (sort_Strings (sort_Strings (baseline_deny fields) ++ sort_Strings (baseline_approval_required fields))) = true.
Proof.
  rewrite (forallb_perm _ _ _ (sort_Strings_perm _)), forallb_app.
  rewrite !(forallb_perm _ _ _ (sort_Strings_perm _)).
  unfold baseline_deny, baseline_approval_required. rewrite !forallb_app.
  repeat match goal with |- context [if ?b then _ else _] => destruct b end; by vm_compute.
Qed.

Lemma NormalizeInput_version i : pi_Version (NormalizeInput i) ≠ "".
Proof. unfold NormalizeInput, modify; simpl. by case_bool_decide. Qed.

Lemma NormalizeInput_idem i : NormalizeInput (NormalizeInput i) = NormalizeInput i.
Proof.
  unfold NormalizeInput at 1. rewrite bool_decide_eq_false_2 by apply NormalizeInput_version.
  unfold NormalizeInput, modify; case_bool_decide; simpl; by rewrite sort_Strings_idem.
Qed.

Lemma NormalizeInput_migration i : pi_DestructiveMigration (NormalizeInput i) = pi_DestructiveMigration i.
Proof. unfold NormalizeInput, modify. by case_bool_decide. Qed.

(** The decision the embedded baseline reaches, in closed form. *)
Lemma baseline_closed_form bundleHash input t :
  let i := NormalizeInput input in
  pd_Decision (PolicyEngine_Evaluate (NewMandatoryEngine bundleHash) input t) =
    if baseline_admits i then (if needs_proof i then DecisionRequireApproval else DecisionAllow)
    else DecisionDeny.
Proof.
  intros i. unfold PolicyEngine_Evaluate, EvaluateContext, NewMandatoryEngine, NewEngine, OPA_Evaluator.
  cbn [pe_evaluator evaluate]. unfold OPA_Evaluate. rewrite NormalizeInput_idem. fold i.
  unfold baseline_OPA, baseline_decision, query_object. cbn [opa_query]. cbv zeta beta.
  rewrite baseline_deny_nil, baseline_approval_nil by apply NormalizeInput_version.
  pose proof (baseline_reasons_ok (Input_fields i)) as Hreasons.
  set (reasons := sort_Strings (_ ++ _)) in *.
  set (object := [_; _; _; _]). change (rego_get object "reasons") with (RArray (RString <$> reasons)).
  cbn [stringSlice]. rewrite reason_texts_ok by done. subst object.
  by destruct (baseline_admits i), (needs_proof i).
Qed.

(** C26: on every input the engine over the embedded baseline allows exactly when a
    user and an agent are named, the input version is the supported one, a production input has a
    subject of a known type and all five pinned hashes, and a high-risk change carries an approval
    proof; without that proof it asks for approval, and in every other case it denies. *)
Theorem baseline_decides bundleHash input t :
  let i := NormalizeInput input in
  pd_Decision (PolicyEngine_Evaluate (NewMandatoryEngine bundleHash) input t) =
    if baseline_admits i then (if needs_proof i then DecisionRequireApproval else DecisionAllow)
    else DecisionDeny.
Proof. apply baseline_closed_form. Qed.

(** the baseline's rule that denies a production release without a delegation
    reference never fires: the field is left out of the input document when it is empty, the
    comparison with the empty string is then undefined, and the decision does not depend on the
    delegation reference at all. *)
Theorem baseline_ignores_delegation bundleHash input ref t :
  pd_Decision (PolicyEngine_Evaluate (NewMandatoryEngine bundleHash) (input <| pi_DelegationRef := ref |>) t) =
  pd_Decision (PolicyEngine_Evaluate (NewMandatoryEngine bundleHash) input t).
Proof.
  rewrite !baseline_closed_form. unfold NormalizeInput, modify; simpl. by case_bool_decide.
Qed.

(** ** The built-in evaluator *)

(** What the built-in evaluator demands of the release. *)
Definition builtin_admits (i : Input) : bool :=
  negb (bool_decide (pi_UserID i = "")) && negb (bool_decide (pi_AgentID i = "")) &&
  containsString (pi_AgentScopes i) "release:deploy" &&
  (negb (bool_decide (pi_Environment i = EnvironmentProduction)) ||
   containsString (pi_AgentScopes i) "release:production") &&
  pi_CISuccess i && pi_DependenciesHealthy i.

Definition builtin_risky (i : Input) : bool :=
  pi_DestructiveMigration i || bool_decide (pi_Risk i = "high").

Lemma builtin_closed_form i :
  (builtin_decision i).1.1 =
    if builtin_admits i then (if builtin_risky i then DecisionRequireApproval else DecisionAllow)
    else DecisionDeny.
Proof.
  unfold builtin_decision, builtin_admits, builtin_risky.
  repeat match goal with |- context [if ?b then _ else _] => destruct b eqn:?; simpl end; try done.
  all: repeat match goal with
       | H : context [bool_decide ?P] |- _ => destruct (bool_decide P); simpl in *
       | H : context [containsString ?l ?s] |- _ => destruct (containsString l s); simpl in *
       | H : context [pi_CISuccess ?i] |- _ => destruct (pi_CISuccess i); simpl in *
       | H : context [pi_DependenciesHealthy ?i] |- _ => destruct (pi_DependenciesHealthy i); simpl in *
       | H : context [pi_DestructiveMigration ?i] |- _ => destruct (pi_DestructiveMigration i); simpl in *
       end; done.
Qed.

(** the default policy engine denies unless subject, delegated scopes, CI and
    dependencies are in order; a destructive migration or a high-risk change then needs approval by
    the named roles (service owner, and SRE for a migration), everything else is allowed.  The
    decision records the hash of the input it was made on. *)
Theorem builtin_decides input t :
  let d := PolicyEngine_Evaluate policy_New input t in
  pd_Decision d =
    (if builtin_admits input then (if builtin_risky input then DecisionRequireApproval else DecisionAllow)
     else DecisionDeny) ∧
  (pd_Decision d = DecisionRequireApproval → "service-owner" ∈ pd_RequiredRoles d ∧
     (pi_DestructiveMigration input = true → "sre" ∈ pd_RequiredRoles d)) ∧
  pd_InputHash d = InputHash input.
Proof.
  unfold PolicyEngine_Evaluate, EvaluateContext; simpl. unfold builtin_Evaluate.
  pose proof (builtin_closed_form (NormalizeInput input)) as Hd.
  destruct (builtin_decision (NormalizeInput input)) as [[d reasons] roles] eqn:Heq. cbn [fst] in Hd.
  cbn [pd_Decision pd_RequiredRoles pd_InputHash eval_Decision eval_RequiredRoles eval_InputHash].
  split_and!.
  - rewrite Hd. unfold NormalizeInput, modify; by case_bool_decide.
  - intros ->. unfold builtin_decision in Heq.
    repeat match type of Heq with context [if ?b then _ else _] => destruct b eqn:? end;
      simplify_eq; (split; [set_solver|]); [set_solver|].
    rewrite NormalizeInput_migration in *. congruence.
  - unfold InputHash, CanonicalInput. by rewrite NormalizeInput_idem.
Qed.

(** ** Fail closed *)

(** a policy decision never allows by accident.  Whatever the prepared query
    returns, the engine answers [ALLOW] only for a single result holding an object with
    [allow = true], stable reason codes and well-formed roles; an engine without evaluator, a
    query error, an empty or ambiguous result set and a malformed object all give [DENY]. *)
Theorem opa_fails_closed o input t :
  pd_Decision (PolicyEngine_Evaluate {| pe_evaluator := None |} input t) = DecisionDeny ∧
  (pd_Decision (PolicyEngine_Evaluate (NewEngine (OPA_Evaluator o)) input t) = DecisionAllow ↔
   ∃ object reasons roles, opa_query o (NormalizeInput input) = Ok [[RObject object]] ∧
     rego_get object "allow" = RBool true ∧ stringSlice (rego_get object "reasons") = Ok reasons ∧
     optionalStringSlice (rego_get object "required_roles") = Ok roles) ∧
  (is_ok (opa_query o (NormalizeInput input)) = false →
   pd_Decision (PolicyEngine_Evaluate (NewEngine (OPA_Evaluator o)) input t) = DecisionDeny).
Proof.
  split; [done|]. unfold PolicyEngine_Evaluate, EvaluateContext; simpl. unfold OPA_Evaluate.
  rewrite NormalizeInput_idem.
  assert (∀ P : Prop, ¬ P → (DecisionDeny = DecisionAllow ↔ P)) as Hno by (intros ? ?; split; done).
  destruct (opa_query o (NormalizeInput input)) as [results|err]; cbn [query_object is_ok].
  2:{ split; [|done]. apply Hno. naive_solver. }
  split; [|done].
  destruct results as [|[|[| | | | |object] [|v' l]] [|r results]];
    try (apply Hno; intros (? & ? & ? & ? & _); congruence).
  destruct (rego_get object "allow") as [|allowed| | | |] eqn:Hallow;
    try (apply Hno; intros (? & ? & ? & ? & ? & _); simplify_eq; congruence).
  destruct (stringSlice (rego_get object "reasons")) as [reasons|e] eqn:Hreasons.
  2:{ apply Hno. intros (? & ? & ? & ? & ? & ? & _). simplify_eq. congruence. }
  destruct (optionalStringSlice (rego_get object "required_roles")) as [roles|e] eqn:Hroles.
  - destruct allowed; [naive_solver|].
    destruct (rego_get object "require_approval") as [|[]| | | |]; simpl;
      (split; [done|]); intros (? & ? & ? & ? & ? & _); simplify_eq; congruence.
  - destruct allowed; [|destruct (rego_get object "require_approval") as [|[]| | | |]];
      apply Hno; intros (? & ? & ? & ? & ? & ? & ?); simplify_eq; congruence.
Qed.

(** ** The engines the repository builds *)

(** Over the built-in switch, over a prepared OPA query ([NewMandatoryEngine] is one), or over nothing. *)
Inductive stock_engine : PolicyEngine → Prop :=
| stock_builtin : stock_engine policy_New
| stock_opa o : stock_engine (NewEngine (OPA_Evaluator o))
| stock_none : stock_engine {| pe_evaluator := None |}.

(** They answer with one of the three decisions; [Decision] is a string, so another evaluator need not. *)
Lemma stock_engine_decides e input t :
  stock_engine e →
  pd_Decision (PolicyEngine_Evaluate e input t) ∈ [DecisionAllow; DecisionRequireApproval; DecisionDeny].
Proof.
  intros [|o|]; unfold PolicyEngine_Evaluate, EvaluateContext; cbn [pe_evaluator NewEngine policy_New].
  - cbn [evaluate builtinEvaluator]. unfold builtin_Evaluate.
    pose proof (builtin_closed_form (NormalizeInput input)) as Hd.
    destruct (builtin_decision (NormalizeInput input)) as [[d reasons] roles]. cbn [fst] in Hd. cbn. subst d.
    repeat case_match; set_solver.
  - cbn [evaluate OPA_Evaluator]. unfold OPA_Evaluate.
    destruct (query_object _) as [object|]; [|set_solver].
    destruct (rego_get object "allow") as [|allowed| | | |]; try set_solver.
    destruct (stringSlice _) as [reasons|]; [|set_solver].
    destruct allowed; [|destruct (rego_get object "require_approval") as [|[]| | | |]];
      cbv iota beta; destruct (optionalStringSlice _); set_solver.
  - set_solver.
Qed.

(** ** The hash of the input *)

(** The input without what the JSON encoding leaves out. *)
Definition signed_part (i : Input) : Input :=
  (NormalizeInput i) <| pi_AgentScopes := [] |> <| pi_DestructiveMigration := false |>.

Lemma Input_json_inj i j :
  Input_json i = Input_json j →
  i <| pi_AgentScopes := [] |> <| pi_DestructiveMigration := false |> =
  j <| pi_AgentScopes := [] |> <| pi_DestructiveMigration := false |>.
Proof.
  unfold Input_json, Input_fields. intros H. json_inj H. destruct i, j. unfold modify; simpl in *.
  by subst.
Qed.

Lemma hash_signed i j :
  utf8_json (Input_json (NormalizeInput i)) = true → utf8_json (Input_json (NormalizeInput j)) = true →
  InputHash i = InputHash j → signed_part i = signed_part j ∨ collision.
Proof.
  intros Hi Hj Heq. apply hash_json_inj in Heq as [Heq|?]; [left|by right|done..]. by apply Input_json_inj.
Qed.

Lemma signed_hash i j : signed_part i = signed_part j → InputHash i = InputHash j.
Proof.
  intros Heq. unfold InputHash, CanonicalInput. f_equal. f_equal.
  assert (∀ k : Input, Input_json k =
    Input_json (k <| pi_AgentScopes := [] |> <| pi_DestructiveMigration := false |>)) as Hk by done.
  rewrite Hk, (Hk (NormalizeInput j)). by f_equal.
Qed.

(** the policy input hash is a commitment: the order of approval proofs and the
    fields that are not signed do not change it, and two inputs of valid UTF-8 with the same hash agree on
    every signed field, or else exhibit a collision of SHA-256. *)
Theorem input_hash_binds i j :
  utf8_json (Input_json (NormalizeInput i)) = true → utf8_json (Input_json (NormalizeInput j)) = true →
  (InputHash i = InputHash j → signed_part i = signed_part j ∨ collision) ∧
  (signed_part i = signed_part j → InputHash i = InputHash j).
Proof. intros Hi Hj. split; [by apply hash_signed|apply signed_hash]. Qed.

(** ** Witnesses *)

Definition demo_input (proofs : list string) : Input :=
  zero_Input <| pi_UserID := "alice" |> <| pi_AgentID := "agent" |> <| pi_Environment := "staging" |>
    <| pi_ApprovalProofs := proofs |>.

Lemma input_hash_binds_witness : InputHash (demo_input ["b"; "a"]) = InputHash (demo_input ["a"; "b"]).
Proof. apply (input_hash_binds (demo_input ["b"; "a"]) (demo_input ["a"; "b"])); by vm_compute. Defined.
