(* ===== verification/Bundle.v ===== *)
(** * Policy bundles (src/internal/policy/bundle.go, opa.go)

    The modules an OPA evaluator is compiled from: content hash, signature, verification and
    loading.  A bundle is signed over its normal form, in which versions and modules are
    sorted, so their order does not matter.  Compiling Rego is the OPA library's: the
    parameter [prepare] takes the named modules and returns the prepared query.

    Keys are assumed to have the length Ed25519 requires; the library panics on others. *)
From S2P Require Import Prelude GoStd Sha256 Json Rfc3339 Base64 JsonDecode Domain Protocol Grant Policy.
From Stdlib Require Import Ascii.
Open Scope Z_scope.

(** ** Data *)

Definition LayerPlatform : string := "platform_mandatory".
Definition LayerEnvironment : string := "environment".
Definition LayerTeam : string := "team".
Definition LayerService : string := "service".

(** [Module] *)
Record PolicyModule := {
  pm_Name : string;
  pm_Layer : string;
  pm_Source : string;
}.

#[export] Instance PolicyModule_eq_dec : EqDecision PolicyModule.
Proof. solve_decision. Defined.

(** [Bundle] *)
Record Bundle := {
  bn_Version : string;
  bn_Issuer : string;
  bn_Compatibility : list string;
  bn_IssuedAt : time;
  bn_ExpiresAt : time;
  bn_Modules : list PolicyModule;
  bn_Hash : string;
  bn_Signature : Signature;
}.

#[export] Instance eta_Bundle : Eta Bundle := λ r,
  {| bn_Version := bn_Version r; bn_Issuer := bn_Issuer r; bn_Compatibility := bn_Compatibility r;
     bn_IssuedAt := bn_IssuedAt r; bn_ExpiresAt := bn_ExpiresAt r; bn_Modules := bn_Modules r; bn_Hash := bn_Hash r;
     bn_Signature := bn_Signature r |}.

Definition PolicyModule_json (m : PolicyModule) : json :=
  JObject (field "name" (JString (pm_Name m)) ++ field "layer" (JString (pm_Layer m)) ++ field "source" (JString (pm_Source m))).

Definition Bundle_json (b : Bundle) : json :=
  JObject (
    field "version" (JString (bn_Version b)) ++
    field "issuer" (JString (bn_Issuer b)) ++
    field "compatibility" (slice_json JString (bn_Compatibility b)) ++
    field "issued_at" (time_json (bn_IssuedAt b)) ++
    field "expires_at" (time_json (bn_ExpiresAt b)) ++
    field "modules" (slice_json PolicyModule_json (bn_Modules b)) ++
    field "hash" (JString (bn_Hash b)) ++
    field "signature" (Signature_json (bn_Signature b))).

(** The interface [BundleKeyResolver]. *)
Abbreviation BundleKeyResolver := (string → string → result error string) (only parsing).

(** [StaticBundleKeys.ResolvePolicyKey] *)
Definition ResolvePolicyKey (s : gmap string string) : BundleKeyResolver := λ issuer keyID,
  match s !! (issuer +:+ NUL +:+ keyID) with
  | None => Err (Errorf "unknown policy bundle key" None)
  | Some key => Ok key
  end.

Definition ErrInvalidBundle : error := Sentinel "policy.ErrInvalidBundle" "INVALID_POLICY_BUNDLE".

(** ** Hash, signature, verification *)

(** The order of modules. *)
Definition module_less (a b : PolicyModule) : bool :=
  if bool_decide (pm_Layer a = pm_Layer b) then String.ltb (pm_Name a) (pm_Name b)
  else String.ltb (pm_Layer a) (pm_Layer b).

(** [normalizedBundle] *)
Definition normalizedBundle (bundle : Bundle) : Bundle :=
  bundle <| bn_Compatibility ::= sort_Strings |> <| bn_Modules ::= sort_Slice module_less |>.

(** [json.Marshal] of a bundle: both instants need a year of four digits. *)
Definition marshal_bundle (bundle : Bundle) : result error string :=
  if marshalable (bn_IssuedAt bundle) && marshalable (bn_ExpiresAt bundle) then Ok (encode (Bundle_json bundle))
  else Err year_error.

(** [CalculateBundleHash] *)
Definition CalculateBundleHash (bundle : Bundle) : result error string :=
  let copy := normalizedBundle bundle <| bn_Hash := "" |> <| bn_Signature := zero_Signature |> in
  match marshal_bundle copy with
  | Err err => Err err
  | Ok data => Ok (sha256_ref data)
  end.

(** [CanonicalBundlePayload] *)
Definition CanonicalBundlePayload (bundle : Bundle) : result error string :=
  let copy := normalizedBundle bundle <| bn_Signature := zero_Signature |> in
  if bool_decide (bn_Version copy = "") || bool_decide (bn_Issuer copy = "") || bool_decide (bn_Hash copy = "")
     || IsZero (bn_IssuedAt copy) || negb (After (bn_ExpiresAt copy) (bn_IssuedAt copy)) || bool_decide (bn_Modules copy = [])
  then Err ErrInvalidBundle
  else marshal_bundle copy.

(** [SignBundle] *)
Definition SignBundle (sign : Signer) (bundle : Bundle) : result error Bundle :=
  match CalculateBundleHash bundle with
  | Err err => Err err
  | Ok hash =>
      let bundle := bundle <| bn_Hash := hash |> in
      match CanonicalBundlePayload bundle with
      | Err err => Err err
      | Ok payload =>
          match sign payload with
          | Err err => Err err
          | Ok signature => Ok (bundle <| bn_Signature := signature |>)
          end
      end
  end.

(** [validLayers] *)
Fixpoint valid_layers_loop (hasPlatform : bool) (modules : list PolicyModule) : bool :=
  match modules with
  | [] => hasPlatform
  | module :: modules =>
      if bool_decide (pm_Layer module ∈ [LayerPlatform; LayerEnvironment; LayerTeam; LayerService]) then
        if bool_decide (pm_Name module = "") || bool_decide (pm_Source module = "") then false
        else valid_layers_loop (hasPlatform || bool_decide (pm_Layer module = LayerPlatform)) modules
      else false
  end.
Definition validLayers (modules : list PolicyModule) : bool := valid_layers_loop false modules.

Section verify.
Context `{!Ed25519}.

(** [VerifyBundle] at the time [now]; a nil resolver is [None]. *)
Definition VerifyBundle (bundle : Bundle) (issuer : string) (keys : option BundleKeyResolver) (now : time) : result error unit :=
  match keys with
  | None => Err ErrInvalidBundle
  | Some keys =>
      if negb (bool_decide (bn_Issuer bundle = issuer)) || negb (bool_decide (sig_Algorithm (bn_Signature bundle) = AlgorithmEd25519))
         || negb (bool_decide (InputVersionV1Alpha1 ∈ bn_Compatibility bundle)) || After (bn_IssuedAt bundle) now
         || negb (After (bn_ExpiresAt bundle) now) || negb (validLayers (bn_Modules bundle))
      then Err ErrInvalidBundle
      else match CalculateBundleHash bundle with
           | Err _ => Err ErrInvalidBundle
           | Ok expected =>
               if negb (bool_decide (expected = bn_Hash bundle)) then Err ErrInvalidBundle
               else match CanonicalBundlePayload bundle with
                    | Err _ => Err ErrInvalidBundle
                    | Ok payload =>
                        match keys issuer (sig_KeyID (bn_Signature bundle)) with
                        | Err _ => Err ErrInvalidBundle
                        | Ok key =>
                            match DecodeString64 (sig_Value (bn_Signature bundle)) with
                            | None => Err ErrInvalidBundle
                            | Some signature => if ed_verify key payload signature then Ok tt else Err ErrInvalidBundle
                            end
                        end
                    end
           end
  end.
End verify.

(** ** opa.go: loading *)

Section load.
Context `{!Ed25519}.
(** [rego.New(options...).PrepareForEval]: the modules by file name to the query. *)
Context (prepare : list (string * string) → result error (Input → result error (list (list rego_value)))).

(** The loop of [newOPA] over the modules: whether a platform module was seen, and the options. *)
Fixpoint load_modules (seenMandatory : bool) (modules : list PolicyModule) : result error (bool * list (string * string)) :=
  match modules with
  | [] => Ok (seenMandatory, [])
  | module :: modules =>
      if bool_decide (pm_Name module = "") || bool_decide (pm_Source module = "")
      then Err (Errorf "INVALID_POLICY_BUNDLE: empty module" None)
      else
        '(seen, options) ← load_modules (seenMandatory || bool_decide (pm_Layer module = LayerPlatform)) modules;
        Ok (seen, (pm_Layer module +:+ "/" +:+ pm_Name module, pm_Source module) :: options)
  end.

(** [newOPA] *)
Definition newOPA (bundle : Bundle) : result error OPA :=
  '(seenMandatory, options) ← load_modules false (bn_Modules (normalizedBundle bundle));
  if negb seenMandatory then Err (Errorf "INVALID_POLICY_BUNDLE: platform mandatory layer is required" None)
  else match prepare options with
       | Err err => Err (Errorf ("compile policy bundle: " +:+ Error err) (Some err))
       | Ok query => Ok {| opa_query := query; opa_bundleVersion := bn_Version bundle; opa_bundleHash := bn_Hash bundle |}
       end.

(** [NewVerifiedOPA] *)
Definition NewVerifiedOPA (bundle : Bundle) (issuer : string) (keys : option BundleKeyResolver) (now : time) : result error OPA :=
  match VerifyBundle bundle issuer keys now with
  | Err err => Err err
  | Ok _ => newOPA bundle
  end.
End load.

(** ** Properties *)

(** What a payload covers: everything but the signature, in normal form. *)
Definition signed_content (b : Bundle) : Bundle := normalizedBundle b <| bn_Signature := zero_Signature |>.

Lemma signed_content_signature b s : signed_content (b <| bn_Signature := s |>) = signed_content b.
Proof. by destruct b. Qed.

Lemma CanonicalBundlePayload_Ok b payload :
  CanonicalBundlePayload b = Ok payload →
  marshalable (bn_IssuedAt b) = true ∧ marshalable (bn_ExpiresAt b) = true ∧ payload = encode (Bundle_json (signed_content b)).
Proof.
  unfold CanonicalBundlePayload, marshal_bundle. fold (signed_content b). destruct (_ || _); [done|].
  change (bn_IssuedAt (signed_content b)) with (bn_IssuedAt b). change (bn_ExpiresAt (signed_content b)) with (bn_ExpiresAt b).
  destruct (marshalable (bn_IssuedAt b)), (marshalable (bn_ExpiresAt b)); try done. by intros [= <-].
Qed.

Lemma Canonical_bundle_signature b s : CanonicalBundlePayload (b <| bn_Signature := s |>) = CanonicalBundlePayload b.
Proof. by destruct b. Qed.

(** The hash ignores the hash and the signature. *)
Lemma hash_signature b h s : CalculateBundleHash (b <| bn_Hash := h |> <| bn_Signature := s |>) = CalculateBundleHash b.
Proof. by destruct b. Qed.

Lemma hash_hash b h : CalculateBundleHash (b <| bn_Hash := h |>) = CalculateBundleHash b.
Proof. by destruct b. Qed.

#[export] Instance PolicyModule_json_inj : Inj (=) (=) PolicyModule_json.
Proof. intros [n1 l1 s1] [n2 l2 s2] Heq. unfold PolicyModule_json in Heq. json_inj Heq. simpl in *. by subst. Qed.

Lemma Bundle_json_inj b c :
  marshalable (bn_IssuedAt b) = true → marshalable (bn_ExpiresAt b) = true →
  marshalable (bn_IssuedAt c) = true → marshalable (bn_ExpiresAt c) = true →
  Bundle_json b = Bundle_json c → b = c.
Proof.
  intros Hb1%marshalable_year Hb2%marshalable_year Hc1%marshalable_year Hc2%marshalable_year.
  unfold Bundle_json, Signature_json, time_json. intros Heq. json_inj Heq.
  repeat match goal with Hf : Format _ = Format _ |- _ => apply Format_inj in Hf; [|done..] end.
  destruct b as [???????[]], c as [???????[]]. simpl in *. by subst.
Qed.

Definition utf8_bundle (b : Bundle) : Prop := utf8_json (Bundle_json (signed_content b)) = true.

Lemma bundle_payload_binds b c payload :
  utf8_bundle b → utf8_bundle c → CanonicalBundlePayload b = Ok payload → CanonicalBundlePayload c = Ok payload →
  signed_content b = signed_content c.
Proof.
  intros Hb Hc (? & ? & ->)%CanonicalBundlePayload_Ok (? & ? & Heq)%CanonicalBundlePayload_Ok.
  apply encode_inj in Heq; [|done..]. by apply Bundle_json_inj in Heq.
Qed.

(** The loaded evaluator depends on what was signed only. *)
Lemma newOPA_content prepare b c : signed_content b = signed_content c → newOPA prepare b = newOPA prepare c.
Proof.
  intros Heq. unfold newOPA. 
  assert (bn_Modules (normalizedBundle b) = bn_Modules (normalizedBundle c)) as -> by apply (f_equal bn_Modules Heq).
  assert (bn_Version b = bn_Version c) as -> by apply (f_equal bn_Version Heq).
  assert (bn_Hash b = bn_Hash c) as -> by apply (f_equal bn_Hash Heq). done.
Qed.

Section bundle_claims.
Context `{!Ed25519}.

(** The verifier, with its guards read off one by one. *)
Lemma VerifyBundle_Ok b issuer keys now :
  VerifyBundle b issuer (Some keys) now = Ok tt ↔
  (bn_Issuer b = issuer ∧ InputVersionV1Alpha1 ∈ bn_Compatibility b ∧ bn_IssuedAt b ≤ now < bn_ExpiresAt b ∧
   validLayers (bn_Modules b) = true) ∧
  sig_Algorithm (bn_Signature b) = AlgorithmEd25519 ∧ CalculateBundleHash b = Ok (bn_Hash b) ∧
  ∃ payload key signature, CanonicalBundlePayload b = Ok payload ∧ keys issuer (sig_KeyID (bn_Signature b)) = Ok key ∧
    DecodeString64 (sig_Value (bn_Signature b)) = Some signature ∧ ed_verify key payload signature = true.
Proof.
  unfold VerifyBundle, After. split.
  - destruct (_ || _) eqn:Hg; [done|]. 
    destruct (CalculateBundleHash b) as [expected|]; [|done].
    destruct (bool_decide (expected = bn_Hash b)) eqn:Hh; [|done]. apply bool_decide_eq_true in Hh as ->. cbn [negb].
    destruct (CanonicalBundlePayload b) as [payload|] eqn:Hp; [|done]. destruct (keys _ _) as [key|] eqn:Hk; [|done].
    destruct (DecodeString64 _) as [signature|] eqn:Hd; [|done]. destruct (ed_verify _ _ _) eqn:Hv; [|done]. intros _.
    repeat (apply orb_false_elim in Hg as [Hg ?Hg]). apply negb_false_iff, bool_decide_eq_true in Hg, Hg4, Hg3.
    apply negb_false_iff in Hg0, Hg1. split_and!; try done; [lia..|]. by eexists _, _, _.
  - intros ((Hi & Hc & Ht & Hl) & Ha & Hh & payload & key & signature & Hp & Hk & Hd & Hv).
    rewrite Hh, Hp, Hk, Hd, Hv, Hl, !bool_decide_true by done. cbn [negb orb].
    destruct (Z.ltb_spec now (bn_IssuedAt b)); [lia|]. by destruct (Z.ltb_spec now (bn_ExpiresAt b)); [|lia].
Qed.

Lemma SignBundle_Ok s b signed :
  SignBundle (DevelopmentSigner_Sign s) b = Ok signed →
  ∃ hash payload, CalculateBundleHash b = Ok hash ∧ CanonicalBundlePayload (b <| bn_Hash := hash |>) = Ok payload ∧
    signed = b <| bn_Hash := hash |> <| bn_Signature := {| sig_Algorithm := AlgorithmEd25519; sig_KeyID := dev_keyID s;
                 sig_Value := EncodeToString64 (ed_sign (dev_key s) payload) |} |>.
Proof.
  unfold SignBundle, DevelopmentSigner_Sign. destruct (CalculateBundleHash b) as [hash|]; [|done].
  destruct (CanonicalBundlePayload _) as [payload|] eqn:Hp; [|done]. destruct (negb _); [done|]. intros [= <-]. eauto.
Qed.

(** a bundle signed by a signer whose public key is known under the bundle's issuer
    verifies exactly for that issuer, from its issue until just before its expiry, when it is made
    for this version of the policy input and its modules are complete: known layers, names, sources,
    and a platform module among them. *)
Theorem bundle_sign_verify s b signed issuer keys now :
  SignBundle (DevelopmentSigner_Sign s) b = Ok signed →
  keys !! (issuer +:+ NUL +:+ dev_keyID s) = Some (ed_public (dev_key s)) →
  VerifyBundle signed issuer (Some (ResolvePolicyKey keys)) now = Ok tt ↔
  bn_Issuer b = issuer ∧ InputVersionV1Alpha1 ∈ bn_Compatibility b ∧ bn_IssuedAt b ≤ now < bn_ExpiresAt b ∧
  validLayers (bn_Modules b) = true.
Proof.
  intros (hash & payload & Hh & Hp & ->)%SignBundle_Ok Hkey. rewrite VerifyBundle_Ok, hash_signature, Canonical_bundle_signature.
  unfold modify. cbn. split; [naive_solver|]. intros Hb. split_and!; try done; [apply Hb..|].
  exists payload, (ed_public (dev_key s)), (ed_sign (dev_key s) payload).
  unfold ResolvePolicyKey. by rewrite Hkey, Decode_Encode64, ed_correct.
Qed.

(** a signature cannot be moved to other policies.  If a signature verifies for no
    message but the one it was made for, then whatever bundle carries the signature of a signed
    bundle and is accepted loads exactly the evaluator of the signed bundle. *)
Theorem bundle_signature_binds prepare s b signed forged issuer keys now :
  SignBundle (DevelopmentSigner_Sign s) b = Ok signed →
  keys !! (issuer +:+ NUL +:+ dev_keyID s) = Some (ed_public (dev_key s)) →
  (∀ payload message, CanonicalBundlePayload signed = Ok payload →
    ed_verify (ed_public (dev_key s)) message (ed_sign (dev_key s) payload) = true → message = payload) →
  utf8_bundle signed → utf8_bundle forged →
  bn_Signature forged = bn_Signature signed → VerifyBundle forged issuer (Some (ResolvePolicyKey keys)) now = Ok tt →
  NewVerifiedOPA prepare forged issuer (Some (ResolvePolicyKey keys)) now = newOPA prepare signed.
Proof.
  intros (hash & payload & Hh & Hp & Hs)%SignBundle_Ok Hkey Hbind Has Haf Hsig Hverify.
  unfold NewVerifiedOPA. rewrite Hverify. apply newOPA_content.
  apply VerifyBundle_Ok in Hverify as (_ & _ & _ & payload' & key & signature & Hp' & Hk & Hd & Hv).
  rewrite Hsig, Hs in Hk, Hd. unfold modify in Hk, Hd. cbn in Hk, Hd.
  unfold ResolvePolicyKey in Hk. rewrite Hkey in Hk. injection Hk as <-. rewrite Decode_Encode64 in Hd. injection Hd as <-.
  assert (Hp2 : CanonicalBundlePayload signed = Ok payload) by (by rewrite Hs, Canonical_bundle_signature).
  apply (Hbind _ _ Hp2) in Hv as ->. by eapply bundle_payload_binds.
Qed.
End bundle_claims.

(** ** Witnesses *)

#[local] Existing Instance carrying_signatures.

Definition demo_bundle : Bundle :=
  {| bn_Version := "bundle-1"; bn_Issuer := "customer-policy"; bn_Compatibility := [InputVersionV1Alpha1];
     bn_IssuedAt := 1000 * Second; bn_ExpiresAt := 1000 * Second + Hour;
     bn_Modules := [{| pm_Name := "team.rego"; pm_Layer := LayerTeam; pm_Source := "package team" |};
                    {| pm_Name := "main.rego"; pm_Layer := LayerPlatform; pm_Source := "package main" |}];
     bn_Hash := ""; bn_Signature := zero_Signature |}.

Definition demo_policy_keys : gmap string string := {[ "customer-policy" +:+ NUL +:+ "key-1" := demo_key ]}.

(** The demonstration bundle with a content hash. *)
Definition hashed_bundle (hash : string) : Bundle := demo_bundle <| bn_Hash := hash |>.

Lemma hashed_payload hash : hash ≠ "" → ∃ payload, CanonicalBundlePayload (hashed_bundle hash) = Ok payload.
Proof.
  intros Hh. unfold CanonicalBundlePayload. change (bn_Hash (normalizedBundle (hashed_bundle hash) <| bn_Signature := zero_Signature |>)) with hash. rewrite (bool_decide_false (hash = "")) by done.
  eexists. reflexivity.
Qed.

Lemma demo_bundle_hash : ∃ data, CalculateBundleHash demo_bundle = Ok (sha256_ref data).
Proof. eexists. reflexivity. Qed.

Lemma demo_bundle_signed : ∃ signed, SignBundle (DevelopmentSigner_Sign demo_signer) demo_bundle = Ok signed.
Proof.
  destruct demo_bundle_hash as [data Hh]. destruct (hashed_payload (sha256_ref data)) as [payload Hp]; [done|].
  unfold SignBundle. rewrite Hh. fold (hashed_bundle (sha256_ref data)). rewrite Hp. by eexists.
Qed.

Lemma demo_policy_key : demo_policy_keys !! ("customer-policy" +:+ NUL +:+ dev_keyID demo_signer) = Some (ed_public (dev_key demo_signer)).
Proof. apply lookup_singleton_eq. Qed.

Lemma bundle_sign_verify_witness : ∃ signed,
  VerifyBundle signed "customer-policy" (Some (ResolvePolicyKey demo_policy_keys)) (1000 * Second) = Ok tt ∧
  VerifyBundle signed "customer-policy" (Some (ResolvePolicyKey demo_policy_keys)) (1000 * Second + Hour) ≠ Ok tt.
Proof.
  destruct demo_bundle_signed as [signed Hs]. exists signed.
  assert (H := λ now, bundle_sign_verify demo_signer demo_bundle signed "customer-policy" demo_policy_keys now Hs demo_policy_key).
  split.
  - apply H. split_and!; [done|apply elem_of_cons; by left|done..].
  - rewrite H. intros (_ & _ & [_ Ht] & _). by vm_compute in Ht.
Defined.

(** Hexadecimal digits are ASCII, so a content hash is. *)
Lemma sha256_ref_ascii data : ascii_only (sha256_ref data) = true.
Proof.
  unfold sha256_ref, EncodeToString. destruct (Sum256_digest data) as [_ Hd]. unfold ascii_only. rewrite string_forall_app. simpl.
  induction Hd as [|z l Hz _ IH]; [done|]. rewrite fmap_cons, Join_cons_empty, string_forall_app, IH. unfold is_byte in Hz.
  assert (Hhex : ∀ n, (n < 16)%nat → (nat_of_ascii (hexdigit n) <? 128)%nat = true).
  { intros n Hn. do 16 (destruct n as [|n]; [done|]). lia. }
  simpl. rewrite !Hhex; [done|..].
  - pose proof (Z.mod_pos_bound z 16). lia.
  - pose proof (Z.div_pos z 16). assert (z / 16 < 16) by (apply Z.div_lt_upper_bound; lia). lia.
Qed.

Definition demo_prepare (modules : list (string * string)) : result error (Input → result error (list (list rego_value))) :=
  Ok (λ _, Ok []).

(** The bundle with its modules in another order loads as the signed one. *)
Lemma bundle_signature_binds_witness : ∃ signed,
  SignBundle (DevelopmentSigner_Sign demo_signer) demo_bundle = Ok signed ∧
  NewVerifiedOPA demo_prepare (signed <| bn_Modules ::= reverse |>) "customer-policy"
    (Some (ResolvePolicyKey demo_policy_keys)) (1000 * Second) = newOPA demo_prepare signed.
Proof.
  destruct demo_bundle_signed as [signed Hs]. exists signed. split; [exact Hs|].
  destruct (SignBundle_Ok _ _ _ Hs) as (hash & payload & Hh & Hp & Heq).
  assert (utf8_text hash = true) as Htext.
  { destruct demo_bundle_hash as [data Hd]. rewrite Hd in Hh. injection Hh as <-. apply ascii_utf8, sha256_ref_ascii. }
  apply (bundle_signature_binds demo_prepare demo_signer demo_bundle signed (signed <| bn_Modules ::= reverse |>)
    "customer-policy" demo_policy_keys (1000 * Second) Hs demo_policy_key).
  - intros payload' message _ Hv%bool_decide_eq_true. by injection Hv.
  - subst signed. unfold utf8_bundle, Bundle_json, field. cbn -[utf8_text time_json]. rewrite Htext. done.
  - subst signed. unfold utf8_bundle, Bundle_json, field. cbn -[utf8_text time_json]. rewrite Htext. done.
  - by subst signed.
  - subst signed. apply VerifyBundle_Ok. split_and!; [done|apply elem_of_cons; by left|done|done|done|done|exact Hh|].
    exists payload, demo_key, ("s" +:+ payload). split_and!; [exact Hp| |apply Decode_Encode64|by apply bool_decide_eq_true].
    exact (f_equal (λ o, match o with None => Err (Errorf "unknown policy bundle key" None) | Some key => Ok key end) demo_policy_key).
Defined.
