(* ===== verification/Runner.v ===== *)
(** * The customer-side runner (src/internal/runner)

    A runner executes signed grants.  [Execute] checks the grant, its identity,
    delegation, pinned context, approvals, capability and policy in the order of the
    code, reserves the action in its journal and only then acquires a credential and
    calls the adapter; [Reconcile] settles reserved actions without starting one.

    The collaborators are the fields of [Runner], nil being [None].  The journal
    is a class with laws, which the in-memory store satisfies; the credential broker
    and the adapter act on a state [X] of the outside world, and what is asked of
    them is recorded in a trace. *)
From S2P Require Import Prelude GoStd Sha256 Json Domain Protocol Grant Identity Adapter Store Policy.
Open Scope Z_scope.

(** ** runner.go: reasons and collaborators *)

Abbreviation Reason := string (only parsing).
Definition ReasonDisconnected : Reason := "CONTROL_PLANE_DISCONNECTED".
Definition ReasonTenant : Reason := "WRONG_TENANT".
Definition ReasonReplay : Reason := "NONCE_REPLAY".
Definition ReasonIdentity : Reason := "IDENTITY_INVALID".
Definition ReasonDelegation : Reason := "DELEGATION_SCOPE_DENIED".
Definition ReasonHashMismatch : Reason := "HASH_MISMATCH".
Definition ReasonApproval : Reason := "APPROVAL_PROOF_MISSING".
Definition ReasonCapability : Reason := "UNSUPPORTED_CAPABILITY".
Definition ReasonPolicyDeny : Reason := "RUNNER_POLICY_DENY".
Definition ReasonPolicyMismatch : Reason := "POLICY_MISMATCH".
Definition ReasonJournalUnavailable : Reason := "AUDIT_JOURNAL_UNAVAILABLE".
Definition ReasonCredential : Reason := "CREDENTIAL_UNAVAILABLE".
Definition ReasonExternalUnknown : Reason := "EXTERNAL_STATE_UNKNOWN".

Record PinnedContext := {
  pc_PlanHash : string;
  pc_ContractHash : string;
  pc_ProfileHash : string;
  pc_PolicyHash : string;
  pc_EvidenceHash : string;
  pc_ApprovalRequired : bool;
  pc_Target : Target;
  pc_Action : Action;
}.

(** ** dispatch.go, capabilities.go, journal.go *)

(** [StaticContexts.ResolveContext] *)
Definition StaticContexts_ResolveContext (s : gmap string PinnedContext) (runID stepID : string) :
    result error PinnedContext :=
  match s !! (runID +:+ NUL +:+ stepID) with
  | None => Err (Errorf "pinned context not found" None)
  | Some value => Ok value
  end.

(** [ProofReferences.VerifyApprovals] *)
Definition ProofReferences_VerifyApprovals (p : gset string) (grant : ActionGrant) (subject : Subject) :
    result error unit :=
  check_all (λ reference, fail_if (negb (bool_decide (reference ∈ p))) (Errorf "untrusted approval proof" None))
    (gr_ApprovalProofs grant).

(** [CapabilitySet] *)
Definition NewCapabilitySet (values : list string) : gset string := list_to_set values.
Definition Allows (s : gset string) (capability : string) : bool := bool_decide (capability ∈ s).

Record AdapterRequest := {
  aq_GrantID : string;
  aq_RunID : string;
  aq_StepID : string;
  aq_Target : Target;
  aq_Action : Action;
  aq_IdempotencyKey : string;
  aq_DispatchedAt : time;
}.

Record AdapterResult := {
  ar_ExternalExecutionID : string;
  ar_CompletedAt : time;
}.

(** [journalAudit] *)
Definition journalAudit (id correlationID action res : string) (at_ : time) (d : details) : AuditEvent :=
  {| ae_ID := id; ae_CorrelationID := correlationID; ae_ActorType := "runner"; ae_ActorID := "customer-runner";
     ae_DelegatedBy := ""; ae_Action := action; ae_ResourceType := "action_grant"; ae_ResourceID := correlationID;
     ae_Result := res; ae_Details := d; ae_Timestamp := at_ |}.

(** [auditID] *)
Definition auditID (grantID action : string) (version : Z) : string :=
  "runner/" +:+ grantID +:+ "/" +:+ action +:+ "/" +:+ itoa version.

(** ** Interfaces *)

(** [store.RunnerJournal] *)
Class RunnerJournal (J : Type) := {
  journal_Get : string → string → string → J → result error RunnerActionRecord;
  journal_Reserve : RunnerActionRecord → AuditEvent → J → J * result error (RunnerActionRecord * bool);
  journal_Complete : RunnerActionRecord → Z → AuditEvent → J → J * result error unit;
  journal_Pending : string → string → Z → J → result error (list RunnerActionRecord);
}.

(** [TypedAdapter] and [Reconciler], with the credential provider they may declare. *)
Record TypedAdapter (X : Type) := {
  ta_CredentialProvider : option string;
  ta_Execute : AdapterRequest → credentials.Credential → X → X * result error AdapterResult;
}.
#[global] Arguments ta_CredentialProvider {X}.
#[global] Arguments ta_Execute {X}.

Record Reconciler (X : Type) := {
  rc_CredentialProvider : option string;
  rc_Reconcile : AdapterRequest → credentials.Credential → X → X * result error (AdapterResult * bool);
}.
#[global] Arguments rc_CredentialProvider {X}.
#[global] Arguments rc_Reconcile {X}.

Record Runner (X : Type) := {
  rn_TenantID : string;
  rn_RunnerGroup : string;
  rn_Grants : option (ActionGrant → result error unit);
  rn_Subjects : option (string → result error Subject);
  rn_Delegations : option (DelegationRequest → result error Delegation);
  rn_Contexts : option (string → string → result error PinnedContext);
  rn_Approvals : option (ActionGrant → Subject → result error unit);
  rn_Capabilities : gset string;
  rn_Policy : option (Input → result error Evaluation);
  rn_HasJournal : bool;
  rn_Credentials : option (credentials.Broker X);
  rn_Adapter : option (TypedAdapter X);
  rn_Connectivity : option bool;
}.
#[global] Arguments rn_TenantID {X}.
#[global] Arguments rn_RunnerGroup {X}.
#[global] Arguments rn_Grants {X}.
#[global] Arguments rn_Subjects {X}.
#[global] Arguments rn_Delegations {X}.
#[global] Arguments rn_Contexts {X}.
#[global] Arguments rn_Approvals {X}.
#[global] Arguments rn_Capabilities {X}.
#[global] Arguments rn_Policy {X}.
#[global] Arguments rn_HasJournal {X}.
#[global] Arguments rn_Credentials {X}.
#[global] Arguments rn_Adapter {X}.
#[global] Arguments rn_Connectivity {X}.

(** What a runner asks of the outside, in order. *)
Inductive runner_effect :=
| REAcquire (request : credentials.Request)
| REExecute (request : AdapterRequest)
| REReconcile (request : AdapterRequest).

(** ** Results *)

Definition runner_result (grant : ActionGrant) (status : ResultStatus) (reason : Reason) (completedAt : time) : Result :=
  {| rs_ProtocolVersion := VersionV1Alpha1; rs_GrantID := gr_GrantID grant; rs_RunID := gr_RunID grant;
     rs_StepID := gr_StepID grant; rs_Status := status; rs_ReasonCode := reason; rs_ExternalExecutionID := "";
     rs_CompletedAt := completedAt; rs_Signature := zero_Signature |}.

(** [matchingHashes] *)
Definition matchingHashes (grant : ActionGrant) (pinned : PinnedContext) : bool :=
  bool_decide (gr_PlanHash grant = pc_PlanHash pinned) && bool_decide (gr_ContractHash grant = pc_ContractHash pinned)
  && bool_decide (gr_ProfileHash grant = pc_ProfileHash pinned) && bool_decide (gr_PolicyHash grant = pc_PolicyHash pinned)
  && bool_decide (gr_EvidenceHash grant = pc_EvidenceHash pinned)
  && bool_decide (gr_Target grant = pc_Target pinned) && bool_decide (gr_Action grant = pc_Action pinned).

(** [replayResult] *)
Definition replayResult (grant : ActionGrant) (record : RunnerActionRecord) (requestHash : string) :
    Result * option error :=
  if negb (bool_decide (ra_RequestHash record = requestHash)) then
    (zero_Result <| rs_Status := ResultRejected |> <| rs_ReasonCode := ReasonReplay |>, Some (Rejection ReasonReplay None))
  else if bool_decide (ra_Status record = RunnerActionSucceeded) then (ra_Result record, None)
  else (runner_result grant ResultReconciliation ReasonReplay 0, Some (Rejection ReasonReplay None)).

(** [reasonForGrant] *)
Definition reasonForGrant (err : error) : Reason :=
  if errors_Is err "grant.ErrExpired" then "EXPIRED_GRANT"
  else if errors_Is err "grant.ErrWrongAudience" then "WRONG_RUNNER_AUDIENCE"
  else if errors_Is err "grant.ErrWrongTenant" then ReasonTenant
  else ReasonIdentity.

Section runner.
Context `{!MapOrder} {J X : Type} `{!RunnerJournal J}.
(** The readings of the clock. *)
Context (now_at : nat → time).

Record RunnerWorld := {
  rw_journal : J;
  rw_ext : X;
  rw_ticks : nat;
  rw_trace : list runner_effect;
}.

#[export] Instance eta_RunnerWorld : Eta RunnerWorld := λ r,
  {| rw_journal := rw_journal r; rw_ext := rw_ext r; rw_ticks := rw_ticks r; rw_trace := rw_trace r |}.

(** [r.now()] *)
Definition runner_now : ST RunnerWorld time := λ w, (w <| rw_ticks ::= S |>, now_at (rw_ticks w)).

Definition on_journal {A} (f : J → J * A) : ST RunnerWorld A :=
  λ w, let '(j, a) := f (rw_journal w) in (w <| rw_journal := j |>, a).
Definition read_journal {A} (f : J → A) : ST RunnerWorld A := λ w, (w, f (rw_journal w)).

(** A call of a collaborator, recorded in the trace. *)
Definition on_outside {A} (event : runner_effect) (f : X → X * A) : ST RunnerWorld A :=
  λ w, let '(x, a) := f (rw_ext w) in (w <| rw_ext := x |> <| rw_trace ::= λ l, l ++ [event] |>, a).

(** [Runner.reject] *)
Definition reject (grant : ActionGrant) (reason : Reason) (err : option error) :
    ST RunnerWorld (Result * option error) :=
  t ← runner_now; mret (runner_result grant ResultRejected reason t, Some (Rejection reason err)).

(** The checks before the journal is read: the grant and its audience, and its hash. *)
Definition check_grant (r : Runner X) (g : ActionGrant) : result (Reason * option error) string :=
  match rn_Grants r with
  | None => Err (ReasonIdentity, Some (ErrorNew "grant verifier unavailable"))
  | Some verify =>
  match verify g with
  | Err err => Err (reasonForGrant err, Some err)
  | Ok _ =>
      if bool_decide (rn_TenantID r = "") || negb (bool_decide (gr_TenantID g = rn_TenantID r))
      then Err (ReasonTenant, None)
      else if bool_decide (rn_RunnerGroup r = "") || negb (bool_decide (gr_RunnerGroup g = rn_RunnerGroup r))
      then Err ("WRONG_RUNNER_AUDIENCE", None)
      else match GrantHash g with
           | Err err => Err (ReasonHashMismatch, Some err)
           | Ok requestHash => if rn_HasJournal r then Ok requestHash else Err (ReasonJournalUnavailable, None)
           end
  end end.

(** The identity, the delegation and the pinned context. *)
Definition check_identity (r : Runner X) (g : ActionGrant) : result (Reason * option error) (Subject * Delegation) :=
  match rn_Connectivity r with
  | Some true =>
  match rn_Subjects r with
  | None => Err (ReasonIdentity, None)
  | Some verify =>
  if bool_decide (gr_UserIdentityProof g = "") then Err (ReasonIdentity, None) else
  match verify (gr_UserIdentityProof g) with
  | Err err => Err (ReasonIdentity, Some err)
  | Ok subject =>
  if negb (bool_decide (sub_ID subject = gr_UserSubject g)) then Err (ReasonIdentity, None) else
  match rn_Delegations r with
  | None => Err (ReasonDelegation, None)
  | Some authorize =>
  match authorize {| dq_Reference := gr_DelegationRef g; dq_Subject := subject; dq_AgentID := gr_AgentID g;
                     dq_Capability := an_Capability (gr_Action g); dq_Service := tg_Service (gr_Target g);
                     dq_Environment := tg_Environment (gr_Target g); dq_Risk := gr_Risk g |} with
  | Err err => Err (ReasonDelegation, Some err)
  | Ok delegation => Ok (subject, delegation)
  end end end end
  | _ => Err (ReasonDisconnected, None)
  end.

Definition check_context (r : Runner X) (g : ActionGrant) (subject : Subject) : result (Reason * option error) unit :=
  match rn_Contexts r with
  | None => Err (ReasonHashMismatch, None)
  | Some resolve =>
  match resolve (gr_RunID g) (gr_StepID g) with
  | Err err => Err (ReasonHashMismatch, Some err)
  | Ok pinned =>
      if negb (matchingHashes g pinned) then Err (ReasonHashMismatch, None)
      else if pc_ApprovalRequired pinned && bool_decide (gr_ApprovalProofs g = []) then Err (ReasonApproval, None)
      else if negb (bool_decide (gr_ApprovalProofs g = []))
              && match rn_Approvals r with None => true | Some verify => negb (is_ok (verify g subject)) end
      then Err (ReasonApproval, None)
      else if negb (Allows (rn_Capabilities r) (an_Capability (gr_Action g))) then Err (ReasonCapability, None)
      else Ok tt
  end end.

Definition check_policy (r : Runner X) (g : ActionGrant) (subject : Subject) (delegation : Delegation) :
    result (Reason * option error) unit :=
  let input := InputForGrant g (sub_Issuer subject) (sub_ID subject) (dg_AgentID delegation) (dg_ID delegation) in
  match rn_Policy r with
  | None => Err (ReasonPolicyDeny, Some (ErrorNew "local OPA unavailable"))
  | Some evaluate =>
  match evaluate input with
  | Err err => Err (ReasonPolicyDeny, Some err)
  | Ok evaluation =>
      if negb (bool_decide (eval_Decision evaluation = DecisionAllow)) then Err (ReasonPolicyDeny, None)
      else if negb (bool_decide (eval_InputHash evaluation = gr_PolicyInputHash g))
              || negb (bool_decide (eval_PolicyHash evaluation = gr_PolicyHash g))
      then Err (ReasonPolicyMismatch, None)
      else Ok tt
  end end.

(** Everything between the lookup in the journal and the reservation. *)
Definition authorize (r : Runner X) (g : ActionGrant) : result (Reason * option error) unit :=
  match check_identity r g with
  | Err e => Err e
  | Ok (subject, delegation) =>
      match check_context r g subject with
      | Err e => Err e
      | Ok _ => check_policy r g subject delegation
      end
  end.

(** [Runner.failReserved] *)
Definition failReserved (record : RunnerActionRecord) (g : ActionGrant) (reason : Reason) (cause : error) :
    ST RunnerWorld (Result * option error) :=
  t ← runner_now;
  let res := runner_result g ResultUnknown reason t in
  t ← runner_now;
  let record := record <| ra_Status := RunnerActionUnknown |> <| ra_Result := res |> <| ra_UpdatedAt := t |> in
  _ ← on_journal (journal_Complete record (ra_StateVersion record)
        (journalAudit (auditID (gr_GrantID g) "unknown" (int64 (ra_StateVersion record + 1))) (gr_GrantID g)
           "runner.action.complete" "UNKNOWN" t {[ "reason_code" := AString reason ]}));
  mret (res, Some (Rejection reason (Some cause))).

Definition purpose_of (action : Action) : credentials.Purpose :=
  if bool_decide (an_Capability action = protocol.CapabilityRollback)
  then credentials.PurposeRollback else credentials.PurposeDeploy.

Definition action_record (g : ActionGrant) (requestHash : string) (t : time) : RunnerActionRecord :=
  {| ra_GrantID := gr_GrantID g; ra_RunID := gr_RunID g; ra_StepID := gr_StepID g; ra_TenantID := gr_TenantID g;
     ra_RunnerGroup := gr_RunnerGroup g; ra_Nonce := gr_Nonce g; ra_IdempotencyKey := gr_IdempotencyKey g;
     ra_RequestHash := requestHash; ra_Target := gr_Target g; ra_Action := gr_Action g; ra_Status := "";
     ra_Result := zero_Result; ra_StateVersion := 0; ra_CreatedAt := t; ra_UpdatedAt := t |}.

Definition adapter_request (g : ActionGrant) (t : time) : AdapterRequest :=
  {| aq_GrantID := gr_GrantID g; aq_RunID := gr_RunID g; aq_StepID := gr_StepID g; aq_Target := gr_Target g;
     aq_Action := gr_Action g; aq_IdempotencyKey := gr_IdempotencyKey g; aq_DispatchedAt := t |}.

(** From the created reservation to the end of [Execute]. *)
Definition dispatch (r : Runner X) (g : ActionGrant) (record : RunnerActionRecord) (t : time) :
    ST RunnerWorld (Result * option error) :=
  match rn_Credentials r, rn_Adapter r with
  | Some acquire, Some adapter =>
      let provider := default "typed-adapter" (ta_CredentialProvider adapter) in
      let request := {| credentials.cq_Provider := provider; credentials.cq_TenantID := gr_TenantID g;
                        credentials.cq_Service := tg_Service (gr_Target g);
                        credentials.cq_Environment := tg_Environment (gr_Target g);
                        credentials.cq_Purpose := purpose_of (gr_Action g) |} in
      credential ← on_outside (REAcquire request) (acquire request);
      match credential with
      | Err err => failReserved record g ReasonCredential err
      | Ok credential =>
          r ← on_outside (REExecute (adapter_request g t)) (ta_Execute adapter (adapter_request g t) credential);
          match r with
          | Err err => failReserved record g ReasonExternalUnknown err
          | Ok adapterResult =>
              let res := (runner_result g ResultSucceeded "" (ar_CompletedAt adapterResult))
                <| rs_ExternalExecutionID := ar_ExternalExecutionID adapterResult |> in
              t ← runner_now;
              let record := record <| ra_Status := RunnerActionSucceeded |> <| ra_Result := res |>
                <| ra_UpdatedAt := t |> in
              c ← on_journal (journal_Complete record (ra_StateVersion record)
                    (journalAudit (auditID (gr_GrantID g) "complete" (int64 (ra_StateVersion record + 1))) (gr_GrantID g)
                       "runner.action.complete" "SUCCEEDED" t
                       {[ "external_execution_id" := AString (rs_ExternalExecutionID res) ]}));
              match c with
              | Err err => reject g ReasonExternalUnknown (Some err)
              | Ok _ => mret (res, None)
              end
          end
      end
  | _, _ => failReserved record g ReasonCredential (ErrorNew "credential or adapter unavailable")
  end.

(** [Runner.Execute] *)
Definition Execute (r : Runner X) (g : ActionGrant) : ST RunnerWorld (Result * option error) :=
  match check_grant r g with
  | Err (reason, err) => reject g reason err
  | Ok requestHash =>
      existing ← read_journal (journal_Get (gr_TenantID g) (gr_RunnerGroup g) (gr_Nonce g));
      match existing with
      | Ok existing => mret (replayResult g existing requestHash)
      | Err err =>
          if negb (errors_Is err "store.ErrNotFound") then reject g ReasonJournalUnavailable (Some err)
          else match authorize r g with
          | Err (reason, err) => reject g reason err
          | Ok _ =>
              t ← runner_now;
              reserved ← on_journal (journal_Reserve (action_record g requestHash t)
                (journalAudit (auditID (gr_GrantID g) "reserve" 1) (gr_GrantID g) "runner.action.reserve" "AUTHORIZED"
                   t {[ "request_hash" := AString requestHash ]}));
              match reserved with
              | Err err => reject g ReasonJournalUnavailable (Some err)
              | Ok (record, false) => mret (replayResult g record requestHash)
              | Ok (record, true) => dispatch r g record t
              end
          end
      end
  end.

(** ** reconcile.go *)

Definition reconcile_request (record : RunnerActionRecord) : AdapterRequest :=
  {| aq_GrantID := ra_GrantID record; aq_RunID := ra_RunID record; aq_StepID := ra_StepID record;
     aq_Target := ra_Target record; aq_Action := ra_Action record; aq_IdempotencyKey := ra_IdempotencyKey record;
     aq_DispatchedAt := ra_CreatedAt record |}.

(** The result [Reconcile] writes into a settled record. *)
Definition reconciled_result (record : RunnerActionRecord) (res : AdapterResult) : Result :=
  {| rs_ProtocolVersion := VersionV1Alpha1; rs_GrantID := ra_GrantID record; rs_RunID := ra_RunID record;
     rs_StepID := ra_StepID record; rs_Status := ResultSucceeded; rs_ReasonCode := "";
     rs_ExternalExecutionID := ar_ExternalExecutionID res; rs_CompletedAt := ar_CompletedAt res;
     rs_Signature := zero_Signature |}.

(** The loop over the pending records. *)
Fixpoint reconcile_loop (r : Runner X) (reconciler : Reconciler X) (records : list RunnerActionRecord) :
    ST RunnerWorld (result error unit) :=
  match records with
  | [] => mret (Ok tt)
  | record :: records =>
      match rn_Credentials r with
      | None => mret (Err (Errorf "reconciliation credential unavailable" None))
      | Some acquire =>
          let request :=
            {| credentials.cq_Provider := default "typed-adapter" (rc_CredentialProvider reconciler);
               credentials.cq_TenantID := ra_TenantID record; credentials.cq_Service := tg_Service (ra_Target record);
               credentials.cq_Environment := tg_Environment (ra_Target record);
               credentials.cq_Purpose := purpose_of (ra_Action record) |} in
          credential ← on_outside (REAcquire request) (acquire request);
          match credential with
          | Err _ => reconcile_loop r reconciler records
          | Ok credential =>
              res ← on_outside (REReconcile (reconcile_request record))
                      (rc_Reconcile reconciler (reconcile_request record) credential);
              match res with
              | Ok (res, true) =>
                  t ← runner_now;
                  let record := record <| ra_Status := RunnerActionSucceeded |>
                    <| ra_Result := reconciled_result record res |> <| ra_UpdatedAt := t |> in
                  c ← on_journal (journal_Complete record (ra_StateVersion record)
                        (journalAudit (auditID (ra_GrantID record) "reconcile" (int64 (ra_StateVersion record + 1)))
                           (ra_GrantID record) "runner.action.reconcile" "SUCCEEDED" t ∅));
                  match c with
                  | Err err => mret (Err err)
                  | Ok _ => reconcile_loop r reconciler records
                  end
              | _ => reconcile_loop r reconciler records
              end
          end
      end
  end.

(** [Runner.Reconcile] *)
Definition Reconcile (r : Runner X) (reconciler : option (Reconciler X)) (limit : Z) :
    ST RunnerWorld (result error unit) :=
  match rn_HasJournal r, reconciler with
  | true, Some reconciler =>
      if bool_decide (rn_TenantID r = "") || bool_decide (rn_RunnerGroup r = "")
      then mret (Err (Errorf "runner identity unavailable" None))
      else
        records ← read_journal (journal_Pending (rn_TenantID r) (rn_RunnerGroup r) limit);
        match records with
        | Err err => mret (Err err)
        | Ok records => reconcile_loop r reconciler records
        end
  | _, _ => mret (Err (Errorf "reconciliation unavailable" None))
  end.
End runner.

#[global] Arguments RunnerWorld : clear implicits.

(** ** dispatch.go: the bridge to the adapter SDK *)

Section sdk.
Context {X : Type}.

Definition sdk_target (request : AdapterRequest) : adapter.Target :=
  {| adapter.at_Service := tg_Service (aq_Target request); adapter.at_Environment := tg_Environment (aq_Target request) |}.

(** [SDKDispatcher.Execute]; [now] is the clock of the dispatcher. *)
Definition SDKDispatcher_Execute (a : option (adapter.DeployAdapter X)) (now : time) (request : AdapterRequest)
    (credential : credentials.Credential) (x : X) : X * result error AdapterResult :=
  match a with
  | None => (x, Err (Errorf "deploy adapter unavailable" None))
  | Some a =>
      let finish (outcome : X * result error adapter.Deployment) :=
        let '(x, r) := outcome in
        match r with
        | Err err => (x, Err err)
        | Ok deployment =>
            let completedAt := if IsZero (adapter.ad_FinishedAt deployment) then now else adapter.ad_FinishedAt deployment in
            (x, Ok {| ar_ExternalExecutionID := adapter.ad_ExternalExecutionID deployment; ar_CompletedAt := completedAt |})
        end in
      let capability := an_Capability (aq_Action request) in
      if bool_decide (capability = protocol.CapabilityDeploy) then
        finish (adapter.da_Deploy a
          {| adapter.adr_Target := sdk_target request; adapter.adr_ArtifactDigest := an_ArtifactDigest (aq_Action request);
             adapter.adr_IdempotencyKey := aq_IdempotencyKey request |} credential x)
      else if bool_decide (capability = protocol.CapabilityRollback) then
        finish (adapter.da_Rollback a
          {| adapter.arb_Target := sdk_target request;
             adapter.arb_OriginalDeployment :=
               {| adapter.ad_ExternalExecutionID := an_ExternalExecutionID (aq_Action request);
                  adapter.ad_CorrelationID := ""; adapter.ad_StartedAt := 0; adapter.ad_FinishedAt := 0 |};
             adapter.arb_IdempotencyKey := aq_IdempotencyKey request |} credential x)
      else (x, Err (Errorf ("unsupported typed action " +:+ quote capability) None))
  end.

(** [SDKDispatcher.Reconcile] *)
Definition SDKDispatcher_Reconcile (a : option (adapter.DeployAdapter X)) (now : time) (request : AdapterRequest)
    (credential : credentials.Credential) (x : X) : X * result error (AdapterResult * bool) :=
  let zero := {| ar_ExternalExecutionID := ""; ar_CompletedAt := 0 |} in
  match a with
  | None => (x, Err (Errorf "deploy adapter unavailable" None))
  | Some a =>
      let dispatchedAt := if IsZero (aq_DispatchedAt request) then Add now (- (24 * Hour)) else aq_DispatchedAt request in
      let '(x, r) := adapter.da_Reconcile a
        {| adapter.arq_IdempotencyKey := aq_IdempotencyKey request; adapter.arq_DispatchedAt := dispatchedAt |} credential x in
      match r with
      | Err err => (x, Err err)
      | Ok res =>
          if bool_decide (adapter.arr_Status res = adapter.ReconcileNotFound)
             || bool_decide (adapter.arr_Status res = adapter.ReconcilePending)
          then (x, Ok (zero, false))
          else if bool_decide (adapter.arr_Status res = adapter.ReconcileFailed)
          then (x, Err (Errorf "external execution failed during reconciliation" None))
          else (x, Ok ({| ar_ExternalExecutionID := adapter.ad_ExternalExecutionID (adapter.arr_Deployment res);
                          ar_CompletedAt := adapter.ad_FinishedAt (adapter.arr_Deployment res) |}, true))
      end
  end.

(** The dispatcher as the adapter and the reconciler of a runner. *)
Definition SDK_adapter (a : option (adapter.DeployAdapter X)) (now : time) : TypedAdapter X :=
  {| ta_CredentialProvider := Some adapter.ProviderGitHubActions; ta_Execute := SDKDispatcher_Execute a now |}.

Definition SDK_reconciler (a : option (adapter.DeployAdapter X)) (now : time) : Reconciler X :=
  {| rc_CredentialProvider := Some adapter.ProviderGitHubActions; rc_Reconcile := SDKDispatcher_Reconcile a now |}.
End sdk.

(** ** The journal a runner relies on *)

(** [taken j tenant group key]: an action with this idempotency key is in the journal. *)
Class JournalLaws (J : Type) `{!RunnerJournal J} := {
  available : J → Prop;
  taken : J → string → string → string → Prop;
  reserve_created record audit j j' r : journal_Reserve record audit j = (j', Ok (r, true)) →
    r = record <| ra_Status := RunnerActionReserved |> <| ra_StateVersion := 1 |> ∧
    journal_Get (ra_TenantID record) (ra_RunnerGroup record) (ra_Nonce record) j' = Ok r ∧
    ¬ taken j (ra_TenantID record) (ra_RunnerGroup record) (ra_IdempotencyKey record) ∧
    taken j' (ra_TenantID record) (ra_RunnerGroup record) (ra_IdempotencyKey record);
  reserve_refused record audit j j' r : journal_Reserve record audit j = (j', r) →
    (∀ r', r ≠ Ok (r', true)) → j' = j;
  reserve_again record record' audit audit' j j' r : journal_Reserve record audit j = (j', Ok (r, false)) →
    ra_TenantID record' = ra_TenantID record → ra_RunnerGroup record' = ra_RunnerGroup record →
    ra_Nonce record' = ra_Nonce record → ra_IdempotencyKey record' = ra_IdempotencyKey record →
    journal_Reserve record' audit' j = (j, Ok (r, false));
  reserve_fresh record audit j e : available j →
    journal_Get (ra_TenantID record) (ra_RunnerGroup record) (ra_Nonce record) j = Err e →
    ¬ taken j (ra_TenantID record) (ra_RunnerGroup record) (ra_IdempotencyKey record) →
    ∃ j' r, journal_Reserve record audit j = (j', Ok (r, true)) ∧ available j';
  taken_reserve record audit j tenant group key :
    taken j tenant group key → taken (fst (journal_Reserve record audit j)) tenant group key;
  taken_complete record v audit j tenant group key :
    taken j tenant group key → taken (fst (journal_Complete record v audit j)) tenant group key;
  complete_ok record v audit j j' : journal_Complete record v audit j = (j', Ok tt) →
    journal_Get (ra_TenantID record) (ra_RunnerGroup record) (ra_Nonce record) j' =
    Ok (record <| ra_StateVersion := int64 (v + 1) |>);
  complete_available record v audit j current : available j →
    journal_Get (ra_TenantID record) (ra_RunnerGroup record) (ra_Nonce record) j = Ok current →
    ra_StateVersion current = v → snd (journal_Complete record v audit j) = Ok tt;
}.

(** The in-memory store is such a journal. *)
#[export] Instance Memory_RunnerJournal `{!MapOrder} : RunnerJournal Memory := {|
  journal_Get := GetRunnerAction;
  journal_Reserve := ReserveRunnerAction;
  journal_Complete := CompleteRunnerAction;
  journal_Pending := PendingRunnerActions;
|}.

Ltac journal_cases :=
  unfold ReserveRunnerAction, CompleteRunnerAction, GetRunnerAction;
  repeat match goal with
  | |- context [match mem_journalError ?m with _ => _ end] => destruct (mem_journalError m) eqn:?
  | |- context [match mem_runnerActions ?m !! ?k with _ => _ end] => destruct (mem_runnerActions m !! k) eqn:?
  | |- context [match mem_runnerByKey ?m !! ?k with _ => _ end] => destruct (mem_runnerByKey m !! k) eqn:?
  | |- context [negb (?a =? ?b)] => destruct (a =? b) eqn:?; cbn [negb]
  end; unfold modify; simpl.

#[export] Program Instance Memory_JournalLaws `{!MapOrder} : JournalLaws Memory := {|
  available := λ m, mem_journalError m = None;
  taken := λ m tenant group key, is_Some (mem_runnerByKey m !! runnerIdempotencyKey tenant group key);
|}.
Next Obligation.
  intros ? record audit m m' r. simpl. unfold ReserveRunnerAction, GetRunnerAction.
  destruct (mem_journalError m) eqn:He; [done|]. destruct (mem_runnerActions m !! _); [done|].
  destruct (mem_runnerByKey m !! _) eqn:Hk; [done|]. intros [= <- <-]. unfold modify; simpl.
  rewrite He, !lookup_insert_eq. repeat split; [|by eexists]. by intros [? ?].
Qed.
Next Obligation.
  intros ? record audit m m' r. simpl. journal_cases; intros [= <- <-] Hr; try done. by destruct (Hr _ eq_refl).
Qed.
Next Obligation.
  intros ? record record' audit audit' m m' r Heq Ht Hg Hn Hk. revert Heq. simpl. unfold ReserveRunnerAction.
  rewrite Ht, Hg, Hn, Hk. destruct (mem_journalError m); [done|].
  destruct (mem_runnerActions m !! _); [by intros [= <- <-]|].
  destruct (mem_runnerByKey m !! _); [by intros [= <- <-]|done].
Qed.
Next Obligation.
  intros ? record audit m e Hav. simpl. unfold GetRunnerAction, ReserveRunnerAction. rewrite Hav.
  destruct (mem_runnerActions m !! _); [done|]. intros _ Hnot.
  destruct (mem_runnerByKey m !! _) eqn:Hk; [destruct Hnot; by eexists|]. do 2 eexists. split; [done|]. done.
Qed.
Next Obligation.
  intros ? record audit m tenant group key. simpl. journal_cases; try done.
  intros Ht. apply lookup_insert_is_Some'. by right.
Qed.
Next Obligation. intros ? record v audit m tenant group key. simpl. by journal_cases. Qed.
Next Obligation.
  intros ? record v audit m m'. simpl. unfold CompleteRunnerAction, GetRunnerAction.
  destruct (mem_journalError m) eqn:He; [done|]. destruct (mem_runnerActions m !! _); [|done].
  destruct (negb _); [done|]. intros [= <-]. unfold modify; simpl. by rewrite He, lookup_insert_eq.
Qed.
Next Obligation.
  intros ? record v audit m current Hav. simpl. unfold GetRunnerAction, CompleteRunnerAction. rewrite Hav.
  destruct (mem_runnerActions m !! _) as [c|]; [|done]. intros [= ->] <-. by rewrite Z.eqb_refl.
Qed.

(** ** What an execution needs *)

Definition delegation_request (g : ActionGrant) (subject : Subject) : DelegationRequest :=
  {| dq_Reference := gr_DelegationRef g; dq_Subject := subject; dq_AgentID := gr_AgentID g;
     dq_Capability := an_Capability (gr_Action g); dq_Service := tg_Service (gr_Target g);
     dq_Environment := tg_Environment (gr_Target g); dq_Risk := gr_Risk g |}.

Definition grant_input (g : ActionGrant) (subject : Subject) (d : Delegation) : Input :=
  InputForGrant g (sub_Issuer subject) (sub_ID subject) (dg_AgentID d) (dg_ID d).

(** Everything that was checked for a grant, with the verified subject and delegation. *)
Record authorized {X} (r : Runner X) (g : ActionGrant) (subject : Subject) (d : Delegation) : Prop := {
  au_connected : rn_Connectivity r = Some true;
  au_subject : ∃ verify, rn_Subjects r = Some verify ∧ verify (gr_UserIdentityProof g) = Ok subject ∧
    sub_ID subject = gr_UserSubject g;
  au_delegation : ∃ authorize, rn_Delegations r = Some authorize ∧ authorize (delegation_request g subject) = Ok d;
  au_context : ∃ resolve pinned, rn_Contexts r = Some resolve ∧ resolve (gr_RunID g) (gr_StepID g) = Ok pinned ∧
    matchingHashes g pinned = true ∧ (pc_ApprovalRequired pinned = true → gr_ApprovalProofs g ≠ []);
  au_approvals : gr_ApprovalProofs g ≠ [] → ∃ verify, rn_Approvals r = Some verify ∧ verify g subject = Ok tt;
  au_capability : an_Capability (gr_Action g) ∈ rn_Capabilities r;
  au_policy : ∃ evaluate e, rn_Policy r = Some evaluate ∧ evaluate (grant_input g subject d) = Ok e ∧
    eval_Decision e = DecisionAllow ∧ eval_InputHash e = gr_PolicyInputHash g ∧ eval_PolicyHash e = gr_PolicyHash g;
}.

Lemma matchingHashes_spec g pinned :
  matchingHashes g pinned = true ↔
  gr_PlanHash g = pc_PlanHash pinned ∧ gr_ContractHash g = pc_ContractHash pinned ∧
  gr_ProfileHash g = pc_ProfileHash pinned ∧ gr_PolicyHash g = pc_PolicyHash pinned ∧
  gr_EvidenceHash g = pc_EvidenceHash pinned ∧ gr_Target g = pc_Target pinned ∧ gr_Action g = pc_Action pinned.
Proof. unfold matchingHashes. rewrite !andb_true_iff, !bool_decide_eq_true. tauto. Qed.

Lemma authorize_Ok {X} (r : Runner X) g :
  authorize r g = Ok tt ↔ gr_UserIdentityProof g ≠ "" ∧ ∃ subject d, authorized r g subject d.
Proof.
  unfold authorize, check_identity. split.
  - destruct (rn_Connectivity r) as [[]|] eqn:Hconn; try done.
    destruct (rn_Subjects r) as [verify|] eqn:Hsub; [|done].
    destruct (bool_decide (gr_UserIdentityProof g = "")) eqn:Hproof; [done|]. apply bool_decide_eq_false in Hproof.
    destruct (verify (gr_UserIdentityProof g)) as [subject|] eqn:Hver; [|done].
    destruct (bool_decide (sub_ID subject = gr_UserSubject g)) eqn:Hid; [|done]. apply bool_decide_eq_true in Hid.
    cbn [negb]. destruct (rn_Delegations r) as [authorize|] eqn:Hdel; [|done].
    destruct (authorize _) as [d|] eqn:Hd; [|done]. unfold check_context.
    destruct (rn_Contexts r) as [resolve|] eqn:Hctx; [|done].
    destruct (resolve (gr_RunID g) (gr_StepID g)) as [pinned|] eqn:Hpin; [|done].
    destruct (matchingHashes g pinned) eqn:Hm; [|done]. cbn [negb].
    destruct (pc_ApprovalRequired pinned && _) eqn:Happ; [done|].
    destruct (negb (bool_decide (gr_ApprovalProofs g = [])) && _) eqn:Hproofs; [done|].
    destruct (Allows _ _) eqn:Hcap; [|done]. cbn [negb]. unfold check_policy.
    destruct (rn_Policy r) as [evaluate|] eqn:Hpol; [|done]. fold (grant_input g subject d).
    destruct (evaluate (grant_input g subject d)) as [e|] eqn:He; [|done].
    destruct (bool_decide (eval_Decision e = DecisionAllow)) eqn:Hallow; [|done]. cbn [negb].
    destruct (negb _ || negb _) eqn:Hhash; [done|]. intros _. split; [done|]. exists subject, d.
    apply orb_false_elim in Hhash as [H1%negb_false_iff%bool_decide_eq_true H2%negb_false_iff%bool_decide_eq_true].
    apply bool_decide_eq_true in Hallow, Hcap. split; try done; eauto 10.
    + exists resolve, pinned. repeat split; try done. intros Hreq. rewrite Hreq in Happ. by apply bool_decide_eq_false in Happ.
    + intros Hne. rewrite (bool_decide_false _ Hne) in Hproofs. cbn [negb andb] in Hproofs.
      destruct (rn_Approvals r) as [ap|]; [|done]. destruct (ap g subject) as [[]|] eqn:Hap; [|done]. by exists ap.
  - intros [Hproof (subject & d & [Hconn (verify & Hsub & Hver & Hid) (auth & Hdel & Hd) (resolve & pinned & Hctx & Hpin & Hm & Happ)
      Hproofs Hcap (evaluate & e & Hpol & He & Hallow & Hih & Hph)])].
    rewrite Hconn, Hsub, (bool_decide_false _ Hproof), Hver, (bool_decide_true _ Hid), Hdel. cbn [negb].
    fold (delegation_request g subject). rewrite Hd. unfold check_context. rewrite Hctx, Hpin, Hm. cbn [negb].
    destruct (pc_ApprovalRequired pinned && _) eqn:Hreq.
    { apply andb_prop in Hreq as [? ?%bool_decide_eq_true]. naive_solver. }
    destruct (decide (gr_ApprovalProofs g = [])) as [Hnil|Hne].
    + rewrite (bool_decide_true _ Hnil). cbn [negb andb]. unfold Allows. rewrite (bool_decide_true _ Hcap). cbn [negb].
      unfold check_policy. rewrite Hpol. fold (grant_input g subject d).
      by rewrite He, (bool_decide_true _ Hallow), (bool_decide_true _ Hih), (bool_decide_true _ Hph).
    + rewrite (bool_decide_false _ Hne). cbn [negb andb]. destruct (Hproofs Hne) as (ap & -> & ->). cbn [is_ok negb].
      unfold Allows. rewrite (bool_decide_true _ Hcap). cbn [negb].
      unfold check_policy. rewrite Hpol. fold (grant_input g subject d).
      by rewrite He, (bool_decide_true _ Hallow), (bool_decide_true _ Hih), (bool_decide_true _ Hph).
Qed.

Lemma check_grant_Ok `{!MapOrder} {X} (r : Runner X) g hash :
  check_grant r g = Ok hash ↔
  (∃ verify, rn_Grants r = Some verify ∧ verify g = Ok tt) ∧
  rn_TenantID r ≠ "" ∧ gr_TenantID g = rn_TenantID r ∧ rn_RunnerGroup r ≠ "" ∧ gr_RunnerGroup g = rn_RunnerGroup r ∧
  GrantHash g = Ok hash ∧ rn_HasJournal r = true.
Proof.
  unfold check_grant. destruct (rn_Grants r) as [verify|]; [|naive_solver].
  destruct (verify g) as [[]|] eqn:Hver; [|split; [done|]; intros [(? & [= <-] & ?) _]; congruence].
  destruct (bool_decide (rn_TenantID r = "")) eqn:Ht1; [apply bool_decide_eq_true in Ht1; naive_solver|].
  destruct (bool_decide (gr_TenantID g = rn_TenantID r)) eqn:Ht2; [|apply bool_decide_eq_false in Ht2; naive_solver].
  destruct (bool_decide (rn_RunnerGroup r = "")) eqn:Hg1; [apply bool_decide_eq_true in Hg1; naive_solver|].
  destruct (bool_decide (gr_RunnerGroup g = rn_RunnerGroup r)) eqn:Hg2; [|apply bool_decide_eq_false in Hg2; naive_solver].
  apply bool_decide_eq_false in Ht1, Hg1. apply bool_decide_eq_true in Ht2, Hg2. cbn [negb orb].
  destruct (GrantHash g) as [h|]; [|naive_solver]. destruct (rn_HasJournal r); [|naive_solver].
  split; [|naive_solver]. intros [= ->]. eauto 10.
Qed.

(** ** Executing a grant *)

(** The adapter calls of a trace. *)
Definition executions (evs : list runner_effect) : list AdapterRequest :=
  omap (λ ev, match ev with REExecute request => Some request | _ => None end) evs.

Lemma executions_app l1 l2 : executions (l1 ++ l2) = executions l1 ++ executions l2.
Proof. apply omap_app. Qed.

(** The checks never report an unknown external state. *)
Lemma check_grant_reason `{!MapOrder} {X} (r : Runner X) g reason err :
  check_grant r g = Err (reason, err) → reason ≠ ReasonExternalUnknown.
Proof.
  unfold check_grant, reasonForGrant. repeat (case_match; try done); by intros [= <- _].
Qed.

Lemma authorize_reason {X} (r : Runner X) g reason err :
  authorize r g = Err (reason, err) → reason ≠ ReasonExternalUnknown.
Proof.
  unfold authorize. destruct (check_identity r g) as [[subject d]|[]] eqn:Hid.
  - destruct (check_context r g subject) as [[]|[]] eqn:Hctx.
    + unfold check_policy. repeat (case_match; try done); by intros [= <- _].
    + revert Hctx. unfold check_context. repeat (case_match; try done); by intros [= <- _] [= <- _].
  - revert Hid. unfold check_identity. repeat (case_match; try done); by intros [= <- _] [= <- _].
Qed.

Section runner_facts.
Context `{!MapOrder} {J X : Type} `{!RunnerJournal J, !JournalLaws J}.
Context (now_at : nat → time).
Implicit Types (w : RunnerWorld J X) (r : Runner X) (g : ActionGrant).

(** Nothing but the clock moved. *)
Definition quiet w w' : Prop :=
  rw_journal w' = rw_journal w ∧ rw_ext w' = rw_ext w ∧ rw_trace w' = rw_trace w.

(** The grant is recorded already: under its nonce, or another action holds its idempotency key. *)
Definition recorded r g w record : Prop :=
  journal_Get (gr_TenantID g) (gr_RunnerGroup g) (gr_Nonce g) (rw_journal w) = Ok record ∨
  ∃ e hash t audit, journal_Get (gr_TenantID g) (gr_RunnerGroup g) (gr_Nonce g) (rw_journal w) = Err e ∧
    errors_Is e "store.ErrNotFound" = true ∧ authorize r g = Ok tt ∧
    journal_Reserve (action_record g hash t) audit (rw_journal w) = (rw_journal w, Ok (record, false)).

(** The world in which the action of [g] has just been reserved. *)
Definition reserved g w hash record w1 : Prop :=
  let t := now_at (rw_ticks w) in
  ∃ e audit j, journal_Get (gr_TenantID g) (gr_RunnerGroup g) (gr_Nonce g) (rw_journal w) = Err e ∧
    journal_Reserve (action_record g hash t) audit (rw_journal w) = (j, Ok (record, true)) ∧
    w1 = w <| rw_ticks ::= S |> <| rw_journal := j |>.

(** The three ways [Execute] goes. *)
Lemma Execute_cases r g w w' out :
  Execute now_at r g w = (w', out) →
  (∃ reason err, quiet w w' ∧ reason ≠ ReasonExternalUnknown ∧
     out = (runner_result g ResultRejected reason (rs_CompletedAt out.1), Some (Rejection reason err))) ∨
  (∃ hash record, check_grant r g = Ok hash ∧ quiet w w' ∧ recorded r g w record ∧ out = replayResult g record hash) ∨
  (∃ hash record w1, check_grant r g = Ok hash ∧ authorize r g = Ok tt ∧ reserved g w hash record w1 ∧
     dispatch now_at r g record (now_at (rw_ticks w)) w1 = (w', out)).
Proof.
  assert (Hreject : ∀ reason err w0, quiet w w0 → reason ≠ ReasonExternalUnknown → reject now_at g reason err w0 = (w', out) →
    ∃ reason err, quiet w w' ∧ reason ≠ ReasonExternalUnknown ∧
      out = (runner_result g ResultRejected reason (rs_CompletedAt out.1), Some (Rejection reason err))).
  { intros reason err w0 Hq Hne [= <- <-]. by exists reason, err. }
  unfold Execute. destruct (check_grant r g) as [hash|[reason err]] eqn:Hgrant.
  2:{ intros Hrej. left. by eapply Hreject; [..|done]; [|by eapply check_grant_reason]. }
  intros (w0 & existing & Hget & Hk)%st_bind_inv. unfold read_journal in Hget. injection Hget as <- Hget.
  destruct existing as [existing|e].
  { injection Hk as <- <-. right; left. exists hash, existing. repeat split; try done. by left. }
  destruct (errors_Is e _) eqn:Hnf; [|left; by eapply Hreject; [| |exact Hk]]. cbn [negb] in Hk.
  destruct (authorize r g) as [[]|[reason err]] eqn:Hauth.
  2:{ left. by eapply Hreject; [..|done]; [|by eapply authorize_reason]. }
  apply st_bind_inv in Hk as (w1 & t & Hnow & Hk). injection Hnow as <- <-.
  apply st_bind_inv in Hk as (w2 & res & Hres & Hk). unfold on_journal in Hres. cbn [rw_journal modify] in Hres.
  set (record := action_record g hash (now_at (rw_ticks w))) in *.
  destruct (journal_Reserve record _ (rw_journal w)) as [j res'] eqn:Hreserve. injection Hres as <- ->.
  destruct res as [[r0 created]|err].
  2:{ left. eapply reserve_refused in Hreserve as ->; [|done]. by eapply Hreject; [| |exact Hk]. }
  destruct created.
  - right; right. exists hash, r0. eexists. repeat split; try done. do 3 eexists. split; [done|]. split; [done|]. done.
  - pose proof Hreserve as Href. apply reserve_refused in Href as ->; [|done]. injection Hk as <- <-.
    right; left. exists hash, r0. repeat split; try done. right. exists e, hash, (now_at (rw_ticks w)). eexists.
    split_and!; [done..|exact Hreserve].
Qed.

(** A recorded action is answered from the journal. *)
Lemma Execute_replays r g w hash record :
  check_grant r g = Ok hash → recorded r g w record →
  ∃ w', Execute now_at r g w = (w', replayResult g record hash) ∧ quiet w w'.
Proof.
  intros Hcheck Hrec. unfold Execute. rewrite Hcheck. unfold read_journal, mbind, st_bind.
  destruct Hrec as [Hget|(e & h & t & audit & Hget & Hnf & Hauth & Hres)].
  - rewrite Hget. by exists w.
  - rewrite Hget, Hnf, Hauth. cbn [negb]. unfold runner_now, on_journal. cbn [rw_journal modify].
    match goal with |- context [journal_Reserve ?rec ?a (rw_journal w)] =>
      rewrite (reserve_again _ rec _ a _ _ _ Hres eq_refl eq_refl eq_refl eq_refl) end.
    eexists. by split.
Qed.

(** What happens after the reservation: the idempotency keys stay taken, the credential is asked
    for before the adapter is called, and a success is what the journal then holds. *)
(** The adapter executed the request of the grant, once, and the outside is as it left it. *)
Definition executed r g t w w' : Prop :=
  executions (rw_trace w') = executions (rw_trace w) ++ [adapter_request g t] ∧
  ∃ adapter credential x res, rn_Adapter r = Some adapter ∧
    ta_Execute adapter (adapter_request g t) credential x = (rw_ext w', Ok res).

(** The last thing asked of the journal was to complete an action, and it failed. *)
Definition unrecorded w' : Prop :=
  ∃ record version audit j err, journal_Complete record version audit j = (rw_journal w', Err err).

Lemma dispatch_spec r g record t w w' out :
  dispatch now_at r g record t w = (w', out) →
  (∀ tenant group key, taken (rw_journal w) tenant group key → taken (rw_journal w') tenant group key) ∧
  (∃ evs, rw_trace w' = rw_trace w ++ evs ∧ (executions evs = [] ∨ executions evs = [adapter_request g t])) ∧
  (rs_Status out.1 = ResultRejected → rs_ReasonCode out.1 = ReasonExternalUnknown ∧ executed r g t w w' ∧ unrecorded w') ∧
  (out.2 = None → ∃ current,
     journal_Get (ra_TenantID record) (ra_RunnerGroup record) (ra_Nonce record) (rw_journal w') = Ok current ∧
     ra_RequestHash current = ra_RequestHash record ∧ ra_Status current = RunnerActionSucceeded ∧
     ra_Result current = out.1).
Proof.
  assert (Hfail : ∀ reason cause w1 evs, failReserved now_at record g reason cause w1 = (w', out) →
    rw_journal w1 = rw_journal w → rw_trace w1 = rw_trace w ++ evs →
    (executions evs = [] ∨ executions evs = [adapter_request g t]) →
    (∀ tenant group key, taken (rw_journal w) tenant group key → taken (rw_journal w') tenant group key) ∧
    (∃ evs, rw_trace w' = rw_trace w ++ evs ∧ (executions evs = [] ∨ executions evs = [adapter_request g t])) ∧
    rs_Status out.1 ≠ ResultRejected ∧ out.2 ≠ None).
  { intros reason cause w1 evs Hf Hj Htr Hevs. unfold failReserved in Hf.
    apply st_bind_inv in Hf as (w2 & t2 & Hnow & Hf). injection Hnow as <- <-.
    apply st_bind_inv in Hf as (w3 & t3 & Hnow & Hf). injection Hnow as <- <-.
    apply st_bind_inv in Hf as (w4 & c & Hc & Hf). injection Hf as <- <-. unfold on_journal in Hc.
    cbn [rw_journal modify] in Hc. rewrite Hj in Hc.
    match type of Hc with context [journal_Complete ?rec ?v ?a ?j] =>
      pose proof (taken_complete rec v a j) as Hmono; destruct (journal_Complete rec v a j) as [j' c'] end.
    injection Hc as <- <-. repeat split; [exact Hmono| |done|done]. exists evs. by split. }
  unfold dispatch. destruct (rn_Credentials r) as [acquire|].
  2:{ intros Hf. eapply Hfail in Hf as (? & ? & ? & ?); [|done|by rewrite app_nil_r|by left]. done. }
  destruct (rn_Adapter r) as [adapter|] eqn:Had.
  2:{ intros Hf. eapply Hfail in Hf as (? & ? & ? & ?); [|done|by rewrite app_nil_r|by left]. done. }
  intros (w1 & credential & Hacq & Hk)%st_bind_inv. unfold on_outside in Hacq.
  destruct (acquire _ (rw_ext w)) as [x c]. injection Hacq as <- <-.
  destruct c as [credential|err].
  2:{ eapply Hfail in Hk as (? & ? & ? & ?); [|done|done|by left]. done. }
  apply st_bind_inv in Hk as (w2 & res & Hex & Hk). unfold on_outside in Hex. cbn [rw_ext modify] in Hex.
  destruct (ta_Execute _ _ _ x) as [x' res'] eqn:Hexec. injection Hex as <- <-.
  destruct res' as [res|err].
  2:{ eapply Hfail in Hk as (? & ? & ? & ?); [|done|by rewrite <-app_assoc|by right]. done. }
  apply st_bind_inv in Hk as (w3 & t' & Hnow & Hk). injection Hnow as <- <-.
  apply st_bind_inv in Hk as (w4 & c & Hc & Hk). unfold on_journal in Hc. cbn [rw_journal modify] in Hc.
  match type of Hc with context [journal_Complete ?rec ?v ?a ?j] =>
    pose proof (taken_complete rec v a j) as Hmono; pose proof (complete_ok rec v a j) as Hok;
    destruct (journal_Complete rec v a j) as [j' c'] eqn:Hcomplete end.
  injection Hc as <- <-. destruct c' as [[]|err]; injection Hk as <- <-; unfold modify; cbn.
  - split; [exact Hmono|]. split; [eexists; split; [by rewrite <-app_assoc|by right]|]. split; [done|].
    intros _. eexists. split; [by apply Hok|]. done.
  - split; [exact Hmono|]. split; [eexists; split; [by rewrite <-app_assoc|by right]|]. split; [|done]. intros _. split; [done|].
    split; [split; [|by exists adapter, credential, x, res]; cbn; rewrite !executions_app; cbn; by rewrite app_nil_r|].
    unfold unrecorded. cbn. by do 5 eexists.
Qed.

(** Broker, adapter and journal answer: the reserved action succeeds. *)
Lemma dispatch_succeeds r g record t w acquire adapter :
  rn_Credentials r = Some acquire → (∀ request x, is_ok (acquire request x).2 = true) →
  rn_Adapter r = Some adapter → (∀ request c x, is_ok (ta_Execute adapter request c x).2 = true) →
  available (rw_journal w) →
  journal_Get (ra_TenantID record) (ra_RunnerGroup record) (ra_Nonce record) (rw_journal w) = Ok record →
  ∃ w' res current, dispatch now_at r g record t w = (w', (res, None)) ∧ rs_Status res = ResultSucceeded ∧
    executions (rw_trace w') = executions (rw_trace w) ++ [adapter_request g t] ∧
    journal_Get (ra_TenantID record) (ra_RunnerGroup record) (ra_Nonce record) (rw_journal w') = Ok current ∧
    ra_Status current = RunnerActionSucceeded ∧ ra_Result current = res.
Proof.
  intros Hacq Hacquire Had Hadapter Hav Hget. destruct (dispatch now_at r g record t w) as [w' out] eqn:Hd.
  pose proof (dispatch_spec r g record t w w' out Hd) as (_ & _ & _ & Hok). revert Hd.
  unfold dispatch. rewrite Hacq, Had. intros (w1 & c & Hc & Hk)%st_bind_inv. unfold on_outside in Hc.
  match type of Hc with context [acquire ?q ?x] => pose proof (Hacquire q x) as Ha; destruct (acquire q x) as [x1 c'] end.
  injection Hc as <- <-. destruct c' as [credential|]; [|discriminate Ha].
  apply st_bind_inv in Hk as (w2 & res & Hex & Hk). unfold on_outside in Hex. cbn [rw_ext modify] in Hex.
  match type of Hex with context [ta_Execute adapter ?q ?c ?x] =>
    pose proof (Hadapter q c x) as He; destruct (ta_Execute adapter q c x) as [x2 res'] end.
  injection Hex as <- <-. destruct res' as [res|]; [|discriminate He].
  apply st_bind_inv in Hk as (w3 & t' & Hnow & Hk). injection Hnow as <- <-.
  apply st_bind_inv in Hk as (w4 & c & Hc & Hk). unfold on_journal in Hc. cbn [rw_journal modify] in Hc.
  match type of Hc with context [journal_Complete ?rec ?v ?a ?j] =>
    pose proof (complete_available rec v a j record Hav Hget eq_refl) as Hdone;
    destruct (journal_Complete rec v a j) as [j' c'] end.
  injection Hc as <- <-. simpl in Hdone. rewrite Hdone in Hk. injection Hk as <- <-.
  destruct (Hok eq_refl) as (current & Hcur & _ & Hst & Hr).
  do 2 eexists. exists current. split; [reflexivity|]. unfold modify; simpl in *.
  rewrite !executions_app, app_nil_r. by split_and!.
Qed.

(** The reservation takes the key, which was free. *)
Lemma reserved_taken g w hash record w1 :
  reserved g w hash record w1 →
  ¬ taken (rw_journal w) (gr_TenantID g) (gr_RunnerGroup g) (gr_IdempotencyKey g) ∧
  taken (rw_journal w1) (gr_TenantID g) (gr_RunnerGroup g) (gr_IdempotencyKey g) ∧
  rw_trace w1 = rw_trace w ∧ ra_RequestHash record = hash ∧
  ra_TenantID record = gr_TenantID g ∧ ra_RunnerGroup record = gr_RunnerGroup g ∧ ra_Nonce record = gr_Nonce g ∧
  (∀ tenant group key, taken (rw_journal w) tenant group key → taken (rw_journal w1) tenant group key).
Proof.
  intros (e & audit & j & _ & Hr & ->). pose proof (reserve_created _ _ _ _ _ Hr) as (-> & _ & Hfree & Htaken).
  split_and!; try done. intros tenant group key Hk.
  apply (taken_reserve (action_record g hash (now_at (rw_ticks w))) audit) in Hk. by rewrite Hr in Hk.
Qed.

(** One call: what it may execute, and what it leaves taken. *)
Lemma Execute_effects r g w w' out :
  Execute now_at r g w = (w', out) →
  (∀ tenant group key, taken (rw_journal w) tenant group key → taken (rw_journal w') tenant group key) ∧
  ∃ evs, rw_trace w' = rw_trace w ++ evs ∧
    (executions evs = [] ∨
     executions evs = [adapter_request g (now_at (rw_ticks w))] ∧
     (∃ hash, check_grant r g = Ok hash) ∧ authorize r g = Ok tt ∧
     ¬ taken (rw_journal w) (gr_TenantID g) (gr_RunnerGroup g) (gr_IdempotencyKey g) ∧
     taken (rw_journal w') (gr_TenantID g) (gr_RunnerGroup g) (gr_IdempotencyKey g)).
Proof.
  intros [(reason & err & (Hj & _ & Ht) & _)|[(hash & record & _ & (Hj & _ & Ht) & _)|
    (hash & record & w1 & Hgrant & Hauth & Hres & Hd)]]%Execute_cases.
  1,2: rewrite Hj; split; [done|]; exists []; rewrite app_nil_r; by split; [|left].
  apply reserved_taken in Hres as (Hfree & Htaken & Ht1 & _ & _ & _ & _ & Hmono1).
  apply dispatch_spec in Hd as (Hmono & (evs & Ht & Hevs) & _). rewrite Ht1 in Ht.
  split; [by eauto|]. exists evs. split; [done|]. destruct Hevs as [|Hevs]; [by left|right]. eauto 10.
Qed.

Lemma reconcile_effects r reconciler records w w' out :
  reconcile_loop now_at r reconciler records w = (w', out) →
  (∀ tenant group key, taken (rw_journal w) tenant group key → taken (rw_journal w') tenant group key) ∧
  ∃ evs, rw_trace w' = rw_trace w ++ evs ∧ executions evs = [].
Proof.
  revert w. induction records as [|record records IH]; intros w; simpl.
  { intros [= <- _]. split; [done|]. exists []. by rewrite app_nil_r. }
  destruct (rn_Credentials r) as [acquire|].
  2:{ intros [= <- _]. split; [done|]. exists []. by rewrite app_nil_r. }
  assert (Hnext : ∀ w1 evs1, executions evs1 = [] →
    (∀ tenant group key, taken (rw_journal w) tenant group key → taken (rw_journal w1) tenant group key) →
    rw_trace w1 = rw_trace w ++ evs1 → reconcile_loop now_at r reconciler records w1 = (w', out) →
    (∀ tenant group key, taken (rw_journal w) tenant group key → taken (rw_journal w') tenant group key) ∧
    ∃ evs, rw_trace w' = rw_trace w ++ evs ∧ executions evs = []).
  { intros w1 evs1 He Hm Ht (Hm' & evs & Ht' & He')%IH. split; [by eauto|]. exists (evs1 ++ evs).
    rewrite Ht', Ht, app_assoc. by rewrite executions_app, He, He'. }
  intros (w1 & credential & Hacq & Hk)%st_bind_inv. unfold on_outside in Hacq.
  destruct (acquire _ (rw_ext w)) as [x [c|err]]; injection Hacq as <- <-; [|by eapply (Hnext _ [REAcquire _]); [| | |exact Hk]].
  apply st_bind_inv in Hk as (w2 & res & Hrec & Hk). unfold on_outside in Hrec. cbn [rw_ext modify] in Hrec.
  destruct (rc_Reconcile _ _ _ x) as [x' [[res' []]|]]; injection Hrec as <- <-;
    [|by eapply (Hnext _ ([REAcquire _] ++ [REReconcile _])); [| | |exact Hk]; [..|cbn [rw_trace]; by rewrite <-app_assoc]..].
  apply st_bind_inv in Hk as (w3 & t & Hnow & Hk). injection Hnow as <- <-.
  apply st_bind_inv in Hk as (w4 & c' & Hc & Hk). unfold on_journal in Hc. cbn [rw_journal modify] in Hc.
  match type of Hc with context [journal_Complete ?rec ?v ?a ?j] =>
    pose proof (taken_complete rec v a j) as Hmono; destruct (journal_Complete rec v a j) as [j' c0] end.
  injection Hc as <- <-. destruct c0 as [[]|err].
  - by eapply (Hnext _ ([REAcquire _] ++ [REReconcile _])); [| | |exact Hk]; [|exact Hmono|cbn [rw_trace]; by rewrite <-app_assoc].
  - injection Hk as <- <-. split; [exact Hmono|]. eexists. split; [by rewrite <-app_assoc|done].
Qed.

Lemma Reconcile_effects r reconciler limit w w' out :
  Reconcile now_at r reconciler limit w = (w', out) →
  (∀ tenant group key, taken (rw_journal w) tenant group key → taken (rw_journal w') tenant group key) ∧
  ∃ evs, rw_trace w' = rw_trace w ++ evs ∧ executions evs = [].
Proof.
  assert (Hnone : ∀ w1, w1 = w →
    (∀ tenant group key, taken (rw_journal w) tenant group key → taken (rw_journal w1) tenant group key) ∧
    ∃ evs, rw_trace w1 = rw_trace w ++ evs ∧ executions evs = []).
  { intros w1 ->. split; [done|]. exists []. by rewrite app_nil_r. }
  unfold Reconcile. destruct (rn_HasJournal r); [|intros [= <- _]; by apply Hnone].
  destruct reconciler as [reconciler|]; [|intros [= <- _]; by apply Hnone].
  destruct (_ || _); [intros [= <- _]; by apply Hnone|].
  intros (w1 & records & Hget & Hk)%st_bind_inv. unfold read_journal in Hget. injection Hget as <- <-.
  destruct (journal_Pending _ _ _ _) as [records|]; [by eapply reconcile_effects|]. injection Hk as <- _. by apply Hnone.
Qed.
End runner_facts.

(** ** Claims *)

(** The calls made to the runners of one tenant and runner group, whatever their configuration
    at the time of the call. *)
Inductive runner_call (X : Type) :=
| CallExecute (r : Runner X) (g : ActionGrant)
| CallReconcile (r : Runner X) (reconciler : option (Reconciler X)) (limit : Z).
#[global] Arguments CallExecute {X}.
#[global] Arguments CallReconcile {X}.

Definition caller {X} (c : runner_call X) : Runner X :=
  match c with CallExecute r _ | CallReconcile r _ _ => r end.

Section runner_claims.
Context `{!MapOrder, !Ed25519} {J X : Type} `{!RunnerJournal J, !JournalLaws J}.
Context (now_at : nat → time).
Implicit Types (w : RunnerWorld J X) (r : Runner X) (g : ActionGrant).

Definition run_call (c : runner_call X) w : RunnerWorld J X :=
  match c with
  | CallExecute r g => (Execute now_at r g w).1
  | CallReconcile r reconciler limit => (Reconcile now_at r reconciler limit w).1
  end.

Definition run_calls (calls : list (runner_call X)) w : RunnerWorld J X := foldl (λ w c, run_call c w) w calls.

(** C14: a runner that verifies grants and delegations as the repository does calls its
    adapter at most once per grant, with the target, the action and the idempotency key of the
    grant, and only if: the grant carries a valid signature for this tenant and runner group and is
    within its lifetime; the runner is connected; the user's proof verifies for the grant's user, who
    delegated to this agent the action, service, environment and risk; the pinned context of the step
    matches and its approvals verify; policy allows under the hashes of the grant; and the
    idempotency key was free before and is reserved in the journal. *)
Theorem runner_executes_authorized r g v t1 resolver t2 w w' out :
  rn_Grants r = Some (Verifier_Verify v t1) →
  rn_Delegations r = Some (DelegationVerifier_Verify resolver t2) →
  Execute now_at r g w = (w', out) →
  ∃ evs, rw_trace w' = rw_trace w ++ evs ∧
    (executions evs = [] ∨
     executions evs = [adapter_request g (now_at (rw_ticks w))] ∧
     Verifier_Verify v t1 g = Ok tt ∧
     gr_IssuedAt g ≤ t1 + vf_ClockSkew v ∧ t1 - vf_ClockSkew v < gr_ExpiresAt g ∧
     gr_TenantID g = rn_TenantID r ∧ gr_RunnerGroup g = rn_RunnerGroup r ∧
     (∃ subject d, authorized r g subject d ∧ delegation_covers t2 (delegation_request g subject) d) ∧
     ¬ taken (rw_journal w) (gr_TenantID g) (gr_RunnerGroup g) (gr_IdempotencyKey g) ∧
     taken (rw_journal w') (gr_TenantID g) (gr_RunnerGroup g) (gr_IdempotencyKey g)).
Proof.
  intros Hgrants Hdel (_ & evs & Ht & [He|(He & (hash & Hcheck) & Hauth & Hfree & Htaken)])%Execute_effects.
  { exists evs. by split; [|left]. }
  exists evs. split; [done|right]. split; [done|].
  apply check_grant_Ok in Hcheck as ((verify & Hv & Hver) & _ & Htenant & _ & Hgroup & _).
  rewrite Hgrants in Hv. injection Hv as <-. split; [done|].
  apply Verify_Ok in Hver as (? & ? & ? & ? & _ & _ & _ & _ & _ & _ & _ & _ & _ & _ & _ & Hi & Hx).
  split_and!; try done. apply authorize_Ok in Hauth as (_ & subject & d & Hd). exists subject, d. split; [done|].
  destruct Hd as [_ _ (authorize & Ha & Hd) _ _ _ _]. rewrite Hdel in Ha. injection Ha as <-.
  by apply DelegationVerifier_Ok in Hd as (_ & _ & Hd).
Qed.

(** Since [w0] each key was executed at most once, was free then and is taken now. *)
Definition executed_once tenant group w0 w : Prop :=
  let keys := aq_IdempotencyKey <$> executions (rw_trace w) in
  NoDup keys ∧
  (∀ key, key ∈ keys → ¬ taken (rw_journal w0) tenant group key ∧ taken (rw_journal w) tenant group key) ∧
  (∀ key, taken (rw_journal w0) tenant group key → taken (rw_journal w) tenant group key).

Lemma executed_once_quiet tenant group w0 w w' evs :
  executed_once tenant group w0 w →
  (∀ tenant group key, taken (rw_journal w) tenant group key → taken (rw_journal w') tenant group key) →
  rw_trace w' = rw_trace w ++ evs → executions evs = [] → executed_once tenant group w0 w'.
Proof.
  intros (Hnd & Hkeys & Hmono) Hm Ht He. unfold executed_once. rewrite Ht, executions_app, He, app_nil_r.
  split_and!; [done|naive_solver|naive_solver].
Qed.

Lemma run_call_once tenant group w0 w c :
  rn_TenantID (caller c) = tenant → rn_RunnerGroup (caller c) = group →
  executed_once tenant group w0 w → executed_once tenant group w0 (run_call c w).
Proof.
  intros Htenant Hgroup Honce. destruct c as [r g|r reconciler limit]; simpl in *.
  - destruct (Execute now_at r g w) as [w' out] eqn:Hex.
    apply Execute_effects in Hex as (Hm & evs & Ht & [He|(He & (hash & Hcheck) & _ & Hfree & Htaken)]).
    { by eapply executed_once_quiet. }
    apply check_grant_Ok in Hcheck as (_ & _ & Hgt & _ & Hgg & _). rewrite Hgt, Hgg, Htenant, Hgroup in *.
    destruct Honce as (Hnd & Hkeys & Hmono). simpl.
    unfold executed_once. rewrite Ht, executions_app, He, fmap_app. simpl. split_and!.
    + apply NoDup_app. split_and!; [done| |apply NoDup_singleton].
      intros key Hin Hsame. apply list_elem_of_singleton in Hsame as ->. by apply Hfree, Hkeys.
    + intros key [Hin|Hin]%elem_of_app; [naive_solver|]. apply list_elem_of_singleton in Hin as ->. naive_solver.
    + naive_solver.
  - destruct (Reconcile now_at r reconciler limit w) as [w' out] eqn:Hrec.
    apply Reconcile_effects in Hrec as (Hm & evs & Ht & He). by eapply executed_once_quiet.
Qed.

(** C15: over any sequence of executions and reconciliations by the runners of a tenant
    and runner group, with any grants, the adapter is called at most once per idempotency key, and never
    for a key the journal held before. *)
Theorem runner_executes_once calls tenant group w :
  rw_trace w = [] → Forall (λ c, rn_TenantID (caller c) = tenant ∧ rn_RunnerGroup (caller c) = group) calls →
  let keys := aq_IdempotencyKey <$> executions (rw_trace (run_calls calls w)) in
  NoDup keys ∧ ∀ key, key ∈ keys → ¬ taken (rw_journal w) tenant group key.
Proof.
  intros Ht Hcalls. simpl. unfold run_calls.
  assert (Hend : ∀ w1, executed_once tenant group w w1 →
    executed_once tenant group w (foldl (λ w c, run_call c w) w1 calls)).
  { induction Hcalls as [|c calls [Htenant Hgroup] _ IH]; intros w1 Hinv; [done|]. simpl.
    by apply IH, run_call_once. }
  destruct (Hend w) as (Hnd & Hkeys & _); [|by split; [|intros key Hk; apply Hkeys]].
  unfold executed_once. rewrite Ht. split_and!; [constructor| |done]. intros key Hk. by apply elem_of_nil in Hk.
Qed.

(** a grant whose execution succeeded can be sent again: as long as the runner
    still accepts it, the second call returns the same result, calls neither broker nor adapter and
    leaves the journal alone. *)
Theorem runner_replay_idempotent r g w w' res :
  Execute now_at r g w = (w', (res, None)) →
  ∃ w'', Execute now_at r g w' = (w'', (res, None)) ∧ quiet w' w''.
Proof.
  intros [(reason & err & _ & _ & ?)|[(hash & record & Hcheck & (Hj & _) & Hrec & ->)|
    (hash & record & w1 & Hcheck & _ & Hres & Hd)]]%Execute_cases; [done|..].
  - apply Execute_replays; [done|]. unfold recorded in *. by rewrite Hj.
  - apply reserved_taken in Hres as (_ & _ & _ & Hh & Htn & Hgr & Hno & _).
    apply dispatch_spec in Hd as (_ & _ & _ & Hok). destruct (Hok eq_refl) as (current & Hget & Hhash & Hst & Hr).
    rewrite Htn, Hgr, Hno in Hget.
    destruct (Execute_replays now_at r g w' hash current Hcheck (or_introl Hget)) as (w2 & Hex & Hq).
    exists w2. rewrite Hex. split; [|done]. unfold replayResult. simpl in Hr.
    by rewrite Hhash, Hh, Hst, !bool_decide_true, Hr by done.
Qed.

(** C32: a rejected execution left the journal and the outside world as they were, with one exception, for which
    the reason is EXTERNAL_STATE_UNKNOWN: the grant was authorized, the adapter executed its request, once and
    successfully, and the journal failed to record the success. *)
Theorem runner_rejects_quietly r g w w' out :
  Execute now_at r g w = (w', out) → rs_Status out.1 = ResultRejected →
  quiet w w' ∨
  rs_ReasonCode out.1 = ReasonExternalUnknown ∧ authorize r g = Ok tt ∧ executed r g (now_at (rw_ticks w)) w w' ∧
  unrecorded w'.
Proof.
  intros [(reason & err & Hq & _)|[(hash & record & _ & Hq & _)|
    (hash & record & w1 & _ & Hauth & Hres & Hd)]]%Execute_cases; [by left..|].
  apply dispatch_spec in Hd as (_ & _ & Hrej & _). intros Hs. right. destruct (Hrej Hs) as (Hr & [Ht Hx] & Hu).
  split; [done|]. split; [done|]. split; [|done]. split; [|done]. rewrite Ht. by destruct Hres as (e & audit & j & _ & _ & ->).
Qed.

(** A grant that passes every check runs through. *)
Lemma Execute_succeeds r g hash subject d w e acquire adapter :
  check_grant r g = Ok hash → gr_UserIdentityProof g ≠ "" → authorized r g subject d →
  available (rw_journal w) →
  journal_Get (gr_TenantID g) (gr_RunnerGroup g) (gr_Nonce g) (rw_journal w) = Err e →
  errors_Is e "store.ErrNotFound" = true →
  ¬ taken (rw_journal w) (gr_TenantID g) (gr_RunnerGroup g) (gr_IdempotencyKey g) →
  rn_Credentials r = Some acquire → (∀ request x, is_ok (acquire request x).2 = true) →
  rn_Adapter r = Some adapter → (∀ request c x, is_ok (ta_Execute adapter request c x).2 = true) →
  ∃ w' res record, Execute now_at r g w = (w', (res, None)) ∧ rs_Status res = ResultSucceeded ∧
    executions (rw_trace w') = executions (rw_trace w) ++ [adapter_request g (now_at (rw_ticks w))] ∧
    journal_Get (gr_TenantID g) (gr_RunnerGroup g) (gr_Nonce g) (rw_journal w') = Ok record ∧
    ra_Status record = RunnerActionSucceeded ∧ ra_Result record = res.
Proof.
  intros Hcheck Hproof Hauth Hav Hget Hnf Hfree Hacq Hacquire Had Hadapter.
  assert (authorize r g = Ok tt) as Ha by (apply authorize_Ok; eauto).
  unfold Execute. rewrite Hcheck. unfold read_journal, mbind, st_bind. rewrite Hget, Hnf, Ha. cbn [negb].
  unfold runner_now, on_journal. cbn [rw_journal modify].
  match goal with |- context [journal_Reserve ?rec ?a (rw_journal w)] =>
    destruct (reserve_fresh rec a (rw_journal w) e Hav Hget Hfree) as (j & record & Hres & Havj) end.
  rewrite Hres. pose proof (reserve_created _ _ _ _ _ Hres) as (-> & Hgetj & _).
  match goal with |- context [dispatch now_at r g ?rec ?t ?w1] =>
    destruct (dispatch_succeeds now_at r g rec t w1 acquire adapter) as (w' & res & current & Hd & Hs & Ht & Hg & Hst & Hr)
  end; [exact Hacq|exact Hacquire|exact Had|exact Hadapter|exact Havj|exact Hgetj|].
  exists w', res, current. split; [exact Hd|]. rewrite Ht. by split_and!.
Qed.

(** a grant that passes the checks is executed: when the journal is available and
    has neither its nonce nor its idempotency key, and broker and adapter answer, the call
    succeeds, with exactly one adapter call, and the journal holds the result. *)
Theorem runner_executes_valid r g hash subject d w e acquire adapter :
  check_grant r g = Ok hash → gr_UserIdentityProof g ≠ "" → authorized r g subject d →
  available (rw_journal w) →
  journal_Get (gr_TenantID g) (gr_RunnerGroup g) (gr_Nonce g) (rw_journal w) = Err e →
  errors_Is e "store.ErrNotFound" = true →
  ¬ taken (rw_journal w) (gr_TenantID g) (gr_RunnerGroup g) (gr_IdempotencyKey g) →
  rn_Credentials r = Some acquire → (∀ request x, is_ok (acquire request x).2 = true) →
  rn_Adapter r = Some adapter → (∀ request c x, is_ok (ta_Execute adapter request c x).2 = true) →
  ∃ w' res record, Execute now_at r g w = (w', (res, None)) ∧ rs_Status res = ResultSucceeded ∧
    executions (rw_trace w') = executions (rw_trace w) ++ [adapter_request g (now_at (rw_ticks w))] ∧
    journal_Get (gr_TenantID g) (gr_RunnerGroup g) (gr_Nonce g) (rw_journal w') = Ok record ∧
    ra_Status record = RunnerActionSucceeded ∧ ra_Result record = res.
Proof. apply Execute_succeeds. Qed.

(** reconciling settles reserved actions and starts none: whatever it returns, the adapter
    was asked to reconcile but not to execute, and every reserved idempotency key stays reserved. *)
Theorem reconcile_never_executes r reconciler limit w w' out :
  Reconcile now_at r reconciler limit w = (w', out) →
  executions (rw_trace w') = executions (rw_trace w) ∧
  ∀ tenant group key, taken (rw_journal w) tenant group key → taken (rw_journal w') tenant group key.
Proof.
  intros (Hm & evs & -> & He)%Reconcile_effects. by rewrite executions_app, He, app_nil_r.
Qed.
End runner_claims.

(** ** The two policy inputs *)

(** The grant repeats what the control plane put into its policy input, and the runner verified the
    same user, agent and delegation. *)
Record repeats (i : Input) (g : ActionGrant) (subject : Subject) (d : Delegation) : Prop := {
  rp_tenant : gr_TenantID g = pi_TenantID i;
  rp_group : gr_RunnerGroup g = pi_RunnerGroup i;
  rp_subject : gr_SubjectType g = pi_SubjectType i;
  rp_user : sub_ID subject = pi_UserID i ∧ sub_Issuer subject = pi_UserIssuer i;
  rp_agent : dg_AgentID d = pi_AgentID i;
  rp_delegation : dg_ID d = pi_DelegationRef i;
  rp_target : tg_Environment (gr_Target g) = pi_Environment i ∧ tg_Service (gr_Target g) = pi_Service i;
  rp_action : an_Capability (gr_Action g) = pi_Capability i ∧ an_ArtifactDigest (gr_Action g) = pi_ArtifactDigest i;
  rp_risk : gr_Risk g = pi_Risk i;
  rp_hashes : gr_PlanHash g = pi_PlanHash i ∧ gr_ContractHash g = pi_ContractHash i ∧
    gr_ProfileHash g = pi_ProfileHash i ∧ gr_PolicyHash g = pi_PolicyHash i ∧ gr_EvidenceHash g = pi_EvidenceHash i;
  rp_proofs : gr_ApprovalProofs g ≡ₚ pi_ApprovalProofs i;
}.

(** The signed part, field by field. *)
Lemma signed_part_fields i :
  signed_part i =
  {| pi_Version := if bool_decide (pi_Version i = "") then InputVersionV1Alpha1 else pi_Version i;
     pi_TenantID := pi_TenantID i; pi_RunnerGroup := pi_RunnerGroup i; pi_SubjectType :=
     pi_SubjectType i; pi_UserID := pi_UserID i; pi_UserIssuer := pi_UserIssuer i; pi_AgentID :=
     pi_AgentID i; pi_DelegationRef := pi_DelegationRef i; pi_AgentScopes := []; pi_Environment :=
     pi_Environment i; pi_Service := pi_Service i; pi_Capability := pi_Capability i;
     pi_ArtifactDigest := pi_ArtifactDigest i; pi_Risk := pi_Risk i; pi_PlanHash := pi_PlanHash i;
     pi_ContractHash := pi_ContractHash i; pi_ProfileHash := pi_ProfileHash i; pi_PolicyHash :=
     pi_PolicyHash i; pi_EvidenceHash := pi_EvidenceHash i; pi_ApprovalProofs := sort_Strings
     (pi_ApprovalProofs i); pi_CISuccess := pi_CISuccess i; pi_DependenciesHealthy :=
     pi_DependenciesHealthy i; pi_DestructiveMigration := false |}.
Proof. unfold signed_part, NormalizeInput. by destruct (bool_decide (pi_Version i = "")). Qed.

Lemma signed_part_normal i : signed_part (NormalizeInput i) = signed_part i.
Proof. unfold signed_part. by rewrite NormalizeInput_idem. Qed.

(** What the runner signs off is what the control plane decided on, for green changes only. *)
Lemma grant_input_signed i g subject d :
  pi_Version i = InputVersionV1Alpha1 → repeats i g subject d →
  signed_part (grant_input g subject d) =
  (signed_part i) <| pi_CISuccess := true |> <| pi_DependenciesHealthy := true |>.
Proof.
  intros Hv [? ? ? [? ?] ? ? [? ?] [? ?] ? (? & ? & ? & ? & ?) Hproofs]. unfold grant_input, InputForGrant.
  rewrite signed_part_normal, !signed_part_fields. apply sort_Strings_canonical in Hproofs.
  unfold modify. simpl. rewrite Hv. simpl. f_equal; congruence.
Qed.

(** Pinning hashes touches nothing else. *)
Lemma pin_hashes_fields service phases i :
  let i' := foldl (pin_hashes service) i phases in
  pi_Version i' = pi_Version i ∧ pi_CISuccess i' = pi_CISuccess i ∧ pi_DependenciesHealthy i' = pi_DependenciesHealthy i.
Proof.
  revert i. induction phases as [|phase phases IH]; intros i; [done|]. simpl.
  destruct (IH (pin_hashes service i phase)) as (-> & -> & ->). unfold pin_hashes. by case_match.
Qed.

(** What the control plane's input says of the version and the change. *)
Lemma InputForRelease_fields run step :
  let i := InputForRelease run step in
  pi_Version i = InputVersionV1Alpha1 ∧ pi_CISuccess i = ch_CISuccess (st_Change step) ∧
  pi_DependenciesHealthy i = ch_DependenciesHealthy (st_Change step).
Proof.
  unfold InputForRelease, NormalizeInput. cbv zeta.
  match goal with |- context [foldl ?f ?i ?l] =>
    pose proof (pin_hashes_fields (st_Service step) l i) as Hpin; simpl in Hpin; generalize dependent (foldl f i l) end.
  intros i (Hv & Hci & Hd). destruct i. simpl in *. subst. by repeat case_match.
Qed.

(** runner and control plane evaluate the same policy input.  For a grant that repeats
    a release step, the hash the control plane pins equals the hash of the input the runner builds
    exactly when the step's CI succeeded and its dependencies were healthy (or SHA-256 collides), so a
    runner never executes a step that was authorized with either of them missing. *)
Theorem policy_inputs_agree run step g subject d :
  let i := InputForRelease run step in
  repeats i g subject d →
  utf8_json (Input_json (NormalizeInput i)) = true →
  utf8_json (Input_json (NormalizeInput (grant_input g subject d))) = true →
  (ch_CISuccess (st_Change step) = true ∧ ch_DependenciesHealthy (st_Change step) = true →
     InputHash (grant_input g subject d) = InputHash i) ∧
  (InputHash (grant_input g subject d) = InputHash i →
     ch_CISuccess (st_Change step) = true ∧ ch_DependenciesHealthy (st_Change step) = true ∨ collision).
Proof.
  intros i Hrep Hi Hg. pose proof (grant_input_signed i g subject d (proj1 (InputForRelease_fields run step)) Hrep) as Hsigned.
  assert (Hci : pi_CISuccess i = ch_CISuccess (st_Change step) ∧
    pi_DependenciesHealthy i = ch_DependenciesHealthy (st_Change step)) by apply (InputForRelease_fields run step).
  destruct Hci as [<- <-]. split.
  - intros [Hc Hd]. apply signed_hash. rewrite Hsigned. clearbody i. clear -Hc Hd.
    rewrite !signed_part_fields, Hc, Hd. done.
  - intros Heq. apply hash_signed in Heq as [Heq|]; [left|by right|done..]. rewrite Hsigned in Heq.
    clearbody i. clear -Heq. rewrite !signed_part_fields in Heq. unfold modify in Heq. simpl in Heq.
    by injection Heq as <- <-.
Qed.

(** ** Witnesses *)

#[local] Existing Instance canonical_order.
#[local] Existing Instance carrying_signatures.

Definition demo_time : time := 63082281600 * Second + 2 * Minute.

Definition demo_subject : Subject :=
  {| sub_Issuer := "idp"; sub_ID := "alice"; sub_Audience := ["themisy"]; sub_ExpiresAt := demo_time + Hour;
     sub_IssuedAt := demo_time; sub_Claims := ∅ |}.

Definition demo_delegation : Delegation :=
  {| dg_ID := "delegation-1"; dg_Issuer := "idp"; dg_UserSubject := "alice"; dg_AgentID := "agent";
     dg_Actions := [protocol.CapabilityDeploy]; dg_ServiceSelectors := ["pay*"]; dg_Environments := ["production"];
     dg_MaximumRisk := "high"; dg_ExpiresAt := demo_time + Hour |}.

Definition demo_pinned : PinnedContext :=
  {| pc_PlanHash := demo_digest; pc_ContractHash := demo_digest; pc_ProfileHash := demo_digest;
     pc_PolicyHash := demo_digest; pc_EvidenceHash := demo_digest; pc_ApprovalRequired := true;
     pc_Target := gr_Target demo_grant; pc_Action := gr_Action demo_grant |}.

Definition demo_allow : Evaluation :=
  {| eval_Decision := DecisionAllow; eval_Reasons := []; eval_RequiredRoles := []; eval_InputHash := demo_digest;
     eval_PolicyVersion := "v1"; eval_PolicyHash := demo_digest |}.

Definition demo_acquire : credentials.Broker unit := λ _ x, (x, Ok (credentials.New ∅ demo_time)).

Definition demo_adapter : TypedAdapter unit :=
  {| ta_CredentialProvider := None;
     ta_Execute := λ _ _ x, (x, Ok {| ar_ExternalExecutionID := "ext-1"; ar_CompletedAt := demo_time |}) |}.

Definition demo_runner : Runner unit :=
  {| rn_TenantID := "acme"; rn_RunnerGroup := "prod-runners"; rn_Grants := Some (Verifier_Verify demo_verifier demo_time);
     rn_Subjects := Some (λ _, Ok demo_subject);
     rn_Delegations := Some (DelegationVerifier_Verify (Some (ResolveDelegation {[ "delegation-1" := demo_delegation ]})) demo_time);
     rn_Contexts := Some (StaticContexts_ResolveContext {[ "run-1" +:+ NUL +:+ "payments" := demo_pinned ]});
     rn_Approvals := Some (ProofReferences_VerifyApprovals {[ "approval-1"; "approval-2" ]});
     rn_Capabilities := NewCapabilitySet [protocol.CapabilityDeploy]; rn_Policy := Some (λ _, Ok demo_allow);
     rn_HasJournal := true; rn_Credentials := Some demo_acquire; rn_Adapter := Some demo_adapter;
     rn_Connectivity := Some true |}.

Definition demo_runner_world : RunnerWorld Memory unit :=
  {| rw_journal := NewMemory; rw_ext := tt; rw_ticks := 0; rw_trace := [] |}.

Definition demo_now : nat → time := λ n, demo_time + Z.of_nat n.

Lemma demo_check : check_grant demo_runner demo_signed = Ok (sha256_ref demo_payload).
Proof.
  apply check_grant_Ok. split; [eexists; split; [reflexivity|by vm_compute]|].
  do 4 (split; [done|]). split; [|reflexivity].
  unfold GrantHash, demo_signed. rewrite Canonical_signature, demo_payload_Ok. reflexivity.
Qed.

Lemma demo_authorized : authorized demo_runner demo_signed demo_subject demo_delegation.
Proof.
  split; [done|..].
  - eexists. split; [done|]. done.
  - eexists. split; [done|]. by vm_compute.
  - do 2 eexists. split; [done|]. split; [by vm_compute|]. by split; [vm_compute|].
  - intros _. eexists. split; [done|]. by vm_compute.
  - by vm_compute.
  - do 2 eexists. split; [done|]. split; [done|]. done.
Qed.

Lemma demo_free : ¬ taken (rw_journal demo_runner_world) "acme" "prod-runners" "run-1/payments".
Proof. by intros [? ?]. Qed.

Lemma runner_executes_valid_witness :
  ∃ w' res record, Execute demo_now demo_runner demo_signed demo_runner_world = (w', (res, None)) ∧
    rs_Status res = ResultSucceeded ∧
    executions (rw_trace w') = [] ++ [adapter_request demo_signed (demo_now 0)] ∧
    journal_Get "acme" "prod-runners" "n-1" (rw_journal w') = Ok record ∧
    ra_Status record = RunnerActionSucceeded ∧ ra_Result record = res.
Proof.
  apply (runner_executes_valid demo_now demo_runner demo_signed (sha256_ref demo_payload) demo_subject demo_delegation
    demo_runner_world ErrNotFound demo_acquire demo_adapter demo_check ltac:(discriminate) demo_authorized eq_refl eq_refl
    eq_refl demo_free eq_refl (λ _ _, eq_refl) eq_refl (λ _ _ _, eq_refl)).
Defined.

(** The world after the demo grant was executed. *)
Lemma demo_executed :
  ∃ w' res, Execute demo_now demo_runner demo_signed demo_runner_world = (w', (res, None)).
Proof.
  destruct (Execute_succeeds demo_now demo_runner demo_signed (sha256_ref demo_payload) demo_subject demo_delegation
    demo_runner_world ErrNotFound demo_acquire demo_adapter demo_check ltac:(discriminate) demo_authorized eq_refl eq_refl
    eq_refl demo_free eq_refl (λ _ _, eq_refl) eq_refl (λ _ _ _, eq_refl)) as (w' & res & _ & Hex & _).
  exists w', res. exact Hex.
Qed.

Lemma runner_executes_authorized_witness :
  ∃ evs, rw_trace (Execute demo_now demo_runner demo_signed demo_runner_world).1 = [] ++ evs ∧
    (executions evs = [] ∨ Verifier_Verify demo_verifier demo_time demo_signed = Ok tt).
Proof.
  destruct (runner_executes_authorized demo_now demo_runner demo_signed demo_verifier demo_time
    (Some (ResolveDelegation {[ "delegation-1" := demo_delegation ]})) demo_time demo_runner_world
    _ _ eq_refl eq_refl (surjective_pairing _)) as (evs & Ht & He).
  exists evs. split; [exact Ht|]. destruct He as [He|(_ & Hv & _)]; [by left|by right].
Defined.

Lemma runner_executes_once_witness :
  NoDup (aq_IdempotencyKey <$> executions (rw_trace (run_calls demo_now
    [CallExecute demo_runner demo_signed; CallExecute demo_runner demo_signed; CallReconcile demo_runner None 10]
    demo_runner_world))).
Proof.
  refine (proj1 (runner_executes_once demo_now _ "acme" "prod-runners" demo_runner_world eq_refl _)).
  repeat constructor.
Defined.

Lemma runner_replay_idempotent_witness :
  ∃ w' res w'', Execute demo_now demo_runner demo_signed demo_runner_world = (w', (res, None)) ∧
    Execute demo_now demo_runner demo_signed w' = (w'', (res, None)) ∧ quiet w' w''.
Proof.
  destruct demo_executed as (w' & res & Hex).
  destruct (runner_replay_idempotent demo_now demo_runner demo_signed demo_runner_world w' res Hex) as (w'' & Hex' & Hq).
  exists w', res, w''. exact (conj Hex (conj Hex' Hq)).
Defined.

Definition foreign_grant : ActionGrant := demo_signed <| gr_TenantID := "other" |>.

Definition foreign_rejection : RunnerWorld Memory unit * (Result * option error) :=
  reject demo_now foreign_grant ReasonTenant (Some ErrWrongTenant) demo_runner_world.

Lemma foreign_rejected : Execute demo_now demo_runner foreign_grant demo_runner_world = foreign_rejection.
Proof.
  unfold Execute. assert (check_grant demo_runner foreign_grant = Err (ReasonTenant, Some ErrWrongTenant)) as ->;
    [by vm_compute|]. reflexivity.
Qed.

Lemma runner_rejects_quietly_witness :
  quiet demo_runner_world foreign_rejection.1 ∨
  rs_ReasonCode foreign_rejection.2.1 = ReasonExternalUnknown ∧ authorize demo_runner foreign_grant = Ok tt ∧
  executed demo_runner foreign_grant (demo_now (rw_ticks demo_runner_world)) demo_runner_world foreign_rejection.1 ∧
  unrecorded foreign_rejection.1.
Proof.
  refine (runner_rejects_quietly demo_now demo_runner foreign_grant demo_runner_world
    foreign_rejection.1 foreign_rejection.2 _ eq_refl).
  rewrite foreign_rejected. apply surjective_pairing.
Defined.

Lemma reconcile_never_executes_witness :
  executions (rw_trace (Reconcile demo_now demo_runner
    (Some {| rc_CredentialProvider := None; rc_Reconcile := λ _ _ x, (x, Err ErrNotFound) |}) 10 demo_runner_world).1) = [].
Proof.
  exact (proj1 (reconcile_never_executes demo_now demo_runner _ 10 demo_runner_world _ _ (surjective_pairing _))).
Defined.

Definition green_step : ReleaseStep :=
  {| st_Service := "payments"; st_Phase := 0; st_Wave := 0; st_Status := StepPending;
     st_Change := {| ch_Service := "payments"; ch_DesiredVersion := demo_digest; ch_CISuccess := true;
                     ch_DependenciesHealthy := true; ch_DestructiveMigration := false; ch_Risk := "high" |};
     st_Policy := None; st_Approval := None; st_Execution := None; st_Verification := None;
     st_VerificationRequired := true; st_ObservationWindow := "1m"; st_RollbackMode := RollbackAutomatic;
     st_RollbackExecution := None; st_RollbackVerification := None; st_Failure := "" |}.

Definition green_run : ReleaseRun :=
  zero_ReleaseRun <| run_TenantID := "acme" |> <| run_RunnerGroup := "prod-runners" |> <| run_SubjectType := "user" |>
    <| run_RequestedBy := "alice" |> <| run_SubjectIssuer := "idp" |> <| run_Agent := {| agent_ID := "agent"; agent_Scopes := ["release:execute"] |} |>
    <| run_DelegationRef := "delegation-1" |> <| run_Environment := "production" |>
    <| run_Plan := zero_ReleasePlan <| plan_Hash := demo_digest |> <| plan_PolicyHash := demo_digest |>
                     <| plan_EvidenceHash := demo_digest |> |>.

Definition green_grant : ActionGrant :=
  demo_grant <| gr_ContractHash := "" |> <| gr_ProfileHash := "" |> <| gr_ApprovalProofs := [] |>.

Lemma policy_inputs_agree_witness :
  InputHash (grant_input green_grant demo_subject demo_delegation) = InputHash (InputForRelease green_run green_step).
Proof.
  refine (proj1 (policy_inputs_agree green_run green_step green_grant demo_subject demo_delegation _ _ _) (conj eq_refl eq_refl)).
  - split; try (split; reflexivity); try reflexivity. repeat split.
  - by vm_compute.
  - by vm_compute.
Defined.
