(* ===== verification/Executor.v ===== *)
(** * Executors (src/internal/executor, src/pkg/adapter/verification.go)

    The interface the engine deploys through, with the verification results it
    returns, and the mock executor that implements it in process. *)
From S2P Require Import Prelude GoStd Sha256 Domain Adapter.
From Stdlib Require Import SpecFloat.
Open Scope Z_scope.

(** ** pkg/adapter: verification status and evidence *)

(** [VerificationStatus.Valid] *)
Definition VerificationStatus_Valid (s : VerificationStatus) : bool :=
  bool_decide (s ∈ [VerificationPass; VerificationFail; VerificationInconclusive; VerificationMissing]).

(** [ObservationWindow] *)
Record ObservationWindow := {
  ow_From : time;
  ow_To : time;
}.

#[export] Instance eta_ObservationWindow : Eta ObservationWindow := λ r,
  {| ow_From := ow_From r; ow_To := ow_To r |}.

#[export] Instance ObservationWindow_eq_dec : EqDecision ObservationWindow.
Proof. solve_decision. Defined.

(** [adapter.VerificationRequest] *)
Record VerificationRequest := {
  vq_Target : adapter.Target;
  vq_Deployment : adapter.Deployment;
  vq_Window : ObservationWindow;
}.

(** [adapter.Evidence] *)
Record AdapterEvidence := {
  aev_Status : VerificationStatus;
  aev_ReasonCode : string;
  aev_Source : string;
  aev_QueryHash : string;
  aev_Window : ObservationWindow;
  aev_ObservedAt : time;
  aev_ObservedValue : float64;
  aev_Threshold : float64;
  aev_AdapterVersion : string;
  aev_EvidenceHash : string;
}.

#[export] Instance eta_AdapterEvidence : Eta AdapterEvidence := λ r,
  {| aev_Status := aev_Status r; aev_ReasonCode := aev_ReasonCode r; aev_Source :=
     aev_Source r; aev_QueryHash := aev_QueryHash r; aev_Window := aev_Window r;
     aev_ObservedAt := aev_ObservedAt r; aev_ObservedValue := aev_ObservedValue r;
     aev_Threshold := aev_Threshold r; aev_AdapterVersion := aev_AdapterVersion r;
     aev_EvidenceHash := aev_EvidenceHash r |}.

#[export] Instance AdapterEvidence_eq_dec : EqDecision AdapterEvidence.
Proof. solve_decision. Defined.

(** [math.IsNaN] or [math.IsInf] *)
Definition non_finite (f : float64) : bool :=
  match f with S754_nan | S754_infinity _ => true | _ => false end.

(** [adapter.ValidateEvidence] *)
Definition ValidateEvidence (e : AdapterEvidence) : result error unit :=
  fail_if (negb (VerificationStatus_Valid (aev_Status e)) || bool_decide (TrimSpace (aev_ReasonCode e) = "")
           || bool_decide (TrimSpace (aev_Source e) = "") || bool_decide (TrimSpace (aev_QueryHash e) = "")
           || IsZero (ow_From (aev_Window e)) || IsZero (ow_To (aev_Window e))
           || negb (After (ow_To (aev_Window e)) (ow_From (aev_Window e))) || IsZero (aev_ObservedAt e)
           || bool_decide (TrimSpace (aev_AdapterVersion e) = "")
           || bool_decide (TrimSpace (aev_EvidenceHash e) = "")) (ErrorNew "evidence is incomplete");;
  fail_if (non_finite (aev_ObservedValue e) || non_finite (aev_Threshold e))
    (ErrorNew "evidence contains non-finite values").

(** ** executor.go: the interface *)

(** [DeployRequest] *)
Record DeployRequest := {
  dr_Service : string;
  dr_Environment : string;
  dr_DesiredVersion : string;
  dr_IdempotencyKey : string;
}.

#[export] Instance eta_DeployRequest : Eta DeployRequest := λ r,
  {| dr_Service := dr_Service r; dr_Environment := dr_Environment r; dr_DesiredVersion :=
     dr_DesiredVersion r; dr_IdempotencyKey := dr_IdempotencyKey r |}.

#[export] Instance DeployRequest_eq_dec : EqDecision DeployRequest.
Proof. solve_decision. Defined.

(** [Deployment] *)
Record Deployment := {
  dpl_ExternalID : string;
  dpl_StartedAt : time;
  dpl_FinishedAt : time;
}.

#[export] Instance eta_Deployment : Eta Deployment := λ r,
  {| dpl_ExternalID := dpl_ExternalID r; dpl_StartedAt := dpl_StartedAt r; dpl_FinishedAt :=
     dpl_FinishedAt r |}.

#[export] Instance Deployment_eq_dec : EqDecision Deployment.
Proof. solve_decision. Defined.

(** [VerificationResult] *)
Record VerificationResult := {
  vr_Status : VerificationStatus;
  vr_Healthy : bool;
  vr_Reason : string;
  vr_ObservedValue : float64;
  vr_Threshold : float64;
  vr_Evidence : AdapterEvidence;
}.

#[export] Instance eta_VerificationResult : Eta VerificationResult := λ r,
  {| vr_Status := vr_Status r; vr_Healthy := vr_Healthy r; vr_Reason := vr_Reason r;
     vr_ObservedValue := vr_ObservedValue r; vr_Threshold := vr_Threshold r; vr_Evidence :=
     vr_Evidence r |}.

#[export] Instance VerificationResult_eq_dec : EqDecision VerificationResult.
Proof. solve_decision. Defined.

(** [VerificationResult.Outcome]: the status is authoritative, [Healthy] the fallback. *)
Definition Outcome (r : VerificationResult) : VerificationStatus :=
  if VerificationStatus_Valid (vr_Status r) then vr_Status r
  else if vr_Healthy r then VerificationPass
  else VerificationFail.

(** [ReleaseExecutor]: its methods act on the executor's own state [X]. *)
Class ReleaseExecutor (X : Type) := {
  executor_Deploy : DeployRequest → X → X * result error Deployment;
  executor_Verify : Deployment → X → X * result error VerificationResult;
  executor_Rollback : Deployment → X → X * result error Deployment;
}.

(** ** The mock executor *)

(** [MockBehavior] *)
Record MockBehavior := {
  mb_DeployError : bool;
  mb_VerifyHealthy : bool;
  mb_VerifyError : bool;
  mb_RollbackError : bool;
  mb_VerifyStatus : VerificationStatus;
  mb_RollbackVerifyStatus : VerificationStatus;
  mb_RollbackVerifyError : bool;
}.

Definition zero_MockBehavior : MockBehavior :=
  {| mb_DeployError := false; mb_VerifyHealthy := false; mb_VerifyError := false; mb_RollbackError := false;
     mb_VerifyStatus := ""; mb_RollbackVerifyStatus := ""; mb_RollbackVerifyError := false |}.

(** [Mock] *)
Record Mock := {
  mk_deployments : gmap string Deployment;
  mk_serviceByID : gmap string string;
  mk_rollbackByID : gmap string bool;
  mk_behavior : gmap string MockBehavior;
  mk_deployCalls : gmap string Z;
}.

#[export] Instance eta_Mock : Eta Mock := λ r,
  {| mk_deployments := mk_deployments r; mk_serviceByID := mk_serviceByID r;
     mk_rollbackByID := mk_rollbackByID r; mk_behavior := mk_behavior r; mk_deployCalls := mk_deployCalls r |}.

Definition NewMock (behavior : gmap string MockBehavior) : Mock :=
  {| mk_deployments := ∅; mk_serviceByID := ∅; mk_rollbackByID := ∅; mk_behavior := behavior;
     mk_deployCalls := ∅ |}.

(** The literals [0.1], [8.3] and [1]. *)
Definition float_0_1 : float64 := S754_finite false 7205759403792794 (-56).
Definition float_8_3 : float64 := S754_finite false 4672484613396890 (-49).
Definition float_1 : float64 := S754_finite false 4503599627370496 (-52).

Section mock.
(** The time of the call, and [json.Marshal] on evidence (its number formatting is not modelled). *)
Context (clock : time) (marshal : AdapterEvidence → result error string).

(** [adapter.EvidenceHash] *)
Definition EvidenceHash (e : AdapterEvidence) : result error string :=
  match marshal (e <| aev_EvidenceHash := "" |>) with
  | Err err => Err err
  | Ok payload => Ok (sha256_ref payload)
  end.

Definition mockVerification (deployment : Deployment) (status : VerificationStatus) (reason : string) :
    VerificationResult :=
  let value := if bool_decide (status = VerificationFail) then float_8_3 else float_0_1 in
  let evidence :=
    {| aev_Status := status; aev_ReasonCode := status; aev_Source := "mock";
       aev_QueryHash := "sha256:aaaaaaaaaaaaaaaaaaaaaaaaaaaaaaaaaaaaaaaaaaaaaaaaaaaaaaaaaaaaaaaa";
       aev_Window := {| ow_From := dpl_StartedAt deployment; ow_To := clock |}; aev_ObservedAt := clock;
       aev_ObservedValue := value; aev_Threshold := float_1; aev_AdapterVersion := "mock/v1";
       aev_EvidenceHash := "" |} in
  let evidence :=
    if negb (After (ow_To (aev_Window evidence)) (ow_From (aev_Window evidence)))
    then evidence <| aev_Window ::= λ w, w <| ow_From := clock - Minute |> |> else evidence in
  let evidence := evidence <| aev_EvidenceHash := match EvidenceHash evidence with Ok hash => hash | Err _ => "" end |> in
  {| vr_Status := status; vr_Healthy := bool_decide (status = VerificationPass); vr_Reason := reason;
     vr_ObservedValue := value; vr_Threshold := float_1; vr_Evidence := evidence |}.

Definition Mock_Deploy (request : DeployRequest) (m : Mock) : Mock * result error Deployment :=
  let key := dr_IdempotencyKey request in
  match mk_deployments m !! key with
  | Some existing => (m, Ok existing)
  | None =>
      let m := m <| mk_deployCalls := <[key := get 0 (mk_deployCalls m) key + 1]> (mk_deployCalls m) |> in
      if mb_DeployError (get zero_MockBehavior (mk_behavior m) (dr_Service request))
      then (m, Err (ErrorNew "simulated deploy failure"))
      else
        let deployment :=
          {| dpl_ExternalID := "mock-" +:+ dr_Service request +:+ "-" +:+
               itoa (Z.of_nat (size (mk_deployments m)) + 1);
             dpl_StartedAt := clock; dpl_FinishedAt := clock |} in
        (m <| mk_deployments := <[key := deployment]> (mk_deployments m) |>
           <| mk_serviceByID := <[dpl_ExternalID deployment := dr_Service request]> (mk_serviceByID m) |>,
         Ok deployment)
  end.

Definition Mock_Verify (deployment : Deployment) (m : Mock) : Mock * result error VerificationResult :=
  let id := dpl_ExternalID deployment in
  let found := mk_behavior m !! get "" (mk_serviceByID m) id in
  let behavior := default zero_MockBehavior found in
  let configured := bool_decide (is_Some found) in
  (m,
   if get false (mk_rollbackByID m) id then
     if mb_RollbackVerifyError behavior then Err (ErrorNew "simulated rollback metrics failure")
     else
       let status := mb_RollbackVerifyStatus behavior in
       let status := if VerificationStatus_Valid status then status else VerificationPass in
       Ok (mockVerification deployment status "simulated rollback verification")
   else if mb_VerifyError behavior then Err (ErrorNew "simulated metrics failure")
   else
     let status := mb_VerifyStatus behavior in
     let status := if negb (VerificationStatus_Valid status) && configured && negb (mb_VerifyHealthy behavior)
                   then VerificationFail else status in
     let status := if VerificationStatus_Valid status then status else VerificationPass in
     Ok (mockVerification deployment status "mock health check")).

Definition Mock_Rollback (deployment : Deployment) (m : Mock) : Mock * result error Deployment :=
  let id := dpl_ExternalID deployment in
  if mb_RollbackError (get zero_MockBehavior (mk_behavior m) (get "" (mk_serviceByID m) id))
  then (m, Err (ErrorNew "simulated rollback failure"))
  else
    let rolledBack := {| dpl_ExternalID := "rollback-" +:+ id; dpl_StartedAt := clock; dpl_FinishedAt := clock |} in
    (m <| mk_serviceByID :=
            <[dpl_ExternalID rolledBack := get "" (mk_serviceByID m) id]> (mk_serviceByID m) |>
       <| mk_rollbackByID := <[dpl_ExternalID rolledBack := true]> (mk_rollbackByID m) |>, Ok rolledBack).

Definition DeployCalls (idempotencyKey : string) (m : Mock) : Z := get 0 (mk_deployCalls m) idempotencyKey.

Definition mock_executor : ReleaseExecutor Mock :=
  {| executor_Deploy := Mock_Deploy; executor_Verify := Mock_Verify; executor_Rollback := Mock_Rollback |}.

(** The mock is idempotent per key: a repeated deployment returns the first result and starts nothing. *)
Lemma Mock_Deploy_idempotent request m m' d request' :
  Mock_Deploy request m = (m', Ok d) → dr_IdempotencyKey request' = dr_IdempotencyKey request →
  Mock_Deploy request' m' = (m', Ok d).
Proof.
  unfold Mock_Deploy. intros Hd ->.
  destruct (mk_deployments m !! dr_IdempotencyKey request) eqn:Hex; [by simplify_eq; rewrite Hex|].
  destruct (mb_DeployError _); simplify_eq. unfold modify; simpl. by rewrite lookup_insert_eq.
Qed.
End mock.
