(* ===== verification/Datadog.v ===== *)
(** * The Datadog adapter (src/adapters/datadog)

    Verification of a deployment against a metric: the query of the runner's configuration is
    evaluated over the observation window and its points are compared with a threshold.  Numbers are
    binary64 (SpecFloat), read from the decimal text of the response with correct rounding.

    Parameters: [json.Marshal] of evidence ([marshal], as in Executor.v), the sort of the points
    ([sort_points], any result of [sort.Slice] by their instants, which may order points of one
    instant either way) and the conversion of a number beyond int64 ([int64_beyond], which Go leaves
    to the implementation). *)
From S2P Require Import Prelude GoStd Sha256 Json Rfc3339 JsonDecode JsonAny Http Domain Breaker Adapter Executor.
From Stdlib Require Import Ascii SpecFloat.
Open Scope Z_scope.

Definition dd_AdapterName : string := "datadog".
Definition dd_AdapterVersion : string := "datadog-metrics-v1/v1".

(** ** Configuration (query.go) *)

Definition SiteUS1 : string := "datadoghq.com".
Definition SiteUS3 : string := "us3.datadoghq.com".
Definition SiteUS5 : string := "us5.datadoghq.com".
Definition SiteEU1 : string := "datadoghq.eu".
Definition SiteAP1 : string := "ap1.datadoghq.com".
Definition SiteAP2 : string := "ap2.datadoghq.com".
Definition SiteUS1Fed : string := "ddog-gov.com".
Definition SiteUS2Fed : string := "us2.ddog-gov.com".

(** [Site.apiURL] *)
Definition apiURL (s : string) : result error string :=
  if bool_decide (s ∈ [SiteUS1; SiteUS3; SiteUS5; SiteEU1; SiteAP1; SiteAP2; SiteUS1Fed; SiteUS2Fed])
  then Ok ("https://api." +:+ s)
  else Err (Errorf ("unsupported Datadog site " +:+ quote s) None).

(** [QueryKey] *)
Record QueryKey := {
  qk_Service : string;
  qk_Environment : string;
}.

#[export] Instance QueryKey_eq_dec : EqDecision QueryKey.
Proof. solve_decision. Defined.

#[export] Instance QueryKey_countable : Countable QueryKey.
Proof.
  refine (inj_countable' (λ k, (qk_Service k, qk_Environment k)) (λ p, {| qk_Service := p.1; qk_Environment := p.2 |}) _).
  by intros [].
Defined.

(** [Query] *)
Record Query := {
  qy_Expression : string;
  qy_Comparator : string;
  qy_Threshold : float64;
  qy_Aggregation : string;
  qy_MinimumPoints : Z;
  qy_MaximumAge : duration;
}.

Definition zero_Query : Query :=
  {| qy_Expression := ""; qy_Comparator := ""; qy_Threshold := S754_zero false; qy_Aggregation := ""; qy_MinimumPoints := 0;
     qy_MaximumAge := 0 |}.

(** [Config] *)
Record DatadogConfig := {
  dc_Site : string;
  dc_Queries : gmap QueryKey Query;
}.

(** The body of the loop of [Config.Validate]. *)
Definition validate_query (key : QueryKey) (query : Query) : result error unit :=
  fail_if (bool_decide (TrimSpace (qk_Service key) = "") || bool_decide (TrimSpace (qk_Environment key) = "")
           || bool_decide (TrimSpace (qy_Expression query) = "")) (ErrorNew "Datadog query target and expression are required");;
  fail_if (negb (bool_decide (qy_Comparator query ∈ ["lte"; "gte"])))
    (Errorf ("unsupported comparator " +:+ quote (qy_Comparator query)) None);;
  fail_if (negb (bool_decide (qy_Aggregation query ∈ ["last"; "avg"; "max"])))
    (Errorf ("unsupported aggregation " +:+ quote (qy_Aggregation query)) None);;
  fail_if ((qy_MinimumPoints query <=? 0) || (qy_MaximumAge query <=? 0))
    (Errorf ("minimum points and maximum age must be positive for " +:+ qk_Service key +:+ "/" +:+ qk_Environment key) None).

Fixpoint validate_queries (l : list (QueryKey * Query)) : result error unit :=
  match l with
  | [] => Ok tt
  | (key, query) :: l => validate_query key query;; validate_queries l
  end.

(** [Config.Validate], with the queries in the order in which the map is ranged over. *)
Definition dd_Config_Validate (config : DatadogConfig) (order : list (QueryKey * Query)) : result error unit :=
  match apiURL (dc_Site config) with
  | Err err => Err err
  | Ok _ =>
      fail_if (bool_decide (size (dc_Queries config) = 0%nat)) (ErrorNew "at least one Datadog query is required");;
      validate_queries order
  end.

(** [compare] *)
Definition compare (value : float64) (query : Query) : VerificationStatus :=
  if (bool_decide (qy_Comparator query = "lte") && float_le value (qy_Threshold query))
     || (bool_decide (qy_Comparator query = "gte") && float_le (qy_Threshold query) value)
  then VerificationPass else VerificationFail.

(** ** Numbers *)

(** [strconv.ParseFloat(text, 64)]: the nearest binary64, ties to even; [None] when it is out of range. *)
Definition ParseFloat (text : string) : option float64 :=
  let '(negative, digits, exponent) := decimal_parts text in
  match digits with
  | Zpos m =>
      let f := match exponent with
               | Zneg p => SFdiv 53 1024 (S754_finite negative m 0) (S754_finite false (Pos.pow 10 p) 0)
               | _ => binary_normalize 53 1024 ((if (negative : bool) then -1 else 1) * Zpos m * 10 ^ exponent) 0 negative
               end in
      match f with S754_infinity _ => None | f => Some f end
  | _ => Some (S754_zero negative)
  end.

(** [*float64]; null is nil. *)
Definition into_float_ptr : into (option float64) := λ d _,
  match d with DNumber text => Some <$> ParseFloat text | DNull => Some None | _ => None end.

(** The integer part of a finite number. *)
Definition truncate (f : float64) : Z :=
  match f with
  | S754_finite s m e =>
      let n := match e with Zneg p => Zpos m / 2 ^ Zpos p | _ => Zpos m * 2 ^ e end in
      if s then - n else n
  | _ => 0
  end.

(** ** Points *)

Record point := {
  pt_at : time;
  pt_value : float64;
}.

(** [time.UnixMilli] and [Time.Unix] *)
Definition unix_epoch : Z := 62135596800.
Definition UnixMilli (ms : Z) : time := (unix_epoch * 1000 + ms) * 1000000.
Definition Unix (t : time) : Z := t / Second - unix_epoch.

(** The body of the response. *)
Record metrics := {
  mt_Status : string;
  mt_Series : list (list (list (option float64)));
}.

#[export] Instance eta_metrics : Eta metrics := λ r, {| mt_Status := mt_Status r; mt_Series := mt_Series r |}.

Definition metrics_members : fields_of metrics :=
  member "status" into_string mt_Status ++
  member "series" (into_slice (into_struct false [("pointlist", into_slice (into_slice into_float_ptr None) [])]) []) mt_Series.

Definition into_metrics : into metrics := into_struct false metrics_members.

(** [t.Sub(u)]: a duration, saturated. *)
Definition Sub_saturated (t u : time) : duration := Z.max (- 2 ^ 63) (Z.min (2 ^ 63 - 1) (t - u)).

(** [aggregate] *)
Definition aggregate (points : list point) (mode : string) : float64 :=
  match points with
  | [] => S754_zero false
  | first :: _ =>
      if bool_decide (mode = "last") then pt_value (List.last points first)
      else if bool_decide (mode = "avg")
      then float_div (foldl (λ v p, SFadd 53 1024 v (pt_value p)) (S754_zero false) points) (float_of_int (Z.of_nat (length points)))
      else if bool_decide (mode = "max")
      then foldl (λ v p, if float_lt v (pt_value p) then pt_value p else v) (pt_value first) points
      else pt_value first
  end.

Section datadog.
Context {X : Type} (now_at : nat → time) (client : HTTPDoer X) (config : DatadogConfig).
Context (marshal : AdapterEvidence → result error string) (sort_points : list point → list point) (int64_beyond : float64 → Z).
Abbreviation W := (HTTPWorld X).

(** [int64(f)] *)
Definition to_int64 (f : float64) : Z :=
  let n := truncate f in if (- 2 ^ 63 <=? n) && (n <? 2 ^ 63) then n else int64_beyond f.

(** [flattenPoints] *)
Definition flatten_point (raw : list (option float64)) : option point :=
  match raw with
  | [Some at_; Some value] =>
      if non_finite at_ || non_finite value then None
      else Some {| pt_at := UnixMilli (to_int64 at_); pt_value := value |}
  | _ => None
  end.

Definition flattenPoints (series : list (list (list (option float64)))) : list point :=
  sort_points (item ← series; omap flatten_point item).

(** [Adapter.evidence] *)
Definition dd_evidence (request : VerificationRequest) (status : VerificationStatus) (reason : string) (query : Query)
    (value : float64) (observedAt : time) : AdapterEvidence :=
  let evidence :=
    {| aev_Status := status; aev_ReasonCode := reason; aev_Source := dd_AdapterName;
       aev_QueryHash := sha256_ref (qy_Expression query); aev_Window := vq_Window request; aev_ObservedAt := observedAt;
       aev_ObservedValue := value; aev_Threshold := qy_Threshold query; aev_AdapterVersion := dd_AdapterVersion;
       aev_EvidenceHash := "" |} in
  evidence <| aev_EvidenceHash := match EvidenceHash marshal evidence with Ok hash => hash | Err _ => "" end |>.

(** Evidence without a value, observed now. *)
Definition no_value (request : VerificationRequest) (status : VerificationStatus) (reason : string) (query : Query) :
    ST W (result error AdapterEvidence) :=
  now ← http_now now_at; mret (Ok (dd_evidence request status reason query (S754_zero false) now)).

Definition dd_fails (operation : string) (err : error) : ST W (result error AdapterEvidence) :=
  mret (Err (AdapterError adapter.ErrorTerminal operation "" err)).

(** The request that is sent. *)
Definition metrics_request (request : VerificationRequest) (query : Query) (credential : credentials.Credential) : HTTPRequest :=
  {| hq_Method := "GET";
     hq_URL := (match apiURL (dc_Site config) with Ok url => url | Err _ => "" end) +:+ "/api/v1/query?" +:+
       encode_query [("from", itoa (Unix (ow_From (vq_Window request)))); ("query", qy_Expression query);
                     ("to", itoa (Unix (ow_To (vq_Window request))))];
     hq_Header := [("Accept", "application/json"); ("DD-API-KEY", credentials.Value credential "api_key");
                   ("DD-APPLICATION-KEY", credentials.Value credential "app_key")];
     hq_Body := "" |}.

(** The newest of the points is too old, or outside of the window. *)
Definition stale (request : VerificationRequest) (query : Query) (latest : time) : bool :=
  (qy_MaximumAge query <? Sub_saturated (ow_To (vq_Window request)) latest)
  || Before latest (ow_From (vq_Window request)) || After latest (Add (ow_To (vq_Window request)) Minute).

(** From the points to the evidence. *)
Definition judge (request : VerificationRequest) (query : Query) (points : list point) : ST W (result error AdapterEvidence) :=
  match points with
  | [] => no_value request VerificationMissing "NO_SERIES" query
  | first :: _ =>
      if Z.of_nat (length points) <? qy_MinimumPoints query
      then now ← http_now now_at;
           mret (Ok (dd_evidence request VerificationInconclusive "INSUFFICIENT_POINTS" query
                       (aggregate points (qy_Aggregation query)) now))
      else
        let latest := pt_at (List.last points first) in
        if stale request query latest
        then mret (Ok (dd_evidence request VerificationInconclusive "STALE_SERIES" query
                         (aggregate points (qy_Aggregation query)) latest))
        else
          let value := aggregate points (qy_Aggregation query) in
          let status := compare value query in
          let reason := if bool_decide (status = VerificationFail) then "THRESHOLD_BREACHED" else "THRESHOLD_MET" in
          mret (Ok (dd_evidence request status reason query value latest))
  end.

(** What [Verify] makes of the answer. *)
Definition read_answer (request : VerificationRequest) (query : Query) (r : result error HTTPResponse) :
    ST W (result error AdapterEvidence) :=
  match r with
  | Err _ => no_value request VerificationInconclusive "SOURCE_UNAVAILABLE" query
  | Ok response =>
      if negb (hp_StatusCode response =? 200) then
        if unavailable (hp_StatusCode response) then no_value request VerificationInconclusive "SOURCE_UNAVAILABLE" query
        else dd_fails "verify.query" (Errorf ("Datadog returned HTTP " +:+ itoa (hp_StatusCode response)) None)
      else match decode_front into_metrics {| mt_Status := ""; mt_Series := [] |} (2 ^ 23) (hp_Body response) with
           | Some payload =>
               if negb (bool_decide (mt_Status payload = "ok")) then no_value request VerificationInconclusive "MALFORMED_RESPONSE" query
               else judge request query (flattenPoints (mt_Series payload))
           | None => no_value request VerificationInconclusive "MALFORMED_RESPONSE" query
           end
  end.

Definition query_of (request : VerificationRequest) : option Query :=
  dc_Queries config !! {| qk_Service := adapter.at_Service (vq_Target request); qk_Environment := adapter.at_Environment (vq_Target request) |}.

(** [Adapter.Verify] *)
Definition datadog_Verify (request : VerificationRequest) (credential : credentials.Credential) : ST W (result error AdapterEvidence) :=
  match query_of request with
  | None => no_value request VerificationMissing "QUERY_NOT_CONFIGURED" zero_Query
  | Some query =>
      let window := vq_Window request in
      if IsZero (ow_From window) || IsZero (ow_To window) || negb (After (ow_To window) (ow_From window))
         || bool_decide (adapter.ad_ExternalExecutionID (vq_Deployment request) = "")
      then dd_fails "verify.validate" (ErrorNew "valid window and deployment are required")
      else
        now ← http_now now_at;
        if negb (credentials.ValidAt credential now) || bool_decide (credentials.Value credential "api_key" = "")
           || bool_decide (credentials.Value credential "app_key" = "")
        then dd_fails "verify.credential" (ErrorNew "valid Datadog API and application keys are required")
        else
          response ← http_Do client (metrics_request request query credential);
          read_answer request query response
  end.
End datadog.

(** ** When a deployment passes *)

(** The points are in the order of their instants, as [sort.Slice] leaves them. *)
Definition in_order (l : list point) : Prop := StronglySorted (λ a b, pt_at a ≤ pt_at b) l.

Lemma last_newest (first : point) l : in_order (first :: l) →
  List.last (first :: l) first ∈ first :: l ∧ ∀ p, p ∈ first :: l → pt_at p ≤ pt_at (List.last (first :: l) first).
Proof.
  intros Hl. change (List.last (first :: l) first) with (match l with [] => first | _ => List.last l first end).
  assert (Hgen : ∀ (l : list point) d, l ≠ [] → in_order l →
    List.last l d ∈ l ∧ ∀ p, p ∈ l → pt_at p ≤ pt_at (List.last l d)).
  { clear. induction l as [|x l IH]; intros d Hne Hs; [done|]. apply StronglySorted_inv in Hs as [Hs Hx]. destruct l as [|y l].
    - split; [by apply elem_of_cons; left|]. intros p [->|?%elem_of_nil]%elem_of_cons; [done|done].
    - destruct (IH d) as [Hin Hmax]; [done|done|]. change (List.last (x :: y :: l) d) with (List.last (y :: l) d).
      split; [apply elem_of_cons; by right|]. intros p [->|Hp]%elem_of_cons; [|by apply Hmax].
      rewrite Forall_forall in Hx. by apply Hx. }
  change (match l with [] => first | _ => List.last l first end) with (List.last (first :: l) first). by apply Hgen.
Qed.

Section properties.
Context {X : Type} (now_at : nat → time) (client : HTTPDoer X) (config : DatadogConfig).
Context (marshal : AdapterEvidence → result error string) (sort_points : list point → list point) (int64_beyond : float64 → Z).
Context (sort_perm : ∀ l, sort_points l ≡ₚ l) (sort_sorted : ∀ l, in_order (sort_points l)).
Abbreviation W := (HTTPWorld X).
Abbreviation Verify := (datadog_Verify now_at client config marshal sort_points int64_beyond).
Abbreviation raw_points series := (item ← series; omap (flatten_point int64_beyond) item).

(** Points that speak for the deployment: enough of them, the newest in the window and fresh, and a value on the right side
    of the threshold. *)
Record healthy (request : VerificationRequest) (query : Query) (points : list point) (value : float64) (latest : time) : Prop := {
  healthy_enough : qy_MinimumPoints query ≤ Z.of_nat (length points);
  healthy_latest : ∃ p, p ∈ points ∧ pt_at p = latest;
  healthy_newest : ∀ p, p ∈ points → pt_at p ≤ latest;
  healthy_window : ow_From (vq_Window request) ≤ latest ≤ ow_To (vq_Window request) + Minute;
  healthy_fresh : Sub_saturated (ow_To (vq_Window request)) latest ≤ qy_MaximumAge query;
  healthy_value : value = aggregate points (qy_Aggregation query);
  healthy_threshold : compare value query = VerificationPass;
}.

(** The points of an answer. *)
Definition answers_points (response : result error HTTPResponse) (points : list point) : Prop :=
  ∃ answer payload, response = Ok answer ∧ hp_StatusCode answer = 200 ∧
    decode_front into_metrics {| mt_Status := ""; mt_Series := [] |} (2 ^ 23) (hp_Body answer) = Some payload ∧
    mt_Status payload = "ok" ∧ points = flattenPoints sort_points int64_beyond (mt_Series payload) ∧
    points ≡ₚ raw_points (mt_Series payload).

Definition passes (r : result error AdapterEvidence) (value : float64) (latest : time) : Prop :=
  ∃ ev, r = Ok ev ∧ aev_Status ev = VerificationPass ∧ aev_ObservedValue ev = value ∧ aev_ObservedAt ev = latest.

Lemma stale_spec request query latest :
  stale request query latest = false ↔
  (ow_From (vq_Window request) ≤ latest ≤ ow_To (vq_Window request) + Minute) ∧
  Sub_saturated (ow_To (vq_Window request)) latest ≤ qy_MaximumAge query.
Proof.
  unfold stale, Before, After, Add. rewrite !orb_false_iff, !Z.ltb_ge. lia.
Qed.

Lemma no_value_passes request status reason query (w w' : W) r value latest :
  status ≠ VerificationPass → no_value now_at marshal request status reason query w = (w', r) → ¬ passes r value latest.
Proof. intros Hs [= <- <-] (ev & [= <-] & Hp & _). by apply Hs. Qed.

Lemma judge_passes request query points (w w' : W) r value latest :
  in_order points → judge now_at marshal request query points w = (w', r) →
  passes r value latest ↔ healthy request query points value latest.
Proof.
  intros Hord. unfold judge. destruct points as [|first l] eqn:Hpoints.
  { intros Hn. split; [intros Hp; exfalso; revert Hp; eapply no_value_passes; [|exact Hn]; done|].
    by intros [_ (p & ?%elem_of_nil & _)]. }
  destruct (last_newest first l Hord) as [Hlast Hmax]. revert Hlast Hmax. rewrite <- Hpoints. clear Hpoints.
  generalize (List.last points first) as p. intros p Hlast Hmax.
  destruct (Z.ltb_spec (Z.of_nat (length points)) (qy_MinimumPoints query)) as [Hfew|Hmany].
  { intros [= <- <-]. split; [by intros (ev & [= <-] & Hp & _)|]. intros []. lia. }
  destruct (stale request query (pt_at p)) eqn:Hstale.
  { intros [= <- <-]. split; [by intros (ev & [= <-] & Hp & _)|]. intros [_ (q & Hq & Hql) Hnew Hw Hf _ _].
    specialize (Hnew p Hlast). specialize (Hmax q Hq). assert (pt_at p = latest) as Heq by lia.
    rewrite <- Heq in Hw, Hf. by rewrite (proj2 (stale_spec _ _ _) (conj Hw Hf)) in Hstale. }
  apply stale_spec in Hstale as [Hw Hf]. intros [= <- <-]. split.
  - intros (ev & [= <-] & Hp & <- & <-). simpl in *. split; try done. by exists p.
  - intros [_ (q & Hq & Hql) Hnew _ _ -> Hc]. specialize (Hnew p Hlast). specialize (Hmax q Hq). eexists. split; [done|]. simpl.
    split; [done|]. split; [done|]. lia.
Qed.

Lemma read_answer_passes request query response (w w' : W) r value latest :
  read_answer now_at marshal sort_points int64_beyond request query response w = (w', r) →
  passes r value latest ↔ ∃ points, answers_points response points ∧ healthy request query points value latest.
Proof.
  assert (Hno : ∀ status reason, status ≠ VerificationPass → no_value now_at marshal request status reason query w = (w', r) →
    (∀ points, ¬ answers_points response points) →
    passes r value latest ↔ ∃ points, answers_points response points ∧ healthy request query points value latest).
  { intros status reason Hs Hn Ha. split; [by intros ?%(no_value_passes _ _ _ _ _ _ _ _ _ Hs Hn)|]. by intros (points & ?%Ha & _). }
  unfold read_answer. destruct response as [answer|err]; [|intros Hn; refine (Hno _ _ _ Hn _); [done|by intros ? (? & ? & ? & _)]].
  destruct (Z.eqb_spec (hp_StatusCode answer) 200) as [H200|H200]; simpl.
  2: { destruct (unavailable _).
       - intros Hn; refine (Hno _ _ _ Hn _); [done|]. by intros ? (? & ? & [= <-] & ? & _).
       - intros [= <- <-]. split; [by intros (? & ? & _)|]. by intros (? & (? & ? & [= <-] & ? & _) & _). }
  destruct (decode_front _ _ _ _) as [payload|] eqn:Hd.
  2: { intros Hn; refine (Hno _ _ _ Hn _); [done|]. intros ? (? & ? & [= <-] & _ & ? & _). congruence. }
  case_bool_decide as Hok; simpl.
  2: { intros Hn; refine (Hno _ _ _ Hn _); [done|]. intros ? (? & ? & [= <-] & _ & ? & ? & _). congruence. }
  intros Hj. rewrite (judge_passes _ _ _ _ _ _ value latest (sort_sorted _) Hj). split.
  - intros Hh. eexists. split; [|exact Hh]. exists answer, payload. by repeat (split; [done|]).
  - intros (points & (? & ? & [= <-] & _ & Hd' & _ & -> & _) & Hh). rewrite Hd in Hd'. by injection Hd' as <-.
Qed.

(** The checks before anything is asked. *)
Definition may_ask (request : VerificationRequest) (credential : credentials.Credential) (now : time) : Prop :=
  ow_From (vq_Window request) ≠ 0 ∧ ow_To (vq_Window request) ≠ 0 ∧ ow_From (vq_Window request) < ow_To (vq_Window request) ∧
  adapter.ad_ExternalExecutionID (vq_Deployment request) ≠ "" ∧ credentials.ValidAt credential now = true ∧
  credentials.Value credential "api_key" ≠ "" ∧ credentials.Value credential "app_key" ≠ "".

(** What [Verify] does: it stops before asking, or it asks once and reads the answer. *)
Lemma Verify_inv request credential (w w' : W) r :
  Verify request credential w = (w', r) →
  (hw_net w' = hw_net w ∧ hw_sent w' = hw_sent w ∧ (∀ value latest, ¬ passes r value latest) ∧
     ∀ query, query_of config request = Some query → ¬ may_ask request credential (now_at (hw_ticks w))) ∨
  ∃ query response w1, query_of config request = Some query ∧ may_ask request credential (now_at (hw_ticks w)) ∧
    client (metrics_request config request query credential) (hw_net w) = (hw_net w1, response) ∧
    hw_sent w1 = hw_sent w ++ [metrics_request config request query credential] ∧
    read_answer now_at marshal sort_points int64_beyond request query response w1 = (w', r).
Proof.
  unfold datadog_Verify. destruct (query_of config request) as [query|]; cycle 1.
  { intros Hn. left. injection Hn as <- <-. split; [done|]. split; [done|]. split; [by intros ?? (ev & [= <-] & Hp & _)|done]. }
  destruct (IsZero _ || _ || _ || _) eqn:Hpre.
  { intros [= <- <-]. left. split; [done|]. split; [done|]. split; [by intros ?? (? & ? & _)|].
    intros query' _ (Hf & Ht & Hlt & Hid & _). unfold IsZero, After in Hpre. rewrite bool_decide_false in Hpre by done. lia. }
  unfold mbind, st_bind, http_now. simpl. apply orb_false_iff in Hpre as [Hpre Hid%bool_decide_eq_false].
  unfold IsZero, After in Hpre. assert (Hwin : ow_From (vq_Window request) ≠ 0 ∧ ow_To (vq_Window request) ≠ 0 ∧
    ow_From (vq_Window request) < ow_To (vq_Window request)) by lia. clear Hpre.
  destruct (negb _ || _ || _) eqn:Hcred.
  { intros [= <- <-]. left. split; [done|]. split; [done|]. split; [by intros ?? (? & ? & _)|].
    intros query' _ (_ & _ & _ & _ & Hv & Ha & Hb). rewrite Hv, !bool_decide_false in Hcred by done. done. }
  rewrite !orb_false_iff, negb_false_iff, !bool_decide_eq_false in Hcred. destruct Hcred as [[Hv Ha] Hb].
  unfold http_Do. simpl. destruct (client _ (hw_net w)) as [x response] eqn:Hc. intros Hr. right.
  exists query, response. eexists. split; [done|]. split; [|split; [|split; [|exact Hr]]]; [|done|done]. unfold may_ask. tauto.
Qed.

Lemma no_value_sent request status reason query (w w' : W) r :
  no_value now_at marshal request status reason query w = (w', r) → hw_sent w' = hw_sent w.
Proof. by intros [= <- <-]. Qed.

Lemma read_answer_sent request query response (w w' : W) r :
  read_answer now_at marshal sort_points int64_beyond request query response w = (w', r) → hw_sent w' = hw_sent w.
Proof.
  unfold read_answer, judge. repeat case_match; try (by apply no_value_sent); by intros [= <- <-].
Qed.

(** C17: the Datadog adapter reports that a deployment passed exactly when a query is configured for its
    service and environment, the window, the deployment and both keys are valid, and Datadog answers
    the query with enough points of which the newest is in the window and fresh and whose aggregate is
    on the right side of the threshold.  It sends that query at most once and nothing else. *)
Theorem datadog_passes_exactly request credential (w w' : W) r value latest :
  Verify request credential w = (w', r) →
  (passes r value latest ↔
   ∃ query points, query_of config request = Some query ∧ may_ask request credential (now_at (hw_ticks w)) ∧
     answers_points (snd (client (metrics_request config request query credential) (hw_net w))) points ∧
     healthy request query points value latest) ∧
  (hw_sent w' = hw_sent w ∨ ∃ query, query_of config request = Some query ∧
     hw_sent w' = hw_sent w ++ [metrics_request config request query credential]).
Proof.
  intros [(_ & Hs & Hno & Hask)|(query & response & w1 & Hq & Hask & Hc & Hs & Hr)]%Verify_inv.
  - split; [|by left]. split; [by intros ?%Hno|]. intros (query & points & Hq & Ha & _). by destruct (Hask _ Hq).
  - split; [|right; exists query; split; [done|]; by rewrite (read_answer_sent _ _ _ _ _ _ Hr)].
    rewrite (read_answer_passes _ _ _ _ _ _ value latest Hr). split.
    + intros (points & Ha & Hh). exists query, points. by rewrite Hc.
    + intros (query' & points & Hq' & _ & Ha & Hh). rewrite Hq in Hq'. injection Hq' as <-. rewrite Hc in Ha. by exists points.
Qed.
End properties.

(** ** Witness *)

Definition at_le (a b : point) : Prop := pt_at a ≤ pt_at b.

#[export] Instance at_le_dec : RelDecision at_le.
Proof. intros a b. unfold at_le. apply _. Defined.

Definition sorted_points (l : list point) : list point := merge_sort at_le l.

Lemma sorted_points_perm l : sorted_points l ≡ₚ l.
Proof. apply merge_sort_Permutation. Qed.

Lemma sorted_points_order l : in_order (sorted_points l).
Proof.
  assert (Total at_le) by (intros a b; unfold at_le; lia).
  apply Sorted_StronglySorted; [intros a b c; unfold at_le; lia|]. apply (Sorted_merge_sort at_le).
Qed.

Definition latency_query : Query :=
  {| qy_Expression := "avg:latency{*}"; qy_Comparator := "lte"; qy_Threshold := float_of_int 1; qy_Aggregation := "max";
     qy_MinimumPoints := 2; qy_MaximumAge := 5 * Minute |}.
Definition latency_config : DatadogConfig :=
  {| dc_Site := SiteUS1; dc_Queries := {[ {| qk_Service := "identity"; qk_Environment := "staging" |} := latency_query ]} |}.
Definition latency_request : VerificationRequest :=
  {| vq_Target := {| adapter.at_Service := "identity"; adapter.at_Environment := "staging" |};
     vq_Deployment := {| adapter.ad_ExternalExecutionID := "123"; adapter.ad_CorrelationID := ""; adapter.ad_StartedAt := 0; adapter.ad_FinishedAt := 0 |};
     vq_Window := {| ow_From := UnixMilli 0; ow_To := UnixMilli 60000 |} |}.
Definition latency_credential : credentials.Credential := credentials.New {[ "api_key" := "a"; "app_key" := "b" ]} (UnixMilli 100000).

Definition latency_answer (request : HTTPRequest) (x : unit) : unit * result error HTTPResponse :=
  (tt, Ok {| hp_StatusCode := 200;
             hp_Body := {| hb_Data := quoted "{'status':'ok','series':[{'pointlist':[[60000,0.25],[30000.0,0.5],[45000,null]]}]}";
                           hb_Broken := false |} |}).

Definition latency_world : HTTPWorld unit := {| hw_net := tt; hw_ticks := 0; hw_sent := [] |}.
Definition latency_clock (n : nat) : time := UnixMilli 60000.
Definition no_marshal (e : AdapterEvidence) : result error string := Ok "".
Definition beyond (f : float64) : Z := 0.
Definition latency_verified : HTTPWorld unit * result error AdapterEvidence :=
  datadog_Verify latency_clock latency_answer latency_config no_marshal sorted_points beyond latency_request latency_credential latency_world.

(** Two points, of which the newest has 0.25 and the largest is 0.5, against a limit of 1. *)
Lemma datadog_passes_exactly_witness :
  passes (snd latency_verified) (S754_finite false 4503599627370496 (-53)) (UnixMilli 60000) ∧
  ∃ query points, query_of latency_config latency_request = Some query ∧
    healthy latency_request query points (S754_finite false 4503599627370496 (-53)) (UnixMilli 60000).
Proof.
  assert (Hpass : passes (snd latency_verified) (S754_finite false 4503599627370496 (-53)) (UnixMilli 60000)).
  { exists (dd_evidence no_marshal latency_request VerificationPass "THRESHOLD_MET" latency_query
      (S754_finite false 4503599627370496 (-53)) (UnixMilli 60000)). split; [reflexivity|]. split; [reflexivity|]. split; reflexivity. }
  split; [exact Hpass|].
  destruct (datadog_passes_exactly latency_clock latency_answer latency_config no_marshal sorted_points beyond
    sorted_points_perm sorted_points_order latency_request latency_credential latency_world (fst latency_verified)
    (snd latency_verified) (S754_finite false 4503599627370496 (-53)) (UnixMilli 60000) (surjective_pairing _)) as [[Hiff _] _].
  destruct (Hiff Hpass) as (query & points & Hq & _ & _ & Hh). exists query, points. split; [exact Hq|exact Hh].
Defined.
