(* ===== verification/RunnerSettings.v ===== *)
(** * The runner's configuration (src/cmd/runner/main.go)

    [load] reads the settings of a runner and refuses those with which it could act outside what the
    customer allows: the adapters' allow lists are built without duplicates and validated by the
    adapters themselves (GitHub.v, Datadog.v), and production needs https, keys and a journal.

    Parameters: reading files, the expansion of environment variables, YAML decoding
    ([yaml_settings], with unknown fields refused), and the order in which the adapters range over
    their maps. *)
From S2P Require Import Prelude GoStd Duration Domain Protocol GitHub Datadog.
From Stdlib Require Import SpecFloat.
Import protocol.
Open Scope Z_scope.

(** [githubTargetSettings] *)
Record githubTargetSettings := {
  gs_Service : string;
  gs_Environment : string;
  gs_Owner : string;
  gs_Repository : string;
  gs_DeployWorkflow : string;
  gs_RollbackWorkflow : string;
  gs_Ref : string;
}.

(** [datadogQuerySettings] *)
Record datadogQuerySettings := {
  qs_Service : string;
  qs_Environment : string;
  qs_Expression : string;
  qs_Comparator : string;
  qs_Threshold : float64;
  qs_Aggregation : string;
  qs_MinimumPoints : Z;
  qs_MaximumAge : string;
}.

(** [settings], with the records of its sections in place. *)
Record settings := {
  st_Mode : string;
  st_RunnerID : string;
  st_RunnerGroup : string;
  st_TenantID : string;
  st_HealthAddress : string;
  st_ControlPlaneAddress : string;
  st_ControlPlaneIssuer : string;
  st_ControlPlaneTrustKeyFile : string;
  st_IdentityIssuer : string;
  st_IdentityAudience : string;
  st_IdentityTrustKeyFile : string;
  st_PolicyBundleFile : string;
  st_PolicyTrustKeyFile : string;
  st_JournalDatabaseURL : string;
  st_GitHubTargets : list githubTargetSettings;
  st_DatadogSite : string;
  st_DatadogQueries : list datadogQuerySettings;
  st_GitHubTokenFile : string;
  st_DatadogCredentialFile : string;
  st_Capabilities : list Capability;
}.

#[export] Instance eta_settings : Eta settings := λ s,
  {| st_Mode := st_Mode s; st_RunnerID := st_RunnerID s; st_RunnerGroup := st_RunnerGroup s; st_TenantID := st_TenantID s;
     st_HealthAddress := st_HealthAddress s; st_ControlPlaneAddress := st_ControlPlaneAddress s;
     st_ControlPlaneIssuer := st_ControlPlaneIssuer s; st_ControlPlaneTrustKeyFile := st_ControlPlaneTrustKeyFile s;
     st_IdentityIssuer := st_IdentityIssuer s; st_IdentityAudience := st_IdentityAudience s;
     st_IdentityTrustKeyFile := st_IdentityTrustKeyFile s; st_PolicyBundleFile := st_PolicyBundleFile s;
     st_PolicyTrustKeyFile := st_PolicyTrustKeyFile s; st_JournalDatabaseURL := st_JournalDatabaseURL s;
     st_GitHubTargets := st_GitHubTargets s; st_DatadogSite := st_DatadogSite s; st_DatadogQueries := st_DatadogQueries s;
     st_GitHubTokenFile := st_GitHubTokenFile s; st_DatadogCredentialFile := st_DatadogCredentialFile s;
     st_Capabilities := st_Capabilities s |}.

(** ** The adapters' allow lists *)

Definition target_key (t : githubTargetSettings) : TargetKey := {| tk_Service := gs_Service t; tk_Environment := gs_Environment t |}.
Definition target_entry (t : githubTargetSettings) : GitHubTarget :=
  {| gt_Owner := gs_Owner t; gt_Repository := gs_Repository t; gt_DeployWorkflow := gs_DeployWorkflow t;
     gt_RollbackWorkflow := gs_RollbackWorkflow t; gt_Ref := gs_Ref t |}.

(** The first loop of [validateAdapters]. *)
Fixpoint github_targets (l : list githubTargetSettings) (targets : GitHub.Config) : result error GitHub.Config :=
  match l with
  | [] => Ok targets
  | t :: l =>
      fail_if (bool_decide (is_Some (targets !! target_key t)))
        (Errorf ("duplicate GitHub Actions target " +:+ target_name (target_key t)) None);;
      github_targets l (<[target_key t := target_entry t]> targets)
  end.

Definition query_key (q : datadogQuerySettings) : QueryKey := {| qk_Service := qs_Service q; qk_Environment := qs_Environment q |}.
Definition query_entry (q : datadogQuerySettings) (maximumAge : duration) : Query :=
  {| qy_Expression := qs_Expression q; qy_Comparator := qs_Comparator q; qy_Threshold := qs_Threshold q;
     qy_Aggregation := qs_Aggregation q; qy_MinimumPoints := qs_MinimumPoints q; qy_MaximumAge := maximumAge |}.

(** The second loop. *)
Fixpoint datadog_queries (l : list datadogQuerySettings) (queries : gmap QueryKey Query) : result error (gmap QueryKey Query) :=
  match l with
  | [] => Ok queries
  | q :: l =>
      match ParseDuration (qs_MaximumAge q) with
      | Err err => Err (Errorf ("Datadog maximum_age for " +:+ qs_Service q +:+ "/" +:+ qs_Environment q +:+ ": " +:+ Error err) (Some err))
      | Ok maximumAge =>
          fail_if (bool_decide (is_Some (queries !! query_key q)))
            (Errorf ("duplicate Datadog query " +:+ qs_Service q +:+ "/" +:+ qs_Environment q) None);;
          datadog_queries l (<[query_key q := query_entry q maximumAge]> queries)
      end
  end.

Definition in_adapter (name : string) (r : result error unit) : result error unit :=
  match r with Err err => Err (Errorf (name +:+ " adapter: " +:+ Error err) (Some err)) | Ok _ => Ok tt end.

Section settings.
Context (targets_order : GitHub.Config → list (TargetKey * GitHubTarget)) (queries_order : gmap QueryKey Query → list (QueryKey * Query)).

(** [validateAdapters]; the constructors of the adapters only validate their configuration. *)
Definition validateAdapters (s : settings) : result error unit :=
  githubTargets ← github_targets (st_GitHubTargets s) ∅;
  (if (0 <? size githubTargets)%nat
   then in_adapter "GitHub Actions" (Config_Validate githubTargets (targets_order githubTargets)) else Ok tt);;
  datadogQueries ← datadog_queries (st_DatadogQueries s) ∅;
  (if (0 <? size datadogQueries)%nat
   then in_adapter "Datadog" (dd_Config_Validate {| dc_Site := st_DatadogSite s; dc_Queries := datadogQueries |} (queries_order datadogQueries))
   else Ok tt);;
  if bool_decide (st_Mode s = "production") then
    fail_if (bool_decide (size githubTargets = 0%nat) || bool_decide (st_GitHubTokenFile s = ""))
      (Errorf "production deploy requires allow-listed GitHub Actions targets and a Runner-local token file" None);;
    fail_if (bool_decide (size datadogQueries = 0%nat) || bool_decide (st_DatadogCredentialFile s = ""))
      (Errorf "production verification requires allow-listed Datadog queries and a Runner-local credential file" None)
  else Ok tt.

(** ** Loading *)

Fixpoint supported_capabilities (l : list Capability) : result error unit :=
  match l with
  | [] => Ok tt
  | capability :: l =>
      fail_if (negb (bool_decide (capability = CapabilityDeploy)) && negb (bool_decide (capability = CapabilityRollback)))
        (Errorf ("unsupported capability " +:+ quote capability) None);;
      supported_capabilities l
  end.

Definition any_empty (l : list string) : bool := existsb (λ s, bool_decide (s = "")) l.

(** [load], after decoding. *)
Definition check_settings (s : settings) : result error settings :=
  fail_if (negb (bool_decide (st_Mode s = "development")) && negb (bool_decide (st_Mode s = "production")))
    (Errorf "mode must be development or production" None);;
  fail_if (any_empty [st_RunnerID s; st_RunnerGroup s; st_TenantID s; st_ControlPlaneAddress s; st_ControlPlaneIssuer s;
                      st_IdentityIssuer s; st_IdentityAudience s; st_PolicyBundleFile s]
           || bool_decide (length (st_Capabilities s) = 0%nat))
    (Errorf "runner identity, trust endpoints, policy bundle, and capabilities are required" None);;
  let s := if bool_decide (st_HealthAddress s = "") then s <| st_HealthAddress := ":8081" |> else s in
  supported_capabilities (st_Capabilities s);;
  fail_if (bool_decide (st_Mode s = "production") &&
           any_empty [st_JournalDatabaseURL s; st_ControlPlaneTrustKeyFile s; st_IdentityTrustKeyFile s; st_PolicyTrustKeyFile s])
    (Errorf "production requires durable journal and customer-managed grant, OIDC, and policy trust keys" None);;
  fail_if (bool_decide (st_Mode s = "production") && negb (HasPrefix (st_ControlPlaneAddress s) "https://"))
    (Errorf "production control plane address must use https" None);;
  validateAdapters s;;
  Ok s.

(** [load] *)
Definition load (ReadFile : string → result error string) (ExpandEnv : string → string) (yaml_settings : string → result error settings)
    (path : string) : result error settings :=
  data ← ReadFile path;
  s ← yaml_settings (ExpandEnv data);
  check_settings s.

(** ** What a runner starts with *)

(** The entries of a list, added to a map in which their keys are new. *)
Definition adds {K V T} `{Countable K} (key : T → K) (val : T → option V) (l : list T) (m m' : gmap K V) : Prop :=
  NoDup (key <$> l) ∧ (∀ t, t ∈ l → m !! key t = None) ∧
  ∀ k v, m' !! k = Some v ↔ m !! k = Some v ∨ ∃ t, t ∈ l ∧ key t = k ∧ val t = Some v.

Lemma adds_nil {K V T} `{Countable K} (key : T → K) (val : T → option V) m : adds key val [] m m.
Proof. split_and!; [constructor|set_solver|]. intros k v. split; [by left|]. intros [?|(t & ?%elem_of_nil & _)]; done. Qed.

Lemma adds_cons {K V T} `{Countable K} (key : T → K) (val : T → option V) t v l m m' :
  m !! key t = None → val t = Some v → adds key val l (<[key t := v]> m) m' → adds key val (t :: l) m m'.
Proof.
  intros Hm Hv (Hn & Hf & Hl). split_and!.
  - rewrite fmap_cons. constructor; [|done]. intros (u & Hu & Hin)%list_elem_of_fmap. specialize (Hf _ Hin).
    by rewrite <- Hu, lookup_insert_eq in Hf.
  - intros u [->|Hin]%elem_of_cons; [done|]. specialize (Hf _ Hin). by apply lookup_insert_None in Hf as [? _].
  - intros k x. rewrite Hl, lookup_insert_Some. split.
    + intros [[[<- <-]|[_ ?]]|(u & Hu & <- & ?)]; [right; exists t; set_solver|by left|right; exists u; set_solver].
    + intros [Hx|(u & [->|Hu]%elem_of_cons & <- & Hx)]; [|simplify_eq; by left; left|right; by exists u].
      left. right. split; [congruence|done].
Qed.

Lemma github_targets_adds l m targets : github_targets l m = Ok targets → adds target_key (λ t, Some (target_entry t)) l m targets.
Proof.
  revert m. induction l as [|t l IH]; intros m; cbn [github_targets]; [intros [= ->]; apply adds_nil|].
  unfold fail_if. case_bool_decide as Hd; [done|]. apply eq_None_not_Some in Hd. intros H. by eapply adds_cons, IH.
Qed.

Definition configured_query (q : datadogQuerySettings) : option Query :=
  match ParseDuration (qs_MaximumAge q) with Ok age => Some (query_entry q age) | Err _ => None end.

Lemma datadog_queries_adds l m queries : datadog_queries l m = Ok queries → adds query_key configured_query l m queries.
Proof.
  revert m. induction l as [|q l IH]; intros m; cbn [datadog_queries]; [intros [= ->]; apply adds_nil|].
  destruct (ParseDuration (qs_MaximumAge q)) as [age|] eqn:Hp; [|done].
  unfold fail_if. case_bool_decide as Hd; [done|]. apply eq_None_not_Some in Hd. intros H.
  eapply adds_cons; [done| |by apply IH]. unfold configured_query. by rewrite Hp.
Qed.

Hypothesis targets_order_perm : ∀ m, targets_order m ≡ₚ map_to_list m.
Hypothesis queries_order_perm : ∀ m, queries_order m ≡ₚ map_to_list m.

Lemma validate_queries_each l key query : validate_queries l = Ok tt → (key, query) ∈ l → validate_query key query = Ok tt.
Proof.
  induction l as [|[k q] l IH]; [by intros _ ?%elem_of_nil|]. simpl. intros H Hin.
  destruct (validate_query k q) as [[]|] eqn:Hq; [|done]. apply elem_of_cons in Hin as [[= -> ->]|Hin]; [done|by apply IH].
Qed.

(** A query the Datadog adapter accepts. *)
Record valid_query (key : QueryKey) (query : Query) : Prop := {
  vq_service : TrimSpace (qk_Service key) ≠ "";
  vq_environment : TrimSpace (qk_Environment key) ≠ "";
  vq_expression : TrimSpace (qy_Expression query) ≠ "";
  vq_comparator : qy_Comparator query ∈ ["lte"; "gte"];
  vq_aggregation : qy_Aggregation query ∈ ["last"; "avg"; "max"];
  vq_points : 0 < qy_MinimumPoints query;
  vq_age : 0 < qy_MaximumAge query;
}.

Lemma validate_query_iff key query : validate_query key query = Ok tt ↔ valid_query key query.
Proof.
  unfold validate_query. rewrite !fail_if_iff. unfold fail_if.
  split.
  - intros (Hn & Hc & Ha & Hp). destruct (_ || _) eqn:Hz in Hp; [done|].
    apply orb_false_iff in Hn as [Hn He]. apply orb_false_iff in Hn as [Hs Hv]. apply orb_false_iff in Hz as [Hm Hx].
    apply bool_decide_eq_false in Hs, Hv, He. apply negb_false_iff, bool_decide_eq_true in Hc, Ha. split; try done; lia.
  - intros [Hs Hv He Hc Ha Hm Hx]. rewrite !bool_decide_false, !bool_decide_true by done. split_and!; try done.
    by rewrite (proj2 (Z.leb_gt _ _)), (proj2 (Z.leb_gt _ _)).
Qed.

(** The allow lists of settings: the entries, one for each service and environment, all valid. *)
Record allow_lists (s : settings) (targets : GitHub.Config) (queries : gmap QueryKey Query) : Prop := {
  al_targets : adds target_key (λ t, Some (target_entry t)) (st_GitHubTargets s) ∅ targets;
  al_queries : adds query_key configured_query (st_DatadogQueries s) ∅ queries;
  al_target : ∀ key target, targets !! key = Some target → valid_target key target;
  al_query : ∀ key query, queries !! key = Some query → valid_query key query;
  al_site : queries ≠ ∅ →
    st_DatadogSite s ∈ [SiteUS1; SiteUS3; SiteUS5; SiteEU1; SiteAP1; SiteAP2; SiteUS1Fed; SiteUS2Fed];
  al_production : st_Mode s = "production" →
    targets ≠ ∅ ∧ queries ≠ ∅ ∧ st_GitHubTokenFile s ≠ "" ∧ st_DatadogCredentialFile s ≠ "";
}.

Lemma in_adapter_Ok name r : in_adapter name r = Ok tt → r = Ok tt.
Proof. by destruct r as [[]|]. Qed.

Lemma validateAdapters_spec s : validateAdapters s = Ok tt → ∃ targets queries, allow_lists s targets queries.
Proof.
  unfold validateAdapters. destruct (github_targets _ _) as [targets|] eqn:Ht; [|done]. cbn [mbind result_bind].
  destruct (if (0 <? size targets)%nat then _ else _) as [[]|] eqn:Hg; [|done]. cbn [mbind result_bind].
  destruct (datadog_queries _ _) as [queries|] eqn:Hq; [|done]. cbn [mbind result_bind].
  destruct (if (0 <? size queries)%nat then _ else _) as [[]|] eqn:Hd; [|done]. cbn [mbind result_bind]. intros Hp.
  exists targets, queries. split; [by apply github_targets_adds|by apply datadog_queries_adds|..].
  - intros key target Hk. assert (size targets ≠ 0%nat) as Hs by (intros Hs%map_size_empty_iff; by rewrite Hs, lookup_empty in Hk).
    rewrite (proj2 (Nat.ltb_lt _ _)) in Hg by lia. apply in_adapter_Ok in Hg.
    exact (Config_Validate_spec _ _ _ _ (targets_order_perm targets) Hg Hk).
  - intros key query Hk. assert (size queries ≠ 0%nat) as Hs by (intros Hs%map_size_empty_iff; by rewrite Hs, lookup_empty in Hk).
    rewrite (proj2 (Nat.ltb_lt _ _)) in Hd by lia. apply in_adapter_Ok in Hd. unfold dd_Config_Validate in Hd. cbn [dc_Site dc_Queries] in Hd.
    destruct (apiURL (st_DatadogSite s)) as [url|]; [|done]. apply fail_if_Ok in Hd as [_ Hd].
    apply validate_query_iff. eapply validate_queries_each; [exact Hd|]. rewrite queries_order_perm. by apply elem_of_map_to_list.
  - intros Hne. rewrite (proj2 (Nat.ltb_lt _ _)) in Hd by (apply Nat.neq_0_lt_0; by intros ?%map_size_empty_iff).
    apply in_adapter_Ok in Hd. unfold dd_Config_Validate, apiURL in Hd. cbn [dc_Site] in Hd.
    destruct (bool_decide _) eqn:Hs in Hd; [|done]. by apply bool_decide_eq_true in Hs.
  - intros Hm. rewrite (bool_decide_eq_true_2 _ Hm) in Hp. apply fail_if_Ok in Hp as [Ha Hp].
    apply orb_false_iff in Ha as [Ha%bool_decide_eq_false ?%bool_decide_eq_false].
    unfold fail_if in Hp. destruct (_ || _) eqn:Hb in Hp; [done|].
    apply orb_false_iff in Hb as [Hb%bool_decide_eq_false ?%bool_decide_eq_false].
    split_and!; [by apply map_size_non_empty_iff..|done|done].
Qed.

(** A setting is not empty. *)
Lemma any_empty_false l s : any_empty l = false → s ∈ l → s ≠ "".
Proof.
  unfold any_empty. intros H Hin ->. apply not_true_iff_false in H. apply H, existsb_exists. exists "".
  split; [by apply list_elem_of_In|by rewrite bool_decide_eq_true_2].
Qed.

Lemma supported_capabilities_spec l : supported_capabilities l = Ok tt → Forall (λ c, c ∈ [CapabilityDeploy; CapabilityRollback]) l.
Proof.
  induction l as [|c l IH]; [constructor|]. intros [Hc H]%fail_if_Ok. constructor; [|by apply IH].
  apply andb_false_iff in Hc as [Hb|Hb]; apply negb_false_iff, bool_decide_eq_true in Hb; set_solver.
Qed.

(** C36: what [load] lets through.  The runner has an identity, trusted issuers and a policy bundle, and asks only for
    deployments and rollbacks.  Its adapters act on the listed targets and queries alone, one for each service and
    environment, and each passes every check of its adapter: names, workflow files and ref of a target ([valid_target]);
    names, expression, comparator, aggregation, points and age of a query ([valid_query]), of a known site.  In production the control plane is reached over https, every trust
    key and the journal are set, and neither allow list is empty. *)
Theorem check_settings_spec s s' : check_settings s = Ok s' →
  s' = s <| st_HealthAddress := (if bool_decide (st_HealthAddress s = "") then ":8081" else st_HealthAddress s) |> ∧
  st_Mode s ∈ ["development"; "production"] ∧
  Forall (λ x, x ≠ "") [st_RunnerID s; st_RunnerGroup s; st_TenantID s; st_ControlPlaneAddress s; st_ControlPlaneIssuer s;
                        st_IdentityIssuer s; st_IdentityAudience s; st_PolicyBundleFile s] ∧
  st_Capabilities s ≠ [] ∧ Forall (λ c, c ∈ [CapabilityDeploy; CapabilityRollback]) (st_Capabilities s) ∧
  (st_Mode s = "production" → HasPrefix (st_ControlPlaneAddress s) "https://" = true ∧
     Forall (λ x, x ≠ "") [st_JournalDatabaseURL s; st_ControlPlaneTrustKeyFile s; st_IdentityTrustKeyFile s; st_PolicyTrustKeyFile s]) ∧
  ∃ targets queries, allow_lists s' targets queries.
Proof.
  unfold check_settings. intros [Hm H]%fail_if_Ok. apply fail_if_Ok in H as [Hr H].
  set (s0 := if bool_decide (st_HealthAddress s = "") then _ else _) in H.
  assert (Hs0 : s0 = s <| st_HealthAddress := (if bool_decide (st_HealthAddress s = "") then ":8081" else st_HealthAddress s) |>).
  { unfold s0. destruct (bool_decide (st_HealthAddress s = "")); [done|by destruct s]. }
  rewrite <- Hs0. destruct (supported_capabilities _) as [[]|] eqn:Hc in H; [|done]. cbn [mbind result_bind] in H.
  apply fail_if_Ok in H as [Hk H]. apply fail_if_Ok in H as [Ha H].
  destruct (validateAdapters s0) as [[]|] eqn:Hv in H; [|done]. injection H as <-.
  assert (Hsame : st_Mode s0 = st_Mode s ∧ st_Capabilities s0 = st_Capabilities s ∧ st_ControlPlaneAddress s0 = st_ControlPlaneAddress s ∧
            st_JournalDatabaseURL s0 = st_JournalDatabaseURL s ∧ st_ControlPlaneTrustKeyFile s0 = st_ControlPlaneTrustKeyFile s ∧
            st_IdentityTrustKeyFile s0 = st_IdentityTrustKeyFile s ∧ st_PolicyTrustKeyFile s0 = st_PolicyTrustKeyFile s) by (by rewrite Hs0).
  destruct Hsame as (Es1 & Es2 & Es3 & Es4 & Es5 & Es6 & Es7). rewrite Es1, Es3, ?Es4, ?Es5, ?Es6, ?Es7 in *. rewrite Es2 in Hc.
  apply orb_false_iff in Hr as [Hr Hn%bool_decide_eq_false]. split; [done|]. split_and!.
  - apply andb_false_iff in Hm as [Hb|Hb]; apply negb_false_iff, bool_decide_eq_true in Hb; set_solver.
  - apply Forall_forall. intros x. by apply any_empty_false.
  - intros He. by rewrite He in Hn.
  - by apply supported_capabilities_spec.
  - intros Hp. rewrite (bool_decide_eq_true_2 _ Hp) in Hk, Ha. split; [by apply negb_false_iff in Ha|].
    apply Forall_forall. intros x. by apply any_empty_false.
  - by apply validateAdapters_spec.
Qed.
End settings.

(** *** Example *)

Definition production_settings : settings :=
  {| st_Mode := "production"; st_RunnerID := "runner-1"; st_RunnerGroup := "eu"; st_TenantID := "tenant-a"; st_HealthAddress := "";
     st_ControlPlaneAddress := "https://control.example"; st_ControlPlaneIssuer := "control"; st_ControlPlaneTrustKeyFile := "grant.pub";
     st_IdentityIssuer := "https://idp.example"; st_IdentityAudience := "themisy"; st_IdentityTrustKeyFile := "oidc.pub";
     st_PolicyBundleFile := "bundle.json"; st_PolicyTrustKeyFile := "policy.pub"; st_JournalDatabaseURL := "postgres://journal";
     st_GitHubTargets := [{| gs_Service := "api"; gs_Environment := "prod"; gs_Owner := "acme"; gs_Repository := "api";
                             gs_DeployWorkflow := "deploy.yml"; gs_RollbackWorkflow := "rollback.yml"; gs_Ref := "main" |}];
     st_DatadogSite := SiteEU1;
     st_DatadogQueries := [{| qs_Service := "api"; qs_Environment := "prod"; qs_Expression := "avg:latency"; qs_Comparator := "lte";
                              qs_Threshold := S754_zero false; qs_Aggregation := "last"; qs_MinimumPoints := 1; qs_MaximumAge := "5m" |}];
     st_GitHubTokenFile := "token"; st_DatadogCredentialFile := "datadog.json"; st_Capabilities := [CapabilityDeploy] |}.

Lemma check_settings_spec_witness :
  check_settings map_to_list map_to_list production_settings = Ok (production_settings <| st_HealthAddress := ":8081" |>) ∧
  HasPrefix (st_ControlPlaneAddress production_settings) "https://" = true ∧
  ∃ targets queries, allow_lists (production_settings <| st_HealthAddress := ":8081" |>) targets queries.
Proof.
  assert (H : check_settings map_to_list map_to_list production_settings = Ok (production_settings <| st_HealthAddress := ":8081" |>))
    by (vm_compute; reflexivity).
  split; [exact H|].
  destruct (check_settings_spec map_to_list map_to_list (λ m, reflexivity _) (λ m, reflexivity _) _ _ H)
    as (_ & _ & _ & _ & _ & Hp & Hl).
  split; [exact (proj1 (Hp eq_refl))|exact Hl].
Defined.

(** A second target for the same service and environment is refused, and so is plain http in production. *)
Lemma settings_refused :
  is_ok (check_settings map_to_list map_to_list
    (production_settings <| st_ControlPlaneAddress := "http://control.example" |>)) = false ∧
  is_ok (check_settings map_to_list map_to_list
    (production_settings <| st_GitHubTargets ::= λ l, l ++ l |>)) = false.
Proof. by vm_compute. Qed.
