(* ===== verification/Engine.v ===== *)
(** * The in-process engine (src/internal/engine/engine.go)

    The engine plans a release, creates its run and advances it step by step:
    dependencies, policy, approval, audit, deployment, verification, rollback.
    It works against two interfaces: the store (a class with the laws the engine
    relies on, which the in-memory store satisfies) and the release executor.

    Code runs in a state monad over a [World]: the store, the executor, the
    readings of the clock and of the random identifiers, and the trace of the
    audit and executor calls, which the engine never reads and the theorems speak about. *)
From S2P Require Import Prelude GoStd Domain Planner Policy Store Executor.
Open Scope Z_scope.

(** ** The store as the engine sees it *)

(** The interface [store.Store]. *)
Class Store (S : Type) := {
  store_CreateRun : ReleaseRun → S → S * result error (ReleaseRun * bool);
  store_GetRun : string → S → result error ReleaseRun;
  store_ListRuns : S → result error (list ReleaseRun);
  store_UpdateRun : ReleaseRun → Z → S → S * result error ReleaseRun;
  store_AppendAudit : AuditEvent → S → S * result error unit;
  store_AuditEvents : string → S → result error (list AuditEvent);
}.

(** What the engine relies on. *)
Class StoreLaws (S : Type) `{!Store S} := {
  valid_store : S → Prop;
  create_valid run s : valid_store s → valid_store (fst (store_CreateRun run s));
  update_valid run v s : valid_store s → valid_store (fst (store_UpdateRun run v s));
  audit_valid event s : valid_store s → valid_store (fst (store_AppendAudit event s));
  get_run_id id s r : valid_store s → store_GetRun id s = Ok r → run_ID r = id;
  create_new run s s' r : store_CreateRun run s = (s', Ok (r, true)) →
    r = run ∧ store_GetRun (run_ID run) s' = Ok run;
  update_ok run v s s' r : store_UpdateRun run v s = (s', Ok r) →
    r = run <| run_StateVersion := int64 (v + 1) |> ∧ store_GetRun (run_ID run) s' = Ok r ∧
    ∃ current, store_GetRun (run_ID run) s = Ok current ∧ run_StateVersion current = v;
  update_succeeds run s current : store_GetRun (run_ID run) s = Ok current →
    is_ok (snd (store_UpdateRun run (run_StateVersion current) s)) = true;
  update_err run v s s' e : store_UpdateRun run v s = (s', Err e) → s' = s;
  audit_get event s id : store_GetRun id (fst (store_AppendAudit event s)) = store_GetRun id s;
}.

(** The in-memory store implements the interface and its laws. *)
#[export] Instance Memory_Store `{!MapOrder} : Store Memory := {|
  store_CreateRun := CreateRun;
  store_GetRun := GetRun;
  store_ListRuns := λ m, Ok (ListRuns m);
  store_UpdateRun := UpdateRun;
  store_AppendAudit := λ event m, (AppendAudit event m, Ok tt);
  store_AuditEvents := λ id m, Ok (AuditEvents id m);
|}.

#[export] Program Instance Memory_StoreLaws `{!MapOrder} : StoreLaws Memory :=
  {| valid_store := store_inv |}.
Next Obligation. intros ? run m Hm. by apply CreateRunAtomic_inv. Qed.
Next Obligation. intros ? run v m Hm. by apply UpdateRunAtomic_inv. Qed.
Next Obligation. intros ? event m []. by split. Qed.
Next Obligation.
  intros ? id m r Hm. simpl. unfold GetRun. destruct (mem_runs m !! id) eqn:Hr; [|done].
  intros [= <-]. by eapply si_runs.
Qed.
Next Obligation.
  intros ? run m m' r. simpl. unfold CreateRun, CreateRunAtomic, appendAtomic, GetRun.
  destruct (mem_runByRequestID m !! _); [done|]. destruct (mem_runs m !! _); [done|].
  intros [= <- <-]. unfold modify; simpl. by rewrite lookup_insert_eq.
Qed.
Next Obligation.
  intros ? run v m m' r. simpl. unfold UpdateRun, UpdateRunAtomic, appendAtomic, GetRun.
  destruct (mem_runs m !! run_ID run) as [current|]; [|done].
  destruct (run_StateVersion current =? v) eqn:Hv; simpl; [|done].
  intros [= <- <-]. unfold modify; simpl. rewrite lookup_insert_eq. apply Z.eqb_eq in Hv. eauto.
Qed.
Next Obligation.
  intros ? run m current. simpl. unfold UpdateRun, UpdateRunAtomic, GetRun.
  destruct (mem_runs m !! run_ID run); [|done]. intros [= <-]. by rewrite Z.eqb_refl.
Qed.
Next Obligation.
  intros ? run v m m' e. simpl. unfold UpdateRun, UpdateRunAtomic.
  destruct (mem_runs m !! run_ID run) as [current|]; [|by intros [= <- _]].
  destruct (run_StateVersion current =? v); simpl; [done|by intros [= <- _]].
Qed.
Next Obligation. done. Qed.

(** ** The engine *)

Definition ErrInvalidRequest : error := Sentinel "engine.ErrInvalidRequest" "invalid release request".
Definition ErrApproval : error := Sentinel "engine.ErrApproval" "approval rejected".

(** [fmt.Errorf("%w: detail", sentinel)] *)
Definition wrap (sentinel : error) (detail : string) : error :=
  Errorf (Error sentinel +:+ ": " +:+ detail) (Some sentinel).

Record Engine := {
  eng_planner : Planner;
  eng_policy : PolicyEngine;
}.

(** What the engine does to the outside, in order. *)
Inductive effect :=
| EvAudit (event : AuditEvent) (ok : bool)
| EvDeploy (request : DeployRequest) (ok : bool)
| EvVerify (deployment : Deployment)
| EvRollback (deployment : Deployment).

Definition validateRequest (request : ReleaseRequest) : result error unit :=
  if bool_decide (req_RequestID request = "") then Err (wrap ErrInvalidRequest "request_id is required")
  else if bool_decide (req_ReleaseVersion request = "") then Err (wrap ErrInvalidRequest "release_version is required")
  else if bool_decide (req_RequestedBy request = "") then Err (wrap ErrInvalidRequest "requested_by is required")
  else if bool_decide (agent_ID (req_Agent request) = "") then Err (wrap ErrInvalidRequest "delegated_agent.id is required")
  else Ok tt.

Definition containsAll (actual required : list string) : bool :=
  forallb (λ value, bool_decide (value ∈ actual)) required.

(** [domainVerification] *)
Definition domainVerification (result : VerificationResult) (checkedAt : time) : Verification :=
  let outcome := Outcome result in
  let e := vr_Evidence result in
  {| ver_Status := outcome; ver_Healthy := bool_decide (outcome = VerificationPass);
     ver_Reason := vr_Reason result; ver_ObservedValue := vr_ObservedValue result;
     ver_Threshold := vr_Threshold result; ver_CheckedAt := checkedAt;
     ver_Evidence :=
       {| ev_Source := aev_Source e; ev_QueryHash := aev_QueryHash e; ev_WindowFrom := ow_From (aev_Window e);
          ev_WindowTo := ow_To (aev_Window e); ev_ObservedAt := aev_ObservedAt e;
          ev_ObservedValue := aev_ObservedValue e; ev_Threshold := aev_Threshold e;
          ev_AdapterVersion := aev_AdapterVersion e; ev_EvidenceHash := aev_EvidenceHash e |} |}.

(** One step of the loop of [cancelDownstream]. *)
Definition cancel_pending (step : ReleaseStep) : ReleaseStep :=
  if bool_decide (st_Status step = StepPending) then step <| st_Status := StepCancelled |> else step.

(** [cancelDownstream(run, i+1)] on the steps after the current one. *)
Definition cancelDownstream (steps : list ReleaseStep) : list ReleaseStep := cancel_pending <$> steps.

(** [fmt.Sprintf("%s/%s/%s/%s", ...)] *)
Definition idempotencyKey (run : ReleaseRun) (step : ReleaseStep) : string :=
  run_ID run +:+ "/" +:+ run_Environment run +:+ "/" +:+ st_Service step +:+ "/" +:+
  ch_DesiredVersion (st_Change step).

Definition deploy_request (run : ReleaseRun) (step : ReleaseStep) : DeployRequest :=
  {| dr_Service := st_Service step; dr_Environment := run_Environment run;
     dr_DesiredVersion := ch_DesiredVersion (st_Change step); dr_IdempotencyKey := idempotencyKey run step |}.

(** The input of the policy evaluation in [advance]. *)
Definition policy_input (run : ReleaseRun) (step : ReleaseStep) : Input :=
  zero_Input
    <| pi_UserID := run_RequestedBy run |> <| pi_AgentID := agent_ID (run_Agent run) |>
    <| pi_AgentScopes := sort_Strings (agent_Scopes (run_Agent run)) |>
    <| pi_Environment := run_Environment run |> <| pi_Service := st_Service step |>
    <| pi_CISuccess := ch_CISuccess (st_Change step) |>
    <| pi_DependenciesHealthy := ch_DependenciesHealthy (st_Change step) |>
    <| pi_DestructiveMigration := ch_DestructiveMigration (st_Change step) |>
    <| pi_Risk := ch_Risk (st_Change step) |>.

(** How the loop of [advance] goes on after a step: to the next one; out of it with
    the downstream steps left alone; out of it after [cancelDownstream]. *)
Inductive verdict :=
| Continue
| Wait
| Halt (status : RunStatus).

(** [step.Status = ...; step.Failure = ...; run.Status = ...; cancelDownstream; return persist] *)
Definition halt (step : ReleaseStep) (status : StepStatus) (failure : string) (run : RunStatus) :
    ReleaseStep * verdict :=
  (step <| st_Status := status |> <| st_Failure := failure |>, Halt run).

Section engine.
Context `{!MapOrder} {S X : Type} `{!Store S, !ReleaseExecutor X}.
(** The clock readings and the random identifiers, in the order they are drawn. *)
Context (now_at : nat → time) (id_at : nat → string).

Record World := {
  w_store : S;
  w_exec : X;
  w_ticks : nat;
  w_ids : nat;
  w_trace : list effect;
}.

#[export] Instance eta_World : Eta World := λ r,
  {| w_store := w_store r; w_exec := w_exec r; w_ticks := w_ticks r; w_ids := w_ids r; w_trace := w_trace r |}.

Definition emit (event : effect) : ST World unit := λ w, (w <| w_trace ::= λ l, l ++ [event] |>, tt).

(** [e.now()] *)
Definition now : ST World time := λ w, (w <| w_ticks ::= Datatypes.S |>, now_at (w_ticks w)).

Definition newID (prefix : string) : ST World string :=
  λ w, (w <| w_ids ::= Datatypes.S |>, prefix +:+ "_" +:+ id_at (w_ids w)).

(** Store calls. *)
Definition on_store {A} (f : S → S * A) : ST World A :=
  λ w, let '(s, a) := f (w_store w) in (w <| w_store := s |>, a).
Definition read_store {A} (f : S → A) : ST World A := λ w, (w, f (w_store w)).

(** Executor calls, recorded in the trace. *)
Definition on_exec {A} (f : X → X * A) : ST World A :=
  λ w, let '(x, a) := f (w_exec w) in (w <| w_exec := x |>, a).

Definition Deploy (request : DeployRequest) : ST World (result error Deployment) :=
  r ← on_exec (executor_Deploy request); _ ← emit (EvDeploy request (is_ok r)); mret r.
Definition Verify (deployment : Deployment) : ST World (result error VerificationResult) :=
  _ ← emit (EvVerify deployment); on_exec (executor_Verify deployment).
Definition Rollback (deployment : Deployment) : ST World (result error Deployment) :=
  _ ← emit (EvRollback deployment); on_exec (executor_Rollback deployment).

Definition audit (run : ReleaseRun) (actorType actorID action resourceType resourceID res : string)
    (d : details) : ST World (result error unit) :=
  id ← newID "audit"; t ← now;
  let event :=
    {| ae_ID := id; ae_CorrelationID := run_ID run; ae_ActorType := actorType; ae_ActorID := actorID;
       ae_DelegatedBy := run_RequestedBy run; ae_Action := action; ae_ResourceType := resourceType;
       ae_ResourceID := resourceID; ae_Result := res; ae_Details := d; ae_Timestamp := t |} in
  r ← on_store (store_AppendAudit event); _ ← emit (EvAudit event (is_ok r)); mret r.

Definition persist (run : ReleaseRun) (expectedVersion : Z) : ST World (result error ReleaseRun) :=
  t ← now; on_store (store_UpdateRun (run <| run_UpdatedAt := t |>) expectedVersion).

(** ** advance *)

(** The approval branch: [RequireApproval] without an approved approval. *)
Definition request_approval (run : ReleaseRun) (decision : PolicyDecision) (step : ReleaseStep) :
    ST World (ReleaseStep * verdict) :=
  approval ← match st_Approval step with
             | Some approval => mret approval
             | None =>
                 t ← now; id ← newID "approval";
                 mret {| ap_ID := id; ap_RequiredRoles := pd_RequiredRoles decision; ap_Status := ApprovalPending;
                         ap_PlanHash := plan_Hash (run_Plan run); ap_RequestedAt := t;
                         ap_ExpiresAt := Add t (24 * Hour); ap_DecidedBy := ""; ap_DecidedAt := None |}
             end;
  let step := step <| st_Approval := Some approval |> <| st_Status := StepWaitingApproval |> in
  r ← audit run "system" "policy-engine" "approval.request" "approval" (ap_ID approval) "PENDING"
        {[ "required_roles" := AStrings (ap_RequiredRoles approval) ]};
  mret (if is_ok r then (step, Wait)
        else halt step StepBlocked "audit unavailable before approval request" RunBlocked).

(** The branch of a verification that does not pass. *)
Definition rollback_step (run : ReleaseRun) (key : string) (deployment : Deployment)
    (verification : VerificationResult) (step : ReleaseStep) : ST World (ReleaseStep * verdict) :=
  let step := step <| st_Status := StepRollingBack |> in
  _ ← audit run "system" "verifier" "rollback.start" "service" (st_Service step) "HEALTH_CHECK_FAILED" ∅;
  if negb (bool_decide (st_RollbackMode step = RollbackAutomatic)) then
    mret (halt step StepEscalated ("automatic rollback is not authorized: " +:+ st_RollbackMode step) RunEscalated)
  else
    rolledBack ← Rollback deployment;
    match rolledBack with
    | Err err => mret (halt step StepEscalated ("rollback failed: " +:+ Error err) RunEscalated)
    | Ok rolledBack =>
        id ← newID "rollback";
        let step := step <| st_RollbackExecution := Some
          {| ex_ID := id; ex_Adapter := ""; ex_IdempotencyKey := key +:+ "/rollback"; ex_Status := "";
             ex_ExternalExecutionID := dpl_ExternalID rolledBack; ex_StartedAt := dpl_StartedAt rolledBack;
             ex_FinishedAt := dpl_FinishedAt rolledBack |} |> in
        r ← Verify rolledBack;
        match r with
        | Err _ => mret (halt step StepEscalated "rollback verification failed or unavailable" RunEscalated)
        | Ok rollbackVerification =>
            t ← now;
            let step := step <| st_RollbackVerification := Some (domainVerification rollbackVerification t) |> in
            mret (if bool_decide (Outcome rollbackVerification = VerificationPass)
                  then halt step StepRolledBack (vr_Reason verification) RunFailed
                  else halt step StepEscalated "rollback verification failed or unavailable" RunEscalated)
        end
    end.

(** From [step.Status = domain.StepExecuting] to the end of the loop body. *)
Definition deploy_step (run : ReleaseRun) (decision : PolicyDecision) (step : ReleaseStep) :
    ST World (ReleaseStep * verdict) :=
  let step := step <| st_Status := StepExecuting |> in
  let key := idempotencyKey run step in
  r ← audit run "agent" (agent_ID (run_Agent run)) "deployment.start" "service" (st_Service step) "AUTHORIZED"
        {[ "idempotency_key" := AString key; "policy_version" := AString (pd_PolicyVersion decision) ]};
  if negb (is_ok r) then mret (halt step StepBlocked "audit unavailable before deployment" RunBlocked) else
  r ← Deploy (deploy_request run step);
  match r with
  | Err err => mret (halt step StepBlocked ("deploy failed: " +:+ Error err) RunBlocked)
  | Ok deployment =>
      id ← newID "execution";
      let step := step <| st_Execution := Some
        {| ex_ID := id; ex_Adapter := ""; ex_IdempotencyKey := key; ex_Status := "";
           ex_ExternalExecutionID := dpl_ExternalID deployment; ex_StartedAt := dpl_StartedAt deployment;
           ex_FinishedAt := dpl_FinishedAt deployment |} |> <| st_Status := StepVerifying |> in
      r ← Verify deployment;
      match r with
      | Err err => mret (halt step StepBlocked ("verification unavailable: " +:+ Error err) RunBlocked)
      | Ok verification =>
          t ← now;
          let step := step <| st_Verification := Some (domainVerification verification t) |> in
          if negb (bool_decide (Outcome verification = VerificationPass))
          then rollback_step run key deployment verification step
          else
            let step := step <| st_Status := StepSucceeded |> in
            _ ← audit run "system" "verifier" "deployment.verify" "service" (st_Service step) "SUCCEEDED" ∅;
            mret (step, Continue)
      end
  end.

(** [decision.Decision == RequireApproval && (step.Approval == nil || step.Approval.Status != Approved)] *)
Definition lacks_approval (decision : PolicyDecision) (step : ReleaseStep) : bool :=
  bool_decide (pd_Decision decision = DecisionRequireApproval) &&
  match st_Approval step with
  | None => true
  | Some approval => negb (bool_decide (ap_Status approval = ApprovalApproved))
  end.

(** [services[step.Service].Dependencies] *)
Definition step_dependencies (e : Engine) (step : ReleaseStep) : list string :=
  let services := index_by svc_Name id (Services (eng_planner e)) ∅ in
  svc_Dependencies (get zero_Service services (st_Service step)).

(** The loop over the dependencies: the first selected one that has not succeeded. *)
Definition failed_dependency (e : Engine) (selected succeeded : gset string) (step : ReleaseStep) : option string :=
  head (filter (λ d, d ∈ selected ∧ d ∉ succeeded) (step_dependencies e step)).

(** The body of the loop on a pending step. *)
Definition advance_step (e : Engine) (run : ReleaseRun) (selected succeeded : gset string) (step : ReleaseStep) :
    ST World (ReleaseStep * verdict) :=
  match failed_dependency e selected succeeded step with
  | Some dependency =>
      mret (halt step StepBlocked ("selected dependency did not succeed: " +:+ dependency) RunBlocked)
  | None =>
      t ← now;
      let decision := PolicyEngine_Evaluate (eng_policy e) (policy_input run step) t in
      let step := step <| st_Policy := Some decision |> in
      r ← audit run "system" "policy-engine" "policy.evaluate" "release_step" (st_Service step)
            (Decision_string (pd_Decision decision))
            {[ "reason_code" := AString (pd_ReasonCode decision); "input_hash" := AString (pd_InputHash decision) ]};
      if negb (is_ok r) then mret (halt step StepBlocked "audit unavailable before policy decision" RunBlocked)
      else if bool_decide (pd_Decision decision = DecisionDeny)
      then mret (halt step StepBlocked (pd_ReasonDetail decision) RunBlocked)
      else if lacks_approval decision step then request_approval run decision step
      else deploy_step run decision step
  end.

(** The loop over [run.Steps]: the steps behind it are in [before]. *)
Fixpoint advance_loop (e : Engine) (run : ReleaseRun) (selected succeeded : gset string)
    (before after : list ReleaseStep) : ST World (RunStatus * list ReleaseStep) :=
  match after with
  | [] => mret (RunSucceeded, before)
  | step :: after =>
      if negb (bool_decide (st_Status step = StepPending))
      then advance_loop e run selected succeeded (before ++ [step]) after
      else
        r ← advance_step e run selected succeeded step;
        let '(step, v) := r in
        match v with
        | Continue =>
            advance_loop e run selected ({[ st_Service step ]} ∪ succeeded) (before ++ [step]) after
        | Wait => mret (RunWaitingApproval, before ++ step :: after)
        | Halt status => mret (status, before ++ step :: cancelDownstream after)
        end
  end.

Definition succeeded_services (steps : list ReleaseStep) : gset string :=
  list_to_set (st_Service <$> filter (λ s, st_Status s = StepSucceeded) steps).

Definition selected_services (steps : list ReleaseStep) : gset string := list_to_set (st_Service <$> steps).

(** [advance]; every return of the loop persists the run. *)
Definition advance (e : Engine) (run : ReleaseRun) : ST World (result error ReleaseRun) :=
  let expectedVersion := run_StateVersion run in
  r ← advance_loop e run (selected_services (run_Steps run)) (succeeded_services (run_Steps run)) []
        (run_Steps run);
  let '(status, steps) := r in
  persist (run <| run_Status := status |> <| run_Steps := steps |>) expectedVersion.

(** ** Starting a release *)

(** The run [startPlanned] creates: one pending step per planned step. *)
Definition new_step (changes : gmap string Change) (phase : PlanPhase) (planned : PlanStep) : ReleaseStep :=
  {| st_Service := ps_Service planned; st_Phase := ph_Number phase; st_Wave := 0; st_Status := StepPending;
     st_Change := get zero_Change changes (ps_Service planned); st_Policy := None; st_Approval := None;
     st_Execution := None; st_Verification := None;
     st_VerificationRequired := ps_VerificationRequired planned;
     st_ObservationWindow := ps_ObservationWindow planned; st_RollbackMode := ps_RollbackMode planned;
     st_RollbackExecution := None; st_RollbackVerification := None; st_Failure := "" |}.

Definition new_steps (request : ReleaseRequest) (plan : ReleasePlan) : list ReleaseStep :=
  let changes := index_by ch_Service id (req_Changes request) ∅ in
  phase ← plan_Phases plan; new_step changes phase <$> ph_Steps phase.

Definition new_run (request : ReleaseRequest) (plan : ReleasePlan) (runID : string) (t : time) : ReleaseRun :=
  zero_ReleaseRun
    <| run_ID := runID |> <| run_RequestID := req_RequestID request |>
    <| run_ReleaseVersion := req_ReleaseVersion request |> <| run_Environment := req_Environment request |>
    <| run_RequestedBy := req_RequestedBy request |> <| run_Agent := req_Agent request |>
    <| run_Plan := plan |> <| run_Status := RunPending |> <| run_StateVersion := 1 |>
    <| run_CreatedAt := t |> <| run_UpdatedAt := t |> <| run_Steps := new_steps request plan |>.

(** A run or nil, whether it was created, an error or nil. *)
Abbreviation start_result := (option ReleaseRun * bool * option error)%type.

Definition startPlanned (e : Engine) (request : ReleaseRequest) (plan : ReleasePlan) : ST World start_result :=
  t ← now;
  match ValidatePlan (eng_planner e) plan t with
  | Err err => mret (None, false, Some (Errorf ("validate release plan before execution: " +:+ Error err) (Some err)))
  | Ok _ =>
      t ← now; runID ← newID "run";
      let run := new_run request plan runID t in
      r ← on_store (store_CreateRun run);
      match r with
      | Err err => mret (None, false, Some err)
      | Ok (createdRun, false) => mret (Some createdRun, false, None)
      | Ok (_, true) =>
          r ← audit run "user" (req_RequestedBy request) "release.start" "release_run" (run_ID run) "ACCEPTED"
                {[ "plan_hash" := AString (plan_Hash plan) ]};
          match r with
          | Err err => mret (None, true, Some (Errorf ("write release audit event: " +:+ Error err) (Some err)))
          | Ok _ =>
              r ← advance e run;
              match r with
              | Err err => mret (None, true, Some err)
              | Ok _ =>
                  r ← read_store (store_GetRun (run_ID run));
                  mret (match r with Ok updated => (Some updated, true, None) | Err err => (None, true, Some err) end)
              end
          end
      end
  end.

(** [Engine.Plan] and [Engine.PlanIntent]; [None] would be an unfinished graph loop, which
    the planner excludes. *)
Definition Engine_Plan (e : Engine) (request : ReleaseRequest) : ST World (option (result error ReleasePlan)) :=
  match validateRequest request with
  | Err err => mret (Some (Err err))
  | Ok _ => t ← now; mret (Plan (eng_planner e) request t)
  end.

Definition Engine_PlanIntent (e : Engine) (intent : ReleaseIntent) : ST World (option (result error ReleasePlan)) :=
  match validateRequest (LegacyRequestFromIntent intent) with
  | Err err => mret (Some (Err err))
  | Ok _ => t ← now; mret (PlanIntent (eng_planner e) intent t)
  end.

Definition start_with (e : Engine) (request : ReleaseRequest) (planned : option (result error ReleasePlan)) :
    ST World (option start_result) :=
  match planned with
  | None => mret None
  | Some (Err err) => mret (Some (None, false, Some err))
  | Some (Ok plan) => r ← startPlanned e request plan; mret (Some r)
  end.

Definition Start (e : Engine) (request : ReleaseRequest) : ST World (option start_result) :=
  planned ← Engine_Plan e request; start_with e request planned.

Definition StartIntent (e : Engine) (intent : ReleaseIntent) : ST World (option start_result) :=
  planned ← Engine_PlanIntent e intent; start_with e (LegacyRequestFromIntent intent) planned.

Definition Get (id : string) : ST World (result error ReleaseRun) := read_store (store_GetRun id).

Definition Events (id : string) : ST World (result error (list AuditEvent)) :=
  r ← read_store (store_GetRun id);
  match r with
  | Err err => mret (Err err)
  | Ok _ => read_store (store_AuditEvents id)
  end.

(** ** Approvals *)

(** The loop that finds the target: the index of the first step with this approval. *)
Definition find_approval (approvalID : string) (steps : list ReleaseStep) : option (nat * ReleaseStep * Approval) :=
  match list_find (λ s, ap_ID <$> st_Approval s = Some approvalID) steps with
  | Some (i, step) => match st_Approval step with Some a => Some (i, step, a) | None => None end
  | None => None
  end.

(** [UpdateRun] followed by [GetRun]. *)
Definition update_and_get (runID : string) (run : ReleaseRun) (expectedVersion : Z) : ST World (result error ReleaseRun) :=
  r ← on_store (store_UpdateRun run expectedVersion);
  match r with
  | Err err => mret (Err err)
  | Ok _ => Get runID
  end.

(** The step and the run after the decision. *)
Definition decided_step (step : ReleaseStep) (approval : Approval) (actor : string) (approve : bool) (t : time) : ReleaseStep :=
  let approval := approval <| ap_DecidedBy := actor |> <| ap_DecidedAt := Some t |> in
  if approve
  then step <| st_Approval := Some (approval <| ap_Status := ApprovalApproved |>) |> <| st_Status := StepPending |>
  else step <| st_Approval := Some (approval <| ap_Status := ApprovalDenied |>) |> <| st_Status := StepBlocked |>
            <| st_Failure := "approval denied" |>.

Definition decided_run (run : ReleaseRun) (i : nat) (step : ReleaseStep) (approval : Approval) (actor : string)
    (approve : bool) (t : time) : ReleaseRun :=
  run <| run_Steps := <[i := decided_step step approval actor approve t]> (run_Steps run) |>
      <| run_Status := if approve then RunRunning else RunBlocked |> <| run_UpdatedAt := t |>.

(** The branch of an approval that has expired. *)
Definition expire_approval (runID : string) (run : ReleaseRun) (i : nat) (step : ReleaseStep) (approval : Approval)
    (expectedVersion : Z) : ST World (result error ReleaseRun) :=
  t ← now;
  let step := step <| st_Approval := Some (approval <| ap_Status := ApprovalExpired |>) |>
                   <| st_Status := StepBlocked |> in
  update_and_get runID (run <| run_Steps := <[i := step]> (run_Steps run) |> <| run_Status := RunBlocked |>
                            <| run_UpdatedAt := t |>) expectedVersion.

(** The branch that records the decision and goes on with an approved run. *)
Definition record_decision (e : Engine) (runID approvalID : string) (run : ReleaseRun) (i : nat) (step : ReleaseStep)
    (approval : Approval) (actor : string) (approve : bool) (expectedVersion : Z) : ST World (result error ReleaseRun) :=
  t ← now;
  let run := decided_run run i step approval actor approve t in
  r ← audit run "user" actor "approval.decide" "approval" approvalID
        (ApprovalStatus_string (if approve then ApprovalApproved else ApprovalDenied)) ∅;
  match r with
  | Err err => mret (Err (Errorf ("write approval audit event: " +:+ Error err) (Some err)))
  | Ok _ =>
      r ← on_store (store_UpdateRun run expectedVersion);
      match r with
      | Err err => mret (Err err)
      | Ok _ =>
          if negb approve then Get runID else
          r ← Get runID;
          match r with
          | Err err => mret (Err err)
          | Ok run =>
              r ← advance e run;
              match r with
              | Err err => mret (Err err)
              | Ok _ => Get runID
              end
          end
      end
  end.

Definition DecideApproval (e : Engine) (runID approvalID actor : string) (roles : list string) (approve : bool) :
    ST World (result error ReleaseRun) :=
  r ← Get runID;
  match r with
  | Err err => mret (Err err)
  | Ok run =>
      let expectedVersion := run_StateVersion run in
      if bool_decide (actor = "") then mret (Err (wrap ErrApproval "approval actor is required")) else
      match find_approval approvalID (run_Steps run) with
      | None => mret (Err (wrap ErrApproval "pending approval not found"))
      | Some (i, step, approval) =>
          if negb (bool_decide (ap_Status approval = ApprovalPending))
          then mret (Err (wrap ErrApproval "pending approval not found"))
          else if negb (bool_decide (ap_PlanHash approval = plan_Hash (run_Plan run)))
          then mret (Err (wrap ErrApproval "plan changed after approval request"))
          else
            t ← now;
            if negb (Before t (ap_ExpiresAt approval))
            then expire_approval runID run i step approval expectedVersion
            else if approve && negb (containsAll roles (ap_RequiredRoles approval))
            then mret (Err (wrap ErrApproval ("approver lacks required roles " +:+ format_slice (ap_RequiredRoles approval))))
            else if approve && bool_decide (actor = run_RequestedBy run)
            then mret (Err (wrap ErrApproval "requester cannot approve their own release"))
            else record_decision e runID approvalID run i step approval actor approve expectedVersion
      end
  end.

(** ** Cancel, pause, resume *)

(** The loop of [Cancel]. *)
Definition cancel_step (step : ReleaseStep) : ReleaseStep :=
  if bool_decide (st_Status step = StepPending) || bool_decide (st_Status step = StepWaitingApproval)
  then step <| st_Status := StepCancelled |> else step.

Definition Cancel (runID actor : string) : ST World (result error ReleaseRun) :=
  r ← Get runID;
  match r with
  | Err err => mret (Err err)
  | Ok run =>
      if bool_decide (run_Status run = RunSucceeded) || bool_decide (run_Status run = RunCancelled)
      then mret (Ok run)
      else
        let expectedVersion := run_StateVersion run in
        t ← now;
        let run := run <| run_Status := RunCancelled |> <| run_Steps ::= fmap cancel_step |>
                       <| run_UpdatedAt := t |> in
        r ← audit run "user" actor "release.cancel" "release_run" (run_ID run) "CANCELLED" ∅;
        match r with
        | Err err => mret (Err (Errorf ("write cancellation audit event: " +:+ Error err) (Some err)))
        | Ok _ => update_and_get runID run expectedVersion
        end
  end.

Definition Pause (runID actor : string) : ST World (result error ReleaseRun) :=
  r ← Get runID;
  match r with
  | Err err => mret (Err err)
  | Ok run =>
      if negb (bool_decide (run_Status run = RunRunning)) && negb (bool_decide (run_Status run = RunWaitingApproval))
      then mret (Ok run)
      else
        t ← now;
        update_and_get runID (run <| run_PausedFrom := run_Status run |> <| run_Status := RunPaused |>
                                  <| run_UpdatedAt := t |>) (run_StateVersion run)
  end.

Definition Resume (e : Engine) (runID actor : string) : ST World (result error ReleaseRun) :=
  r ← Get runID;
  match r with
  | Err err => mret (Err err)
  | Ok run =>
      if negb (bool_decide (run_Status run = RunPaused)) then mret (Ok run) else
      let previous := run_PausedFrom run in
      let run := run <| run_PausedFrom := RunStatusNone |> in
      if bool_decide (previous = RunWaitingApproval) then
        t ← now;
        update_and_get runID (run <| run_Status := RunWaitingApproval |> <| run_UpdatedAt := t |>)
          (run_StateVersion run)
      else
        r ← advance e (run <| run_Status := RunRunning |>);
        match r with
        | Err err => mret (Err err)
        | Ok _ => Get runID
        end
  end.

End engine.

(** ** The abstract release machine

    One advance of a run, without clock, identifiers, store and executor: pending
    steps are released in order until one waits for approval or stops the run. *)

(** The requests sent to the executor's [Deploy]. *)
Definition deploys (evs : list effect) : list DeployRequest :=
  omap (λ ev, match ev with EvDeploy request _ => Some request | _ => None end) evs.

(** An audit event that authorizes a deployment. *)
Definition authorizes (event : AuditEvent) (request : DeployRequest) : bool :=
  bool_decide (ae_Action event = "deployment.start") && bool_decide (ae_Result event = "AUTHORIZED") &&
  bool_decide (ae_ResourceID event = dr_Service request) &&
  bool_decide (ae_Details event !! "idempotency_key" = Some (AString (dr_IdempotencyKey request))).

(** Every deployment directly follows the stored audit event that authorizes it. *)
Fixpoint audited (last : option AuditEvent) (evs : list effect) : bool :=
  match evs with
  | [] => true
  | EvDeploy request _ :: evs =>
      match last with Some event => authorizes event request | None => false end && audited None evs
  | EvAudit event true :: evs => audited (Some event) evs
  | _ :: evs => audited None evs
  end.

(** What a step keeps. *)
Definition same_step (s s' : ReleaseStep) : Prop :=
  st_Service s' = st_Service s ∧ st_Phase s' = st_Phase s ∧ st_Change s' = st_Change s ∧
  st_RollbackMode s' = st_RollbackMode s.

(** The policy let the step through: not denied, and approved if it asks for approval. *)
Definition permitted (d : PolicyDecision) (s : ReleaseStep) : Prop :=
  pd_Decision d ≠ DecisionDeny ∧
  (pd_Decision d = DecisionRequireApproval → ∃ a, st_Approval s = Some a ∧ ap_Status a = ApprovalApproved).

(** The policy allowed the step, or an approval released it. *)
Definition allowed_or_approved (d : PolicyDecision) (s : ReleaseStep) : Prop :=
  pd_Decision d = DecisionAllow ∨
  (pd_Decision d = DecisionRequireApproval ∧ ∃ a, st_Approval s = Some a ∧ ap_Status a = ApprovalApproved).

(** The engine only asks whether a decision denies or requires approval: a string that is none of the three
    known decisions is permitted without being cleared.  The repository's own evaluators answer with no other. *)
Lemma permitted_cleared e input t s :
  stock_engine e → permitted (PolicyEngine_Evaluate e input t) s →
  allowed_or_approved (PolicyEngine_Evaluate e input t) s.
Proof.
  intros He [Hdeny Happroved]. unfold allowed_or_approved.
  pose proof (stock_engine_decides e input t He) as Hd. set_solver.
Qed.

(** A step that was deployed and whose verification passed. *)
Definition released (key : string) (s s' : ReleaseStep) : Prop :=
  st_Status s = StepPending ∧ st_Status s' = StepSucceeded ∧ same_step s s' ∧
  (∃ d, st_Policy s' = Some d ∧ permitted d s) ∧
  (∃ x, st_Execution s' = Some x ∧ ex_IdempotencyKey x = key) ∧
  (∃ v, st_Verification s' = Some v ∧ ver_Status v = VerificationPass ∧ ver_Healthy v = true).

(** A step that now waits for an approval that has not been given. *)
Definition waiting (s s' : ReleaseStep) : Prop :=
  st_Status s = StepPending ∧ st_Status s' = StepWaitingApproval ∧ same_step s s' ∧
  ∃ a, st_Approval s' = Some a ∧ ap_Status a ≠ ApprovalApproved.

(** A step that stopped the run. *)
Definition stopped (status : RunStatus) (s s' : ReleaseStep) : Prop :=
  st_Status s = StepPending ∧ same_step s s' ∧
  (st_Status s', status) ∈ [(StepBlocked, RunBlocked); (StepEscalated, RunEscalated); (StepRolledBack, RunFailed)] ∧
  (status = RunFailed → st_RollbackMode s = RollbackAutomatic ∧
     ∃ v, st_RollbackVerification s' = Some v ∧ ver_Status v = VerificationPass).

Inductive advanced (key : ReleaseStep → string) : list ReleaseStep → list ReleaseStep → RunStatus → Prop :=
| adv_done : advanced key [] [] RunSucceeded
| adv_skip s l l' status :
    st_Status s ≠ StepPending → advanced key l l' status → advanced key (s :: l) (s :: l') status
| adv_release s s' l l' status :
    released (key s) s s' → advanced key l l' status → advanced key (s :: l) (s' :: l') status
| adv_wait s s' l : waiting s s' → advanced key (s :: l) (s' :: l) RunWaitingApproval
| adv_stop s s' l status :
    stopped status s s' → advanced key (s :: l) (s' :: cancelDownstream l) status.

Lemma audited_weaken last evs : audited None evs = true → audited last evs = true.
Proof. destruct evs as [|[] evs]; simpl; try done. Qed.

Lemma audited_app last evs1 evs2 :
  audited last evs1 = true → audited None evs2 = true → audited last (evs1 ++ evs2) = true.
Proof.
  revert last. induction evs1 as [|ev evs1 IH]; intros last; simpl.
  - intros _. apply audited_weaken.
  - destruct ev as [event []| | |]; auto. rewrite !andb_true_iff. naive_solver.
Qed.

Lemma deploys_app evs1 evs2 : deploys (evs1 ++ evs2) = deploys evs1 ++ deploys evs2.
Proof. apply omap_app. Qed.

Lemma same_step_refl s : same_step s s.
Proof. done. Qed.

Lemma same_step_trans s1 s2 s3 : same_step s1 s2 → same_step s2 s3 → same_step s1 s3.
Proof. unfold same_step. naive_solver congruence. Qed.

Lemma cancelDownstream_succeeded s l :
  s ∈ l → st_Status s = StepSucceeded → s ∈ cancelDownstream l.
Proof.
  intros Hin Hs. apply list_elem_of_fmap. exists s. split; [|done]. unfold cancel_pending. by rewrite Hs.
Qed.

Lemma advanced_succeeded key l l' status s :
  advanced key l l' status → s ∈ l → st_Status s = StepSucceeded → s ∈ l'.
Proof.
  induction 1 as [|s0 l l' status Hs0 _ IH|s0 s' l l' status [Hp _] _ IH|s0 s' l [Hp _]|s0 s' l status [Hp _]];
    intros Hin Hs; [done|apply elem_of_cons in Hin as [->|Hin]; [try congruence|]..].
  - left.
  - right. auto.
  - right. auto.
  - by right.
  - right. by apply cancelDownstream_succeeded.
Qed.

(** A run that ends [SUCCEEDED] has released every pending step. *)
Lemma advanced_all key l l' :
  advanced key l l' RunSucceeded →
  Forall2 (λ s s', (st_Status s ≠ StepPending ∧ s' = s) ∨ released (key s) s s') l l'.
Proof.
  remember RunSucceeded as status eqn:Hst. induction 1; try done.
  - constructor; [by left|auto].
  - constructor; [by right|auto].
  - subst. match goal with H : stopped _ _ _ |- _ => destruct H as (_ & _ & Hin & _) end. set_solver.
Qed.

Lemma advanced_services key l l' status :
  advanced key l l' status → st_Service <$> l' = st_Service <$> l.
Proof.
  assert (∀ l, st_Service <$> cancelDownstream l = st_Service <$> l) as Hc.
  { intros l0. unfold cancelDownstream. rewrite <-list_fmap_compose. apply list_fmap_ext.
    intros i s _. simpl. unfold cancel_pending. by case_bool_decide. }
  induction 1 as [|s l l' status Hs _ IH|s s' l l' status Hs _ IH|s s' l Hs|s s' l status Hs];
    csimpl; rewrite ?IH, ?Hc; try done; f_equal.
  - by destruct Hs as (_ & _ & (? & _) & _).
  - by destruct Hs as (_ & _ & (? & _) & _).
  - by destruct Hs as (_ & (? & _) & _).
Qed.

(** ** Effects of the engine's code

    [effects m Q]: [m] leaves the runs of the store as they are, appends some
    [evs] to the trace and returns some [a] with [Q evs a]. *)
Section effects.
Context `{!MapOrder} {S X : Type} `{!Store S, !StoreLaws S, !ReleaseExecutor X}.
Context (now_at : nat → time) (id_at : nat → string).
Local Abbreviation W := (World (S:=S) (X:=X)).

Definition framed (w w' : W) (evs : list effect) : Prop :=
  w_trace w' = w_trace w ++ evs ∧
  (∀ id, store_GetRun id (w_store w') = store_GetRun id (w_store w)) ∧
  (valid_store (w_store w) → valid_store (w_store w')).

Definition effects {A} (m : ST W A) (Q : list effect → A → Prop) : Prop :=
  ∀ w w' a, m w = (w', a) → ∃ evs, framed w w' evs ∧ Q evs a.

Lemma effects_ret {A} (a : A) (Q : list effect → A → Prop) : Q [] a → effects (mret a) Q.
Proof. intros HQ w w' a' [= <- <-]. exists []. unfold framed. by rewrite app_nil_r. Qed.

Lemma effects_bind {A B} (m : ST W A) (f : A → ST W B) (Q1 : list effect → A → Prop) (Q : list effect → B → Prop) :
  effects m Q1 → (∀ a evs1, Q1 evs1 a → effects (f a) (λ evs2 b, Q (evs1 ++ evs2) b)) → effects (m ≫= f) Q.
Proof.
  intros Hm Hf w w' b. unfold mbind, st_bind. destruct (m w) as [w1 a] eqn:Hmw. intros Hfa.
  destruct (Hm _ _ _ Hmw) as (evs1 & (Ht1 & Hg1 & Hv1) & HQ1).
  destruct (Hf _ _ HQ1 _ _ _ Hfa) as (evs2 & (Ht2 & Hg2 & Hv2) & HQ).
  exists (evs1 ++ evs2). split; [|done]. unfold framed. rewrite Ht2, Ht1, app_assoc.
  split_and!; [done|intros; by rewrite Hg2, Hg1|auto].
Qed.

Lemma effects_mono {A} (m : ST W A) (Q Q' : list effect → A → Prop) :
  effects m Q → (∀ evs a, Q evs a → Q' evs a) → effects m Q'.
Proof. intros Hm HQ w w' a Hw. destruct (Hm _ _ _ Hw) as (evs & ? & ?). eauto. Qed.

Lemma effects_now : effects (now now_at) (λ evs _, evs = []).
Proof. intros w w' a [= <- <-]. exists []. unfold framed; simpl. by rewrite app_nil_r. Qed.

Lemma effects_newID prefix : effects (newID id_at prefix) (λ evs _, evs = []).
Proof. intros w w' a [= <- <-]. exists []. unfold framed; simpl. by rewrite app_nil_r. Qed.

Lemma effects_emit ev : effects (emit ev) (λ evs _, evs = [ev]).
Proof. intros w w' a [= <- <-]. exists [ev]. by unfold framed; simpl. Qed.

Lemma effects_exec {A} (f : X → X * A) : effects (on_exec f) (λ evs _, evs = []).
Proof.
  intros w w' a. unfold on_exec. destruct (f (w_exec w)) as [x a']. intros [= <- <-]. exists [].
  unfold framed; simpl. by rewrite app_nil_r.
Qed.

Lemma effects_append event : effects (on_store (store_AppendAudit event)) (λ evs _, evs = []).
Proof.
  intros w w' a. unfold on_store. pose proof (audit_get event (w_store w)) as Hg.
  pose proof (audit_valid event (w_store w)) as Hv.
  destruct (store_AppendAudit event (w_store w)) as [s a']. intros [= <- <-]. exists [].
  unfold framed; simpl in *. by rewrite app_nil_r.
Qed.

(** Binds the effects of a call that emits nothing. *)
Lemma effects_quiet {A B} (m : ST W A) (f : A → ST W B) (Q : list effect → B → Prop) :
  effects m (λ evs _, evs = []) → (∀ a, effects (f a) Q) → effects (m ≫= f) Q.
Proof. intros Hm Hf. eapply effects_bind; [done|]. by intros a evs ->. Qed.

(** Binds the effects of a call that emits one event. *)
Lemma effects_event {A B} (m : ST W A) (f : A → ST W B) (Q : list effect → B → Prop) (R : effect → A → Prop) :
  effects m (λ evs a, ∃ ev, evs = [ev] ∧ R ev a) →
  (∀ a ev, R ev a → effects (f a) (λ evs b, Q (ev :: evs) b)) → effects (m ≫= f) Q.
Proof. intros Hm Hf. eapply effects_bind; [done|]. intros a evs (ev & -> & HR). by apply Hf. Qed.

Lemma effects_audit run actorType actorID action resourceType resourceID res d :
  effects (audit now_at id_at run actorType actorID action resourceType resourceID res d)
    (λ evs r, ∃ ev, evs = [ev] ∧ ∃ event, ev = EvAudit event (is_ok r) ∧ ae_Action event = action ∧
       ae_Result event = res ∧ ae_ResourceID event = resourceID ∧ ae_Details event = d).
Proof.
  unfold audit. apply effects_quiet; [apply effects_newID|]. intros id.
  apply effects_quiet; [apply effects_now|]. intros t.
  apply effects_quiet; [apply effects_append|]. intros r.
  eapply effects_bind; [apply effects_emit|]. intros _ evs ->. apply effects_ret. eauto 10.
Qed.

Lemma effects_Deploy request :
  effects (Deploy request) (λ evs r, ∃ ev, evs = [ev] ∧ ev = EvDeploy request (is_ok r)).
Proof.
  unfold Deploy. apply effects_quiet; [apply effects_exec|]. intros r.
  eapply effects_bind; [apply effects_emit|]. intros _ evs ->. apply effects_ret. eauto.
Qed.

Lemma effects_Verify deployment :
  effects (Verify deployment) (λ evs _, ∃ ev, evs = [ev] ∧ ev = EvVerify deployment).
Proof.
  unfold Verify. eapply effects_bind; [apply effects_emit|]. intros _ evs ->.
  eapply effects_mono; [apply effects_exec|]. intros evs a ->. eauto.
Qed.

Lemma effects_Rollback deployment :
  effects (Rollback deployment) (λ evs _, ∃ ev, evs = [ev] ∧ ev = EvRollback deployment).
Proof.
  unfold Rollback. eapply effects_bind; [apply effects_emit|]. intros _ evs ->.
  eapply effects_mono; [apply effects_exec|]. intros evs a ->. eauto.
Qed.

(** ** One step *)

(** What the loop needs to know of the effects of one step. *)
Definition step_post (run : ReleaseRun) (s : ReleaseStep) (evs : list effect) (r : ReleaseStep * verdict) : Prop :=
  audited None evs = true ∧
  match snd r with
  | Continue => released (idempotencyKey run s) s (fst r) ∧ deploys evs = [deploy_request run s]
  | Wait => waiting s (fst r) ∧ deploys evs = []
  | Halt status => stopped status s (fst r) ∧ (deploys evs = [] ∨ deploys evs = [deploy_request run s])
  end.

Lemma rollback_step_effects run key deployment verification s0 s prefix :
  st_Status s0 = StepPending → same_step s0 s → audited None prefix = true →
  deploys prefix = [deploy_request run s0] →
  effects (rollback_step now_at id_at run key deployment verification s)
    (λ evs r, step_post run s0 (prefix ++ evs) r).
Proof.
  intros Hpending Hsame Haudited Hdeploys. unfold rollback_step.
  destruct Hsame as (Hs1 & Hs2 & Hs3 & Hs4).
  assert (∀ evs r, audited None evs = true → deploys evs = [] → ∀ status, snd r = Halt status →
    stopped status s0 (fst r) → step_post run s0 (prefix ++ evs) r) as Hpost.
  { intros evs [s' v] Ha Hd status Hv Hst. simpl in *. subst v. unfold step_post. simpl.
    rewrite deploys_app, Hd, app_nil_r. split; [by apply audited_app|auto]. }
  eapply effects_event; [apply effects_audit|]. intros r0 ev (event & -> & _).
  case_bool_decide as Hmode; simpl.
  2:{ apply effects_ret. eapply Hpost; [by destruct (is_ok _)|done..|].
      unfold stopped, same_step; simpl. split_and!; [done..|set_solver|done]. }
  eapply effects_event; [apply effects_Rollback|]. intros r ev ->. destruct r as [rolledBack|err].
  2:{ apply effects_ret. eapply Hpost; [by destruct (is_ok _)|done..|].
      unfold stopped, same_step; simpl. split_and!; [done..|set_solver|done]. }
  apply effects_quiet; [apply effects_newID|]. intros id.
  eapply effects_event; [apply effects_Verify|]. intros r ev ->. destruct r as [result|err].
  2:{ apply effects_ret. eapply Hpost; [by destruct (is_ok _)|done..|].
      unfold stopped, same_step; simpl. split_and!; [done..|set_solver|done]. }
  apply effects_quiet; [apply effects_now|]. intros t. apply effects_ret. case_bool_decide as Hpass.
  all: eapply Hpost; [by destruct (is_ok _)|done..|].
  all: unfold stopped, same_step; simpl in *; split_and!; [done..|set_solver|try done].
  intros _. split; [congruence|]. eexists; split; [done|]. by simpl.
Qed.

Lemma deploy_request_same run s0 s : same_step s0 s → deploy_request run s = deploy_request run s0.
Proof. intros (H1 & _ & H2 & _). unfold deploy_request, idempotencyKey. by rewrite H1, H2. Qed.

Lemma deploy_step_effects run decision s0 s prefix :
  st_Status s0 = StepPending → same_step s0 s → st_Policy s = Some decision → permitted decision s0 →
  audited None prefix = true → deploys prefix = [] →
  effects (deploy_step now_at id_at run decision s) (λ evs r, step_post run s0 (prefix ++ evs) r).
Proof.
  intros Hpending Hsame Hpolicy Hpermitted Haudited Hdeploys. unfold deploy_step.
  pose proof (deploy_request_same run s0 s Hsame) as Hreq. pose proof Hsame as (Hs1 & Hs2 & Hs3 & Hs4).
  assert (∀ evs s' status, audited None evs = true →
    (deploys evs = [] ∨ deploys evs = [deploy_request run s0]) → stopped status s0 s' →
    step_post run s0 (prefix ++ evs) (s', Halt status)) as Hpost.
  { intros evs s' status Ha Hd Hst. unfold step_post; simpl. rewrite deploys_app, Hdeploys.
    split; [by apply audited_app|done]. }
  eapply effects_event; [apply effects_audit|]. intros r0 ev (event & -> & Haction & Hresult & Hresource & Hdetails).
  destruct (is_ok r0) eqn:Hok; simpl.
  2:{ apply effects_ret. apply Hpost; [done|by left|].
      unfold stopped, same_step; simpl. split_and!; [done..|set_solver|done]. }
  assert (authorizes event (deploy_request run s0) = true) as Hauth.
  { unfold authorizes. rewrite Haction, Hresult, Hresource, Hdetails. cbn [modify st_Service]. rewrite Hs1.
    rewrite !bool_decide_eq_true_2; try done. rewrite lookup_insert_eq. f_equal. f_equal.
    change (dr_IdempotencyKey (deploy_request run s0)) with (idempotencyKey run s0).
    unfold idempotencyKey. cbn [modify st_Service st_Change]. by rewrite ?Hs1, Hs3. }
  change (deploy_request run _) with (deploy_request run s). rewrite Hreq.
  eapply effects_event; [apply effects_Deploy|]. intros r ev ->. destruct r as [deployment|err].
  2:{ apply effects_ret. apply Hpost; [simpl; by rewrite Hauth|by right|].
      unfold stopped, same_step; simpl. split_and!; [done..|set_solver|done]. }
  apply effects_quiet; [apply effects_newID|]. intros id.
  eapply effects_event; [apply effects_Verify|]. intros r ev ->. destruct r as [verification|err].
  2:{ apply effects_ret. apply Hpost; [simpl; by rewrite Hauth|by right|].
      unfold stopped, same_step; simpl. split_and!; [done..|set_solver|done]. }
  apply effects_quiet; [apply effects_now|]. intros t.
  set (p3 := [EvAudit event true; EvDeploy (deploy_request run s0) true; EvVerify deployment]).
  assert (audited None (prefix ++ p3) = true) as Ha3 by (apply audited_app; [done|simpl; by rewrite Hauth]).
  assert (deploys (prefix ++ p3) = [deploy_request run s0]) as Hd3 by (by rewrite deploys_app, Hdeploys).
  case_bool_decide as Hpass; simpl.
  2:{ eapply effects_mono; [by apply (rollback_step_effects _ _ _ _ s0 _ (prefix ++ p3))|].
      cbv beta. intros evs r Hr. by rewrite <-app_assoc in Hr. }
  eapply effects_event; [apply effects_audit|]. intros r1 ev (event1 & -> & _). apply effects_ret.
  unfold step_post; simpl. rewrite deploys_app, Hdeploys. split.
  - apply audited_app; [done|]. simpl. rewrite Hauth. by destruct (is_ok r1).
  - split; [|done]. unfold released, same_step; simpl. split_and!; try done.
    + eauto.
    + eexists; split; [done|]; simpl. unfold idempotencyKey; simpl. by rewrite Hs1, Hs3.
    + eexists; split; [done|]. simpl. by rewrite Hpass.
Qed.

Lemma request_approval_effects run decision s0 s prefix :
  st_Status s0 = StepPending → same_step s0 s → st_Approval s = st_Approval s0 →
  lacks_approval decision s = true → audited None prefix = true → deploys prefix = [] →
  effects (request_approval now_at id_at run decision s)
    (λ evs r, step_post run s0 (prefix ++ evs) r ∧ deploys (prefix ++ evs) = []).
Proof.
  intros Hpending Hsame Happ Hlacks Haudited Hdeploys. destruct Hsame as (Hs1 & Hs2 & Hs3 & Hs4).
  unfold request_approval. eapply (effects_bind _ _ (λ evs a, evs = [] ∧ ap_Status a ≠ ApprovalApproved)).
  { unfold lacks_approval in Hlacks. reflect_bools. destruct (st_Approval s) as [a|].
    - reflect_bools. by apply effects_ret.
    - apply effects_quiet; [apply effects_now|]. intros t. apply effects_quiet; [apply effects_newID|].
      intros id. by apply effects_ret. }
  intros a evs [-> Ha]. simpl.
  eapply effects_event; [apply effects_audit|]. intros r0 ev (event & -> & _). apply effects_ret.
  assert (audited None (prefix ++ [EvAudit event (is_ok r0)]) = true)
    by (apply audited_app; [done|by destruct (is_ok r0)]).
  assert (deploys (prefix ++ [EvAudit event (is_ok r0)]) = []) by (by rewrite deploys_app, Hdeploys).
  split; [|done]. unfold step_post. destruct (is_ok r0); simpl; (split; [done|]).
  - split; [|done]. unfold waiting, same_step; simpl. split_and!; try done. eauto.
  - split; [|by left]. unfold stopped, same_step; simpl. split_and!; [done..|set_solver|done].
Qed.

Lemma advance_step_effects e run selected succeeded s :
  st_Status s = StepPending →
  effects (advance_step now_at id_at e run selected succeeded s) (λ evs r,
    step_post run s evs r ∧ (deploys evs ≠ [] → failed_dependency e selected succeeded s = None ∧
      ∃ t, permitted (PolicyEngine_Evaluate (eng_policy e) (policy_input run s) t) s)).
Proof.
  intros Hpending. unfold advance_step.
  destruct (failed_dependency e selected succeeded s) as [d|] eqn:Hdep.
  { apply effects_ret. split; [|done]. unfold step_post; simpl. split; [done|]. split; [|by left].
    unfold stopped, same_step; simpl. split_and!; [done..|set_solver|done]. }
  apply effects_quiet; [apply effects_now|]. intros t. cbv zeta.
  set (decision := PolicyEngine_Evaluate _ _ _).
  eapply effects_event; [apply effects_audit|]. intros r0 ev (event & -> & _).
  set (prefix := [EvAudit event (is_ok r0)]).
  assert (audited None prefix = true) by (by simpl; destruct (is_ok r0)).
  assert (∀ f, step_post run s prefix (s <| st_Policy := Some decision |> <| st_Status := StepBlocked |>
     <| st_Failure := f |>, Halt RunBlocked)) as Hblocked.
  { intros f. unfold step_post; simpl. split; [done|]. split; [|by left].
    unfold stopped, same_step; simpl. split_and!; [done..|set_solver|done]. }
  destruct (is_ok r0) eqn:Hok; simpl; [|apply effects_ret; split; [apply Hblocked|done]].
  case_bool_decide as Hdeny; [apply effects_ret; split; [apply Hblocked|done]|].
  destruct (lacks_approval decision _) eqn:Hlacks.
  - eapply effects_mono; [by apply (request_approval_effects _ _ s _ prefix)|]. cbv beta.
    intros evs r [Hpost Hno]. split; [done|]. by intros [].
  - assert (permitted decision s) as Hpermitted.
    { unfold permitted. split; [done|]. intros Hreq. unfold lacks_approval in Hlacks; simpl in Hlacks.
      rewrite Hreq, bool_decide_eq_true_2 in Hlacks by done. simpl in Hlacks.
      destruct (st_Approval s) as [a|]; [|done]. exists a. split; [done|]. by reflect_bools. }
    eapply effects_mono; [by apply (deploy_step_effects _ _ s _ prefix)|]. eauto.
Qed.

(** ** The loop *)

Lemma failed_dependency_None e selected succeeded s :
  failed_dependency e selected succeeded s = None →
  ∀ d, d ∈ step_dependencies e s → d ∈ selected → d ∈ succeeded.
Proof.
  unfold failed_dependency. intros Hnone d Hd Hsel. destruct (decide (d ∈ succeeded)) as [|Hno]; [done|exfalso].
  assert (d ∈ filter (λ d, d ∈ selected ∧ d ∉ succeeded) (step_dependencies e s)) as Hin
    by (by apply list_elem_of_filter).
  by destruct (filter _ (step_dependencies e s)); [apply elem_of_nil in Hin|].
Qed.

Definition pending_steps (steps : list ReleaseStep) : list ReleaseStep :=
  filter (λ s, st_Status s = StepPending) steps.

(** The step behind a deployment: the policy permits it and its dependencies have succeeded. *)
Definition cleared (e : Engine) (run : ReleaseRun) (selected succeeded : gset string) (steps : list ReleaseStep)
    (request : DeployRequest) : Prop :=
  ∃ s, s ∈ steps ∧ st_Status s = StepPending ∧ request = deploy_request run s ∧
    (∃ t, permitted (PolicyEngine_Evaluate (eng_policy e) (policy_input run s) t) s) ∧
    ∀ d, d ∈ step_dependencies e s → d ∈ selected → d ∈ succeeded.

Definition loop_post (e : Engine) (run : ReleaseRun) (selected succeeded : gset string)
    (before after : list ReleaseStep) (evs : list effect) (r : RunStatus * list ReleaseStep) : Prop :=
  ∃ after', snd r = before ++ after' ∧ advanced (idempotencyKey run) after after' (fst r) ∧
    audited None evs = true ∧ (∃ n, deploys evs = deploy_request run <$> take n (pending_steps after)) ∧
    (fst r = RunSucceeded → deploys evs = deploy_request run <$> pending_steps after) ∧
    ∀ request, request ∈ deploys evs →
      cleared e run selected (succeeded ∪ succeeded_services after') after request.

Lemma cleared_mono e run selected succeeded succeeded' steps s request :
  cleared e run selected succeeded steps request → succeeded ⊆ succeeded' →
  cleared e run selected succeeded' (s :: steps) request.
Proof. intros (s0 & Hin & Hp & Hr & Hperm & Hd) Hsub. exists s0. rewrite elem_of_cons. naive_solver. Qed.

Lemma succeeded_services_cons s steps :
  succeeded_services (s :: steps) =
    (if decide (st_Status s = StepSucceeded) then {[ st_Service s ]} else ∅) ∪ succeeded_services steps.
Proof.
  unfold succeeded_services. rewrite filter_cons. case_decide; simpl; [done|]. by rewrite union_empty_l_L.
Qed.

(** A deployment of the current step itself. *)
Lemma cleared_here e run selected succeeded succeeded' s steps evs :
  st_Status s = StepPending → (deploys evs = [] ∨ deploys evs = [deploy_request run s]) →
  (deploys evs ≠ [] → failed_dependency e selected succeeded s = None ∧
     ∃ t, permitted (PolicyEngine_Evaluate (eng_policy e) (policy_input run s) t) s) → succeeded ⊆ succeeded' →
  ∀ request, request ∈ deploys evs → cleared e run selected succeeded' (s :: steps) request.
Proof.
  intros Hp Hd Hdep Hsub request Hin. destruct Hd as [Hd|Hd]; rewrite Hd in *; [by apply elem_of_nil in Hin|].
  apply list_elem_of_singleton in Hin as ->. destruct Hdep as [Hdep Hperm]; [done|].
  exists s. split_and!; [left|done..|].
  intros d ? ?. apply Hsub. by eapply failed_dependency_None.
Qed.

Lemma advance_loop_effects e run selected succeeded before after :
  effects (advance_loop now_at id_at e run selected succeeded before after)
    (loop_post e run selected succeeded before after).
Proof.
  revert succeeded before. induction after as [|s after IH]; intros succeeded before; simpl.
  { apply effects_ret. exists []. rewrite app_nil_r. split_and!; [done|constructor|done|by exists 0%nat|done|].
    by intros ? ?%elem_of_nil. }
  unfold pending_steps. case_bool_decide as Hpending; simpl.
  2:{ eapply effects_mono; [apply IH|]. intros evs [status steps] (after' & Hst & Hadv & Ha & [n Hn] & Hall & Hc).
      exists (s :: after'). simpl in *. rewrite Hst, <-app_assoc. split_and!; [done|by constructor|done| | |].
      - exists n. unfold pending_steps. by rewrite filter_cons, decide_False.
      - unfold pending_steps. by rewrite filter_cons, decide_False.
      - intros req Hreq. eapply cleared_mono; [by apply Hc|]. rewrite succeeded_services_cons. set_solver. }
  eapply effects_bind; [by apply advance_step_effects|]. intros [s' v] evs1 [[Ha1 Hv] Hdep]. simpl in Hv.
  assert (∀ n, take (Datatypes.S n) (pending_steps (s :: after)) = s :: take n (pending_steps after)) as Htake
    by (intros n; unfold pending_steps; by rewrite filter_cons, decide_True).
  assert (pending_steps (s :: after) = s :: pending_steps after) as Hcons
    by (unfold pending_steps; by rewrite filter_cons, decide_True).
  destruct v as [| |status].
  - destruct Hv as [Hrel Hd1]. eapply effects_mono; [apply IH|].
    intros evs2 [status steps] (after' & Hst & Hadv & Ha & [n Hn] & Hall & Hc). exists (s' :: after'). simpl in *.
    rewrite Hst, <-app_assoc. split_and!; [done|by eapply adv_release|by apply audited_app| | |].
    + exists (Datatypes.S n). by rewrite deploys_app, Hd1, Hn, Htake.
    + intros Hs. by rewrite deploys_app, Hd1, Hall, Hcons.
    + rewrite succeeded_services_cons. destruct Hrel as (_ & Hs' & _). rewrite decide_True by done.
      intros req. rewrite deploys_app, elem_of_app. intros [Hreq|Hreq].
      * eapply cleared_here; [done|by right|done| |done]. set_solver.
      * eapply cleared_mono; [by apply Hc|]. set_solver.
  - destruct Hv as [Hwait Hd1]. apply effects_ret. exists (s' :: after). rewrite app_nil_r. simpl.
    split_and!; [done|by constructor|done|by exists 0%nat|done|]. rewrite Hd1. by intros ? ?%elem_of_nil.
  - destruct Hv as [Hstop Hd1]. apply effects_ret. exists (s' :: cancelDownstream after). rewrite app_nil_r. simpl.
    split_and!; [done|by constructor|done| | |].
    + destruct Hd1 as [Hd1|Hd1]; rewrite Hd1; [by exists 0%nat|]. exists 1%nat. by rewrite Htake, take_0.
    + destruct Hstop as (_ & _ & Hin & _). intros ->. set_solver.
    + eapply cleared_here; [done..|]. set_solver.
Qed.

(** ** advance *)

(** [UpdateRun]: the runs change only when it succeeds. *)
Lemma on_store_update run v (w w' : W) r :
  on_store (store_UpdateRun run v) w = (w', r) →
  w_trace w' = w_trace w ∧ (valid_store (w_store w) → valid_store (w_store w')) ∧
  match r with
  | Ok run' => run' = run <| run_StateVersion := int64 (v + 1) |> ∧
      store_GetRun (run_ID run) (w_store w') = Ok run' ∧
      ∃ current, store_GetRun (run_ID run) (w_store w) = Ok current ∧ run_StateVersion current = v
  | Err _ => w_store w' = w_store w
  end.
Proof.
  unfold on_store. pose proof (update_valid run v (w_store w)) as Hv.
  destruct (store_UpdateRun run v (w_store w)) as [s r'] eqn:Hu. intros [= <- <-]. simpl in *.
  split_and!; [done..|]. destruct r' as [run'|e]; [by apply update_ok in Hu|by apply update_err in Hu].
Qed.

(** The outcome of [advance] on a run: the abstract machine's, written to the store under the
    version that was read, or an error and no change of the runs. *)
Lemma advance_spec e run (w w' : W) r :
  advance now_at id_at e run w = (w', r) →
  ∃ status steps evs,
    w_trace w' = w_trace w ++ evs ∧ (valid_store (w_store w) → valid_store (w_store w')) ∧
    loop_post e run (selected_services (run_Steps run)) (succeeded_services (run_Steps run)) [] (run_Steps run)
      evs (status, steps) ∧
    match r with
    | Ok run' =>
        (∃ t, run' = run <| run_Status := status |> <| run_Steps := steps |> <| run_UpdatedAt := t |>
                         <| run_StateVersion := int64 (run_StateVersion run + 1) |>) ∧
        store_GetRun (run_ID run) (w_store w') = Ok run' ∧
        ∃ current, store_GetRun (run_ID run) (w_store w) = Ok current ∧
          run_StateVersion current = run_StateVersion run
    | Err _ => ∀ id, store_GetRun id (w_store w') = store_GetRun id (w_store w)
    end.
Proof.
  unfold advance. intros (w1 & [status steps] & Hloop & Hpersist)%st_bind_inv.
  destruct (advance_loop_effects _ _ _ _ _ _ _ _ _ Hloop) as (evs & (Ht & Hget & Hval) & Hpost).
  unfold persist in Hpersist. apply st_bind_inv in Hpersist as (w2 & t & Hnow & Hupd).
  destruct (effects_now _ _ _ Hnow) as (evs2 & (Ht2 & Hget2 & Hval2) & ->). rewrite app_nil_r in Ht2.
  apply on_store_update in Hupd as (Ht3 & Hval3 & Hr).
  exists status, steps, evs. split_and!; [congruence|auto|done|].
  destruct r as [run'|err].
  - destruct Hr as (-> & Hg & current & Hc & Hv). simpl in *. split_and!; [by exists t|done|].
    exists current. by rewrite <-Hget, <-Hget2.
  - intros id. by rewrite Hr, Hget2, Hget.
Qed.

(** C12: one advance of a run implements the abstract release machine.  Whatever
    clock, random identifiers, policy and executor do, the run that ends up stored is the one that
    was read with its steps and status taken through [advanced] (released in order up to the first
    step that waits or stops, later steps cancelled, finished steps untouched) under the next
    version; and when the version had moved on, nothing is stored and an error is returned. *)
Theorem advance_refines e run (w w' : W) r :
  advance now_at id_at e run w = (w', r) →
  ∃ status steps, advanced (idempotencyKey run) (run_Steps run) steps status ∧
    match r with
    | Ok run' => store_GetRun (run_ID run) (w_store w') = Ok run' ∧ run_Status run' = status ∧
        run_Steps run' = steps ∧ run_StateVersion run' = int64 (run_StateVersion run + 1) ∧
        run_Plan run' = run_Plan run
    | Err _ => ∀ id, store_GetRun id (w_store w') = store_GetRun id (w_store w)
    end.
Proof.
  intros (status & steps & evs & _ & _ & (after' & Hst & Hadv & _) & Hr)%advance_spec. simpl in *. subst steps.
  exists status, after'. split; [done|]. destruct r as [run'|err]; [|done].
  destruct Hr as ((t & ->) & Hg & _). simpl in *. by rewrite Hg.
Qed.

(** C1: nothing is deployed without authorization.  The deployments one advance sends
    to the executor are those of the first pending steps, in the order of the steps and each once;
    each directly follows a stored audit event that authorizes this very request, its step is one
    the policy did not deny (and whose approval was granted if the policy asked for one), and every
    selected dependency of it has succeeded.  Under any engine the repository builds (the built-in
    switch, an OPA query, the mandatory baseline) this is: the policy allowed the step, or asked for an
    approval and it was granted.  An evaluator of another kind may answer a string that is none of the three
    decisions; the engine then deploys, which is why "did not deny" is all that holds for it. *)
Theorem deployments_authorized e run (w w' : W) r :
  advance now_at id_at e run w = (w', r) →
  ∃ evs steps, w_trace w' = w_trace w ++ evs ∧ audited None evs = true ∧
    (∃ n, deploys evs = deploy_request run <$> take n (pending_steps (run_Steps run))) ∧
    (∀ run', r = Ok run' → run_Steps run' = steps) ∧
    ∀ request, request ∈ deploys evs →
      ∃ s, s ∈ pending_steps (run_Steps run) ∧ request = deploy_request run s ∧
        (∃ t, let decision := PolicyEngine_Evaluate (eng_policy e) (policy_input run s) t in
           permitted decision s ∧ (stock_engine (eng_policy e) → allowed_or_approved decision s)) ∧
        ∀ d, d ∈ step_dependencies e s → d ∈ selected_services (run_Steps run) →
          d ∈ succeeded_services steps.
Proof.
  intros (status & steps & evs & Ht & _ & (after' & Hst & Hadv & Ha & Hn & _ & Hc) & Hr)%advance_spec.
  simpl in Hst. subst after'. exists evs, steps. split_and!; [done..| |].
  { intros run' ->. by destruct Hr as ((t & ->) & _). }
  intros request (s & Hin & Hp & Hreq & (t & Hperm) & Hd)%Hc. exists s.
  split_and!; [by apply list_elem_of_filter|done| |].
  { exists t. cbv zeta. split; [done|]. intros He. by apply permitted_cleared. }
  intros d Hdep Hsel.
  specialize (Hd d Hdep Hsel). apply elem_of_union in Hd as [Hd|Hd]; [|done].
  unfold succeeded_services in *. apply elem_of_list_to_set, list_elem_of_fmap in Hd as (s1 & -> & Hs1).
  apply list_elem_of_filter in Hs1 as [Hs1 Hin1]. apply elem_of_list_to_set, list_elem_of_fmap_2, list_elem_of_filter.
  split; [done|]. by eapply advanced_succeeded.
Qed.

(** ** Starting a release *)

Lemma new_steps_pending request plan : pending_steps (new_steps request plan) = new_steps request plan.
Proof.
  unfold pending_steps. apply filter_all. intros s. unfold new_steps.
  rewrite list_elem_of_bind. intros (ph & Hs & _). apply list_elem_of_fmap in Hs as (ps & -> & _). done.
Qed.

Lemma new_steps_services request plan :
  st_Service <$> new_steps request plan = ps_Service <$> (plan_Phases plan ≫= ph_Steps).
Proof.
  unfold new_steps. induction (plan_Phases plan) as [|ph phases IH]; csimpl; [done|].
  rewrite !fmap_app, IH. f_equal. by rewrite <-list_fmap_compose.
Qed.

Lemma new_steps_change request plan s :
  s ∈ new_steps request plan →
  st_Change s = get zero_Change (index_by ch_Service id (req_Changes request) ∅) (st_Service s).
Proof.
  unfold new_steps. rewrite list_elem_of_bind. intros (ph & Hs & _).
  apply list_elem_of_fmap in Hs as (ps & -> & _). done.
Qed.

Lemma new_run_steps request plan runID t : run_Steps (new_run request plan runID t) = new_steps request plan.
Proof. done. Qed.

(** What [startPlanned] stored when it reports a new run. *)
Lemma startPlanned_spec e request plan (w w' : W) run' :
  startPlanned now_at id_at e request plan w = (w', (Some run', true, None)) →
  ∃ runID t evs, let run := new_run request plan runID t in
    w_trace w' = w_trace w ++ evs ∧
    loop_post e run (selected_services (run_Steps run)) (succeeded_services (run_Steps run)) [] (run_Steps run)
      evs (run_Status run', run_Steps run') ∧
    store_GetRun runID (w_store w') = Ok run'.
Proof.
  unfold startPlanned. intros (w1 & t1 & Hnow1 & Hk)%st_bind_inv.
  destruct (ValidatePlan _ _ _); [|by injection Hk].
  apply st_bind_inv in Hk as (w2 & t & Hnow2 & Hk). apply st_bind_inv in Hk as (w3 & runID & Hid & Hk).
  cbv zeta in Hk. set (run := new_run request plan runID t) in *.
  apply st_bind_inv in Hk as (w4 & r & Hcreate & Hk).
  destruct r as [[created []]|err]; [|by injection Hk..].
  apply st_bind_inv in Hk as (w5 & r & Haudit & Hk). destruct r as [[]|err]; [|by injection Hk].
  apply st_bind_inv in Hk as (w6 & r & Hadv & Hk). destruct r as [stored|err]; [|by injection Hk].
  assert (w_trace w4 = w_trace w) as Ht4.
  { unfold on_store in Hcreate. destruct (store_CreateRun run (w_store w3)). injection Hcreate as <- _. simpl.
    destruct (effects_now _ _ _ Hnow1) as (? & (Ht1 & _) & ->), (effects_now _ _ _ Hnow2) as (? & (Ht2 & _) & ->),
      (effects_newID _ _ _ _ Hid) as (? & (Ht3 & _) & ->).
    by rewrite Ht3, Ht2, Ht1, !app_nil_r. }
  destruct (effects_audit _ _ _ _ _ _ _ _ _ _ _ Haudit) as (evs1 & (Ht5 & _) & ev & -> & event & -> & _).
  apply advance_spec in Hadv as (status & steps & evs & Ht6 & _ & Hpost & (t' & ->) & Hget & _).
  apply st_bind_inv in Hk as (w7 & r & Hread & Hk). injection Hread as <- <-.
  change (run_ID run) with runID in *. rewrite Hget in Hk.
  injection Hk as <- <-. exists runID, t, (EvAudit event true :: evs). cbv zeta.
  split_and!; [by rewrite Ht6, Ht5, Ht4, <-app_assoc| |done].
  destruct Hpost as (after' & Hst & Hadv & Ha & Hn & Hall & Hc). exists after'. simpl in *.
  split_and!; try done. by apply audited_weaken.
Qed.

(** The deployments of a plan's steps are those of the intent's changes. *)
Lemma planned_requests p intent plan run :
  intent_ok p intent → plan_ok p intent plan →
  (λ s, (dr_Service (deploy_request run s), dr_DesiredVersion (deploy_request run s)))
    <$> new_steps (LegacyRequestFromIntent intent) plan
  ≡ₚ (λ c, (ch_Service c, ch_DesiredVersion c)) <$> in_Changes intent.
Proof.
  intros Hi Hok. set (changes := index_by ch_Service id (in_Changes intent) ∅).
  set (g := λ name : string, (name, ch_DesiredVersion (get zero_Change changes name))).
  transitivity (g <$> (st_Service <$> new_steps (LegacyRequestFromIntent intent) plan)).
  { rewrite <-list_fmap_compose. apply Permutation_refl'. apply list_fmap_ext. intros i s Hs. simpl.
    apply list_elem_of_lookup_2, new_steps_change in Hs. unfold g. by rewrite Hs. }
  rewrite new_steps_services, (pk_services _ _ _ Hok), <-list_fmap_compose.
  apply Permutation_refl'. apply list_fmap_ext. intros i c Hc. apply list_elem_of_lookup_2 in Hc.
  unfold g; simpl. assert (changes !! ch_Service c = Some c) as Hl.
  { apply lookup_index_by_empty; [apply Hi|]. eauto. }
  unfold get. by rewrite Hl.
Qed.

(** when starting a release reports success, every requested change has been
    rolled out.  The stored run has exactly one step per change of the intent, every step has
    succeeded with an execution and a verification that passed and healthy, and the executor
    received exactly one deployment per change, for its service and desired version, each
    directly after the audit event that authorizes it. *)
Theorem start_success_complete e intent (w w' : W) run' :
  phases_fit (eng_planner e) (changes_of intent) →
  StartIntent now_at id_at e intent w = (w', Some (Some run', true, None)) →
  run_Status run' = RunSucceeded →
  st_Service <$> run_Steps run' ≡ₚ ch_Service <$> in_Changes intent ∧
  Forall (λ s, st_Status s = StepSucceeded ∧ (∃ x, st_Execution s = Some x) ∧
    ∃ v, st_Verification s = Some v ∧ ver_Status v = VerificationPass ∧ ver_Healthy v = true) (run_Steps run') ∧
  ∃ evs, w_trace w' = w_trace w ++ evs ∧ audited None evs = true ∧
    (λ r, (dr_Service r, dr_DesiredVersion r)) <$> deploys evs
      ≡ₚ (λ c, (ch_Service c, ch_DesiredVersion c)) <$> in_Changes intent.
Proof.
  intros Hfit Hstart Hsucc. unfold StartIntent in Hstart.
  apply st_bind_inv in Hstart as (w1 & planned & Hplan & Hstart).
  unfold Engine_PlanIntent in Hplan. destruct (validateRequest _); [|by injection Hplan as <- <-].
  apply st_bind_inv in Hplan as (w0 & t & Hnow & Hplan). injection Hplan as <- <-.
  destruct (effects_now _ _ _ Hnow) as (? & (Ht0 & _) & ->). rewrite app_nil_r in Ht0.
  unfold start_with in Hstart. destruct (PlanIntent _ _ _) as [[plan|err]|] eqn:Hplan; [|by injection Hstart..].
  apply st_bind_inv in Hstart as (w2 & r & Hs & Hret). injection Hret as -> ->.
  apply startPlanned_spec in Hs as (runID & tr & evs & Ht & (steps & Hst & Hadv & Ha & _ & Hall & _) & _).
  pose proof (PlanIntent_plan_ok _ _ _ _ Hfit Hplan) as Hok.
  pose proof (PlanIntent_accepted _ _ _ _ Hplan) as Hi.
  cbn [fst snd] in Hst, Hadv, Hall. rewrite new_run_steps in Hadv, Hall. rewrite app_nil_l in Hst.
  rewrite Hst, Hsucc in *. split_and!.
  - rewrite (advanced_services _ _ _ _ Hadv), new_steps_services. apply Hok.
  - apply advanced_all in Hadv. rewrite Forall_forall. intros s' [i Hs']%list_elem_of_lookup.
    destruct (Forall2_lookup_r _ _ _ _ _ Hadv Hs') as (s & Hs & [[Hno _]|Hrel]).
    + exfalso. apply list_elem_of_lookup_2 in Hs. rewrite <-new_steps_pending in Hs.
      by apply list_elem_of_filter in Hs as [? _].
    + destruct Hrel as (_ & Hs1 & _ & _ & (x & Hx & _) & Hv). split_and!; [done|by exists x|done].
  - exists evs. split_and!; [congruence|done|]. rewrite Hall, new_steps_pending by done.
    rewrite <-list_fmap_compose. by apply planned_requests with (p := eng_planner e).
Qed.

(** ** Approvals *)

Lemma Get_inv id (w w' : W) r : Get id w = (w', r) → w' = w ∧ r = store_GetRun id (w_store w).
Proof. by intros [= <- <-]. Qed.

Lemma update_and_get_trace runID run v (w w' : W) r :
  update_and_get runID run v w = (w', r) → w_trace w' = w_trace w.
Proof.
  unfold update_and_get. intros (w1 & u & Hu & Hk)%st_bind_inv. apply on_store_update in Hu as (Ht & _).
  destruct u as [?|?]; [apply Get_inv in Hk as [-> _]|injection Hk as <- _]; done.
Qed.

Lemma record_decision_trace e runID approvalID run i step a actor approve v (w w' : W) r :
  record_decision now_at id_at e runID approvalID run i step a actor approve v w = (w', r) →
  ∃ evs, w_trace w' = w_trace w ++ evs ∧ (approve = false → deploys evs = []).
Proof.
  unfold record_decision. intros (w1 & t & Hnow & Hk)%st_bind_inv.
  destruct (effects_now _ _ _ Hnow) as (? & (Ht1 & _) & ->). rewrite app_nil_r in Ht1.
  apply st_bind_inv in Hk as (w2 & u & Haudit & Hk).
  destruct (effects_audit _ _ _ _ _ _ _ _ _ _ _ Haudit) as (evs & (Ht2 & _) & ev & -> & event & -> & _).
  rewrite Ht1 in Ht2.
  destruct u as [[]|err]; [|injection Hk as <- _; by eexists].
  apply st_bind_inv in Hk as (w3 & u & Hu & Hk). apply on_store_update in Hu as (Ht3 & _). rewrite Ht2 in Ht3.
  destruct u as [run1|err]; [|injection Hk as <- _; by eexists].
  destruct approve; simpl in Hk; [|apply Get_inv in Hk as [-> _]; by eexists].
  apply st_bind_inv in Hk as (w4 & u & Hg & Hk). apply Get_inv in Hg as [-> _].
  destruct u as [run2|err]; [|injection Hk as <- _; by eexists].
  apply st_bind_inv in Hk as (w5 & u & Hadv & Hk).
  apply advance_spec in Hadv as (status & steps & evs & Ht5 & _). rewrite Ht3, <-app_assoc in Ht5.
  destruct u as [?|?]; [apply Get_inv in Hk as [-> _]|injection Hk as <- _]; by eexists.
Qed.

(** The conditions on an approver: all required roles, and not the requester. *)
Definition approver_ok (run : ReleaseRun) (a : Approval) (actor : string) (roles : list string) : bool :=
  containsAll roles (ap_RequiredRoles a) && negb (bool_decide (actor = run_RequestedBy run)).

(** A decision can be taken: it has an actor, the approval is pending and for this plan. *)
Definition decidable_approval (run : ReleaseRun) (a : Approval) (actor : string) : bool :=
  negb (bool_decide (actor = "")) && bool_decide (ap_Status a = ApprovalPending) &&
  bool_decide (ap_PlanHash a = plan_Hash (run_Plan run)).

(** The call was refused: an approval error, no effect, no change of any run. *)
Definition refused (w w' : W) (r : result error ReleaseRun) : Prop :=
  (∃ err, r = Err err ∧ errors_Is err "engine.ErrApproval" = true) ∧
  w_trace w' = w_trace w ∧ ∀ id, store_GetRun id (w_store w') = store_GetRun id (w_store w).

(** an approval is guarded.  A decision without an actor, on an approval that is
    not pending or that was requested for another plan is refused; so is the approval, before its
    expiry, by somebody who lacks a required role or who requested the release.  A refusal has no
    effect and changes no run.  Nothing is deployed in consequence of a decision unless it approves,
    before the expiry, with all guards satisfied. *)
Theorem approval_guarded e runID approvalID actor roles approve (w w' : W) r run i step a :
  store_GetRun runID (w_store w) = Ok run → find_approval approvalID (run_Steps run) = Some (i, step, a) →
  DecideApproval now_at id_at e runID approvalID actor roles approve w = (w', r) →
  let t := now_at (w_ticks w) in
  (decidable_approval run a actor = false → refused w w' r) ∧
  (decidable_approval run a actor = true → t < ap_ExpiresAt a → approve = true →
     approver_ok run a actor roles = false → refused w w' r) ∧
  ∃ evs, w_trace w' = w_trace w ++ evs ∧
    (deploys evs ≠ [] → decidable_approval run a actor = true ∧ t < ap_ExpiresAt a ∧ approve = true ∧
       approver_ok run a actor roles = true).
Proof.
  intros Hget Hfind Hd t. unfold DecideApproval in Hd.
  apply st_bind_inv in Hd as (w1 & u & Hg & Hd). apply Get_inv in Hg as [-> ->]. rewrite Hget, Hfind in Hd.
  assert (∀ detail w1, w_trace w1 = w_trace w → w_store w1 = w_store w →
    refused w w1 (Err (wrap ErrApproval detail))) as Href.
  { intros detail w1 Ht Hs. split; [by eexists|]. by rewrite Ht, Hs. }
  unfold decidable_approval, approver_ok. cbv zeta in Hd.
  destruct (bool_decide (actor = "")); simpl; [injection Hd as <- <-|].
  { split_and!; [by intros _; apply Href|done|]. exists []. by rewrite app_nil_r. }
  destruct (bool_decide (ap_Status a = ApprovalPending)); simpl in *; [|injection Hd as <- <-].
  2:{ split_and!; [by intros _; apply Href|done|]. exists []. by rewrite app_nil_r. }
  destruct (bool_decide (ap_PlanHash a = plan_Hash (run_Plan run))); simpl in *; [|injection Hd as <- <-].
  2:{ split_and!; [by intros _; apply Href|done|]. exists []. by rewrite app_nil_r. }
  split; [done|]. apply st_bind_inv in Hd as (w2 & t' & Hnow & Hd).
  assert (w_trace w2 = w_trace w ∧ w_store w2 = w_store w ∧ t' = t) as (Ht2 & Hs2 & ->)
    by (by injection Hnow as <- <-).
  unfold Before in Hd. destruct (Z.ltb_spec t (ap_ExpiresAt a)) as [Hlt|Hge]; simpl in Hd.
  2:{ split; [lia|]. exists []. rewrite app_nil_r. split; [|done]. unfold expire_approval in Hd.
      apply st_bind_inv in Hd as (w3 & t3 & Hnow3 & Hd). apply update_and_get_trace in Hd as ->.
      injection Hnow3 as <- _. done. }
  destruct approve; simpl in Hd.
  2:{ split; [done|]. apply record_decision_trace in Hd as (evs & Ht & Hno). exists evs.
      rewrite Ht, Ht2. split; [done|]. by rewrite Hno. }
  destruct (containsAll roles (ap_RequiredRoles a)); simpl in *; [|injection Hd as <- <-].
  2:{ split; [by intros; apply Href|]. exists []. by rewrite app_nil_r. }
  destruct (bool_decide (actor = run_RequestedBy run)); simpl in *; [injection Hd as <- <-|].
  { split; [by intros; apply Href|]. exists []. by rewrite app_nil_r. }
  split; [done|]. apply record_decision_trace in Hd as (evs & Ht & _). exists evs. by rewrite Ht, Ht2.
Qed.

(** ** Pause and resume *)

Lemma update_and_get_ok runID run current (w : W) :
  run_ID run = runID → store_GetRun runID (w_store w) = Ok current →
  ∃ w', update_and_get runID run (run_StateVersion current) w =
      (w', Ok (run <| run_StateVersion := int64 (run_StateVersion current + 1) |>)) ∧
    w_trace w' = w_trace w ∧
    store_GetRun runID (w_store w') = Ok (run <| run_StateVersion := int64 (run_StateVersion current + 1) |>).
Proof.
  intros <- Hget. unfold update_and_get, mbind, st_bind, on_store.
  pose proof (update_succeeds run (w_store w) current Hget) as Hok.
  destruct (store_UpdateRun run _ (w_store w)) as [s [r|err]] eqn:Hu; [|done].
  destruct (update_ok _ _ _ _ _ Hu) as (-> & Hg & _). exists (w <| w_store := s |>).
  split_and!; [|done..]. unfold Get, read_store; simpl. by rewrite Hg.
Qed.

(** [Pause] on a run that waits for approval. *)
Lemma Pause_waiting runID actor (w : W) run :
  valid_store (w_store w) → store_GetRun runID (w_store w) = Ok run → run_Status run = RunWaitingApproval →
  ∃ w' t, let paused := run <| run_PausedFrom := RunWaitingApproval |> <| run_Status := RunPaused |>
            <| run_UpdatedAt := t |> <| run_StateVersion := int64 (run_StateVersion run + 1) |> in
    Pause now_at runID actor w = (w', Ok paused) ∧ w_trace w' = w_trace w ∧
    store_GetRun runID (w_store w') = Ok paused.
Proof.
  intros Hvalid Hget Hwait. pose proof (get_run_id _ _ _ Hvalid Hget) as Hid.
  unfold Pause, Get, read_store, now, mbind, st_bind. rewrite Hget, Hwait.
  rewrite (bool_decide_eq_true_2 (RunWaitingApproval = RunWaitingApproval)), andb_false_r by done.
  set (w0 := w <| w_ticks ::= Datatypes.S |>). set (t := now_at (w_ticks w)).
  destruct (update_and_get_ok runID (run <| run_PausedFrom := RunWaitingApproval |>
    <| run_Status := RunPaused |> <| run_UpdatedAt := t |>) run w0) as (w' & H1 & Ht & Hg); [exact Hid|exact Hget|].
  exists w', t. by split_and!.
Qed.

(** [Resume] on a run that was paused while it waited for approval. *)
Lemma Resume_waiting e runID actor (w : W) run :
  run_ID run = runID → store_GetRun runID (w_store w) = Ok run → run_Status run = RunPaused →
  run_PausedFrom run = RunWaitingApproval →
  ∃ w' t, let resumed := run <| run_PausedFrom := RunStatusNone |> <| run_Status := RunWaitingApproval |>
            <| run_UpdatedAt := t |> <| run_StateVersion := int64 (run_StateVersion run + 1) |> in
    Resume now_at id_at e runID actor w = (w', Ok resumed) ∧ w_trace w' = w_trace w ∧
    store_GetRun runID (w_store w') = Ok resumed.
Proof.
  intros Hid Hget Hpaused Hfrom.
  unfold Resume, Get, read_store, now, mbind, st_bind. rewrite Hget, Hpaused, Hfrom.
  rewrite !bool_decide_eq_true_2 by done. cbn [negb].
  set (w0 := w <| w_ticks ::= Datatypes.S |>). set (t := now_at (w_ticks w)).
  destruct (update_and_get_ok runID (run <| run_PausedFrom := RunStatusNone |>
    <| run_Status := RunWaitingApproval |> <| run_UpdatedAt := t |>) run w0) as (w' & H1 & Ht & Hg); [exact Hid|exact Hget|].
  exists w', t. by split_and!.
Qed.

Lemma paused_resumed run t1 t2 v1 v2 :
  run_Status run = RunWaitingApproval →
  run <| run_PausedFrom := RunWaitingApproval |> <| run_Status := RunPaused |> <| run_UpdatedAt := t1 |>
      <| run_StateVersion := v1 |> <| run_PausedFrom := RunStatusNone |> <| run_Status := RunWaitingApproval |>
      <| run_UpdatedAt := t2 |> <| run_StateVersion := v2 |> =
  run <| run_PausedFrom := RunStatusNone |> <| run_UpdatedAt := t2 |> <| run_StateVersion := v2 |>.
Proof. destruct run. intros Hw. lazy in Hw. subst. reflexivity. Qed.

(** pausing a run that waits for approval and resuming it stores the run as it was
    (its version two further, its time of update refreshed) and has no audit or executor effect, so
    the approval it waits for is still there to be decided. *)
Theorem pause_resume_roundtrip e runID actor (w : W) run :
  valid_store (w_store w) → store_GetRun runID (w_store w) = Ok run → run_Status run = RunWaitingApproval →
  ∃ w1 paused w2 t, Pause now_at runID actor w = (w1, Ok paused) ∧ run_Status paused = RunPaused ∧
    let resumed := run <| run_PausedFrom := RunStatusNone |> <| run_UpdatedAt := t |>
      <| run_StateVersion := int64 (int64 (run_StateVersion run + 1) + 1) |> in
    Resume now_at id_at e runID actor w1 = (w2, Ok resumed) ∧ store_GetRun runID (w_store w2) = Ok resumed ∧
    w_trace w2 = w_trace w.
Proof.
  intros Hvalid Hget Hwait. pose proof (get_run_id _ _ _ Hvalid Hget) as Hid.
  destruct (Pause_waiting runID actor w run Hvalid Hget Hwait) as (w1 & t1 & Hp & Ht1 & Hg1).
  edestruct (Resume_waiting e runID actor w1) as (w2 & t2 & Hr & Ht2 & Hg2); [|exact Hg1|done..|]; [exact Hid|].
  eexists w1, _, w2, t2. split; [exact Hp|]. split; [done|]. cbv zeta.
  rewrite Hr, Hg2, !(paused_resumed _ _ _ _ _ Hwait). split_and!; [done..|congruence].
Qed.
End effects.

(** ** Examples *)

#[local] Existing Instance canonical_order.
#[local] Instance demo_executor : ReleaseExecutor Mock := mock_executor 2000 (λ _, Ok "").

Abbreviation demo_worlds := (World (S:=Memory) (X:=Mock)) (only parsing).

(** A policy that always decides the same. *)
Definition fixed_policy (decision : Decision) (roles : list string) : PolicyEngine :=
  NewEngine {| evaluate := λ _, Ok {| eval_Decision := decision; eval_Reasons := ["FIXED"];
                 eval_RequiredRoles := roles; eval_InputHash := ""; eval_PolicyVersion := "fixed";
                 eval_PolicyHash := "" |}; evaluator_hash := None |}.

(** A planner of one service, "auth", without dependencies. *)
Definition auth_service : Service := zero_Service <| svc_Name := "auth" |>.

Definition auth_definition : serviceDefinition :=
  zero_definition <| sd_service := auth_service |> <| sd_contractHash := "h1" |>
    <| sd_environments := {[ EnvironmentStaging := {| ed_profile := "legacy"; ed_runnerGroup := "group" |} ]} |>.

Definition auth_planner : Planner :=
  newPlanner {[ "auth" := auth_service ]} {[ "auth" := auth_definition ]} ∅ {[ "auth" := "h1" ]}
    {[ "legacy" := "h2" ]} (zero_Options <| opt_ContextSnapshotRef := "context" |>).

Definition auth_intent : ReleaseIntent :=
  demo_intent <| in_Environment := EnvironmentStaging |> <| in_Changes := [demo_change "auth"] |>.

Definition demo_engine (decision : Decision) : Engine :=
  {| eng_planner := auth_planner; eng_policy := fixed_policy decision ["service-owner"] |}.

Definition demo_clock (n : nat) : time := 1000 + Z.of_nat n.
Definition demo_ids (n : nat) : string := itoa (Z.of_nat n).

Definition demo_world (s : Memory) : demo_worlds :=
  {| w_store := s; w_exec := NewMock ∅; w_ticks := 0; w_ids := 0; w_trace := [] |}.

Definition status_of (r : result error ReleaseRun) : RunStatus :=
  match r with Ok run => run_Status run | Err _ => RunStatusNone end.

(** *** A release from its intent to success *)

Definition started_run (r : option (option ReleaseRun * bool * option error)) : ReleaseRun :=
  match r with Some (Some run, _, _) => run | _ => zero_ReleaseRun end.

(** Whether a release was created and started, and how it ended. *)
Definition started_as (status : RunStatus) (r : option (option ReleaseRun * bool * option error)) : bool :=
  match r with Some (Some run, true, None) => bool_decide (run_Status run = status) | _ => false end.

Lemma started_as_eq status r :
  started_as status r = true →
  r = Some (Some (started_run r), true, None) ∧ run_Status (started_run r) = status.
Proof. destruct r as [[[[run|] []] []]|]; simpl; try done. by intros ?%bool_decide_eq_true. Qed.

Definition demo_success : demo_worlds * option (option ReleaseRun * bool * option error) :=
  StartIntent demo_clock demo_ids (demo_engine DecisionAllow) auth_intent (demo_world NewMemory).

Lemma demo_success_run :
  StartIntent demo_clock demo_ids (demo_engine DecisionAllow) auth_intent (demo_world NewMemory) =
    (fst demo_success, snd demo_success).
Proof. unfold demo_success. apply surjective_pairing. Qed.

Lemma auth_fit : phases_fit auth_planner (changes_of auth_intent).
Proof.
  intros name Hn. apply index_by_keys in Hn; [|apply NoDup_singleton].
  apply elem_of_cons in Hn as [->|[]%elem_of_nil]. vm_compute. split; discriminate.
Qed.

Lemma start_success_complete_witness :
  Forall (λ s, st_Status s = StepSucceeded) (run_Steps (started_run (snd demo_success))).
Proof.
  destruct (started_as_eq RunSucceeded (snd demo_success)) as [Hr Hs]; [vm_compute; reflexivity|].
  pose proof demo_success_run as Hrun. rewrite Hr in Hrun.
  destruct (start_success_complete demo_clock demo_ids (demo_engine DecisionAllow) auth_intent
    (demo_world NewMemory) (fst demo_success) (started_run (snd demo_success)) auth_fit Hrun Hs) as (_ & Hall & _).
  exact (Forall_impl _ _ _ Hall (λ s H, proj1 H)).
Defined.

(** *** A run of two services that needs approval *)

Definition demo_planned (service : string) : PlanStep :=
  {| ps_Service := service; ps_DesiredVersion := "v2"; ps_Phase := 1; ps_Profile := "legacy";
     ps_Dependencies := []; ps_RequiredCapabilities := []; ps_ContractHash := ""; ps_ProfileHash := "";
     ps_ChangeHash := ""; ps_VerificationRequired := true; ps_ObservationWindow := "";
     ps_RollbackMode := RollbackAutomatic;
     ps_Scheduling := {| sc_TenantID := ""; sc_Environment := ""; sc_Region := ""; sc_Cluster := "";
       sc_Team := ""; sc_RiskTier := ""; sc_RunnerGroup := ""; sc_FailureDomains := [] |} |}.

Definition demo_plan2 : ReleasePlan :=
  zero_ReleasePlan <| plan_Hash := "sha256:plan" |>
    <| plan_Phases := [{| ph_Number := 1; ph_Steps := [demo_planned "auth"; demo_planned "pay"] |}] |>.

Definition demo_new_run : ReleaseRun :=
  new_run (LegacyRequestFromIntent demo_intent) demo_plan2 "run_1" 1000.

Definition demo_created : demo_worlds := demo_world (fst (CreateRun demo_new_run NewMemory)).

Definition demo_advance (decision : Decision) : demo_worlds * result error ReleaseRun :=
  advance demo_clock demo_ids (demo_engine decision) demo_new_run demo_created.

Lemma demo_advance_run decision :
  advance demo_clock demo_ids (demo_engine decision) demo_new_run demo_created =
    (fst (demo_advance decision), snd (demo_advance decision)).
Proof. unfold demo_advance. apply surjective_pairing. Qed.

Example demo_advance_allowed :
  status_of (snd (demo_advance DecisionAllow)) = RunSucceeded ∧
  dr_Service <$> deploys (w_trace (fst (demo_advance DecisionAllow))) = ["auth"; "pay"].
Proof. by vm_compute. Qed.

Lemma advance_refines_witness :
  ∃ status steps, advanced (idempotencyKey demo_new_run) (run_Steps demo_new_run) steps status.
Proof.
  destruct (advance_refines demo_clock demo_ids (demo_engine DecisionAllow) demo_new_run demo_created
    (fst (demo_advance DecisionAllow)) (snd (demo_advance DecisionAllow)) (demo_advance_run DecisionAllow))
    as (status & steps & H & _).
  exact (ex_intro _ status (ex_intro _ steps H)).
Defined.

Lemma deployments_authorized_witness :
  ∃ evs, w_trace (fst (demo_advance DecisionAllow)) = w_trace demo_created ++ evs ∧ audited None evs = true.
Proof.
  destruct (deployments_authorized demo_clock demo_ids (demo_engine DecisionAllow) demo_new_run demo_created
    (fst (demo_advance DecisionAllow)) (snd (demo_advance DecisionAllow)) (demo_advance_run DecisionAllow))
    as (evs & steps & H & Ha & _).
  exact (ex_intro _ evs (conj H Ha)).
Defined.

(** The same run under a policy that asks for approval: its first step waits. *)
Definition demo_waiting : demo_worlds := fst (demo_advance DecisionRequireApproval).

Definition run_or_zero (r : result error ReleaseRun) : ReleaseRun :=
  match r with Ok run => run | Err _ => zero_ReleaseRun end.

Definition waiting_run : ReleaseRun := run_or_zero (snd (demo_advance DecisionRequireApproval)).

Example demo_waiting_steps :
  run_Status waiting_run = RunWaitingApproval ∧
  st_Status <$> run_Steps waiting_run = [StepWaitingApproval; StepPending] ∧ deploys (w_trace demo_waiting) = [].
Proof. by vm_compute. Qed.

Abbreviation demo_decide actor w :=
  (DecideApproval demo_clock demo_ids (demo_engine DecisionRequireApproval) "run_1" "approval_1" actor
    ["service-owner"] true w) (only parsing).

(** A run is cancelled while it waits for approval; the approval can still be granted, and the
    cancelled run then goes on: the engine deploys the approved service and ends the run as
    [SUCCEEDED], its other step still cancelled. *)
Lemma cancelled_run_resurrected :
  let '(w1, r1) := Cancel demo_clock demo_ids "run_1" "carol" demo_waiting in
  let '(w2, r2) := demo_decide "bob" w1 in
  status_of r1 = RunCancelled ∧ deploys (w_trace w1) = [] ∧
  status_of r2 = RunSucceeded ∧ dr_Service <$> deploys (w_trace w2) = ["auth"] ∧
  st_Status <$> run_Steps (run_or_zero r2) = [StepSucceeded; StepCancelled].
Proof. by vm_compute. Qed.

(** The requester's own approval, which is refused. *)
Definition own_decision : demo_worlds * result error ReleaseRun := demo_decide "alice" demo_waiting.

Definition waiting_found : nat * ReleaseStep * Approval :=
  default (0%nat, new_step ∅ {| ph_Number := 0; ph_Steps := [] |} (demo_planned ""),
    {| ap_ID := ""; ap_RequiredRoles := []; ap_Status := ApprovalDenied; ap_PlanHash := "";
       ap_RequestedAt := 0; ap_ExpiresAt := 0; ap_DecidedBy := ""; ap_DecidedAt := None |})
    (find_approval "approval_1" (run_Steps waiting_run)).

Lemma own_decision_run : demo_decide "alice" demo_waiting = (fst own_decision, snd own_decision).
Proof. unfold own_decision. apply surjective_pairing. Qed.

Lemma approval_guarded_witness : refused demo_waiting (fst own_decision) (snd own_decision).
Proof.
  assert (store_GetRun "run_1" (w_store demo_waiting) = Ok waiting_run) as Hstored by (vm_compute; reflexivity).
  assert (find_approval "approval_1" (run_Steps waiting_run) =
    Some (fst (fst waiting_found), snd (fst waiting_found), snd waiting_found)) as Hfound
    by (vm_compute; reflexivity).
  pose proof (approval_guarded demo_clock demo_ids (demo_engine DecisionRequireApproval) "run_1" "approval_1"
    "alice" ["service-owner"] true demo_waiting (fst own_decision) (snd own_decision) waiting_run _ _ _
    Hstored Hfound own_decision_run) as (_ & Hrefused & _).
  apply Hrefused; vm_compute; reflexivity.
Defined.

(** A stored run that waits for approval. *)
Definition paused_demo : ReleaseRun := (demo_run "run-1" "req-1") <| run_Status := RunWaitingApproval |>.
Definition paused_world : demo_worlds := demo_world (fst (CreateRun paused_demo NewMemory)).

Lemma pause_resume_roundtrip_witness :
  ∃ w1 paused, Pause demo_clock "run-1" "alice" paused_world = (w1, Ok paused) ∧ run_Status paused = RunPaused.
Proof.
  destruct (pause_resume_roundtrip demo_clock demo_ids (demo_engine DecisionAllow) "run-1" "alice" paused_world
    paused_demo) as (w1 & paused & w2 & t & Hp & Hs & _).
  - apply (CreateRunAtomic_inv paused_demo [] [] NewMemory eq_refl NewMemory_inv).
  - vm_compute. reflexivity.
  - reflexivity.
  - exact (ex_intro _ w1 (ex_intro _ paused (conj Hp Hs))).
Defined.
