(* ===== verification/Verification.v ===== *)
(** * Verification service (src/internal/verification, src/pkg/adapter/verification.go)

    Evidence is accepted only when it is complete and carries the hash of its own
    content.  The JSON encoding of evidence is a parameter [marshal], because the
    text Go prints for a [float64] is not modelled. *)
From S2P Require Import Prelude GoStd Sha256 Domain Adapter Executor.
Open Scope Z_scope.

Section verification.
Context {X : Type} (marshal : AdapterEvidence → result error string).

(** [verification.ValidateEvidence] *)
Definition verification_ValidateEvidence (evidence : AdapterEvidence) : result error unit :=
  match ValidateEvidence evidence with
  | Err err => Err err
  | Ok _ =>
      match EvidenceHash marshal evidence with
      | Err err => Err err
      | Ok hash =>
          if negb (bool_decide (hash = aev_EvidenceHash evidence)) then Err (ErrorNew "evidence hash mismatch")
          else Ok tt
      end
  end.

(** [Service]; [None] is nil. *)
Record VerificationService := {
  vs_TenantID : string;
  vs_Adapter : option (VerificationRequest → credentials.Credential → X → X * result error AdapterEvidence);
  vs_Broker : option (credentials.Broker X);
}.

(** [Service.Verify] *)
Definition Service_Verify (s : VerificationService) (request : VerificationRequest) (x : X) :
    X * result error AdapterEvidence :=
  match vs_Adapter s, vs_Broker s with
  | Some verify, Some acquire =>
      if bool_decide (vs_TenantID s = "") then (x, Err (ErrorNew "verification service is not configured"))
      else
        let '(x, credential) := acquire
          {| credentials.cq_Provider := adapter.ProviderDatadog; credentials.cq_TenantID := vs_TenantID s;
             credentials.cq_Service := adapter.at_Service (vq_Target request);
             credentials.cq_Environment := adapter.at_Environment (vq_Target request);
             credentials.cq_Purpose := credentials.PurposeVerify |} x in
        match credential with
        | Err err => (x, Err err)
        | Ok credential =>
            let '(x, evidence) := verify request credential x in
            match evidence with
            | Err err => (x, Err err)
            | Ok evidence =>
                match verification_ValidateEvidence evidence with
                | Err err => (x, Err err)
                | Ok _ => (x, Ok evidence)
                end
            end
        end
  | _, _ => (x, Err (ErrorNew "verification service is not configured"))
  end.

(** ** Accepted evidence *)

(** What complete evidence has. *)
Record complete_evidence (e : AdapterEvidence) : Prop := {
  ce_status : aev_Status e ∈ [VerificationPass; VerificationFail; VerificationInconclusive; VerificationMissing];
  ce_reason : TrimSpace (aev_ReasonCode e) ≠ "";
  ce_source : TrimSpace (aev_Source e) ≠ "";
  ce_query : TrimSpace (aev_QueryHash e) ≠ "";
  ce_window : ow_From (aev_Window e) ≠ 0 ∧ ow_To (aev_Window e) ≠ 0 ∧ ow_From (aev_Window e) < ow_To (aev_Window e);
  ce_observed : aev_ObservedAt e ≠ 0;
  ce_adapter : TrimSpace (aev_AdapterVersion e) ≠ "";
  ce_hash : TrimSpace (aev_EvidenceHash e) ≠ "";
  ce_finite : non_finite (aev_ObservedValue e) = false ∧ non_finite (aev_Threshold e) = false;
}.

Lemma ValidateEvidence_complete e : ValidateEvidence e = Ok tt ↔ complete_evidence e.
Proof.
  unfold ValidateEvidence. rewrite seq_ok, !fail_if_ok, !orb_false_iff, !negb_false_iff, !bool_decide_eq_false.
  unfold VerificationStatus_Valid, IsZero, After. rewrite bool_decide_eq_true, !Z.eqb_neq, Z.ltb_lt. split.
  - intros ((((((((((? & ?) & ?) & ?) & ?) & ?) & ?) & ?) & ?) & ?) & ? & ?). split; auto.
  - intros []. tauto.
Qed.

(** Accepted evidence is complete and its hash is that of its content. *)
Lemma verification_accepts e :
  verification_ValidateEvidence e = Ok tt ↔
  complete_evidence e ∧ ∃ payload, marshal (e <| aev_EvidenceHash := "" |>) = Ok payload ∧
    aev_EvidenceHash e = sha256_ref payload.
Proof.
  unfold verification_ValidateEvidence, EvidenceHash.
  destruct (ValidateEvidence e) as [[]|err] eqn:Hv.
  - apply ValidateEvidence_complete in Hv. destruct (marshal _) as [payload|err]; simpl.
    + destruct (bool_decide (sha256_ref payload = aev_EvidenceHash e)) eqn:Hb; simpl.
      * apply bool_decide_eq_true in Hb. split; [|done]. intros _. split; [done|]. by exists payload.
      * apply bool_decide_eq_false in Hb. split; [done|]. intros (_ & p & [= <-] & He). by rewrite He in Hb.
    + split; [done|]. by intros (_ & p & ? & _).
  - split; [done|]. intros (Hc & _). apply ValidateEvidence_complete in Hc. by rewrite Hc in Hv.
Qed.
End verification.
