(* ===== verification/Durable.v ===== *)
(** * The durable store as its clients see it (src/internal/store/store.go)

    The interface [DurableStore] that the workflow activities and the application
    services work against, the laws they rely on, and the in-memory store as an
    instance.  A slot is a pair of an adapter and an idempotency key; the executions
    recorded per slot are what makes an external write happen at most once. *)
From S2P Require Import Prelude GoStd Domain Protocol Store Runner Engine.
Open Scope Z_scope.

(** [DurableStore] *)
Class DurableStore (S : Type) := {
  durable_Store :: Store S;
  durable_Journal :: RunnerJournal S;
  store_SavePlan : ReleasePlan → S → S * result error unit;
  store_GetPlan : string → S → result error ReleasePlan;
  store_CreateRunAtomic : ReleaseRun → list AuditEvent → list OutboxEvent → S → S * result error (ReleaseRun * bool);
  store_UpdateRunAtomic : ReleaseRun → Z → list AuditEvent → list OutboxEvent → S → S * result error ReleaseRun;
  store_ReserveExecution : ExecutionRecord → AuditEvent → OutboxEvent → S → S * result error (ExecutionRecord * bool);
  store_CompleteExecution : ExecutionRecord → Z → AuditEvent → OutboxEvent → S → S * result error unit;
  store_GetExecution : string → string → S → result error ExecutionRecord;
  store_PendingOutbox : Z → S → result error (list OutboxEvent);
  store_PendingOutboxByType : string → Z → S → result error (list OutboxEvent);
  store_MarkOutboxPublished : string → time → S → S * result error unit;
  store_RebuildProjection : string → S → S * result error unit;
}.

Definition record_slot (record : ExecutionRecord) : string * string := (er_Adapter record, er_IdempotencyKey record).

(** What keeps an external write from happening twice: a reservation is new only on a free
    slot, and nothing frees a slot. *)
Class ExecutionLaws (S : Type) `{!DurableStore S} := {
  occupied : S → string * string → Prop;
  reserve_execution_new record audit event s s' r :
    store_ReserveExecution record audit event s = (s', Ok (r, true)) →
    r = record <| er_StateVersion := 1 |> <| er_Status := ExecutionReserved |> ∧
    ¬ occupied s (record_slot record) ∧ occupied s' (record_slot record);
  occupied_reserve record audit event s slot :
    occupied s slot → occupied (fst (store_ReserveExecution record audit event s)) slot;
  occupied_complete record v audit event s slot :
    occupied s slot → occupied (fst (store_CompleteExecution record v audit event s)) slot;
  occupied_update run v audit events s slot :
    occupied s slot → occupied (fst (store_UpdateRunAtomic run v audit events s)) slot;
}.

(** The record that is read back has every field but perhaps the instants of its row. *)
Definition settled (record stored : ExecutionRecord) : Prop :=
  ∃ created updated, stored = record <| er_CreatedAt := created |> <| er_UpdatedAt := updated |>.

(** The payload holds text only. *)
Definition textual (payload : details) : Prop := map_Forall (λ _ v, ∃ s, v = AString s) payload.

(** What a repeated call relies on: a store that is up answers from the record. *)
Class RetryLaws (S : Type) `{!DurableStore S} := {
  reserve_execution_stored record audit event s s' r :
    store_ReserveExecution record audit event s = (s', Ok (r, true)) → textual (er_Payload record) →
    ∃ stored, store_GetExecution (er_Adapter record) (er_IdempotencyKey record) s' = Ok stored ∧ settled r stored;
  reserve_execution_old record audit event s s' r :
    store_ReserveExecution record audit event s = (s', Ok (r, false)) →
    s' = s ∧ store_GetExecution (er_Adapter record) (er_IdempotencyKey record) s = Ok r;
  reserve_execution_taken record audit event s r :
    store_GetExecution (er_Adapter record) (er_IdempotencyKey record) s = Ok r →
    store_ReserveExecution record audit event s = (s, Ok (r, false));
  complete_execution_ok record reserved v audit event s s' :
    store_CompleteExecution record v audit event s = (s', Ok tt) → textual (er_Payload record) →
    store_GetExecution (er_Adapter record) (er_IdempotencyKey record) s = Ok reserved →
    er_ID record = er_ID reserved → er_RunID record = er_RunID reserved → er_Service record = er_Service reserved →
    record_slot record = record_slot reserved →
    ∃ stored, store_GetExecution (er_Adapter record) (er_IdempotencyKey record) s' = Ok stored ∧
      settled (record <| er_StateVersion := int64 (v + 1) |>) stored;
}.

(** An update that succeeds returns the run with its next version. *)
Class UpdateLaws (S : Type) `{!DurableStore S} := {
  atomic_update_version run v audit events s s' r :
    store_UpdateRunAtomic run v audit events s = (s', Ok r) → r = run <| run_StateVersion := int64 (v + 1) |>;
}.

(** The laws of the atomic run operations of a store that is up, on the states it can be in. *)
Class AtomicLaws (S : Type) `{!DurableStore S} := {
  durable_valid : S → Prop;
  atomic_update_valid run v audit events s :
    durable_valid s → durable_valid (fst (store_UpdateRunAtomic run v audit events s));
  atomic_update_ok run v audit events s s' r :
    store_UpdateRunAtomic run v audit events s = (s', Ok r) → store_GetRun (run_ID run) s' = Ok r;
  atomic_update_current run v audit events s s' r : durable_valid s →
    store_UpdateRunAtomic run v audit events s = (s', Ok r) →
    ∃ current, store_GetRun (run_ID run) s = Ok current ∧ run_StateVersion current = v;
  atomic_update_stale run v audit events s current : durable_valid s →
    store_GetRun (run_ID run) s = Ok current → run_StateVersion current ≠ v →
    ∃ e, store_UpdateRunAtomic run v audit events s = (s, Err e) ∧ errors_Is e "store.ErrConflict" = true;
  atomic_update_err run v audit events s s' e :
    store_UpdateRunAtomic run v audit events s = (s', Err e) → s' = s;
}.

(** ** The in-memory store *)

#[export] Instance Memory_DurableStore `{!MapOrder} : DurableStore Memory := {|
  durable_Store := Memory_Store;
  durable_Journal := Memory_RunnerJournal;
  store_SavePlan := λ plan m, (SavePlan plan m, Ok tt);
  store_GetPlan := GetPlan;
  store_CreateRunAtomic := CreateRunAtomic;
  store_UpdateRunAtomic := UpdateRunAtomic;
  store_ReserveExecution := λ record audit event m,
    let '(m, r) := ReserveExecution record audit event m in (m, Ok r);
  store_CompleteExecution := CompleteExecution;
  store_GetExecution := GetExecution;
  store_PendingOutbox := λ limit m, Ok (PendingOutbox limit m);
  store_PendingOutboxByType := λ eventType limit m, Ok (PendingOutboxByType eventType limit m);
  store_MarkOutboxPublished := MarkOutboxPublished;
  store_RebuildProjection := RebuildProjection;
|}.

#[export] Program Instance Memory_ExecutionLaws `{!MapOrder} : ExecutionLaws Memory := {|
  occupied := λ m slot, has_execution (executionKey slot.1 slot.2) m;
|}.
Next Obligation.
  intros ? record audit event m m' r. simpl. unfold has_execution, ReserveExecution, appendAtomic.
  destruct (mem_executions m !! _) eqn:He; [done|]. intros [= <- <-]. unfold modify; simpl.
  rewrite lookup_insert_eq. repeat split; [by intros [? ?]|done].
Qed.
Next Obligation.
  intros ? record audit event m slot Hs. simpl in *.
  pose proof (has_execution_mono (OpReserveExecution record audit event) m _ Hs) as Hm. revert Hm. simpl.
  by destruct (ReserveExecution record audit event m) as [? [? ?]].
Qed.
Next Obligation.
  intros ? record v audit event m slot Hs. simpl in *.
  pose proof (has_execution_mono (OpCompleteExecution record v audit event) m _ Hs) as Hm. revert Hm. simpl.
  by destruct (CompleteExecution record v audit event m) as [? [?|?]].
Qed.
Next Obligation.
  intros ? run v audit events m slot Hs. simpl in *.
  pose proof (has_execution_mono (OpUpdateRun run v audit events) m _ Hs) as Hm. revert Hm. simpl.
  by destruct (UpdateRunAtomic run v audit events m) as [? [?|?]].
Qed.

Lemma settled_refl record : settled record record.
Proof. exists (er_CreatedAt record), (er_UpdatedAt record). by destruct record. Qed.

#[export] Instance Memory_RetryLaws `{!MapOrder} : RetryLaws Memory.
Proof.
  split.
  - intros record audit event m m' r. simpl. unfold ReserveExecution, GetExecution, appendAtomic.
    destruct (mem_executions m !! _) eqn:He; [done|]. intros [= <- <-] _. unfold modify; simpl.
    rewrite lookup_insert_eq. eexists. split; [done|apply settled_refl].
  - intros record audit event m m' r. simpl. unfold ReserveExecution, GetExecution.
    destruct (mem_executions m !! _) eqn:He; [|done]. by intros [= <- <-].
  - intros record audit event m r. simpl. unfold ReserveExecution, GetExecution.
    destruct (mem_executions m !! _) eqn:He; [|done]. by intros [= <-].
  - intros record reserved v audit event m m'. simpl. unfold CompleteExecution, GetExecution, appendAtomic.
    destruct (mem_executions m !! _) eqn:He; [|done]. destruct (negb _); [done|].
    intros [= <-] _ _ _ _ _ _. unfold modify; simpl. rewrite lookup_insert_eq. eexists. split; [done|apply settled_refl].
Qed.

#[export] Instance Memory_UpdateLaws `{!MapOrder} : UpdateLaws Memory.
Proof.
  split. intros run v audit events m m' r. simpl. unfold UpdateRunAtomic.
  destruct (mem_runs m !! run_ID run) as [current|]; [|done]. destruct (negb _); [done|]. by intros [= _ <-].
Qed.

#[export] Program Instance Memory_AtomicLaws `{!MapOrder} : AtomicLaws Memory := {| durable_valid := λ _, True |}.
Next Obligation. done. Qed.
Next Obligation.
  intros ? run v audit events m m' r. simpl. unfold UpdateRunAtomic, appendAtomic, GetRun.
  destruct (mem_runs m !! run_ID run) as [current|]; [|done]. destruct (negb _); [done|].
  intros [= <- <-]. unfold modify; simpl. by rewrite lookup_insert_eq.
Qed.
Next Obligation.
  intros ? run v audit events m m' r _. simpl. unfold UpdateRunAtomic, GetRun.
  destruct (mem_runs m !! run_ID run) as [current|]; [|done].
  destruct (run_StateVersion current =? v) eqn:Hv; simpl; [|done]. apply Z.eqb_eq in Hv. eauto.
Qed.
Next Obligation.
  intros ? run v audit events m current _. simpl. unfold UpdateRunAtomic, GetRun.
  destruct (mem_runs m !! run_ID run) as [found|]; [|done]. intros [= ->] Hv.
  rewrite (proj2 (Z.eqb_neq _ _) Hv). by exists ErrConflict.
Qed.
Next Obligation.
  intros ? run v audit events m m' e. simpl. unfold UpdateRunAtomic.
  destruct (mem_runs m !! run_ID run) as [current|]; [|by intros [= <- _]].
  destruct (run_StateVersion current =? v); simpl; [done|by intros [= <- _]].
Qed.
