(* ===== verification/Postgres.v ===== *)
(** * The PostgreSQL store (src/internal/store/postgres, src/migrations)

    The durable store of production.  The database is a record of tables with the keys,
    checks and references that the migrations declare; every SQL statement of the store is a
    function on it, with the error the server reports when a constraint is violated.  A
    method is the sequence of statements the Go code executes, in a transaction or on the
    connection pool.

    Statements also fail for reasons the schema does not explain: the connection is lost, the
    server refuses the data.  Every method takes a list of faults, one entry per statement it
    executes; a commit can fail after the server applied it ([ft_applied]).  With no faults a
    method is an operation of the interface [DurableStore].

    A row holds the Go values the code writes into it.  A [jsonb] column holds what reading
    it back gives, a [timestamptz] column is rounded by the driver to what the server keeps
    ([column_time], a parameter).  Nullable text columns are written through NULLIF and read
    through COALESCE, so an empty string stands for NULL. *)
From S2P Require Import Prelude GoStd Rfc3339 Domain Protocol Store Runner Engine Durable.
From Stdlib Require Import SpecFloat.
Open Scope Z_scope.

(** ** Errors of the server *)

(** A server error; the code looks at its SQLSTATE only, so it is a sentinel with that name. *)
Definition PgError (code : string) : error := Sentinel code code.
Definition unique_violation : error := PgError "23505".
Definition foreign_key_violation : error := PgError "23503".
Definition check_violation : error := PgError "23514".
Definition out_of_range : error := PgError "22003".

(** [isUniqueViolation] *)
Definition isUniqueViolation (err : error) : bool := errors_Is err "23505".

(** ** What [json.Unmarshal] makes of what [json.Marshal] wrote, in a [map[string]any]

    Numbers come back as [float64] and instants as text; lists keep their elements. *)
Definition decoded_any (v : any) : any :=
  match v with
  | AInt z => AFloat (binary_normalize 53 1024 z 0 false)
  | ATime t => AString (Format t)
  | _ => v
  end.
Definition decoded (d : details) : details := decoded_any <$> d.

(** ** Tables *)

(** release_runs *)
Record RunRow := {
  rr_request_id : string;
  rr_workflow_id : string;
  rr_temporal_run_id : string;
  rr_release_version : string;
  rr_environment : string;
  rr_requested_by : string;
  rr_status : RunStatus;
  rr_state_version : Z;
  rr_payload : ReleaseRun;
  rr_created_at : time;
  rr_updated_at : time;
}.

(** release_steps *)
Record StepRow := {
  sw_environment : string;
  sw_phase : Z;
  sw_status : StepStatus;
  sw_state_version : Z;
  sw_payload : ReleaseStep;
  sw_updated_at : time;
}.

(** policy_decisions *)
Record PolicyRow := {
  pw_run_id : string;
  pw_service : string;
  pw_snapshot : PolicyDecision;
  pw_created_at : time;
}.

(** approvals *)
Record ApprovalRow := {
  aw_run_id : string;
  aw_service : string;
  aw_approval : Approval;
  aw_state_version : Z;
}.

(** release_plans *)
Record PlanRow := {
  lw_plan_hash : string;
  lw_environment : string;
  lw_payload : ReleasePlan;
  lw_created_at : time;
  lw_expires_at : time;
}.

(** The tables, by primary key; executions by their unique adapter and idempotency key, audit
    events in the order of their sequence numbers.  [db_now] is the clock of the server. *)
Record Database := {
  db_runs : gmap string RunRow;
  db_steps : gmap (string * string) StepRow;
  db_policies : gmap string PolicyRow;
  db_approvals : gmap string ApprovalRow;
  db_executions : gmap (string * string) ExecutionRecord;
  db_audit : list AuditEvent;
  db_outbox : gmap string OutboxEvent;
  db_plans : gmap string PlanRow;
  db_journal : gmap (string * string * string) RunnerActionRecord;
  db_now : time;
}.

#[export] Instance eta_RunRow : Eta RunRow := λ r,
  {| rr_request_id := rr_request_id r; rr_workflow_id := rr_workflow_id r; rr_temporal_run_id := rr_temporal_run_id r;
     rr_release_version := rr_release_version r; rr_environment := rr_environment r; rr_requested_by := rr_requested_by r;
     rr_status := rr_status r; rr_state_version := rr_state_version r; rr_payload := rr_payload r;
     rr_created_at := rr_created_at r; rr_updated_at := rr_updated_at r |}.

#[export] Instance eta_ApprovalRow : Eta ApprovalRow := λ r,
  {| aw_run_id := aw_run_id r; aw_service := aw_service r; aw_approval := aw_approval r;
     aw_state_version := aw_state_version r |}.

#[export] Instance eta_StepRow : Eta StepRow := λ r,
  {| sw_environment := sw_environment r; sw_phase := sw_phase r; sw_status := sw_status r;
     sw_state_version := sw_state_version r; sw_payload := sw_payload r; sw_updated_at := sw_updated_at r |}.

#[export] Instance eta_Database : Eta Database := λ r,
  {| db_runs := db_runs r; db_steps := db_steps r; db_policies := db_policies r; db_approvals := db_approvals r;
     db_executions := db_executions r; db_audit := db_audit r; db_outbox := db_outbox r; db_plans := db_plans r;
     db_journal := db_journal r; db_now := db_now r |}.

Definition empty_database (now : time) : Database :=
  {| db_runs := ∅; db_steps := ∅; db_policies := ∅; db_approvals := ∅; db_executions := ∅; db_audit := [];
     db_outbox := ∅; db_plans := ∅; db_journal := ∅; db_now := now |}.

(** The order in which the server visits rows that ORDER BY leaves tied. *)
Class RowOrder := {
  scan {A : Type} : list A → list A;
  scan_perm {A : Type} (rows : list A) : scan rows ≡ₚ rows;
}.

Definition insertion_order : RowOrder := {| scan := λ A rows, rows; scan_perm := λ A rows, reflexivity rows |}.

(** ** Statements and transactions *)

Record fault := {
  ft_error : error;
  ft_applied : bool;
}.

(** A connection: the tables as the transaction sees them, and the faults to come. *)
Record Conn := {
  cn_db : Database;
  cn_faults : list (option fault);
}.

Definition SQL (A : Type) : Type := Conn → Conn * result error A.

#[export] Instance sql_ret : MRet SQL := λ A a c, (c, Ok a).
#[export] Instance sql_bind : MBind SQL := λ A B f m c,
  match m c with
  | (c, Ok a) => f a c
  | (c, Err err) => (c, Err err)
  end.

Definition sql_fail {A} (err : error) : SQL A := λ c, (c, Err err).

(** One statement. *)
Definition exec {A} (f : Database → result error (Database * A)) : SQL A := λ c,
  let faults := tail (cn_faults c) in
  match head (cn_faults c) with
  | Some (Some ft) => ({| cn_db := cn_db c; cn_faults := faults |}, Err (ft_error ft))
  | _ =>
      match f (cn_db c) with
      | Ok (db, a) => ({| cn_db := db; cn_faults := faults |}, Ok a)
      | Err err => ({| cn_db := cn_db c; cn_faults := faults |}, Err err)
      end
  end.

(** A query in the transaction, and one on the pool, which sees the committed tables. *)
Definition select {A} (f : Database → result error A) : SQL A := exec (λ db, r ← f db; Ok (db, r)).
Definition select_pool {A} (committed : Database) (f : Database → result error A) : SQL A :=
  exec (λ db, r ← f committed; Ok (db, r)).

(** How the body of a transaction ends without an error: [tx.Commit], or a return that leaves
    the deferred [tx.Rollback] to undo it. *)
Inductive ending (R : Type) :=
| Commit (r : R)
| Rollback (r : R).
Arguments Commit {R}.
Arguments Rollback {R}.

(** [tx, err := s.pool.BeginTx(...); defer tx.Rollback(ctx); ...] *)
Definition transact {R} (body : SQL (ending R)) (faults : list (option fault)) (db : Database) :
    Database * result error R :=
  match (_ ← exec (λ db, Ok (db, tt)); body) {| cn_db := db; cn_faults := faults |} with
  | (_, Err err) => (db, Err err)
  | (_, Ok (Rollback r)) => (db, Ok r)
  | (c, Ok (Commit r)) =>
      match head (cn_faults c) with
      | Some (Some ft) => (if ft_applied ft then cn_db c else db, Err (ft_error ft))
      | _ => (cn_db c, Ok r)
      end
  end.

(** One statement on the pool commits by itself. *)
Definition autocommit {R} (f : Database → result error (Database * R)) (faults : list (option fault)) (db : Database) :
    Database * result error R :=
  match f db with
  | Err err => (db, match head faults with Some (Some ft) => Err (ft_error ft) | _ => Err err end)
  | Ok (db', r) =>
      match head faults with
      | Some (Some ft) => (if ft_applied ft then db' else db, Err (ft_error ft))
      | _ => (db', Ok r)
      end
  end.

(** A query on the pool. *)
Definition query {R} (f : Database → result error R) (faults : list (option fault)) (db : Database) : result error R :=
  match head faults with Some (Some ft) => Err (ft_error ft) | _ => f db end.

(** The loop [for _, x := range l { if err := ...; err != nil { return err } }]. *)
Fixpoint sql_each {A} (f : A → SQL unit) (l : list A) : SQL unit :=
  match l with
  | [] => mret tt
  | x :: l => _ ← f x; sql_each f l
  end.

(** [Err] unless the condition holds. *)
Definition require (cond : bool) (err : error) : result error unit := if cond then Ok tt else Err err.

(** The range of the [integer] type. *)
Definition in_integer (z : Z) : bool := (- 2 ^ 31 <=? z) && (z <? 2 ^ 31).

(** The range of the [bigint] type; a Go [int64] is always in it. *)
Definition in_bigint (z : Z) : bool := (- 2 ^ 63 <=? z) && (z <? 2 ^ 63).

(** [_, err = tx.Exec(...); if err != nil { if isUniqueViolation(err) { return h }; return err }; k] *)
Definition on_violation_then {A B} (m : SQL A) (h k : SQL B) : SQL B := λ c,
  match m c with
  | (c, Ok _) => k c
  | (c, Err err) => if isUniqueViolation err then h c else (c, Err err)
  end.

Section postgres.
Context `{!RowOrder} (column_time : time → time).

(** ** queries.go: the statements *)

(** Whether another row takes a unique value. *)
Definition taken_by {K A} `{Countable K} (P : A → bool) (rows : gmap K A) : bool := existsb P (map_to_list rows).*2.

(** [insertRunSQL] *)
Definition insert_run (run : ReleaseRun) (db : Database) : result error (Database * unit) :=
  let row := {| rr_request_id := run_RequestID run; rr_workflow_id := run_WorkflowID run;
                rr_temporal_run_id := run_TemporalRunID run; rr_release_version := run_ReleaseVersion run;
                rr_environment := run_Environment run; rr_requested_by := run_RequestedBy run;
                rr_status := run_Status run; rr_state_version := run_StateVersion run; rr_payload := run;
                rr_created_at := column_time (run_CreatedAt run); rr_updated_at := column_time (run_UpdatedAt run) |} in
  _ ← require (in_bigint (run_StateVersion run)) out_of_range;
  _ ← require (0 <? run_StateVersion run) check_violation;
  _ ← require (negb (bool_decide (is_Some (db_runs db !! run_ID run)) ||
                     taken_by (λ r, bool_decide (rr_request_id r = run_RequestID run) || bool_decide (rr_workflow_id r = run_WorkflowID run)) (db_runs db)))
        unique_violation;
  Ok (db <| db_runs := <[run_ID run := row]> (db_runs db) |>, tt).

(** [selectRunSQL] and [selectRunByRequestSQL], with [scanRun] *)
Definition select_run (id : string) (db : Database) : result error ReleaseRun :=
  match db_runs db !! id with Some row => Ok (rr_payload row) | None => Err ErrNotFound end.
Definition select_run_by_request (requestID : string) (db : Database) : result error ReleaseRun :=
  match filter (λ r, rr_request_id r = requestID) (map_to_list (db_runs db)).*2 with
  | row :: _ => Ok (rr_payload row)
  | [] => Err ErrNotFound
  end.

(** [updateRunSQL]: the number of rows it affected. *)
Definition update_run (run : ReleaseRun) (expectedVersion : Z) (db : Database) : result error (Database * nat) :=
  match db_runs db !! run_ID run with
  | Some row =>
      if rr_state_version row =? expectedVersion then
        _ ← require (0 <? run_StateVersion run) check_violation;
        let row := row <| rr_temporal_run_id := run_TemporalRunID run |> <| rr_status := run_Status run |>
                       <| rr_state_version := run_StateVersion run |> <| rr_payload := run |>
                       <| rr_updated_at := column_time (run_UpdatedAt run) |> in
        Ok (db <| db_runs := <[run_ID run := row]> (db_runs db) |>, 1%nat)
      else Ok (db, 0%nat)
  | None => Ok (db, 0%nat)
  end.

(** The run a child row refers to. *)
Definition references (runID : string) (db : Database) : result error unit :=
  require (bool_decide (is_Some (db_runs db !! runID))) foreign_key_violation.

(** [upsertStepSQL] *)
Definition upsert_step (run : ReleaseRun) (step : ReleaseStep) (db : Database) : result error (Database * unit) :=
  let key := (run_ID run, st_Service step) in
  let row := {| sw_environment := match db_steps db !! key with Some old => sw_environment old | None => run_Environment run end;
                sw_phase := st_Phase step; sw_status := st_Status step; sw_state_version := run_StateVersion run;
                sw_payload := step; sw_updated_at := column_time (run_UpdatedAt run) |} in
  _ ← require (in_integer (st_Phase step)) out_of_range;
  _ ← require ((0 <=? st_Phase step) && (0 <? run_StateVersion run)) check_violation;
  _ ← references (run_ID run) db;
  Ok (db <| db_steps := <[key := row]> (db_steps db) |>, tt).

(** The policy decision of a step: ON CONFLICT (id) DO NOTHING. *)
Definition policy_row_id (run : ReleaseRun) (step : ReleaseStep) (policy : PolicyDecision) : string :=
  "policy/" +:+ run_ID run +:+ "/" +:+ st_Service step +:+ "/" +:+ pd_InputHash policy.
Definition insert_policy (run : ReleaseRun) (step : ReleaseStep) (policy : PolicyDecision) (db : Database) :
    result error (Database * unit) :=
  let id := policy_row_id run step policy in
  match db_policies db !! id with
  | Some _ => Ok (db, tt)
  | None =>
      _ ← references (run_ID run) db;
      Ok (db <| db_policies := <[id := {| pw_run_id := run_ID run; pw_service := st_Service step; pw_snapshot := policy;
                                         pw_created_at := column_time (pd_CreatedAt policy) |}]> (db_policies db) |>, tt)
  end.

(** The approval of a step: ON CONFLICT (id) DO UPDATE of the status, the decision and the version. *)
Definition upsert_approval (run : ReleaseRun) (step : ReleaseStep) (approval : Approval) (db : Database) :
    result error (Database * unit) :=
  _ ← require (0 <? run_StateVersion run) check_violation;
  let columns := approval <| ap_RequestedAt := column_time (ap_RequestedAt approval) |>
                          <| ap_ExpiresAt := column_time (ap_ExpiresAt approval) |>
                          <| ap_DecidedAt := column_time <$> ap_DecidedAt approval |> in
  let insert row := Ok (db <| db_approvals := <[ap_ID approval := row]> (db_approvals db) |>, tt) in
  match db_approvals db !! ap_ID approval with
  | Some old =>
      insert (old <| aw_approval := (aw_approval old) <| ap_Status := ap_Status approval |>
                                      <| ap_DecidedBy := ap_DecidedBy approval |> <| ap_DecidedAt := ap_DecidedAt columns |> |>
                  <| aw_state_version := run_StateVersion run |>)
  | None =>
      _ ← references (run_ID run) db;
      insert {| aw_run_id := run_ID run; aw_service := st_Service step; aw_approval := columns;
                aw_state_version := run_StateVersion run |}
  end.

(** [insertAuditSQL] *)
Definition insert_audit (event : AuditEvent) (db : Database) : result error (Database * unit) :=
  _ ← require (negb (bool_decide (ae_ID event ∈ ae_ID <$> db_audit db))) unique_violation;
  Ok (db <| db_audit := db_audit db ++ [event <| ae_Details := decoded (ae_Details event) |>
                                              <| ae_Timestamp := column_time (ae_Timestamp event) |>] |>, tt).

(** [insertOutboxSQL] *)
Definition insert_outbox (event : OutboxEvent) (db : Database) : result error (Database * unit) :=
  _ ← require (in_integer (ob_Attempts event)) out_of_range;
  _ ← require (0 <=? ob_Attempts event) check_violation;
  _ ← require (negb (bool_decide (is_Some (db_outbox db !! ob_ID event)))) unique_violation;
  let row := event <| ob_Payload := decoded (ob_Payload event) |> <| ob_AvailableAt := column_time (ob_AvailableAt event) |>
                   <| ob_PublishedAt := column_time <$> ob_PublishedAt event |>
                   <| ob_CreatedAt := column_time (ob_CreatedAt event) |> in
  Ok (db <| db_outbox := <[ob_ID event := row]> (db_outbox db) |>, tt).

(** ** store.go *)

(** [syncChildren] *)
Definition sync_step (run : ReleaseRun) (step : ReleaseStep) : SQL unit :=
  _ ← exec (upsert_step run step);
  _ ← match st_Policy step with Some policy => exec (insert_policy run step policy) | None => mret tt end;
  match st_Approval step with Some approval => exec (upsert_approval run step approval) | None => mret tt end.
Definition syncChildren (run : ReleaseRun) : SQL unit := sql_each (sync_step run) (run_Steps run).

(** [insertAudit], [insertEvents] *)
Definition insertAudit (event : AuditEvent) : SQL unit := exec (insert_audit event).
Definition insertEvents (audits : list AuditEvent) (outbox : list OutboxEvent) : SQL unit :=
  _ ← sql_each insertAudit audits; sql_each (λ event, exec (insert_outbox event)) outbox.

(** [appendProjectionEvent] *)
Definition appendProjectionEvent (events : list OutboxEvent) (run : ReleaseRun) : list OutboxEvent :=
  events ++ [projection_event run].

(** [Store.CreateRunAtomic] *)
Definition created_run (run : ReleaseRun) : ReleaseRun :=
  if bool_decide (run_WorkflowID run = "") then run <| run_WorkflowID := run_ID run |> else run.
Definition create_run_body (run : ReleaseRun) (audits : list AuditEvent) (outbox : list OutboxEvent) (committed : Database) :
    SQL (ending (ReleaseRun * bool)) :=
  let stored := created_run run in
  on_violation_then (exec (insert_run stored))
    (existing ← select_pool committed (select_run_by_request (run_RequestID stored)); mret (Rollback (existing, false)))
    (_ ← syncChildren stored;
     _ ← insertEvents audits (appendProjectionEvent outbox stored);
     mret (Commit (stored, true))).
Definition pg_CreateRunAtomic (run : ReleaseRun) (audits : list AuditEvent) (outbox : list OutboxEvent)
    (faults : list (option fault)) (db : Database) : Database * result error (ReleaseRun * bool) :=
  transact (create_run_body run audits outbox db) faults db.
Definition pg_CreateRun (run : ReleaseRun) := pg_CreateRunAtomic run [] [].

(** [Store.GetRun], [Store.getRunByRequest] *)
Definition pg_GetRun (id : string) := query (select_run id).

(** [Store.SavePlan], [Store.GetPlan] *)
Definition pg_SavePlan (plan : ReleasePlan) : list (option fault) → Database → Database * result error unit :=
  autocommit (λ db,
    let row := {| lw_plan_hash := plan_PlanHash plan; lw_environment := plan_Environment plan; lw_payload := plan;
                  lw_created_at := column_time (plan_CreatedAt plan); lw_expires_at := column_time (plan_ExpiresAt plan) |} in
    Ok (db <| db_plans := <[plan_ID plan := row]> (db_plans db) |>, tt)).
Definition pg_GetPlan (id : string) : list (option fault) → Database → result error ReleasePlan :=
  query (λ db, match db_plans db !! id with Some row => Ok (lw_payload row) | None => Err ErrNotFound end).

(** [Store.ListRuns]: ORDER BY created_at DESC, id *)
Definition newer_row (a b : string * RunRow) : bool :=
  if bool_decide (rr_created_at a.2 = rr_created_at b.2) then String.ltb a.1 b.1
  else After (rr_created_at a.2) (rr_created_at b.2).
Definition pg_ListRuns : list (option fault) → Database → result error (list ReleaseRun) :=
  query (λ db, Ok ((λ row, rr_payload row.2) <$> sort_Slice newer_row (scan (map_to_list (db_runs db))))).

(** [Store.UpdateRunAtomic]; the caller's run gets the new version, so it is returned. *)
Definition update_run_body (updated : ReleaseRun) (expectedVersion : Z) (audits : list AuditEvent)
    (outbox : list OutboxEvent) : SQL (ending ReleaseRun) :=
  rows ← exec (update_run updated expectedVersion);
  if bool_decide (rows = 0%nat) then
    exists_ ← select (λ db, Ok (bool_decide (is_Some (db_runs db !! run_ID updated))));
    sql_fail (if exists_ : bool then ErrConflict else ErrNotFound)
  else
    _ ← syncChildren updated;
    _ ← insertEvents audits (appendProjectionEvent outbox updated);
    mret (Commit updated).
Definition pg_UpdateRunAtomic (run : ReleaseRun) (expectedVersion : Z) (audits : list AuditEvent)
    (outbox : list OutboxEvent) : list (option fault) → Database → Database * result error ReleaseRun :=
  transact (update_run_body (run <| run_StateVersion := int64 (expectedVersion + 1) |>) expectedVersion audits outbox).
Definition pg_UpdateRun (run : ReleaseRun) (expectedVersion : Z) := pg_UpdateRunAtomic run expectedVersion [] [].

(** [Store.AppendAudit], [Store.AuditEvents] *)
Definition pg_AppendAudit (event : AuditEvent) : list (option fault) → Database → Database * result error unit :=
  transact (_ ← insertAudit event; mret (Commit tt)).
Definition pg_AuditEvents (correlationID : string) : list (option fault) → Database → result error (list AuditEvent) :=
  query (λ db, Ok (filter (λ e, ae_CorrelationID e = correlationID) (db_audit db))).

(** *** The runner journal *)

Definition journal_key (record : RunnerActionRecord) : string * string * string :=
  (ra_TenantID record, ra_RunnerGroup record, ra_Nonce record).

(** The row of a record, as [scanRunnerAction] reads it back. *)
Definition journal_row (record : RunnerActionRecord) : RunnerActionRecord :=
  record <| ra_CreatedAt := column_time (ra_CreatedAt record) |> <| ra_UpdatedAt := column_time (ra_UpdatedAt record) |>.

(** [Store.GetRunnerAction] *)
Definition pg_GetRunnerAction (tenantID runnerGroup nonce : string) :
    list (option fault) → Database → result error RunnerActionRecord :=
  query (λ db, match db_journal db !! (tenantID, runnerGroup, nonce) with Some row => Ok row | None => Err ErrNotFound end).

(** The rows with this idempotency key. *)
Definition same_action (record row : RunnerActionRecord) : bool :=
  bool_decide (ra_TenantID row = ra_TenantID record) && bool_decide (ra_RunnerGroup row = ra_RunnerGroup record) &&
  bool_decide (ra_IdempotencyKey row = ra_IdempotencyKey record).

(** INSERT ... ON CONFLICT DO NOTHING RETURNING: the row, or nothing. *)
Definition insert_action (record : RunnerActionRecord) (db : Database) : result error (Database * option RunnerActionRecord) :=
  _ ← require (bool_decide (ra_Status record ∈ [RunnerActionReserved; RunnerActionSucceeded; RunnerActionUnknown; RunnerActionRejected])
               && (0 <? ra_StateVersion record)) check_violation;
  if bool_decide (is_Some (db_journal db !! journal_key record)) || taken_by (same_action record) (db_journal db)
  then Ok (db, None)
  else Ok (db <| db_journal := <[journal_key record := journal_row record]> (db_journal db) |>, Some (journal_row record)).

(** The existing row: by nonce, else by idempotency key. *)
Definition select_action (record : RunnerActionRecord) (db : Database) : result error RunnerActionRecord :=
  match db_journal db !! journal_key record with
  | Some row => Ok row
  | None =>
      match filter (λ row, same_action record row = true) (map_to_list (db_journal db)).*2 with
      | row :: _ => Ok row
      | [] => Err ErrNotFound
      end
  end.

(** [Store.ReserveRunnerAction] *)
Definition reserve_action_body (record : RunnerActionRecord) (audit : AuditEvent) : SQL (ending (RunnerActionRecord * bool)) :=
  row ← exec (insert_action record);
  match row with
  | Some createdRecord => _ ← insertAudit audit; mret (Commit (createdRecord, true))
  | None => existing ← select (select_action record); mret (Rollback (existing, false))
  end.
Definition pg_ReserveRunnerAction (record : RunnerActionRecord) (audit : AuditEvent) :
    list (option fault) → Database → Database * result error (RunnerActionRecord * bool) :=
  transact (reserve_action_body (record <| ra_Status := RunnerActionReserved |> <| ra_StateVersion := 1 |>) audit).

(** UPDATE runner_journal: the number of rows it affected. *)
Definition update_action (record : RunnerActionRecord) (expected : Z) (db : Database) : result error (Database * nat) :=
  match db_journal db !! journal_key record with
  | Some row =>
      if ra_StateVersion row =? expected then
        _ ← require (bool_decide (ra_Status record ∈ [RunnerActionReserved; RunnerActionSucceeded; RunnerActionUnknown; RunnerActionRejected])
                     && (0 <? int64 (expected + 1))) check_violation;
        let row := row <| ra_Status := ra_Status record |> <| ra_Result := ra_Result record |>
                       <| ra_StateVersion := int64 (expected + 1) |> <| ra_UpdatedAt := column_time (ra_UpdatedAt record) |> in
        Ok (db <| db_journal := <[journal_key record := row]> (db_journal db) |>, 1%nat)
      else Ok (db, 0%nat)
  | None => Ok (db, 0%nat)
  end.

(** [Store.CompleteRunnerAction] *)
Definition complete_action_body (record : RunnerActionRecord) (expected : Z) (audit : AuditEvent) : SQL (ending unit) :=
  rows ← exec (update_action record expected);
  if bool_decide (rows = 0%nat) then sql_fail ErrConflict
  else _ ← insertAudit audit; mret (Commit tt).
Definition pg_CompleteRunnerAction (record : RunnerActionRecord) (expected : Z) (audit : AuditEvent) :
    list (option fault) → Database → Database * result error unit :=
  transact (complete_action_body record expected audit).

(** [Store.PendingRunnerActions]: ORDER BY updated_at LIMIT *)
Definition pg_PendingRunnerActions (tenantID runnerGroup : string) (limit : Z) :
    list (option fault) → Database → result error (list RunnerActionRecord) :=
  let limit := if limit <=? 0 then 100 else limit in
  query (λ db, Ok (take (Z.to_nat limit) (sort_Slice (λ a b, Before (ra_UpdatedAt a) (ra_UpdatedAt b))
    (scan (filter (λ row, is_unsettled tenantID runnerGroup row = true) (map_to_list (db_journal db)).*2))))).

(** ** outbox.go *)

(** [Store.pendingOutbox]: ORDER BY available_at, created_at LIMIT *)
Definition due_before (a b : OutboxEvent) : bool :=
  if bool_decide (ob_AvailableAt a = ob_AvailableAt b) then Before (ob_CreatedAt a) (ob_CreatedAt b)
  else Before (ob_AvailableAt a) (ob_AvailableAt b).
Definition is_due (eventType : string) (now : time) (event : OutboxEvent) : bool :=
  is_pending eventType event && (ob_AvailableAt event <=? now).
Definition pg_pendingOutbox (eventType : string) (limit : Z) : list (option fault) → Database → result error (list OutboxEvent) :=
  let limit := if limit <=? 0 then 100 else limit in
  query (λ db, Ok (take (Z.to_nat limit) (sort_Slice due_before
    (scan (filter (λ e, is_due eventType (db_now db) e = true) (map_to_list (db_outbox db)).*2))))).
Definition pg_PendingOutbox (limit : Z) := pg_pendingOutbox "" limit.
Definition pg_PendingOutboxByType (eventType : string) (limit : Z) := pg_pendingOutbox eventType limit.

(** [Store.MarkOutboxPublished] *)
Definition mark_statement (id : string) (publishedAt : time) (db : Database) : result error (Database * nat) :=
  match db_outbox db !! id with
  | Some event =>
      if bool_decide (ob_PublishedAt event = None) then
        _ ← require (in_integer (ob_Attempts event + 1)) out_of_range;
        Ok (db <| db_outbox := <[id := event <| ob_PublishedAt := Some (column_time publishedAt) |>
                                             <| ob_Attempts := ob_Attempts event + 1 |>]> (db_outbox db) |>, 1%nat)
      else Ok (db, 0%nat)
  | None => Ok (db, 0%nat)
  end.
Definition pg_MarkOutboxPublished (id : string) (publishedAt : time) (faults : list (option fault)) (db : Database) :
    Database * result error unit :=
  let '(db, r) := autocommit (mark_statement id publishedAt) faults db in
  (db, rows ← r; require (negb (bool_decide (rows = 0%nat))) ErrNotFound).

Definition slot_of (record : ExecutionRecord) : string * string := (er_Adapter record, er_IdempotencyKey record).

(** The row of an execution, as [GetExecution] reads it back. *)
Definition execution_row (record : ExecutionRecord) : ExecutionRecord :=
  record <| er_Payload := decoded (er_Payload record) |> <| er_CreatedAt := column_time (er_CreatedAt record) |>
         <| er_UpdatedAt := column_time (er_UpdatedAt record) |>.

(** INSERT INTO executions *)
Definition insert_execution (record : ExecutionRecord) (db : Database) : result error (Database * unit) :=
  _ ← require (0 <? er_StateVersion record) check_violation;
  _ ← require (negb (bool_decide (is_Some (db_executions db !! slot_of record)) ||
                     taken_by (λ row, bool_decide (er_ID row = er_ID record)) (db_executions db))) unique_violation;
  _ ← references (er_RunID record) db;
  Ok (db <| db_executions := <[slot_of record := execution_row record]> (db_executions db) |>, tt).

(** [Store.GetExecution] *)
Definition select_execution (adapter idempotencyKey : string) (db : Database) : result error ExecutionRecord :=
  match db_executions db !! (adapter, idempotencyKey) with Some row => Ok row | None => Err ErrNotFound end.
Definition pg_GetExecution (adapter idempotencyKey : string) := query (select_execution adapter idempotencyKey).

(** [Store.ReserveExecution] *)
Definition reserve_execution_body (record : ExecutionRecord) (audit : AuditEvent) (outbox : OutboxEvent) (committed : Database) :
    SQL (ending (ExecutionRecord * bool)) :=
  on_violation_then (exec (insert_execution record))
    (existing ← select_pool committed (select_execution (er_Adapter record) (er_IdempotencyKey record));
     mret (Rollback (existing, false)))
    (_ ← insertEvents [audit] [outbox]; mret (Commit (record, true))).
Definition pg_ReserveExecution (record : ExecutionRecord) (audit : AuditEvent) (outbox : OutboxEvent)
    (faults : list (option fault)) (db : Database) : Database * result error (ExecutionRecord * bool) :=
  transact (reserve_execution_body (record <| er_Status := ExecutionReserved |> <| er_StateVersion := 1 |>) audit outbox db) faults db.

(** UPDATE executions: the number of rows it affected. *)
Definition update_execution (record : ExecutionRecord) (expectedVersion : Z) (db : Database) : result error (Database * nat) :=
  match db_executions db !! slot_of record with
  | Some row =>
      if er_StateVersion row =? expectedVersion then
        _ ← require (0 <? int64 (expectedVersion + 1)) check_violation;
        let row := row <| er_Status := er_Status record |> <| er_ExternalExecutionID := er_ExternalExecutionID record |>
                       <| er_Payload := decoded (er_Payload record) |> <| er_StateVersion := int64 (expectedVersion + 1) |>
                       <| er_UpdatedAt := column_time (er_UpdatedAt record) |> in
        Ok (db <| db_executions := <[slot_of record := row]> (db_executions db) |>, 1%nat)
      else Ok (db, 0%nat)
  | None => Ok (db, 0%nat)
  end.

(** [Store.CompleteExecution] *)
Definition complete_execution_body (record : ExecutionRecord) (expectedVersion : Z) (audit : AuditEvent) (outbox : OutboxEvent) :
    SQL (ending unit) :=
  rows ← exec (update_execution record expectedVersion);
  if bool_decide (rows = 0%nat) then sql_fail ErrConflict
  else _ ← insertEvents [audit] [outbox]; mret (Commit tt).
Definition pg_CompleteExecution (record : ExecutionRecord) (expectedVersion : Z) (audit : AuditEvent) (outbox : OutboxEvent) :
    list (option fault) → Database → Database * result error unit :=
  transact (complete_execution_body record expectedVersion audit outbox).

(** ** projection.go *)

(** The newest projection of a run: ORDER BY state_version DESC, where an event without a run
    sorts first and does not decode. *)
Definition newer_projection (a b : OutboxEvent) : bool :=
  match ob_PayloadRun a, ob_PayloadRun b with
  | Some a, Some b => run_StateVersion b <? run_StateVersion a
  | None, Some _ => true
  | _, None => false
  end.
Definition select_projection (runID : string) (db : Database) : result error ReleaseRun :=
  match sort_Slice newer_projection (scan (filter
          (λ e, ob_AggregateID e = runID ∧ ob_EventType e = "release.run.project") (map_to_list (db_outbox db)).*2)) with
  | [] => Err ErrNotFound
  | event :: _ => match ob_PayloadRun event with
                  | Some run => Ok run
                  | None => Err (ErrorNew "unexpected end of JSON input")
                  end
  end.

(** UPDATE release_runs ... WHERE id=$1 *)
Definition restore_run (run : ReleaseRun) (db : Database) : result error (Database * unit) :=
  match db_runs db !! run_ID run with
  | Some row =>
      _ ← require (in_bigint (run_StateVersion run)) out_of_range;
      _ ← require (0 <? run_StateVersion run) check_violation;
      let row := row <| rr_status := run_Status run |> <| rr_state_version := run_StateVersion run |>
                     <| rr_payload := run |> <| rr_updated_at := column_time (run_UpdatedAt run) |> in
      Ok (db <| db_runs := <[run_ID run := row]> (db_runs db) |>, tt)
  | None => Ok (db, tt)
  end.

(** [Store.RebuildProjection] *)
Definition pg_RebuildProjection (runID : string) (faults : list (option fault)) (db : Database) : Database * result error unit :=
  match query (select_projection runID) faults db with
  | Err err => (db, Err err)
  | Ok run => transact (_ ← exec (restore_run run); _ ← syncChildren run; mret (Commit tt)) (tail faults) db
  end.
End postgres.

(** ** Faults: all or nothing *)

(** A failure of the connection or of the server, not one of the answers the code looks for. *)
Definition outage (ft : option fault) : Prop :=
  match ft with Some ft => isUniqueViolation (ft_error ft) = false | None => True end.

(** With faults a piece of code fails, or does what it does without them. *)
Definition steady {A} (m : SQL A) : Prop := ∀ db faults c r, Forall outage faults →
  m {| cn_db := db; cn_faults := faults |} = (c, r) →
  Forall outage (cn_faults c) ∧ ∃ c0 r0, m {| cn_db := db; cn_faults := [] |} = (c0, r0) ∧ cn_faults c0 = [] ∧
  ((r = r0 ∧ cn_db c = cn_db c0) ∨ ∃ e, r = Err e ∧ isUniqueViolation e = false).

Lemma steady_ret {A} (a : A) : steady (mret a).
Proof. intros db fs c r Hf [= <- <-]. split; [done|]. eexists _, _. split; [reflexivity|]. split; [done|]. by left. Qed.

Lemma steady_fail {A} err : steady (A:=A) (sql_fail err).
Proof. intros db fs c r Hf [= <- <-]. split; [done|]. eexists _, _. split; [reflexivity|]. split; [done|]. by left. Qed.

Lemma steady_exec {A} (f : Database → result error (Database * A)) : steady (exec f).
Proof.
  intros db fs c r Hf. unfold exec. simpl.
  assert (Ht : Forall outage (tail fs)) by (destruct fs; [done|by inversion Hf]).
  destruct (head fs) as [[ft|]|] eqn:Hh.
  - intros [= <- <-]. split; [done|]. destruct (f db) as [[db' a]|err]; eexists _, _; (split; [reflexivity|]); (split; [done|]); right;
      exists (ft_error ft); (split; [done|]); destruct fs as [|ft' fs]; try done; injection Hh as ->; by inversion Hf.
  - destruct (f db) as [[db' a]|err]; intros [= <- <-]; (split; [done|]); eexists _, _; (split; [reflexivity|]); (split; [done|]); by left.
  - destruct (f db) as [[db' a]|err]; intros [= <- <-]; (split; [done|]); eexists _, _; (split; [reflexivity|]); (split; [done|]); by left.
Qed.

Lemma steady_bind {A B} (m : SQL A) (f : A → SQL B) : steady m → (∀ a, steady (f a)) → steady (m ≫= f).
Proof.
  intros Hm Hf db fs c r Hfs. unfold mbind, sql_bind. destruct (m {| cn_db := db; cn_faults := fs |}) as [c1 r1] eqn:Hm1.
  destruct (Hm db fs c1 r1 Hfs Hm1) as (Hfs1 & c0 & r0 & Hm0 & Hnil & Hcase). rewrite Hm0.
  destruct Hcase as [[-> Hdb]|(e & -> & He)].
  - destruct c0 as [db0 fs0], c1 as [db1 fs1]. simpl in *. subst. destruct r0 as [a|err].
    + intros Hrun. by apply (Hf a db0 fs1 c r Hfs1).
    + intros [= <- <-]. split; [done|]. eexists _, _. split; [reflexivity|]. split; [done|]. by left.
  - intros [= <- <-]. split; [done|]. destruct r0 as [a|err].
    + destruct c0 as [db0 fs0]. simpl in Hnil. subst. destruct (f a {| cn_db := db0; cn_faults := [] |}) as [c2 r2] eqn:H2.
      destruct (Hf a db0 [] c2 r2) as (_ & c3 & r3 & H3 & Hn3 & _); [done..|]. rewrite H2 in H3. injection H3 as <- <-.
      eexists _, _. split; [reflexivity|]. split; [done|]. right. by exists e.
    + eexists _, _. split; [reflexivity|]. split; [done|]. right. by exists e.
Qed.

Lemma steady_on_violation {A B} (m : SQL A) (h k : SQL B) : steady m → steady h → steady k → steady (on_violation_then m h k).
Proof.
  intros Hm Hh Hk db fs c r Hfs. unfold on_violation_then. destruct (m {| cn_db := db; cn_faults := fs |}) as [c1 r1] eqn:Hm1.
  destruct (Hm db fs c1 r1 Hfs Hm1) as (Hfs1 & c0 & r0 & Hm0 & Hnil & Hcase). rewrite Hm0.
  assert (Hnext : ∀ n : SQL B, steady n → ∃ c' r', n c0 = (c', r') ∧ cn_faults c' = []).
  { intros n Hn. destruct c0 as [db0 fs0]. simpl in Hnil. subst. destruct (n {| cn_db := db0; cn_faults := [] |}) as [c' r'] eqn:Hn'.
    destruct (Hn db0 [] c' r') as (_ & c3 & r3 & H3 & Hn3 & _); [done..|]. rewrite Hn' in H3. injection H3 as <- <-. eauto. }
  destruct Hcase as [[-> Hdb]|(e & -> & He)].
  - destruct c0 as [db0 fs0], c1 as [db1 fs1]. simpl in *. subst. destruct r0 as [a|err].
    + intros Hrun. by apply (Hk db0 fs1 c r Hfs1).
    + destruct (isUniqueViolation err) eqn:Herr.
      * intros Hrun. by apply (Hh db0 fs1 c r Hfs1).
      * intros [= <- <-]. split; [done|]. eexists _, _. split; [reflexivity|]. split; [done|]. by left.
  - rewrite He. intros [= <- <-]. split; [done|]. destruct r0 as [a|err].
    + destruct (Hnext k Hk) as (c' & r' & -> & Hn'). eexists _, _. split; [reflexivity|]. split; [done|]. right. by exists e.
    + destruct (isUniqueViolation err).
      * destruct (Hnext h Hh) as (c' & r' & -> & Hn'). eexists _, _. split; [reflexivity|]. split; [done|]. right. by exists e.
      * eexists _, _. split; [reflexivity|]. split; [done|]. right. by exists e.
Qed.

Lemma steady_each {A} (f : A → SQL unit) l : (∀ a, steady (f a)) → steady (sql_each f l).
Proof. intros Hf. induction l as [|x l IH]; simpl; [apply steady_ret|]. by apply steady_bind. Qed.

Create HintDb steady.
#[export] Hint Resolve steady_ret steady_fail steady_exec steady_bind steady_on_violation steady_each : steady.

(** A transaction has its whole effect or none; an error it reports may hide a commit. *)
Definition all_or_nothing {R} (op : list (option fault) → Database → Database * result error R) : Prop :=
  ∀ faults db db' r, Forall outage faults → op faults db = (db', r) →
  (db', r) = op [] db ∨ (∃ e, r = Err e) ∧ (db' = db ∨ db' = fst (op [] db)).

Lemma transact_atomic {R} (body : SQL (ending R)) : steady body → all_or_nothing (transact body).
Proof.
  intros Hb fs db db' r Hfs. unfold transact.
  assert (Hs : steady (_ ← exec (λ db, Ok (db, tt)); body)) by auto with steady.
  destruct ((_ ← exec (λ db, Ok (db, tt)); body) {| cn_db := db; cn_faults := fs |}) as [c o] eqn:Hrun.
  destruct (Hs db fs c o Hfs Hrun) as (_ & c0 & o0 & -> & Hnil & [[-> Hdb]|(e & -> & _)]).
  - rewrite Hnil. destruct o0 as [[x|x]|err]; simpl.
    + destruct (head (cn_faults c)) as [[ft|]|]; intros [= <- <-]; [right|left; by rewrite Hdb..].
      split; [by eexists|]. destruct (ft_applied ft); [right|left]; done.
    + intros [= <- <-]. by left.
    + intros [= <- <-]. by left.
  - intros [= <- <-]. right. split; [by eexists|]. by left.
Qed.

Lemma autocommit_atomic {R} (f : Database → result error (Database * R)) : all_or_nothing (autocommit f).
Proof.
  intros fs db db' r _. unfold autocommit. destruct (f db) as [[db1 x]|err]; simpl; destruct (head fs) as [[ft|]|];
    intros [= <- <-]; try (by left); right; (split; [by eexists|]); [|by left]. destruct (ft_applied ft); [right|left]; done.
Qed.

(** ** The schema

    What the constraints of the migrations and the statements keep true of the tables. *)

Definition has_run (runs : gmap string RunRow) (id : string) : Prop := is_Some (runs !! id).

Record runs_ok (runs : gmap string RunRow) : Prop := {
  runs_payload id row : runs !! id = Some row →
    run_ID (rr_payload row) = id ∧ run_StateVersion (rr_payload row) = rr_state_version row ∧ 0 < rr_state_version row < 2 ^ 63;
  runs_request id1 id2 row1 row2 : runs !! id1 = Some row1 → runs !! id2 = Some row2 →
    rr_request_id row1 = rr_request_id row2 → id1 = id2;
  runs_workflow id1 id2 row1 row2 : runs !! id1 = Some row1 → runs !! id2 = Some row2 →
    rr_workflow_id row1 = rr_workflow_id row2 → id1 = id2;
}.

(** Steps, policy decisions and approvals belong to runs. *)
Record children_ok (runs : gmap string RunRow) (db : Database) : Prop := {
  children_steps key row : db_steps db !! key = Some row → has_run runs key.1 ∧ 0 <= sw_phase row;
  children_policies id row : db_policies db !! id = Some row → has_run runs (pw_run_id row);
  children_approvals id row : db_approvals db !! id = Some row → has_run runs (aw_run_id row);
}.

Record executions_ok (runs : gmap string RunRow) (executions : gmap (string * string) ExecutionRecord) : Prop := {
  executions_slot slot row : executions !! slot = Some row →
    slot_of row = slot ∧ has_run runs (er_RunID row) ∧ 0 < er_StateVersion row < 2 ^ 63;
  executions_id slot1 slot2 row1 row2 : executions !! slot1 = Some row1 → executions !! slot2 = Some row2 →
    er_ID row1 = er_ID row2 → slot1 = slot2;
}.

Record journal_ok (journal : gmap (string * string * string) RunnerActionRecord) : Prop := {
  journal_rows key row : journal !! key = Some row → journal_key row = key ∧ 0 < ra_StateVersion row < 2 ^ 63;
  journal_actions key1 key2 row1 row2 : journal !! key1 = Some row1 → journal !! key2 = Some row2 →
    same_action row1 row2 = true → key1 = key2;
}.

Record schema (db : Database) : Prop := {
  schema_runs : runs_ok (db_runs db);
  schema_children : children_ok (db_runs db) db;
  schema_executions : executions_ok (db_runs db) (db_executions db);
  schema_journal : journal_ok (db_journal db);
  schema_audit : NoDup (ae_ID <$> db_audit db);
  schema_outbox id event : db_outbox db !! id = Some event → ob_ID event = id ∧ 0 <= ob_Attempts event;
}.

(** *** What no method takes back *)

(** Every row of a table is still there, changed at most as [R] says. *)
Definition keeps {K A} `{Countable K} (R : A → A → Prop) (rows rows' : gmap K A) : Prop :=
  ∀ k a, rows !! k = Some a → ∃ a', rows' !! k = Some a' ∧ R a a'.

#[export] Instance keeps_preorder {K A} `{Countable K} (R : A → A → Prop) `{!PreOrder R} : PreOrder (keeps (K:=K) R).
Proof.
  split; [by intros rows k a Ha; exists a|].
  intros rows1 rows2 rows3 H12 H23 k a Ha. destruct (H12 _ _ Ha) as (a2 & Ha2 & R12).
  destruct (H23 _ _ Ha2) as (a3 & Ha3 & R23). exists a3. split; [done|by etrans].
Qed.

Lemma keeps_insert {K A} `{Countable K} (R : A → A → Prop) `{!PreOrder R} (rows : gmap K A) k b :
  (∀ a, rows !! k = Some a → R a b) → keeps R rows (<[k := b]> rows).
Proof.
  intros Hb k' a Ha. destruct (decide (k' = k)) as [->|Hne].
  - rewrite lookup_insert_eq. eauto.
  - rewrite lookup_insert_ne by done. by exists a.
Qed.

(** The columns [f] of a row never change. *)
Definition same_by {A B} (f : A → B) (a a' : A) : Prop := f a' = f a.

#[export] Instance same_by_preorder {A B} (f : A → B) : PreOrder (same_by f).
Proof. split; [done|]. unfold same_by. intros a b c. congruence. Qed.

(** A row changes only with a higher version. *)
Definition versioned {A} (version : A → Z) (a a' : A) : Prop := a' = a ∨ version a < version a'.

#[export] Instance versioned_preorder {A} (version : A → Z) : PreOrder (versioned version).
Proof. split; [by left|]. intros a b c [->|?] [->|?]; unfold versioned; auto with lia. Qed.

(** An event changes only once, when it is published. *)
Definition marked (e e' : OutboxEvent) : Prop :=
  e' = e ∨ ob_PublishedAt e = None ∧
    ∃ t, e' = e <| ob_PublishedAt := Some t |> <| ob_Attempts := ob_Attempts e + 1 |>.

#[export] Instance marked_preorder : PreOrder marked.
Proof.
  split; [by left|]. intros e1 e2 e3 [->|(H1 & t1 & ->)] [->|(H2 & t2 & ->)]; unfold marked; eauto 10. done.
Qed.

(** What a run, an approval, an execution and a journal entry are for: every column but the ones
    the UPDATE statements set. *)
Definition run_columns (row : RunRow) :=
  (rr_request_id row, rr_workflow_id row, rr_release_version row, rr_environment row, rr_requested_by row,
   rr_created_at row).
Definition approval_columns (row : ApprovalRow) :=
  (aw_run_id row, aw_service row, (aw_approval row) <| ap_Status := ApprovalPending |> <| ap_DecidedBy := "" |>
                                                  <| ap_DecidedAt := None |>).
Definition execution_columns (row : ExecutionRecord) :=
  (er_ID row, er_RunID row, er_Service row, er_Adapter row, er_IdempotencyKey row, er_CreatedAt row).
Definition journal_columns (row : RunnerActionRecord) :=
  (journal_key row, (ra_GrantID row, ra_RunID row, ra_StepID row),
   (ra_IdempotencyKey row, ra_RequestHash row, ra_Target row, ra_Action row, ra_CreatedAt row)).

(** No row is deleted; rows keep what they are for, policy decisions never change, an outbox event
    changes only when it is published, and the audit trail only grows. *)
Record grows (db db' : Database) : Prop := {
  grows_runs : keeps (same_by run_columns) (db_runs db) (db_runs db');
  grows_steps : keeps (same_by sw_environment) (db_steps db) (db_steps db');
  grows_policies : keeps (=) (db_policies db) (db_policies db');
  grows_approvals : keeps (same_by approval_columns) (db_approvals db) (db_approvals db');
  grows_executions : keeps (same_by execution_columns) (db_executions db) (db_executions db');
  grows_journal : keeps (same_by journal_columns) (db_journal db) (db_journal db');
  grows_outbox : keeps marked (db_outbox db) (db_outbox db');
  grows_plans : keeps (λ _ _, True) (db_plans db) (db_plans db');
  grows_audit : db_audit db `prefix_of` db_audit db';
}.

#[local] Instance any_preorder A : PreOrder (λ _ _ : A, True).
Proof. by split. Qed.

#[export] Instance grows_preorder : PreOrder grows.
Proof.
  split; [intros db; by split|]. intros db1 db2 db3 [] []. split; by etrans.
Qed.

(** Optimistic concurrency: a change to an execution or a journal entry raises its version, and so does
    a change to a run while no projection is rebuilt ([live]). *)
Record advances (live : bool) (db db' : Database) : Prop := {
  advances_runs : live = true → keeps (versioned rr_state_version) (db_runs db) (db_runs db');
  advances_executions : keeps (versioned er_StateVersion) (db_executions db) (db_executions db');
  advances_journal : keeps (versioned ra_StateVersion) (db_journal db) (db_journal db');
}.

#[export] Instance advances_preorder live : PreOrder (advances live).
Proof.
  split; [intros db; by split|]. intros db1 db2 db3 [R1 E1 J1] [R2 E2 J2].
  split; [intros Hl; etrans; [by apply R1|by apply R2]|by etrans..].
Qed.

(** A step that keeps the schema, loses nothing and raises versions. *)
Definition sound (live : bool) (db db' : Database) : Prop :=
  (schema db → schema db' ∧ advances live db db') ∧ grows db db'.

Section sound.
Context {live : bool}.

Lemma sound_refl db : sound live db db.
Proof. by split. Qed.

Lemma sound_trans db1 db2 db3 : sound live db1 db2 → sound live db2 db3 → sound live db1 db3.
Proof.
  intros [H12 G12] [H23 G23]. split; [|by etrans]. intros H1. destruct (H12 H1) as [H2 A12].
  destruct (H23 H2) as [H3 A23]. split; [done|by etrans].
Qed.

Definition sound_statement {A} (f : Database → result error (Database * A)) : Prop :=
  ∀ db db' a, f db = Ok (db', a) → sound live db db'.

(** Code made of sound statements. *)
Definition sound_code {A} (m : SQL A) : Prop := ∀ c, sound live (cn_db c) (cn_db (fst (m c))).

Lemma sound_ret {A} (a : A) : sound_code (mret a).
Proof. intros c. apply sound_refl. Qed.

Lemma sound_fail {A} err : sound_code (A:=A) (sql_fail err).
Proof. intros c. apply sound_refl. Qed.

Lemma sound_exec {A} (f : Database → result error (Database * A)) : sound_statement f → sound_code (exec f).
Proof.
  intros Hf c. unfold exec. destruct (head (cn_faults c)) as [[ft|]|]; [apply sound_refl|..];
    (destruct (f (cn_db c)) as [[db a]|err] eqn:Hr; [by eapply Hf|apply sound_refl]).
Qed.

Lemma sound_bind {A B} (m : SQL A) (f : A → SQL B) : sound_code m → (∀ a, sound_code (f a)) → sound_code (m ≫= f).
Proof.
  intros Hm Hf c. specialize (Hm c). unfold mbind, sql_bind. destruct (m c) as [c1 [a|err]]; [|done].
  eapply sound_trans; [exact Hm|apply Hf].
Qed.

Lemma sound_on_violation {A B} (m : SQL A) (h k : SQL B) :
  sound_code m → sound_code h → sound_code k → sound_code (on_violation_then m h k).
Proof.
  intros Hm Hh Hk c. specialize (Hm c). unfold on_violation_then. destruct (m c) as [c1 [a|err]].
  - eapply sound_trans; [exact Hm|apply Hk].
  - destruct (isUniqueViolation err); [eapply sound_trans; [exact Hm|apply Hh]|done].
Qed.

Lemma sound_each {A} (f : A → SQL unit) l : (∀ a, sound_code (f a)) → sound_code (sql_each f l).
Proof. intros Hf. induction l as [|x l IH]; simpl; [apply sound_ret|]. by apply sound_bind. Qed.

Lemma sound_select {A} (f : Database → result error A) : sound_statement (λ db, r ← f db; Ok (db, r)).
Proof. intros db db' a. simpl. destruct (f db); [|done]. intros [= <- <-]. apply sound_refl. Qed.

Lemma sound_select_pool {A} committed (f : Database → result error A) : sound_statement (λ db, r ← f committed; Ok (db, r)).
Proof. intros db db' a. simpl. destruct (f committed); [|done]. intros [= <- <-]. apply sound_refl. Qed.

Lemma sound_begin : sound_statement (λ db, Ok (db, tt)).
Proof. intros db db' a [= <- <-]. apply sound_refl. Qed.

#[local] Hint Resolve sound_exec sound_bind sound_begin : steady.

Lemma transact_sound {R} (body : SQL (ending R)) faults db : sound_code body → sound live db (fst (transact body faults db)).
Proof.
  intros Hb. unfold transact. assert (Hs : sound_code (_ ← exec (λ db, Ok (db, tt)); body)) by auto with steady.
  specialize (Hs {| cn_db := db; cn_faults := faults |}).
  destruct ((_ ← exec (λ db, Ok (db, tt)); body) _) as [c [[x|x]|err]]; simpl in *; [|apply sound_refl..].
  destruct (head (cn_faults c)) as [[ft|]|]; [destruct (ft_applied ft)|..]; try done; apply sound_refl.
Qed.

Lemma autocommit_sound {R} (f : Database → result error (Database * R)) faults db :
  sound_statement f → sound live db (fst (autocommit f faults db)).
Proof.
  intros Hf. unfold autocommit. destruct (f db) as [[db' x]|err] eqn:Hr; [|apply sound_refl].
  destruct (head faults) as [[ft|]|]; simpl; [destruct (ft_applied ft); [|apply sound_refl]|..]; by eapply Hf.
Qed.

End sound.

Arguments sound_statement live {A} f.
Arguments sound_code live {A} m.
#[export] Hint Resolve sound_ret sound_fail sound_exec sound_bind sound_on_violation sound_each sound_select
  sound_select_pool sound_begin : steady.

(** *** Statements *)

Lemma require_bind {A} b e (k : result error A) a : (_ ← require b e; k) = Ok a ↔ b = true ∧ k = Ok a.
Proof. unfold require. destruct b; simpl; naive_solver. Qed.

Lemma taken_by_false {K A} `{Countable K} (P : A → bool) (rows : gmap K A) k a :
  taken_by P rows = false → rows !! k = Some a → P a = false.
Proof.
  unfold taken_by. intros Hf Hk. apply not_true_is_false. intros Hp. apply not_true_iff_false in Hf. apply Hf.
  apply existsb_exists. exists a. split; [|done]. apply list_elem_of_In, list_elem_of_fmap. exists (k, a). split; [done|].
  by apply elem_of_map_to_list.
Qed.

Lemma has_run_insert (runs : gmap string RunRow) id row other : has_run runs other → has_run (<[id:=row]> runs) other.
Proof. unfold has_run. intros Ho. apply lookup_insert_is_Some'. by right. Qed.

Lemma int64_below z : int64 z < 2 ^ 63.
Proof. pose proof (int64_range z) as H. unfold in_int64, int64_max in H. lia. Qed.

(** The next version of a row whose version fits its column. *)
Lemma next_version v : 0 < v < 2 ^ 63 → 0 < int64 (v + 1) → v < int64 (v + 1) < 2 ^ 63.
Proof.
  intros Hv Hp. destruct (decide (v + 1 < 2 ^ 63)) as [Hlt|Hge].
  - rewrite int64_id; [lia|]. unfold in_int64, int64_min, int64_max. lia.
  - replace (v + 1) with (2 ^ 63) in Hp by lia. by vm_compute in Hp.
Qed.

(** A statement that writes one row of release_runs. *)
Lemma sound_runs live db id row :
  (runs_ok (db_runs db) → runs_ok (<[id := row]> (db_runs db))) →
  (∀ old, db_runs db !! id = Some old → run_columns row = run_columns old) →
  (∀ old, live = true → runs_ok (db_runs db) → db_runs db !! id = Some old → rr_state_version old < rr_state_version row) →
  sound live db (db <| db_runs := <[id := row]> (db_runs db) |>).
Proof.
  intros Hr Hcols Hver. split.
  - intros [H1 [C1 C2 C3] [E1 E2] H4 H5 H6]. split; split; simpl; auto; try done.
    + split; simpl; intros.
      * destruct (C1 key row0) as [? ?]; [done|]. split; [by apply has_run_insert|done].
      * eapply has_run_insert, C2. done.
      * eapply has_run_insert, C3. done.
    + split; [|exact E2]. intros slot r Hs. destruct (E1 slot r Hs) as (? & ? & ?). split; [done|].
      split; [by apply has_run_insert|done].
    + intros Hl. apply keeps_insert; [apply _|]. intros old Hold. right. by apply Hver.
  - split; simpl; try done. apply keeps_insert; [apply _|]. intros old Hold. by apply Hcols.
Qed.

(** Replacing a run keeps its request and workflow. *)
Lemma runs_ok_update runs id row row' :
  runs !! id = Some row → rr_request_id row' = rr_request_id row → rr_workflow_id row' = rr_workflow_id row →
  run_ID (rr_payload row') = id → run_StateVersion (rr_payload row') = rr_state_version row' → 0 < rr_state_version row' < 2 ^ 63 →
  runs_ok runs → runs_ok (<[id := row']> runs).
Proof.
  intros Hid Hreq Hwf Hi Hv Hp [R1 R2 R3].
  assert (Hold : ∀ i r, <[id := row']> runs !! i = Some r → ∃ r0, runs !! i = Some r0 ∧
    rr_request_id r = rr_request_id r0 ∧ rr_workflow_id r = rr_workflow_id r0).
  { intros i r. rewrite lookup_insert_Some. intros [[<- <-]|[_ Hr]]; eauto. }
  split.
  - intros i r. rewrite lookup_insert_Some. intros [[<- <-]|[_ Hr]]; [done|by apply R1].
  - intros i1 i2 r1 r2 H1 H2 Heq. destruct (Hold _ _ H1) as (s1 & ? & ? & ?), (Hold _ _ H2) as (s2 & ? & ? & ?).
    eapply R2; [done..|congruence].
  - intros i1 i2 r1 r2 H1 H2 Heq. destruct (Hold _ _ H1) as (s1 & ? & ? & ?), (Hold _ _ H2) as (s2 & ? & ? & ?).
    eapply R3; [done..|congruence].
Qed.

Lemma runs_ok_insert runs id row :
  (∀ i r, runs !! i = Some r → rr_request_id r ≠ rr_request_id row ∧ rr_workflow_id r ≠ rr_workflow_id row) →
  run_ID (rr_payload row) = id → run_StateVersion (rr_payload row) = rr_state_version row → 0 < rr_state_version row < 2 ^ 63 →
  runs_ok runs → runs_ok (<[id := row]> runs).
Proof.
  intros Hnew Hi Hv Hp [R1 R2 R3]. split.
  - intros i r. rewrite lookup_insert_Some. intros [[<- <-]|[_ Hr]]; [done|by apply R1].
  - intros i1 i2 r1 r2. rewrite !lookup_insert_Some. intros [[<- <-]|[? H1]] [[<- <-]|[? H2]] Heq; [done|..].
    + destruct (Hnew _ _ H2) as [[] _]. done.
    + destruct (Hnew _ _ H1) as [[] _]. done.
    + by eapply R2.
  - intros i1 i2 r1 r2. rewrite !lookup_insert_Some. intros [[<- <-]|[? H1]] [[<- <-]|[? H2]] Heq; [done|..].
    + destruct (Hnew _ _ H2) as [_ []]. done.
    + destruct (Hnew _ _ H1) as [_ []]. done.
    + by eapply R3.
Qed.

Section statements.
Context `{!RowOrder} (column_time : time → time).

Lemma insert_run_sound live run : sound_statement live (insert_run column_time run).
Proof.
  intros db db' []. unfold insert_run. rewrite !require_bind. intros (Hb & Hv & Hu & [= <-]).
  unfold in_bigint in Hb. apply negb_true_iff, orb_false_iff in Hu as [Hfree Hu]. apply bool_decide_eq_false in Hfree.
  apply sound_runs.
  - apply runs_ok_insert; simpl; [|done|done|lia].
    intros i r Hr. pose proof (taken_by_false _ _ _ _ Hu Hr) as Hf. simpl in Hf. apply orb_false_iff in Hf as [H1 H2].
    by apply bool_decide_eq_false in H1, H2.
  - intros old Ho. destruct Hfree. by eexists.
  - intros old _ _ Ho. destruct Hfree. by eexists.
Qed.

(** The run comes with the version that follows the expected one. *)
Lemma update_run_sound live run v :
  run_StateVersion run = int64 (v + 1) → sound_statement live (update_run column_time run v).
Proof.
  intros Hnext db db' n. unfold update_run.
  destruct (db_runs db !! run_ID run) as [row|] eqn:Hr; [|by intros [= <- <-]; apply sound_refl].
  destruct (Z.eqb_spec (rr_state_version row) v) as [Hv|]; [|by intros [= <- <-]; apply sound_refl].
  rewrite require_bind. intros [Hp [= <- <-]].
  pose proof (int64_below (v + 1)). apply sound_runs.
  - eapply runs_ok_update; [exact Hr|done..|]. simpl. lia.
  - intros old. rewrite Hr. by intros [= <-].
  - intros old _ [R1 _ _]. rewrite Hr. intros [= <-]. destruct (R1 _ _ Hr) as (_ & _ & Hrange). simpl. rewrite Hnext.
    subst v. apply next_version; [done|lia].
Qed.

Lemma restore_run_sound run : sound_statement false (restore_run column_time run).
Proof.
  intros db db' n. unfold restore_run. destruct (db_runs db !! run_ID run) as [row|] eqn:Hr; [|by intros [= <- <-]; apply sound_refl].
  rewrite !require_bind. intros (Hb & Hp & [= <- <-]). unfold in_bigint in Hb. apply sound_runs; [| |done].
  - eapply runs_ok_update; [exact Hr|done..|]. simpl. lia.
  - intros old. rewrite Hr. by intros [= <-].
Qed.

(** A statement that writes a child row or a plan. *)
Lemma sound_children live db db' :
  db_runs db' = db_runs db → db_executions db' = db_executions db → db_journal db' = db_journal db →
  db_audit db' = db_audit db → db_outbox db' = db_outbox db →
  keeps (same_by sw_environment) (db_steps db) (db_steps db') → keeps (=) (db_policies db) (db_policies db') →
  keeps (same_by approval_columns) (db_approvals db) (db_approvals db') → keeps (λ _ _, True) (db_plans db) (db_plans db') →
  (children_ok (db_runs db) db → children_ok (db_runs db) db') → sound live db db'.
Proof.
  intros Hr He Hj Ha Ho Hst Hpo Hap Hpl Hc. split.
  - intros [H1 H2 H3 H4 H5 H6]. split; split; rewrite ?Hr, ?He, ?Hj, ?Ha, ?Ho; auto; done.
  - split; rewrite ?Hr, ?He, ?Hj, ?Ha, ?Ho; done.
Qed.

Lemma references_bind {A} runID db (k : result error A) a :
  (_ ← references runID db; k) = Ok a ↔ has_run (db_runs db) runID ∧ k = Ok a.
Proof. unfold references, has_run. rewrite require_bind, bool_decide_eq_true. done. Qed.

Lemma upsert_step_sound live run step : sound_statement live (upsert_step column_time run step).
Proof.
  intros db db' []. unfold upsert_step. rewrite !require_bind, references_bind. intros (_ & Hc & Hrun & [= <-]).
  apply sound_children; try done.
  - apply keeps_insert; [apply _|]. intros old Hold. unfold same_by. cbn [sw_environment]. by rewrite Hold.
  - intros [C1 C2 C3]. split; [|exact C2|exact C3]. simpl. intros key row.
    rewrite lookup_insert_Some. intros [[<- <-]|[_ Hr]]; [split; [done|simpl; lia]|by apply C1].
Qed.

Lemma insert_policy_sound live run step policy : sound_statement live (insert_policy column_time run step policy).
Proof.
  intros db db' []. unfold insert_policy. destruct (db_policies db !! _) eqn:Hfree; [by intros [= <-]; apply sound_refl|].
  rewrite references_bind. intros (Hrun & [= <-]). apply sound_children; try done.
  - apply keeps_insert; [apply _|]. intros old. by rewrite Hfree.
  - intros [C1 C2 C3]. split; [exact C1| |exact C3]. simpl. intros id row. rewrite lookup_insert_Some.
    intros [[<- <-]|[_ Hr]]; [done|by eapply C2].
Qed.

Lemma upsert_approval_sound live run step approval : sound_statement live (upsert_approval column_time run step approval).
Proof.
  intros db db' []. unfold upsert_approval. rewrite require_bind. intros [_ Hk]. revert Hk.
  destruct (db_approvals db !! ap_ID approval) as [old|] eqn:Hold.
  - intros [= <-]. apply sound_children; try done.
    + apply keeps_insert; [apply _|]. intros old'. rewrite Hold. by intros [= <-].
    + intros [C1 C2 C3]. split; [exact C1|exact C2|]. simpl.
      intros id row. rewrite lookup_insert_Some. intros [[<- <-]|[_ Hr]]; [simpl; by eapply C3|by eapply C3].
  - rewrite references_bind. intros (Hrun & [= <-]). apply sound_children; try done.
    + apply keeps_insert; [apply _|]. intros old'. by rewrite Hold.
    + intros [C1 C2 C3]. split; [exact C1|exact C2|]. simpl. intros id row. rewrite lookup_insert_Some.
      intros [[<- <-]|[_ Hr]]; [done|by eapply C3].
Qed.

Lemma insert_audit_sound live event : sound_statement live (insert_audit column_time event).
Proof.
  intros db db' []. unfold insert_audit. rewrite require_bind, negb_true_iff, bool_decide_eq_false. intros (Hn & [= <-]).
  split.
  - intros [H1 [C1 C2 C3] H3 H4 H5 H6]. split; [|by split]. split; simpl; auto; [by split|].
    rewrite fmap_app. apply NoDup_app. split; [done|]. split; [|apply NoDup_singleton].
    intros id Hin ->%list_elem_of_singleton. done.
  - split; simpl; try done. by eexists.
Qed.

(** A statement that writes an outbox event. *)
Lemma sound_outbox live db id event :
  (schema db → ob_ID event = id ∧ 0 <= ob_Attempts event) → (∀ old, db_outbox db !! id = Some old → marked old event) →
  sound live db (db <| db_outbox := <[id := event]> (db_outbox db) |>).
Proof.
  intros Hev Hold. split.
  - intros Hs. pose proof (Hev Hs). destruct Hs as [H1 [C1 C2 C3] H3 H4 H5 H6]. split; [|by split].
    split; simpl; auto; [by split|]. intros id' e. rewrite lookup_insert_Some.
    intros [[<- <-]|[_ Hr]]; [done|by apply H6].
  - split; simpl; try done. apply keeps_insert; [apply _|]. exact Hold.
Qed.

Lemma insert_outbox_sound live event : sound_statement live (insert_outbox column_time event).
Proof.
  intros db db' []. unfold insert_outbox. rewrite !require_bind, negb_true_iff, bool_decide_eq_false.
  intros (_ & Ha & Hfree & [= <-]). apply sound_outbox; [split; [done|simpl; lia]|].
  intros old Ho. destruct Hfree. by eexists.
Qed.

Lemma mark_statement_sound live id t : sound_statement live (mark_statement column_time id t).
Proof.
  intros db db' n. unfold mark_statement. destruct (db_outbox db !! id) as [event|] eqn:He; [|by intros [= <- <-]; apply sound_refl].
  destruct (bool_decide (ob_PublishedAt event = None)) eqn:Hp; [|by intros [= <- <-]; apply sound_refl].
  rewrite require_bind. intros [_ [= <- <-]]. apply bool_decide_eq_true in Hp.
  apply sound_outbox.
  - intros Hs. destruct (schema_outbox _ Hs _ _ He) as [Hi Ha]. split; [done|simpl; lia].
  - intros old. rewrite He. intros [= <-]. right. eauto.
Qed.

(** A statement that writes an execution. *)
Lemma sound_executions live db slot row :
  (executions_ok (db_runs db) (db_executions db) → executions_ok (db_runs db) (<[slot := row]> (db_executions db))) →
  (∀ old, db_executions db !! slot = Some old → execution_columns row = execution_columns old) →
  (∀ old, executions_ok (db_runs db) (db_executions db) → db_executions db !! slot = Some old →
     er_StateVersion old < er_StateVersion row) →
  sound live db (db <| db_executions := <[slot := row]> (db_executions db) |>).
Proof.
  intros He Hcols Hver. split.
  - intros [H1 [C1 C2 C3] H3 H4 H5 H6]. split; split; simpl; auto; try done.
    apply keeps_insert; [apply _|]. intros old Hold. right. by apply Hver.
  - split; simpl; try done. apply keeps_insert; [apply _|]. exact Hcols.
Qed.

Lemma insert_execution_sound live record :
  er_StateVersion record < 2 ^ 63 → sound_statement live (insert_execution column_time record).
Proof.
  intros Hb db db' []. unfold insert_execution. rewrite !require_bind, references_bind. intros (Hv & Hu & Hrun & [= <-]).
  apply negb_true_iff, orb_false_iff in Hu as [Hfree Hu]. apply bool_decide_eq_false in Hfree. apply sound_executions.
  - intros [E1 E2]. split.
    + intros slot r. rewrite lookup_insert_Some. intros [[<- <-]|[_ Hr]]; [|by apply E1]. split_and!; [done|done|simpl; lia..].
    + assert (Hid : ∀ slot r, db_executions db !! slot = Some r → er_ID r ≠ er_ID record).
      { intros slot r Hr. pose proof (taken_by_false _ _ _ _ Hu Hr) as Hf. by apply bool_decide_eq_false in Hf. }
      intros s1 s2 r1 r2. rewrite !lookup_insert_Some. intros [[<- <-]|[? Hr1]] [[<- <-]|[? Hr2]] Heq; [done|..].
      * destruct (Hid _ _ Hr2). done.
      * destruct (Hid _ _ Hr1). done.
      * by eapply E2.
  - intros old Ho. destruct Hfree. by eexists.
  - intros old _ Ho. destruct Hfree. by eexists.
Qed.

Lemma update_execution_sound live record v : sound_statement live (update_execution column_time record v).
Proof.
  intros db db' n. unfold update_execution.
  destruct (db_executions db !! slot_of record) as [row|] eqn:Hr; [|by intros [= <- <-]; apply sound_refl].
  destruct (Z.eqb_spec (er_StateVersion row) v) as [Hv|]; [|by intros [= <- <-]; apply sound_refl].
  rewrite require_bind. intros [Hp [= <- <-]]. pose proof (int64_below (v + 1)).
  apply sound_executions.
  - intros [E1 E2]. destruct (E1 _ _ Hr) as (Hs & Hrun & _). split.
    + intros slot r. rewrite lookup_insert_Some. intros [[<- <-]|[_ Hr']]; [|by apply E1]. split_and!; [done|done|simpl; lia..].
    + intros s1 s2 r1 r2. rewrite !lookup_insert_Some. intros [[<- <-]|[? Hr1]] [[<- <-]|[? Hr2]] Heq; [done|by eapply E2..].
  - intros old. rewrite Hr. by intros [= <-].
  - intros old [E1 _]. rewrite Hr. intros [= <-]. destruct (E1 _ _ Hr) as (_ & _ & Hrange). subst v.
    apply next_version; [done|lia].
Qed.

(** A statement that writes a journal entry. *)
Lemma sound_journal live db key row :
  (journal_ok (db_journal db) → journal_ok (<[key := row]> (db_journal db))) →
  (∀ old, db_journal db !! key = Some old → journal_columns row = journal_columns old) →
  (∀ old, journal_ok (db_journal db) → db_journal db !! key = Some old → ra_StateVersion old < ra_StateVersion row) →
  sound live db (db <| db_journal := <[key := row]> (db_journal db) |>).
Proof.
  intros He Hcols Hver. split.
  - intros [H1 [C1 C2 C3] H3 H4 H5 H6]. split; split; simpl; auto; try done.
    apply keeps_insert; [apply _|]. intros old Hold. right. by apply Hver.
  - split; simpl; try done. apply keeps_insert; [apply _|]. exact Hcols.
Qed.

Lemma same_action_true record row : same_action record row = true ↔
  ra_TenantID row = ra_TenantID record ∧ ra_RunnerGroup row = ra_RunnerGroup record ∧ ra_IdempotencyKey row = ra_IdempotencyKey record.
Proof. unfold same_action. rewrite !andb_true_iff, !bool_decide_eq_true. tauto. Qed.

Lemma insert_action_sound live record :
  ra_StateVersion record < 2 ^ 63 → sound_statement live (insert_action column_time record).
Proof.
  intros Hb db db' r. unfold insert_action. rewrite require_bind, andb_true_iff. intros [[_ Hv] Hk]. revert Hk.
  destruct (bool_decide _ || _) eqn:Hu; [intros [= <- <-]; apply sound_refl|]. intros [= <- <-].
  apply orb_false_iff in Hu as [Hfree Hu]. apply bool_decide_eq_false in Hfree.
  assert (Hno : ∀ k r, db_journal db !! k = Some r → same_action record r = true → False).
  { intros k r Hr. by rewrite (taken_by_false _ _ _ _ Hu Hr). }
  apply sound_journal.
  - intros [J1 J2]. split.
    + intros k r. rewrite lookup_insert_Some. intros [[<- <-]|[_ Hr]]; [split; [done|simpl; lia]|by apply J1].
    + intros k1 k2 r1 r2. rewrite !lookup_insert_Some, same_action_true.
      intros [[<- <-]|[? Hr1]] [[<- <-]|[? Hr2]] (Ht & Hg & Hk); [done|..].
      * destruct (Hno _ _ Hr2). by apply same_action_true.
      * destruct (Hno _ _ Hr1). by apply same_action_true.
      * eapply J2; [done..|]. by apply same_action_true.
  - intros old Ho. destruct Hfree. by eexists.
  - intros old _ Ho. destruct Hfree. by eexists.
Qed.

Lemma update_action_sound live record v : sound_statement live (update_action column_time record v).
Proof.
  intros db db' n. unfold update_action.
  destruct (db_journal db !! journal_key record) as [row|] eqn:Hr; [|by intros [= <- <-]; apply sound_refl].
  destruct (Z.eqb_spec (ra_StateVersion row) v) as [Hv|]; [|by intros [= <- <-]; apply sound_refl].
  rewrite require_bind, andb_true_iff. intros [[_ Hp] [= <- <-]]. pose proof (int64_below (v + 1)). apply sound_journal.
  - intros [J1 J2]. destruct (J1 _ _ Hr) as [Hkey _]. split.
    + intros k r. rewrite lookup_insert_Some. intros [[<- <-]|[_ Hr']]; [split; [done|simpl; lia]|by apply J1].
    + intros k1 k2 r1 r2. rewrite !lookup_insert_Some, same_action_true.
      intros [[<- <-]|[? Hr1]] [[<- <-]|[? Hr2]] Hs; [done|..]; (eapply J2; [done..|]); by apply same_action_true.
  - intros old. rewrite Hr. by intros [= <-].
  - intros old [J1 _]. rewrite Hr. intros [= <-]. destruct (J1 _ _ Hr) as [_ Hrange]. subst v.
    apply next_version; [done|lia].
Qed.

#[local] Hint Resolve insert_run_sound update_run_sound restore_run_sound upsert_step_sound insert_policy_sound
  upsert_approval_sound insert_audit_sound insert_outbox_sound insert_execution_sound update_execution_sound
  insert_action_sound update_action_sound : steady.

(** *** Methods *)

Lemma syncChildren_code run : steady (syncChildren column_time run) ∧ ∀ live, sound_code live (syncChildren column_time run).
Proof.
  unfold syncChildren, sync_step. split; [apply steady_each|intros live; apply sound_each]; intros step;
    destruct (st_Policy step), (st_Approval step); auto 10 with steady.
Qed.

Lemma insertEvents_code audits outbox :
  steady (insertEvents column_time audits outbox) ∧ ∀ live, sound_code live (insertEvents column_time audits outbox).
Proof. unfold insertEvents, insertAudit. split; auto 10 with steady. Qed.

Definition syncChildren_steady run := proj1 (syncChildren_code run).
Definition syncChildren_sound run := proj2 (syncChildren_code run).
Definition insertEvents_steady audits outbox := proj1 (insertEvents_code audits outbox).
Definition insertEvents_sound audits outbox := proj2 (insertEvents_code audits outbox).
#[local] Hint Resolve syncChildren_steady syncChildren_sound insertEvents_steady insertEvents_sound : steady.

Lemma create_run_code run audits outbox committed :
  steady (create_run_body column_time run audits outbox committed) ∧
  ∀ live, sound_code live (create_run_body column_time run audits outbox committed).
Proof. unfold create_run_body, select_pool. split; auto 10 with steady. Qed.

Lemma update_run_code run v audits outbox :
  steady (update_run_body column_time (run <| run_StateVersion := int64 (v + 1) |>) v audits outbox) ∧
  ∀ live, sound_code live (update_run_body column_time (run <| run_StateVersion := int64 (v + 1) |>) v audits outbox).
Proof.
  unfold update_run_body, select. split.
  - apply steady_bind; [auto with steady|]. intros n. destruct (bool_decide _); auto 10 with steady.
  - intros live. apply sound_bind; [auto with steady|]. intros n. destruct (bool_decide _); auto 10 with steady.
Qed.

Lemma reserve_execution_code record audit outbox committed :
  steady (reserve_execution_body column_time record audit outbox committed) ∧
  ∀ live, er_StateVersion record < 2 ^ 63 → sound_code live (reserve_execution_body column_time record audit outbox committed).
Proof. unfold reserve_execution_body, select_pool. split; auto 10 with steady. Qed.

Lemma complete_execution_code record v audit outbox :
  steady (complete_execution_body column_time record v audit outbox) ∧
  ∀ live, sound_code live (complete_execution_body column_time record v audit outbox).
Proof.
  unfold complete_execution_body. split.
  - apply steady_bind; [auto with steady|]. intros n. destruct (bool_decide _); auto 10 with steady.
  - intros live. apply sound_bind; [auto with steady|]. intros n. destruct (bool_decide _); auto 10 with steady.
Qed.

Lemma reserve_action_code record audit :
  steady (reserve_action_body column_time record audit) ∧
  ∀ live, ra_StateVersion record < 2 ^ 63 → sound_code live (reserve_action_body column_time record audit).
Proof.
  unfold reserve_action_body, insertAudit, select. split.
  - apply steady_bind; [auto with steady|]. intros [row|]; auto 10 with steady.
  - intros live Hv. apply sound_bind; [auto with steady|]. intros [row|]; auto 10 with steady.
Qed.

Lemma complete_action_code record v audit :
  steady (complete_action_body column_time record v audit) ∧ ∀ live, sound_code live (complete_action_body column_time record v audit).
Proof.
  unfold complete_action_body, insertAudit. split.
  - apply steady_bind; [auto with steady|]. intros n. destruct (bool_decide _); auto 10 with steady.
  - intros live. apply sound_bind; [auto with steady|]. intros n. destruct (bool_decide _); auto 10 with steady.
Qed.

Lemma restore_code run :
  steady (_ ← exec (restore_run column_time run); _ ← syncChildren column_time run; mret (Commit tt)) ∧
  sound_code false (_ ← exec (restore_run column_time run); _ ← syncChildren column_time run; mret (Commit tt)).
Proof. split; auto 10 with steady. Qed.

Lemma append_audit_code event :
  steady (_ ← insertAudit column_time event; mret (Commit tt)) ∧ ∀ live, sound_code live (_ ← insertAudit column_time event; mret (Commit tt)).
Proof. unfold insertAudit. split; auto 10 with steady. Qed.

(** ** Operations *)

(** The value of a result, mapped. *)
Definition result_map {A B} (f : A → B) (r : result error A) : result error B :=
  match r with Ok a => Ok (f a) | Err e => Err e end.

(** The operations of Store.v on this store, with whether they took effect. *)
Definition run_pg (op : store_op) (faults : list (option fault)) (db : Database) : Database * result error bool :=
  match op with
  | OpSavePlan plan => prod_map id (result_map (λ _, true)) (pg_SavePlan column_time plan faults db)
  | OpCreateRun run audit outbox => prod_map id (result_map snd) (pg_CreateRunAtomic column_time run audit outbox faults db)
  | OpUpdateRun run v audit outbox => prod_map id (result_map (λ _, true)) (pg_UpdateRunAtomic column_time run v audit outbox faults db)
  | OpRebuildProjection runID => prod_map id (result_map (λ _, true)) (pg_RebuildProjection column_time runID faults db)
  | OpAppendAudit event => prod_map id (result_map (λ _, true)) (pg_AppendAudit column_time event faults db)
  | OpReserveExecution record audit outbox => prod_map id (result_map snd) (pg_ReserveExecution column_time record audit outbox faults db)
  | OpCompleteExecution record v audit outbox =>
      prod_map id (result_map (λ _, true)) (pg_CompleteExecution column_time record v audit outbox faults db)
  | OpMarkOutboxPublished id t => prod_map Datatypes.id (result_map (λ _, true)) (pg_MarkOutboxPublished column_time id t faults db)
  | OpSetRunnerJournalError _ => (db, Ok false)
  | OpReserveRunnerAction record audit => prod_map id (result_map snd) (pg_ReserveRunnerAction column_time record audit faults db)
  | OpCompleteRunnerAction record v audit =>
      prod_map id (result_map (λ _, true)) (pg_CompleteRunnerAction column_time record v audit faults db)
  end.

Lemma all_or_nothing_map {R R'} (op : list (option fault) → Database → Database * result error R) (f : R → R') :
  all_or_nothing op → all_or_nothing (λ faults db, prod_map id (result_map f) (op faults db)).
Proof.
  intros Hop fs db db' r Hfs. destruct (op fs db) as [db1 r1] eqn:H1. simpl. intros [= <- <-].
  destruct (Hop fs db db1 r1 Hfs H1) as [Heq|[[e ->] Hdb]].
  - left. by rewrite <-Heq.
  - right. split; [by eexists|]. destruct Hdb as [->| ->]; [by left|right]. by destruct (op [] db).
Qed.

Lemma rebuild_atomic runID : all_or_nothing (pg_RebuildProjection column_time runID).
Proof.
  intros fs db db' r Hfs. unfold pg_RebuildProjection, query. simpl.
  destruct (head fs) as [[ft|]|] eqn:Hh; [intros [= <- <-]; right; split; [by eexists|by left]|..];
    (destruct (select_projection runID db) as [run|err]; [|intros [= <- <-]; by left]);
    (intros Hrun; eapply (transact_atomic _ (proj1 (restore_code run))); [|exact Hrun]);
    destruct fs; try done; by inversion Hfs.
Qed.

Lemma mark_atomic id t : all_or_nothing (pg_MarkOutboxPublished column_time id t).
Proof.
  intros fs db db' r Hfs. unfold pg_MarkOutboxPublished.
  destruct (autocommit (mark_statement column_time id t) fs db) as [db1 r1] eqn:H1. intros [= <- <-].
  destruct (autocommit_atomic _ _ _ _ _ Hfs H1) as [Heq|[[e ->] Hdb]].
  - left. by rewrite <-Heq.
  - right. split; [by eexists|]. destruct Hdb as [->| ->]; [by left|right]. by destruct (autocommit _ [] db).
Qed.

(** C5: whatever fails, and wherever, an operation has its whole effect or none: it does
    exactly what it does without faults, or it reports an error and left the tables as they were or,
    when the acknowledgement of the commit was lost, as a success would have left them. *)
Theorem pg_all_or_nothing op faults db db' r :
  Forall outage faults → run_pg op faults db = (db', r) →
  (db', r) = run_pg op [] db ∨ (∃ e, r = Err e) ∧ (db' = db ∨ db' = fst (run_pg op [] db)).
Proof.
  revert faults db db' r. change (all_or_nothing (run_pg op)). destruct op; unfold run_pg.
  - apply all_or_nothing_map, autocommit_atomic.
  - apply all_or_nothing_map. intros fs db. apply (transact_atomic _ (proj1 (create_run_code run audit outbox db))).
  - apply all_or_nothing_map, transact_atomic, update_run_code.
  - apply all_or_nothing_map, rebuild_atomic.
  - apply all_or_nothing_map, transact_atomic, append_audit_code.
  - apply all_or_nothing_map. intros fs db. apply (transact_atomic _ (proj1 (reserve_execution_code _ audit outbox db))).
  - apply all_or_nothing_map, transact_atomic, complete_execution_code.
  - apply all_or_nothing_map, mark_atomic.
  - intros fs db db' r _ Heq. by left.
  - apply all_or_nothing_map, transact_atomic, reserve_action_code.
  - apply all_or_nothing_map, transact_atomic, complete_action_code.
Qed.

(** [RebuildProjection] puts an older version of a run back when that is the newest one its events hold. *)
Definition rebuilds (op : store_op) : bool := match op with OpRebuildProjection _ => true | _ => false end.

Lemma run_pg_sound live op faults db : (live = true → rebuilds op = false) → sound live db (fst (run_pg op faults db)).
Proof.
  intros Hlive.
  assert (Hmap : ∀ R R' (f : R → R') (p : Database * result error R), fst (prod_map id (result_map f) p) = fst p) by (by intros ? ? ? []).
  destruct op; simpl; rewrite ?Hmap.
  - apply autocommit_sound. intros d d' a [= <- <-]. apply sound_children; try done; [|by intros []; split].
    by apply (keeps_insert (λ _ _, True)).
  - apply transact_sound, create_run_code.
  - apply transact_sound, update_run_code.
  - destruct live; [by specialize (Hlive eq_refl)|].
    unfold pg_RebuildProjection. destruct (query _ _ _); [apply transact_sound, restore_code|apply sound_refl].
  - apply transact_sound, append_audit_code.
  - by apply transact_sound, reserve_execution_code.
  - apply transact_sound, complete_execution_code.
  - unfold pg_MarkOutboxPublished.
    pose proof (autocommit_sound (mark_statement column_time id publishedAt) faults db (mark_statement_sound live id publishedAt)) as Hs.
    by destruct (autocommit _ _ _).
  - apply sound_refl.
  - by apply transact_sound, reserve_action_code.
  - apply transact_sound, complete_action_code.
Qed.

(** Any operation with any faults, or the clock of the server; with [live], any but a rebuild. *)
Inductive pg_step (live : bool) (db : Database) : Database → Prop :=
| pg_operation op faults : (live = true → rebuilds op = false) → pg_step live db (fst (run_pg op faults db))
| pg_tick now : pg_step live db (db <| db_now := now |>).

Lemma pg_step_sound live db db' : pg_step live db db' → sound live db db'.
Proof.
  intros [op faults Hlive|now]; [by apply run_pg_sound|]. apply sound_children; try done. by intros []; split.
Qed.

(** C6: over any history of operations, with any faults, the tables keep their schema: primary,
    unique and foreign keys hold, a run's version column is the version of its payload, versions are positive
    and fit their columns.  Nothing is taken back: no row of any table is deleted; runs, steps, approvals,
    executions and journal entries keep every column that no UPDATE is meant to set, policy decisions
    never change, an outbox event changes once, when it is published, and the audit trail only grows.  And the
    optimistic concurrency control works: an execution or a journal entry that changed has a higher
    version, and so has a run that changed, over histories without [RebuildProjection]. *)
Theorem pg_schema_invariant live db db' :
  schema db → rtc (pg_step live) db db' → schema db' ∧ grows db db' ∧ advances live db db'.
Proof.
  intros Hs Hsteps.
  assert (sound live db db') as [Hsound Hg].
  { clear Hs. induction Hsteps as [|db1 db2 db3 Hstep _ IH]; [apply sound_refl|].
    eapply sound_trans; [by apply pg_step_sound|exact IH]. }
  by destruct (Hsound Hs).
Qed.

(** ** The interface of the durable store *)

(** Code that leaves a part of the tables alone. *)
Definition frame {A B} (part : Database → B) (m : SQL A) : Prop := ∀ c, part (cn_db (fst (m c))) = part (cn_db c).

Lemma frame_ret {A B} (part : Database → B) (a : A) : frame part (mret a).
Proof. done. Qed.

Lemma frame_exec {A B} (part : Database → B) (f : Database → result error (Database * A)) :
  (∀ db db' a, f db = Ok (db', a) → part db' = part db) → frame part (exec f).
Proof.
  intros Hf c. unfold exec. destruct (head (cn_faults c)) as [[ft|]|]; [done|..];
    (destruct (f (cn_db c)) as [[db a]|err] eqn:Hr; [by eapply Hf|done]).
Qed.

Lemma frame_bind {A A' B} (part : Database → B) (m : SQL A) (f : A → SQL A') :
  frame part m → (∀ a, frame part (f a)) → frame part (m ≫= f).
Proof.
  intros Hm Hf c. specialize (Hm c). unfold mbind, sql_bind. destruct (m c) as [c1 [a|err]]; [|done].
  by rewrite (Hf a c1).
Qed.

Lemma frame_each {A B} (part : Database → B) (f : A → SQL unit) l : (∀ a, frame part (f a)) → frame part (sql_each f l).
Proof. intros Hf. induction l as [|x l IH]; simpl; [apply frame_ret|]. by apply frame_bind. Qed.

Lemma insert_audit_part event db db' a : insert_audit column_time event db = Ok (db', a) →
  db_runs db' = db_runs db ∧ db_executions db' = db_executions db ∧ db_journal db' = db_journal db.
Proof. unfold insert_audit. rewrite require_bind. by intros [_ [= <- _]]. Qed.

Lemma insert_outbox_part event db db' a : insert_outbox column_time event db = Ok (db', a) →
  db_runs db' = db_runs db ∧ db_executions db' = db_executions db.
Proof. unfold insert_outbox. rewrite !require_bind. by intros (_ & _ & _ & [= <- _]). Qed.

Lemma insertEvents_executions audits outbox : frame db_executions (insertEvents column_time audits outbox).
Proof.
  apply frame_bind; [|intros _]; apply frame_each; intros event; apply frame_exec; intros db db' a H'.
  - by apply insert_audit_part in H' as (_ & ? & _).
  - by apply insert_outbox_part in H' as (_ & ?).
Qed.

Lemma insertEvents_runs audits outbox : frame db_runs (insertEvents column_time audits outbox).
Proof.
  apply frame_bind; [|intros _]; apply frame_each; intros event; apply frame_exec; intros db db' a H'.
  - by apply insert_audit_part in H' as (? & _).
  - by apply insert_outbox_part in H' as (? & _).
Qed.

Lemma syncChildren_part {B} (part : Database → B) run :
  (∀ db steps, part (db <| db_steps := steps |>) = part db) → (∀ db rows, part (db <| db_policies := rows |>) = part db) →
  (∀ db rows, part (db <| db_approvals := rows |>) = part db) → frame part (syncChildren column_time run).
Proof.
  intros H1 H2 H3. apply frame_each. intros step. apply frame_bind; [|intros _; apply frame_bind; [|intros _]].
  - apply frame_exec. intros db db' a. unfold upsert_step. rewrite !require_bind, references_bind.
    intros (_ & _ & _ & [= <- _]). apply H1.
  - destruct (st_Policy step) as [policy|]; [|apply frame_ret]. apply frame_exec. intros db db' a. unfold insert_policy.
    destruct (db_policies db !! _); [by intros [= <- _]|]. rewrite references_bind. intros (_ & [= <- _]). apply H2.
  - destruct (st_Approval step) as [approval|]; [|apply frame_ret]. apply frame_exec. intros db db' a. unfold upsert_approval.
    rewrite require_bind. intros [_ Hk]. revert Hk. destruct (db_approvals db !! _); [intros [= <- _]; apply H3|].
    rewrite references_bind. intros (_ & [= <- _]). apply H3.
Qed.

(** A transaction that reports success committed what its body did. *)
Lemma transact_ok {R} (body : SQL (ending R)) faults db db' r :
  transact body faults db = (db', Ok r) →
  (∃ c fs, body {| cn_db := db; cn_faults := fs |} = (c, Ok (Commit r)) ∧ db' = cn_db c) ∨
  (∃ c fs, body {| cn_db := db; cn_faults := fs |} = (c, Ok (Rollback r)) ∧ db' = db).
Proof.
  unfold transact, mbind, sql_bind, exec. simpl. destruct (head faults) as [[ft|]|]; [done|..];
    (destruct (body {| cn_db := db; cn_faults := tail faults |}) as [c [[x|x]|err]] eqn:Hb; [|intros [= <- <-]; right; eauto|done]);
    (destruct (head (cn_faults c)) as [[ft|]|]; [done|..]); intros [= <- <-]; left; eauto.
Qed.

Lemma exec_ok {A} (f : Database → result error (Database * A)) db fs c a :
  exec f {| cn_db := db; cn_faults := fs |} = (c, Ok a) → f db = Ok (cn_db c, a).
Proof.
  unfold exec. simpl. destruct (head fs) as [[ft|]|]; [done|..];
    (destruct (f db) as [[db' a']|err]; [by intros [= <- <-]|done]).
Qed.

Lemma sql_bind_ok {A B} (m : SQL A) (f : A → SQL B) c c' b :
  (m ≫= f) c = (c', Ok b) → ∃ c1 a, m c = (c1, Ok a) ∧ f a c1 = (c', Ok b).
Proof. unfold mbind, sql_bind. destruct (m c) as [c1 [a|err]]; [eauto|done]. Qed.

(** A new reservation took a free slot, and is the row of that slot. *)
Lemma pg_reserve_new record audit outbox faults db db' r :
  pg_ReserveExecution column_time record audit outbox faults db = (db', Ok (r, true)) →
  r = record <| er_StateVersion := 1 |> <| er_Status := ExecutionReserved |> ∧
  db_executions db !! slot_of record = None ∧ db_executions db' !! slot_of record = Some (execution_row column_time r).
Proof.
  intros [(c & fs & Hb & ->)|(c & fs & Hb & ->)]%transact_ok; revert Hb; unfold reserve_execution_body, on_violation_then;
    destruct (exec _ _) as [c1 [[]|err]] eqn:He.
  - intros (c2 & [] & Hev & [= <- <-])%sql_bind_ok. apply exec_ok in He. revert He. unfold insert_execution.
    rewrite !require_bind, references_bind. intros (_ & Hu & _ & [= Hdb]).
    apply negb_true_iff, orb_false_iff in Hu as [Hfree _]. apply bool_decide_eq_false, eq_None_not_Some in Hfree.
    split; [done|]. split; [exact Hfree|].
    pose proof (insertEvents_executions [audit] [outbox] c1) as Hf. rewrite Hev in Hf. simpl in Hf. rewrite Hf, <-Hdb. simpl.
    by rewrite lookup_insert_eq.
  - destruct (isUniqueViolation err); [|done]. by intros (c2 & existing & _ & [=])%sql_bind_ok.
  - by intros (c2 & [] & _ & [=])%sql_bind_ok.
  - destruct (isUniqueViolation err); [|done]. by intros (c2 & existing & _ & [=])%sql_bind_ok.
Qed.

(** Nothing frees a slot. *)
Lemma sound_slot live db db' slot : sound live db db' → is_Some (db_executions db !! slot) → is_Some (db_executions db' !! slot).
Proof. intros [_ Hg] [row Hr]. destruct (grows_executions _ _ Hg _ _ Hr) as (row' & ? & _). by eexists. Qed.
End statements.

(** A way to run the methods on a state [S] makes a durable store of it. *)
Definition pg_store `{!RowOrder} (column_time : time → time) {S : Type}
    (on : ∀ R, (list (option fault) → Database → Database * result error R) → S → S * result error R)
    (read : ∀ R, (list (option fault) → Database → result error R) → S → result error R) : DurableStore S := {|
  durable_Store := {|
    store_CreateRun := λ run, on _ (pg_CreateRun column_time run);
    store_GetRun := λ id, read _ (pg_GetRun id);
    store_ListRuns := read _ pg_ListRuns;
    store_UpdateRun := λ run v, on _ (pg_UpdateRun column_time run v);
    store_AppendAudit := λ event, on _ (pg_AppendAudit column_time event);
    store_AuditEvents := λ id, read _ (pg_AuditEvents id);
  |};
  durable_Journal := {|
    journal_Get := λ tenant group nonce, read _ (pg_GetRunnerAction tenant group nonce);
    journal_Reserve := λ record audit, on _ (pg_ReserveRunnerAction column_time record audit);
    journal_Complete := λ record v audit, on _ (pg_CompleteRunnerAction column_time record v audit);
    journal_Pending := λ tenant group limit, read _ (pg_PendingRunnerActions tenant group limit);
  |};
  store_SavePlan := λ plan, on _ (pg_SavePlan column_time plan);
  store_GetPlan := λ id, read _ (pg_GetPlan id);
  store_CreateRunAtomic := λ run audits outbox, on _ (pg_CreateRunAtomic column_time run audits outbox);
  store_UpdateRunAtomic := λ run v audits outbox, on _ (pg_UpdateRunAtomic column_time run v audits outbox);
  store_ReserveExecution := λ record audit outbox, on _ (pg_ReserveExecution column_time record audit outbox);
  store_CompleteExecution := λ record v audit outbox, on _ (pg_CompleteExecution column_time record v audit outbox);
  store_GetExecution := λ adapter key, read _ (pg_GetExecution adapter key);
  store_PendingOutbox := λ limit, read _ (pg_PendingOutbox limit);
  store_PendingOutboxByType := λ eventType limit, read _ (pg_PendingOutboxByType eventType limit);
  store_MarkOutboxPublished := λ id t, on _ (pg_MarkOutboxPublished column_time id t);
  store_RebuildProjection := λ id, on _ (pg_RebuildProjection column_time id);
|}.

(** A database that is up. *)
Definition Database_store `{!RowOrder} (column_time : time → time) : DurableStore Database :=
  pg_store column_time (λ R m, m []) (λ R m, m []).

(** A database with outages: the faults of the calls to come. *)
Record Cluster := {
  cl_db : Database;
  cl_faults : list (list (option fault));
}.

Definition next_faults (s : Cluster) : list (option fault) := default [] (head (cl_faults s)).

Definition on_cluster {R} (m : list (option fault) → Database → Database * result error R) (s : Cluster) :
    Cluster * result error R :=
  let '(db, r) := m (next_faults s) (cl_db s) in ({| cl_db := db; cl_faults := tail (cl_faults s) |}, r).

Definition Cluster_store `{!RowOrder} (column_time : time → time) : DurableStore Cluster :=
  pg_store column_time (@on_cluster) (λ R m s, m (next_faults s) (cl_db s)).

Section laws.
Context `{!RowOrder} (column_time : time → time).

(** *** With outages *)

#[local] Instance cluster : DurableStore Cluster := Cluster_store column_time.

Lemma on_cluster_slot {R} (m : list (option fault) → Database → Database * result error R) s slot :
  (∀ faults db, sound true db (fst (m faults db))) →
  is_Some (db_executions (cl_db s) !! slot) → is_Some (db_executions (cl_db (fst (on_cluster m s))) !! slot).
Proof.
  intros Hm Hs. unfold on_cluster. pose proof (Hm (next_faults s) (cl_db s)) as Hsound.
  destruct (m (next_faults s) (cl_db s)) as [db r]. by eapply sound_slot.
Qed.

#[local] Program Instance Cluster_ExecutionLaws : ExecutionLaws Cluster := {|
  occupied := λ s slot, is_Some (db_executions (cl_db s) !! slot);
|}.
Next Obligation.
  intros record audit event s s' r. simpl. unfold on_cluster.
  destruct (pg_ReserveExecution _ _ _ _ _ _) as [db out] eqn:Hr. intros [= <- ->].
  apply pg_reserve_new in Hr as (-> & Hfree & Hrow). simpl. split; [done|]. unfold record_slot. split.
  - intros [row Hs]. change (er_Adapter record, er_IdempotencyKey record) with (slot_of record) in Hs. by rewrite Hfree in Hs.
  - change (er_Adapter record, er_IdempotencyKey record) with (slot_of record). rewrite Hrow. by eexists.
Qed.
Next Obligation.
  intros record audit event s slot. apply on_cluster_slot. intros faults db. by apply transact_sound, reserve_execution_code.
Qed.
Next Obligation.
  intros record v audit event s slot. apply on_cluster_slot. intros faults db. apply transact_sound, complete_execution_code.
Qed.
Next Obligation.
  intros run v audit events s slot. apply on_cluster_slot. intros faults db. apply transact_sound, update_run_code.
Qed.

Lemma update_run_ok updated v audits outbox faults db db' r :
  transact (update_run_body column_time updated v audits outbox) faults db = (db', Ok r) →
  r = updated ∧ select_run (run_ID updated) db' = Ok r ∧
  ∃ row, db_runs db !! run_ID updated = Some row ∧ rr_state_version row = v.
Proof.
  intros Hok. assert (∃ c fs o, update_run_body column_time updated v audits outbox {| cn_db := db; cn_faults := fs |} = (c, Ok o) ∧
    (o = Commit r ∧ db' = cn_db c ∨ o = Rollback r)) as (c & fs & o & Hb & Ho).
  { apply transact_ok in Hok as [(c & fs & Hb & ->)|(c & fs & Hb & ->)]; eauto 10. }
  clear Hok. revert Hb. unfold update_run_body. intros (c1 & n & Hu%exec_ok & Hk)%sql_bind_ok. revert Hu. unfold update_run.
  destruct (db_runs db !! run_ID updated) as [row|] eqn:Hr; [destruct (rr_state_version row =? v) eqn:Hv|];
    [|intros [= _ <-]; by apply sql_bind_ok in Hk as (c2 & ? & _ & [=])..].
  rewrite require_bind. intros [_ [= Hdb <-]]. apply sql_bind_ok in Hk as (c2 & [] & Hsync & Hk).
  apply sql_bind_ok in Hk as (c3 & [] & Hev & [= <- <-]). destruct Ho as [[[= <-] ->]|[=]].
  split; [done|]. split; [|exists row; split; [done|lia]].
  pose proof (insertEvents_runs column_time audits (appendProjectionEvent outbox updated) c2) as Hf2. rewrite Hev in Hf2.
  pose proof (syncChildren_part column_time db_runs updated ltac:(done) ltac:(done) ltac:(done) c1) as Hf1. rewrite Hsync in Hf1.
  cbn [fst] in Hf1, Hf2. unfold select_run. rewrite Hf2, Hf1, <-Hdb. simpl. by rewrite lookup_insert_eq.
Qed.

Lemma pg_update_ok run v audits outbox faults db db' r :
  pg_UpdateRunAtomic column_time run v audits outbox faults db = (db', Ok r) →
  r = run <| run_StateVersion := int64 (v + 1) |> ∧ select_run (run_ID run) db' = Ok r ∧
  ∃ row, db_runs db !! run_ID run = Some row ∧ rr_state_version row = v.
Proof. exact (update_run_ok (run <| run_StateVersion := int64 (v + 1) |>) v audits outbox faults db db' r). Qed.

#[local] Instance Cluster_UpdateLaws : UpdateLaws Cluster.
Proof.
  split. intros run v audit events s s' r. simpl. unfold on_cluster.
  destruct (pg_UpdateRunAtomic _ _ _ _ _ _ _) as [db out] eqn:Hr. intros [= _ ->]. by apply pg_update_ok in Hr as [? _].
Qed.

(** *** While the database is up *)

#[local] Instance database : DurableStore Database := Database_store column_time.

#[local] Program Instance Database_ExecutionLaws : ExecutionLaws Database := {|
  occupied := λ db slot, is_Some (db_executions db !! slot);
|}.
Next Obligation.
  intros record audit event db db' r Hr. apply pg_reserve_new in Hr as (-> & Hfree & Hrow). split; [done|].
  change (record_slot record) with (slot_of record). rewrite Hfree, Hrow. split; [by intros [? ?]|by eexists].
Qed.
Next Obligation. intros record audit event db slot. by apply (sound_slot true), transact_sound, reserve_execution_code. Qed.
Next Obligation. intros record v audit event db slot. apply (sound_slot true), transact_sound, complete_execution_code. Qed.
Next Obligation. intros run v audit events db slot. apply (sound_slot true), transact_sound, update_run_code. Qed.

Lemma decoded_textual payload : textual payload → decoded payload = payload.
Proof.
  intros Ht. apply map_eq. intros k. unfold decoded. rewrite lookup_fmap. destruct (payload !! k) as [v|] eqn:Hv; [|done].
  destruct (Ht k v Hv) as [s ->]. done.
Qed.

Lemma execution_row_settled record : textual (er_Payload record) → settled record (execution_row column_time record).
Proof.
  intros Ht. unfold settled, execution_row. rewrite (decoded_textual _ Ht).
  exists (column_time (er_CreatedAt record)), (column_time (er_UpdatedAt record)). destruct record. reflexivity.
Qed.

Lemma reserve_taken record audit event db row :
  0 < er_StateVersion record → db_executions db !! slot_of record = Some row →
  transact (reserve_execution_body column_time record audit event db) [] db = (db, Ok (row, false)).
Proof.
  intros Hv Hs. assert (Hi : insert_execution column_time record db = Err unique_violation).
  { unfold insert_execution, require. rewrite (proj2 (Z.ltb_lt _ _) Hv), (bool_decide_true (is_Some _)) by (by eexists). done. }
  unfold transact, mbind, sql_bind, reserve_execution_body, on_violation_then. simpl. unfold exec. simpl. rewrite Hi. simpl.
  unfold select_pool, exec, mbind, sql_bind, select_execution. simpl.
  change (er_Adapter record, er_IdempotencyKey record) with (slot_of record). by rewrite Hs.
Qed.

Lemma update_execution_ok record v audit event db db' row :
  transact (complete_execution_body column_time record v audit event) [] db = (db', Ok tt) →
  db_executions db !! slot_of record = Some row →
  db_executions db' !! slot_of record = Some (row <| er_Status := er_Status record |>
    <| er_ExternalExecutionID := er_ExternalExecutionID record |> <| er_Payload := decoded (er_Payload record) |>
    <| er_StateVersion := int64 (v + 1) |> <| er_UpdatedAt := column_time (er_UpdatedAt record) |>).
Proof.
  intros Hok Hrow. assert (∃ c fs o, complete_execution_body column_time record v audit event {| cn_db := db; cn_faults := fs |} = (c, Ok o) ∧
    (o = Commit tt ∧ db' = cn_db c ∨ o = Rollback tt)) as (c & fs & o & Hb & Ho).
  { apply transact_ok in Hok as [(c & fs & Hb & ->)|(c & fs & Hb & ->)]; eauto 10. }
  clear Hok. revert Hb. unfold complete_execution_body. intros (c1 & n & Hu%exec_ok & Hk)%sql_bind_ok. revert Hu.
  unfold update_execution. rewrite Hrow. destruct (er_StateVersion row =? v); [|by intros [= _ <-]].
  rewrite require_bind. intros [_ [= Hdb <-]]. apply sql_bind_ok in Hk as (c2 & [] & Hev & [= <- <-]).
  destruct Ho as [[_ ->]|[=]].
  pose proof (insertEvents_executions column_time [audit] [event] c1) as Hf. rewrite Hev in Hf. cbn [fst] in Hf.
  rewrite Hf, <-Hdb. simpl. by rewrite lookup_insert_eq.
Qed.

#[local] Instance Database_RetryLaws : RetryLaws Database.
Proof.
  split.
  - intros record audit event db db' r Hr Ht. apply pg_reserve_new in Hr as (-> & _ & Hrow).
    eexists. split; [|apply execution_row_settled; exact Ht]. simpl. unfold pg_GetExecution, query, select_execution. simpl.
    change (er_Adapter record, er_IdempotencyKey record) with (slot_of record). by rewrite Hrow.
  - intros record audit event db db' r [(c & fs & Hb & ->)|(c & fs & Hb & ->)]%transact_ok; revert Hb;
      unfold reserve_execution_body, on_violation_then; destruct (exec _ _) as [c1 [[]|err]].
    + by intros (c2 & [] & _ & [=])%sql_bind_ok.
    + destruct (isUniqueViolation err); [|done]. by intros (c2 & existing & _ & [=])%sql_bind_ok.
    + by intros (c2 & [] & _ & [=])%sql_bind_ok.
    + destruct (isUniqueViolation err); [|done]. intros (c2 & existing & Hs & [= _ <-])%sql_bind_ok. split; [done|].
      destruct c1 as [db1 fs1]. apply exec_ok in Hs. revert Hs. simpl. unfold pg_GetExecution, query. simpl.
      unfold select_execution. by destruct (db_executions db !! _); intros [= _ <-].
  - intros record audit event db r Hg. revert Hg. simpl. unfold pg_GetExecution, query, select_execution. simpl.
    change (er_Adapter record, er_IdempotencyKey record) with (slot_of record).
    destruct (db_executions db !! slot_of record) as [row|] eqn:Hr; [|done]. intros [= <-]. by apply reserve_taken.
  - intros record reserved v audit event db db' Hc Ht Hg Hid Hrun Hsvc [= Ha Hk]. simpl in Hg, Hc.
    assert (Hrow : db_executions db !! slot_of record = Some reserved).
    { revert Hg. unfold pg_GetExecution, query, select_execution. simpl.
      change (er_Adapter record, er_IdempotencyKey record) with (slot_of record).
      by destruct (db_executions db !! slot_of record); intros [= ->]. }
    pose proof (update_execution_ok _ _ _ _ _ _ _ Hc Hrow) as Hrow'. rewrite (decoded_textual _ Ht) in Hrow'.
    eexists. split.
    + simpl. unfold pg_GetExecution, query, select_execution. simpl.
      change (er_Adapter record, er_IdempotencyKey record) with (slot_of record). by rewrite Hrow'.
    + exists (er_CreatedAt reserved), (column_time (er_UpdatedAt record)).
      destruct record, reserved. simpl in *. subst. reflexivity.
Qed.

#[local] Instance Database_UpdateLaws : UpdateLaws Database.
Proof. split. intros run v audit events db db' r Hr. by apply pg_update_ok in Hr as [? _]. Qed.

Lemma update_stale updated v audits outbox db row :
  db_runs db !! run_ID updated = Some row → rr_state_version row ≠ v →
  transact (update_run_body column_time updated v audits outbox) [] db = (db, Err ErrConflict).
Proof.
  intros Hr Hv. unfold transact, mbind, sql_bind, update_run_body. simpl.
  assert (Hu : update_run column_time updated v db = Ok (db, 0%nat)).
  { unfold update_run. rewrite Hr. by rewrite (proj2 (Z.eqb_neq _ _) Hv). }
  unfold mbind, sql_bind, exec. simpl. rewrite Hu. simpl. unfold select, exec, mbind, sql_bind. simpl.
  rewrite (bool_decide_true (is_Some _)); [done|by eexists].
Qed.

(** Without faults a transaction that reports an error did nothing. *)
Lemma transact_err {R} (body : SQL (ending R)) db db' e : steady body → transact body [] db = (db', Err e) → db' = db.
Proof.
  intros Hb. unfold transact, mbind, sql_bind. simpl.
  destruct (body {| cn_db := db; cn_faults := [] |}) as [c o] eqn:Hrun.
  destruct (Hb db [] c o) as (_ & c0 & o0 & Hrun0 & Hnil & _); [done..|]. rewrite Hrun in Hrun0. injection Hrun0 as <- <-.
  destruct o as [[x|x]|err]; [|done|by intros [= <- _]]. by rewrite Hnil.
Qed.

#[local] Program Instance Database_AtomicLaws : AtomicLaws Database := {| durable_valid := schema |}.
Next Obligation.
  intros run v audit events db Hdb.
  by eapply (transact_sound (live:=true) _ [] db (proj2 (update_run_code column_time run v audit events) true)).
Qed.
Next Obligation. intros run v audit events db db' r Hr. by apply pg_update_ok in Hr as (_ & ? & _). Qed.
Next Obligation.
  intros run v audit events db db' r [[Hp _ _] _ _ _ _ _] Hr. apply pg_update_ok in Hr as (_ & _ & row & Hrow & <-).
  exists (rr_payload row). split; [simpl; unfold pg_GetRun, query, select_run; simpl; by rewrite Hrow|].
  by destruct (Hp _ _ Hrow) as (_ & ? & _).
Qed.
Next Obligation.
  intros run v audit events db current [[Hp _ _] _ _ _ _ _] Hg Hv. exists ErrConflict. split; [|done].
  revert Hg. simpl. unfold pg_GetRun, query, select_run. simpl. destruct (db_runs db !! run_ID run) as [row|] eqn:Hr; [|done].
  intros [= <-]. destruct (Hp _ _ Hr) as (_ & Hver & _). rewrite Hver in Hv.
  exact (update_stale (run <| run_StateVersion := int64 (v + 1) |>) v audit events db row Hr Hv).
Qed.
Next Obligation. intros run v audit events db db' e. apply transact_err, update_run_code. Qed.
End laws.

(** ** Examples *)

(** The columns keep microseconds. *)
Definition microseconds (t : time) : time := t / 1000 * 1000.

Definition connection_lost : fault := {| ft_error := ErrorNew "connection lost"; ft_applied := true |}.

(** The first release of a database: the insert of the run, its projection and the commit. *)
Definition demo_create : store_op := OpCreateRun (demo_run "run-1" "req-1") [] [].
Definition demo_created_db : Database :=
  fst (run_pg (H := insertion_order) microseconds demo_create [] (empty_database 0)).

Lemma empty_schema now : schema (empty_database now).
Proof. split; [..|apply NoDup_nil_2|done]; split; intros; simplify_map_eq. Qed.

Definition demo_faults : list (option fault) := [None; None; None; Some connection_lost].
Definition demo_lost : Database * result error bool :=
  run_pg (H := insertion_order) microseconds demo_create demo_faults (empty_database 0).

Lemma demo_faults_outage : Forall outage demo_faults.
Proof. repeat (apply Forall_cons; split); try apply Forall_nil; done. Qed.

(** The acknowledgement of the commit is lost: an error is reported, the run is there. *)
Lemma pg_all_or_nothing_witness :
  is_Some (db_runs (fst demo_lost) !! "run-1") ∧
  ((fst demo_lost, snd demo_lost) = run_pg (H := insertion_order) microseconds demo_create [] (empty_database 0) ∨
   (∃ e, snd demo_lost = Err e) ∧
   (fst demo_lost = empty_database 0 ∨
    fst demo_lost = fst (run_pg (H := insertion_order) microseconds demo_create [] (empty_database 0)))).
Proof.
  split; [by apply (bool_decide_unpack _); vm_compute|].
  exact (pg_all_or_nothing (H := insertion_order) microseconds demo_create demo_faults (empty_database 0)
    (fst demo_lost) (snd demo_lost) demo_faults_outage (surjective_pairing demo_lost)).
Defined.

(** The first release, created and then updated. *)
Definition demo_update : store_op := OpUpdateRun (demo_run "run-1" "req-1") 1 [] [].
Definition demo_updated_db : Database :=
  fst (run_pg (H := insertion_order) microseconds demo_update [] demo_created_db).

Lemma pg_schema_invariant_witness :
  rr_state_version <$> db_runs demo_created_db !! "run-1" = Some 1 ∧
  rr_state_version <$> db_runs demo_updated_db !! "run-1" = Some 2 ∧
  schema demo_updated_db ∧ grows (empty_database 0) demo_updated_db ∧ advances true (empty_database 0) demo_updated_db.
Proof.
  split; [by vm_compute|]. split; [by vm_compute|].
  exact (pg_schema_invariant (H := insertion_order) microseconds true (empty_database 0) demo_updated_db (empty_schema 0)
    (rtc_l _ _ demo_created_db _
      (pg_operation (H := insertion_order) microseconds true (empty_database 0) demo_create [] (λ _, eq_refl))
      (rtc_once demo_created_db demo_updated_db
        (pg_operation (H := insertion_order) microseconds true demo_created_db demo_update [] (λ _, eq_refl))))).
Defined.
