(* ===== verification/Activities.v ===== *)
(** * Workflow activities (src/internal/workflow/activities.go, errors.go)

    The activities a workflow schedules on a worker: persisting a run, evaluating a
    step, and the three calls of the release executor.  Deploy and Rollback are external
    writes: each reserves a slot of the execution table, calls the executor only when the
    reservation is new, and records the outcome; a repeated call answers from the record.
    The scheduling activities are in Scheduler.v.

    An activity is a sequence of atomic operations on shared state.  Workers run them
    concurrently, crash, and are asked again by Temporal; [system_step] interleaves the
    parts of Deploy and Rollback, with retries from any point.

    [temporal.NewNonRetryableApplicationError] belongs to the Temporal SDK and is the
    parameter [nonRetryable] (message, type, cause). *)
From S2P Require Import Prelude GoStd Sha256 Rfc3339 Domain Store Policy Executor Verification Engine Durable.
Open Scope Z_scope.

(** ** errors.go *)

Module workflow.
Abbreviation ErrorClass := string (only parsing).
Definition ErrorRetryable : ErrorClass := "RETRYABLE".
Definition ErrorTerminal : ErrorClass := "TERMINAL".
Definition ErrorUnknownExternalState : ErrorClass := "UNKNOWN_EXTERNAL_STATE".

(** [IsClass]: the first classified error of the chain has the class. *)
Fixpoint IsClass (err : error) (class : ErrorClass) : bool :=
  match err with
  | ClassifiedError c _ _ => bool_decide (c = class)
  | Sentinel _ _ | ErrorNew _ | Errorf _ None | ReasonError _ _ _ None | Rejection _ None => false
  | Errorf _ (Some w) | ReasonError _ _ _ (Some w) | Rejection _ (Some w) | AdapterError _ _ _ w => IsClass w class
  end.
End workflow.

(** ** Inputs and results *)

(** [AuditIntent] *)
Record AuditIntent := {
  ai_ActorType : string;
  ai_ActorID : string;
  ai_Action : string;
  ai_ResourceType : string;
  ai_ResourceID : string;
  ai_Result : string;
  ai_Details : details;
}.

#[export] Instance eta_AuditIntent : Eta AuditIntent := λ r,
  {| ai_ActorType := ai_ActorType r; ai_ActorID := ai_ActorID r; ai_Action := ai_Action r;
     ai_ResourceType := ai_ResourceType r; ai_ResourceID := ai_ResourceID r; ai_Result :=
     ai_Result r; ai_Details := ai_Details r |}.

#[export] Instance AuditIntent_eq_dec : EqDecision AuditIntent.
Proof. solve_decision. Defined.

(** [PersistInput] *)
Record PersistInput := {
  pin_Run : ReleaseRun;
  pin_Audits : list AuditIntent;
  pin_EventType : string;
}.

#[export] Instance eta_PersistInput : Eta PersistInput := λ r,
  {| pin_Run := pin_Run r; pin_Audits := pin_Audits r; pin_EventType := pin_EventType r |}.

#[export] Instance PersistInput_eq_dec : EqDecision PersistInput.
Proof. solve_decision. Defined.

(** [DeployInput] *)
Record DeployInput := {
  di_RunID : string;
  di_RequestedBy : string;
  di_AgentID : string;
  di_Service : string;
  di_Environment : string;
  di_DesiredVersion : string;
  di_IdempotencyKey : string;
}.

#[export] Instance eta_DeployInput : Eta DeployInput := λ r,
  {| di_RunID := di_RunID r; di_RequestedBy := di_RequestedBy r; di_AgentID := di_AgentID r;
     di_Service := di_Service r; di_Environment := di_Environment r; di_DesiredVersion :=
     di_DesiredVersion r; di_IdempotencyKey := di_IdempotencyKey r |}.

#[export] Instance DeployInput_eq_dec : EqDecision DeployInput.
Proof. solve_decision. Defined.

(** [DeployResult] *)
Record DeployResult := {
  dre_Execution : Execution;
  dre_Deployment : Deployment;
}.

#[export] Instance eta_DeployResult : Eta DeployResult := λ r,
  {| dre_Execution := dre_Execution r; dre_Deployment := dre_Deployment r |}.

#[export] Instance DeployResult_eq_dec : EqDecision DeployResult.
Proof. solve_decision. Defined.

(** [RollbackInput] *)
Record RollbackInput := {
  ri_Deploy : DeployInput;
  ri_Deployment : Deployment;
}.

#[export] Instance eta_RollbackInput : Eta RollbackInput := λ r,
  {| ri_Deploy := ri_Deploy r; ri_Deployment := ri_Deployment r |}.

#[export] Instance RollbackInput_eq_dec : EqDecision RollbackInput.
Proof. solve_decision. Defined.

(** [RollbackResult] *)
Record RollbackResult := {
  rre_Execution : Execution;
  rre_Deployment : Deployment;
}.

#[export] Instance eta_RollbackResult : Eta RollbackResult := λ r,
  {| rre_Execution := rre_Execution r; rre_Deployment := rre_Deployment r |}.

#[export] Instance RollbackResult_eq_dec : EqDecision RollbackResult.
Proof. solve_decision. Defined.

(** The configuration of [Activities]; store, executor and clock are in the world below. *)
Record Activities := {
  acts_Policy : PolicyEngine;
  acts_AdapterName : string;
}.

(** The executor calls of the activities, in order. *)
Inductive act_effect :=
| AEDeploy (input : DeployInput)
| AEVerify (deployment : Deployment)
| AERollback (input : RollbackInput).

(** The slots of the two writes. *)
Definition deploy_slot (a : Activities) (input : DeployInput) : string * string :=
  (acts_AdapterName a, di_IdempotencyKey input).
Definition rollback_slot (a : Activities) (input : RollbackInput) : string * string :=
  (acts_AdapterName a +:+ ".rollback", di_IdempotencyKey (ri_Deploy input) +:+ "/rollback").

(** The value of a payload entry that holds an instant as text; the zero time when it does not parse. *)
Definition payload_time (payload : details) (name : string) : time :=
  match payload !! name with
  | Some (AString value) => default 0 (Parse value)
  | _ => 0
  end.

(** The deployment a succeeded record stands for. *)
Definition recorded_deployment (record : ExecutionRecord) : Deployment :=
  {| dpl_ExternalID := er_ExternalExecutionID record; dpl_StartedAt := payload_time (er_Payload record) "started_at";
     dpl_FinishedAt := payload_time (er_Payload record) "finished_at" |}.

(** The [domain.Execution] of a record and its deployment. *)
Definition execution_of (record : ExecutionRecord) (deployment : Deployment) : Execution :=
  {| ex_ID := er_ID record; ex_Adapter := er_Adapter record; ex_IdempotencyKey := er_IdempotencyKey record;
     ex_Status := er_Status record; ex_ExternalExecutionID := dpl_ExternalID deployment;
     ex_StartedAt := dpl_StartedAt deployment; ex_FinishedAt := dpl_FinishedAt deployment |}.

(** The record of a write that succeeded, and of one whose outcome is unknown. *)
Definition succeeded_record (record : ExecutionRecord) (deployment : Deployment) (t : time) : ExecutionRecord :=
  record <| er_Status := ExecutionSucceeded |> <| er_ExternalExecutionID := dpl_ExternalID deployment |>
    <| er_Payload := {[ "started_at" := AString (Format (dpl_StartedAt deployment));
                        "finished_at" := AString (Format (dpl_FinishedAt deployment)) ]} |>
    <| er_UpdatedAt := t |>.
Definition unknown_record (record : ExecutionRecord) (t : time) : ExecutionRecord :=
  record <| er_Status := ExecutionUnknown |> <| er_UpdatedAt := t |>.

Section activities.
Context {S X : Type} `{!DurableStore S, !ReleaseExecutor X}.
(** The clock readings and random identifiers, the JSON encoding of evidence, the SDK's error constructor. *)
Context (now_at : nat → time) (id_at : nat → string) (marshal : AdapterEvidence → result error string)
  (nonRetryable : string → string → error → error).

Record ActWorld := {
  aw_store : S;
  aw_exec : X;
  aw_ticks : nat;
  aw_ids : nat;
  aw_trace : list act_effect;
}.

#[export] Instance eta_ActWorld : Eta ActWorld := λ r,
  {| aw_store := aw_store r; aw_exec := aw_exec r; aw_ticks := aw_ticks r; aw_ids := aw_ids r;
     aw_trace := aw_trace r |}.

(** [a.Now().UTC()] *)
Definition act_now : ST ActWorld time := λ w, (w <| aw_ticks ::= Datatypes.S |>, now_at (aw_ticks w)).

(** [newID] *)
Definition act_newID (prefix : string) : ST ActWorld string :=
  λ w, (w <| aw_ids ::= Datatypes.S |>, prefix +:+ "_" +:+ id_at (aw_ids w)).

Definition on_durable {A} (f : S → S * A) : ST ActWorld A :=
  λ w, let '(s, a) := f (aw_store w) in (w <| aw_store := s |>, a).
Definition read_durable {A} (f : S → A) : ST ActWorld A := λ w, (w, f (aw_store w)).

(** A call of the executor, recorded in the trace. *)
Definition act_call {A} (event : act_effect) (f : X → X * A) : ST ActWorld A :=
  λ w, let '(x, a) := f (aw_exec w) in (w <| aw_exec := x |> <| aw_trace ::= λ l, l ++ [event] |>, a).

(** [auditFor] *)
Definition auditFor (runID delegatedBy : string) (intent : AuditIntent) (at_ : time) : ST ActWorld AuditEvent :=
  id ← act_newID "audit";
  mret {| ae_ID := id; ae_CorrelationID := runID; ae_ActorType := ai_ActorType intent; ae_ActorID := ai_ActorID intent;
          ae_DelegatedBy := delegatedBy; ae_Action := ai_Action intent; ae_ResourceType := ai_ResourceType intent;
          ae_ResourceID := ai_ResourceID intent; ae_Result := ai_Result intent; ae_Details := ai_Details intent;
          ae_Timestamp := at_ |}.

(** [Activities.audit] *)
Definition act_audit (run : ReleaseRun) (intent : AuditIntent) : ST ActWorld AuditEvent :=
  auditFor (run_ID run) (run_RequestedBy run) intent (run_UpdatedAt run).

(** [Activities.outbox] *)
Definition act_outbox (prefix aggregateID eventType : string) (payload : details) : ST ActWorld OutboxEvent :=
  t ← act_now; id ← act_newID prefix;
  mret {| ob_ID := id; ob_AggregateType := prefix; ob_AggregateID := aggregateID; ob_EventType := eventType;
          ob_Payload := payload; ob_PayloadRun := None; ob_CreatedAt := t; ob_AvailableAt := t;
          ob_PublishedAt := None; ob_Attempts := 0 |}.

(** The loop over the audit intents. *)
Fixpoint act_audits (run : ReleaseRun) (intents : list AuditIntent) : ST ActWorld (list AuditEvent) :=
  match intents with
  | [] => mret []
  | intent :: intents => event ← act_audit run intent; events ← act_audits run intents; mret (event :: events)
  end.

(** The update of [PersistRun]: one that conflicts because it is already stored counts as done. *)
Definition persist_update (run : ReleaseRun) (audits : list AuditEvent) (events : list OutboxEvent) :
    ST ActWorld (result error ReleaseRun) :=
  let expected := run_StateVersion run in
  r ← on_durable (store_UpdateRunAtomic run expected audits events);
  match r with
  | Ok run => mret (Ok run)
  | Err err =>
      if errors_Is err "store.ErrConflict" then
        current ← read_durable (store_GetRun (run_ID run));
        match current with
        | Ok current =>
            if bool_decide (current = run <| run_StateVersion := int64 (expected + 1) |>) then mret (Ok current)
            else mret (Err err)
        | Err _ => mret (Err err)
        end
      else mret (Err err)
  end.

(** [PersistRun] *)
Definition PersistRun (input : PersistInput) : ST ActWorld (result error ReleaseRun) :=
  let run := pin_Run input in
  audits ← act_audits run (pin_Audits input);
  events ← (if bool_decide (pin_EventType input = "") then mret []
            else event ← act_outbox "run-event" (run_ID run) (pin_EventType input)
                           {[ "status" := AString (RunStatus_string (run_Status run)) ]};
                 mret [event]);
  persist_update run audits events.

(** [EvaluateStep]; the policy engine reads the clock for the decision. *)
Definition EvaluateStep (a : Activities) (run : ReleaseRun) (step : ReleaseStep) : ST ActWorld PolicyDecision :=
  t ← act_now; mret (PolicyEngine_Evaluate (acts_Policy a) (InputForRelease run step) t).

(** *** Deploy *)

Definition deploy_failure (message : string) (err : error) : error :=
  nonRetryable message workflow.ErrorUnknownExternalState
    (ClassifiedError workflow.ErrorUnknownExternalState "deploy" err).

(** Up to the reservation: an answer from the execution table, or a new reservation. *)
Definition deploy_reserve (a : Activities) (input : DeployInput) :
    ST ActWorld (result error DeployResult + ExecutionRecord) :=
  t ← act_now; id ← act_newID "execution";
  let record :=
    {| er_ID := id; er_RunID := di_RunID input; er_Service := di_Service input; er_Adapter := acts_AdapterName a;
       er_IdempotencyKey := di_IdempotencyKey input; er_Status := ""; er_ExternalExecutionID := "";
       er_Payload := {[ "desired_version" := AString (di_DesiredVersion input) ]}; er_StateVersion := 0;
       er_CreatedAt := t; er_UpdatedAt := t |} in
  let d : details := {[ "adapter" := AString (acts_AdapterName a); "idempotency_key" := AString (di_IdempotencyKey input) ]} in
  audit ← auditFor (di_RunID input) (di_RequestedBy input)
            {| ai_ActorType := "agent"; ai_ActorID := di_AgentID input; ai_Action := "deployment.reserve";
               ai_ResourceType := "service"; ai_ResourceID := di_Service input; ai_Result := "AUTHORIZED";
               ai_Details := d |} t;
  event ← act_outbox "execution" id "execution.reserved" d;
  r ← on_durable (store_ReserveExecution record audit event);
  mret match r with
       | Err err => inl (Err err)
       | Ok (reserved, true) => inr reserved
       | Ok (reserved, false) =>
           inl (if bool_decide (er_Status reserved = ExecutionSucceeded)
                then Ok {| dre_Execution := execution_of reserved (recorded_deployment reserved);
                           dre_Deployment := recorded_deployment reserved |}
                else Err (deploy_failure "reserved execution requires reconciliation" ErrUnknownExternalState))
       end.

(** The call of the executor. *)
Definition deploy_call (input : DeployInput) : ST ActWorld (result error Deployment) :=
  act_call (AEDeploy input) (executor_Deploy
    {| dr_Service := di_Service input; dr_Environment := di_Environment input;
       dr_DesiredVersion := di_DesiredVersion input; dr_IdempotencyKey := di_IdempotencyKey input |}).

(** The audit intent of a finished write. *)
Definition result_intent (action service res : string) (d : details) : AuditIntent :=
  {| ai_ActorType := "system"; ai_ActorID := "workflow-worker"; ai_Action := action; ai_ResourceType := "service";
     ai_ResourceID := service; ai_Result := res; ai_Details := d |}.

(** Recording the outcome of the call. *)
Definition deploy_finish (input : DeployInput) (reserved : ExecutionRecord) (outcome : result error Deployment) :
    ST ActWorld (result error DeployResult) :=
  match outcome with
  | Err err =>
      t ← act_now;
      audit ← auditFor (di_RunID input) (di_RequestedBy input)
                (result_intent "deployment.result" (di_Service input) "UNKNOWN" {[ "error" := AString (Error err) ]}) t;
      event ← act_outbox "execution" (er_ID reserved) "execution.unknown" ∅;
      _ ← on_durable (store_CompleteExecution (unknown_record reserved t) (er_StateVersion reserved) audit event);
      mret (Err (deploy_failure "deployment result is unknown" err))
  | Ok deployment =>
      t ← act_now;
      let record := succeeded_record reserved deployment t in
      audit ← auditFor (di_RunID input) (di_RequestedBy input)
                (result_intent "deployment.result" (di_Service input) "SUCCEEDED"
                   {[ "external_execution_id" := AString (dpl_ExternalID deployment) ]}) t;
      event ← act_outbox "execution" (er_ID reserved) "execution.succeeded" ∅;
      r ← on_durable (store_CompleteExecution record (er_StateVersion record) audit event);
      mret match r with
           | Err err => Err (nonRetryable "deployment succeeded but persistence is unknown"
                               workflow.ErrorUnknownExternalState err)
           | Ok _ => Ok {| dre_Execution := execution_of record deployment; dre_Deployment := deployment |}
           end
  end.

(** [Activities.Deploy] *)
Definition Activities_Deploy (a : Activities) (input : DeployInput) : ST ActWorld (result error DeployResult) :=
  r ← deploy_reserve a input;
  match r with
  | inl out => mret out
  | inr reserved => outcome ← deploy_call input; deploy_finish input reserved outcome
  end.

(** *** Verify *)

(** [Activities.Verify] *)
Definition Activities_Verify (deployment : Deployment) : ST ActWorld (result error VerificationResult) :=
  r ← act_call (AEVerify deployment) (executor_Verify deployment);
  mret match r with
       | Err err => Err (ClassifiedError workflow.ErrorRetryable "verify" err)
       | Ok res =>
           if negb (bool_decide (aev_Status (vr_Evidence res) = Outcome res))
           then Err (ClassifiedError workflow.ErrorTerminal "verify"
                       (ErrorNew "verification outcome and evidence disagree"))
           else match verification_ValidateEvidence marshal (vr_Evidence res) with
                | Err err => Err (ClassifiedError workflow.ErrorTerminal "verify" err)
                | Ok _ => Ok res
                end
       end.

(** *** Rollback *)

Definition rollback_failure (message : string) (err : error) : error :=
  nonRetryable message workflow.ErrorUnknownExternalState err.

Definition rollback_reserve (a : Activities) (input : RollbackInput) :
    ST ActWorld (result error RollbackResult + ExecutionRecord) :=
  let deploy := ri_Deploy input in
  t ← act_now; id ← act_newID "rollback";
  let record :=
    {| er_ID := id; er_RunID := di_RunID deploy; er_Service := di_Service deploy;
       er_Adapter := acts_AdapterName a +:+ ".rollback"; er_IdempotencyKey := di_IdempotencyKey deploy +:+ "/rollback";
       er_Status := ""; er_ExternalExecutionID := ""; er_Payload := ∅; er_StateVersion := 0;
       er_CreatedAt := t; er_UpdatedAt := t |} in
  audit ← auditFor (di_RunID deploy) (di_RequestedBy deploy)
            (result_intent "rollback.reserve" (di_Service deploy) "AUTHORIZED" ∅) t;
  event ← act_outbox "execution" id "rollback.reserved" ∅;
  r ← on_durable (store_ReserveExecution record audit event);
  mret match r with
       | Err err => inl (Err err)
       | Ok (reserved, true) => inr reserved
       | Ok (reserved, false) =>
           inl (if bool_decide (er_Status reserved = ExecutionSucceeded)
                then Ok {| rre_Execution := execution_of reserved (recorded_deployment reserved);
                           rre_Deployment := recorded_deployment reserved |}
                else Err (rollback_failure "rollback state requires reconciliation" ErrUnknownExternalState))
       end.

Definition rollback_call (input : RollbackInput) : ST ActWorld (result error Deployment) :=
  act_call (AERollback input) (executor_Rollback (ri_Deployment input)).

Definition rollback_finish (input : RollbackInput) (reserved : ExecutionRecord) (outcome : result error Deployment) :
    ST ActWorld (result error RollbackResult) :=
  let deploy := ri_Deploy input in
  match outcome with
  | Err err =>
      t ← act_now;
      audit ← auditFor (di_RunID deploy) (di_RequestedBy deploy)
                (result_intent "rollback.result" (di_Service deploy) "UNKNOWN" ∅) t;
      event ← act_outbox "execution" (er_ID reserved) "rollback.unknown" ∅;
      _ ← on_durable (store_CompleteExecution (unknown_record reserved t) (er_StateVersion reserved) audit event);
      mret (Err (rollback_failure "rollback result is unknown" err))
  | Ok deployment =>
      t ← act_now;
      let record := succeeded_record reserved deployment t in
      audit ← auditFor (di_RunID deploy) (di_RequestedBy deploy)
                (result_intent "rollback.result" (di_Service deploy) "SUCCEEDED"
                   {[ "external_execution_id" := AString (dpl_ExternalID deployment) ]}) t;
      event ← act_outbox "execution" (er_ID reserved) "rollback.succeeded" ∅;
      r ← on_durable (store_CompleteExecution record (er_StateVersion record) audit event);
      mret match r with
           | Err err => Err (rollback_failure "rollback succeeded but persistence is unknown" err)
           | Ok _ => Ok {| rre_Execution := execution_of record deployment; rre_Deployment := deployment |}
           end
  end.

(** [Activities.Rollback] *)
Definition Activities_Rollback (a : Activities) (input : RollbackInput) : ST ActWorld (result error RollbackResult) :=
  r ← rollback_reserve a input;
  match r with
  | inl out => mret out
  | inr reserved => outcome ← rollback_call input; rollback_finish input reserved outcome
  end.
End activities.

(** ** External writes

    Deploy and Rollback follow one protocol; [write] is either of them and the three
    parts are those of the definitions above. *)

Inductive write :=
| WDeploy (input : DeployInput)
| WRollback (input : RollbackInput).

Definition write_slot (a : Activities) (x : write) : string * string :=
  match x with WDeploy input => deploy_slot a input | WRollback input => rollback_slot a input end.

Definition write_event (x : write) : act_effect :=
  match x with WDeploy input => AEDeploy input | WRollback input => AERollback input end.

(** The slot an executor call writes for. *)
Definition effect_slot (a : Activities) (e : act_effect) : option (string * string) :=
  match e with
  | AEDeploy input => Some (deploy_slot a input)
  | AEVerify _ => None
  | AERollback input => Some (rollback_slot a input)
  end.

(** How far an activity has come on its worker. *)
Inductive stage :=
| Begin
| Held (reserved : ExecutionRecord)
| Called (reserved : ExecutionRecord) (outcome : result error Deployment)
| Finished.

Section writes.
Context {S X : Type} `{!DurableStore S, !ReleaseExecutor X}.
Context (now_at : nat → time) (id_at : nat → string) (nonRetryable : string → string → error → error).
Context (a : Activities) `{!ExecutionLaws S}.
Abbreviation W := (@ActWorld S X).

Definition write_reserve (x : write) : ST W (option ExecutionRecord) :=
  match x with
  | WDeploy input => r ← deploy_reserve now_at id_at nonRetryable a input;
                     mret match r with inl _ => None | inr reserved => Some reserved end
  | WRollback input => r ← rollback_reserve now_at id_at nonRetryable a input;
                       mret match r with inl _ => None | inr reserved => Some reserved end
  end.

Definition write_call (x : write) : ST W (result error Deployment) :=
  match x with WDeploy input => deploy_call input | WRollback input => rollback_call input end.

Definition write_finish (x : write) (reserved : ExecutionRecord) (outcome : result error Deployment) : ST W unit :=
  match x with
  | WDeploy input => _ ← deploy_finish now_at id_at nonRetryable input reserved outcome; mret tt
  | WRollback input => _ ← rollback_finish now_at id_at nonRetryable input reserved outcome; mret tt
  end.

(** One part of a write; Temporal may ask again from any point. *)
Inductive write_step (x : write) : stage * W → stage * W → Prop :=
| step_refused w w' : write_reserve x w = (w', None) → write_step x (Begin, w) (Finished, w')
| step_reserved w w' reserved : write_reserve x w = (w', Some reserved) → write_step x (Begin, w) (Held reserved, w')
| step_called reserved w w' outcome : write_call x w = (w', outcome) →
    write_step x (Held reserved, w) (Called reserved outcome, w')
| step_recorded reserved outcome w w' : write_finish x reserved outcome w = (w', tt) →
    write_step x (Called reserved outcome, w) (Finished, w')
| step_retried st w : write_step x (st, w) (Begin, w).

(** What other clients of the store and of the executor may do in between: nothing frees a slot. *)
Definition interference (w w' : W) : Prop :=
  aw_trace w' = aw_trace w ∧ ∀ slot, occupied (aw_store w) slot → occupied (aw_store w') slot.

(** Any number of activities on any number of workers. *)
Inductive system_step : list (write * stage) * W → list (write * stage) * W → Prop :=
| system_write ts1 ts2 x st st' w w' : write_step x (st, w) (st', w') →
    system_step (ts1 ++ (x, st) :: ts2, w) (ts1 ++ (x, st') :: ts2, w')
| system_spawn ts x w : system_step (ts, w) ((x, Begin) :: ts, w)
| system_other ts w w' : interference w w' → system_step (ts, w) (ts, w').

(** ** The parts *)

Ltac act_eval :=
  unfold deploy_reserve, rollback_reserve, deploy_call, rollback_call, deploy_finish, rollback_finish, act_call,
    auditFor, act_outbox, act_now, act_newID, on_durable, mbind, mret, st_bind, st_ret, modify; simpl.

(** A reservation touches the store only, and a new one takes a free slot. *)
Definition reservation (slot : string * string) (w w' : W) (new : option ExecutionRecord) : Prop :=
  aw_exec w' = aw_exec w ∧ aw_trace w' = aw_trace w ∧
  (∀ other, occupied (aw_store w) other → occupied (aw_store w') other) ∧
  match new with
  | None => True
  | Some r => record_slot r = slot ∧ ¬ occupied (aw_store w) slot ∧ occupied (aw_store w') slot
  end.

Lemma reserve_spec record audit event s s' r :
  store_ReserveExecution record audit event s = (s', r) →
  (∀ other, occupied s other → occupied s' other) ∧
  (∀ reserved, r = Ok (reserved, true) → record_slot reserved = record_slot record ∧
     ¬ occupied s (record_slot record) ∧ occupied s' (record_slot record)).
Proof.
  intros Hr. split.
  - intros other Ho. apply (occupied_reserve record audit event) in Ho. by rewrite Hr in Ho.
  - intros reserved ->. apply reserve_execution_new in Hr as (-> & Hn & Hg). by repeat split.
Qed.

Lemma deploy_reserve_spec input w w' r :
  deploy_reserve now_at id_at nonRetryable a input w = (w', r) →
  reservation (deploy_slot a input) w w' match r with inl _ => None | inr reserved => Some reserved end.
Proof.
  act_eval. destruct (store_ReserveExecution _ _ _ _) as [s sr] eqn:Hr. simpl.
  apply reserve_spec in Hr as [Hocc Hnew]. intros [= <- <-]. unfold reservation; simpl. repeat split; auto.
  by destruct sr as [[reserved []]|err]; simpl; auto.
Qed.

Lemma rollback_reserve_spec input w w' r :
  rollback_reserve now_at id_at nonRetryable a input w = (w', r) →
  reservation (rollback_slot a input) w w' match r with inl _ => None | inr reserved => Some reserved end.
Proof.
  act_eval. destruct (store_ReserveExecution _ _ _ _) as [s sr] eqn:Hr. simpl.
  apply reserve_spec in Hr as [Hocc Hnew]. intros [= <- <-]. unfold reservation; simpl. repeat split; auto.
  by destruct sr as [[reserved []]|err]; simpl; auto.
Qed.

Lemma write_reserve_spec x w w' new :
  write_reserve x w = (w', new) → reservation (write_slot a x) w w' new.
Proof.
  destruct x; intros (w1 & r & Hr & [= <- <-])%st_bind_inv;
    [by apply deploy_reserve_spec in Hr|by apply rollback_reserve_spec in Hr].
Qed.

Lemma write_call_spec x w w' outcome :
  write_call x w = (w', outcome) → aw_store w' = aw_store w ∧ aw_trace w' = aw_trace w ++ [write_event x].
Proof.
  destruct x; simpl; act_eval.
  - destruct (executor_Deploy _ _). by intros [= <- _].
  - destruct (executor_Rollback _ _). by intros [= <- _].
Qed.

Lemma complete_occupied record v audit event s s' r slot :
  store_CompleteExecution record v audit event s = (s', r) → occupied s slot → occupied s' slot.
Proof. intros Hc Ho. apply (occupied_complete record v audit event) in Ho. by rewrite Hc in Ho. Qed.

Lemma write_finish_spec x reserved outcome w w' :
  write_finish x reserved outcome w = (w', tt) → interference w w'.
Proof.
  unfold interference. destruct x, outcome; simpl; act_eval;
    destruct (store_CompleteExecution _ _ _ _ _) as [s r] eqn:Hc; simpl; intros [= <-]; simpl;
    (split; [done|intros slot; by eapply complete_occupied]).
Qed.

(** A whole activity is its parts one after the other. *)
Lemma Activities_Deploy_steps input w w' out :
  Activities_Deploy now_at id_at nonRetryable a input w = (w', out) →
  rtc (write_step (WDeploy input)) (Begin, w) (Finished, w').
Proof.
  intros (w1 & r & Hr & Hout)%st_bind_inv. destruct r as [early|reserved].
  - injection Hout as <- <-. apply rtc_once, step_refused. simpl. unfold mbind, st_bind. by rewrite Hr.
  - apply st_bind_inv in Hout as (w2 & outcome & Hc & Hf).
    eapply rtc_l; [apply (step_reserved _ _ w1 reserved); simpl; unfold mbind, st_bind; by rewrite Hr|].
    eapply rtc_l; [by apply step_called|]. apply rtc_once, step_recorded. simpl. unfold mbind, st_bind. by rewrite Hf.
Qed.

(** ** At most one call per slot *)

Definition held_slot (t : write * stage) : option (string * string) :=
  match t.2 with Held _ => Some (write_slot a t.1) | _ => None end.

Lemma event_slots l x : omap (effect_slot a) (l ++ [write_event x]) = omap (effect_slot a) l ++ [write_slot a x].
Proof. rewrite omap_app. by destruct x. Qed.

(** The slots that were written or are about to be: distinct, occupied, and free at the start. *)
Definition at_most_once (w0 : W) (c : list (write * stage) * W) : Prop :=
  let slots := omap (effect_slot a) (aw_trace c.2) ++ omap held_slot c.1 in
  NoDup slots ∧ (∀ slot, slot ∈ slots → occupied (aw_store c.2) slot ∧ ¬ occupied (aw_store w0) slot) ∧
  (∀ slot, occupied (aw_store w0) slot → occupied (aw_store c.2) slot).

(** The invariant survives when the slots only get fewer and the store only fuller. *)
Lemma at_most_once_weaken w0 c c' :
  at_most_once w0 c →
  (∃ gone, omap (effect_slot a) (aw_trace c.2) ++ omap held_slot c.1 ≡ₚ
           gone ++ omap (effect_slot a) (aw_trace c'.2) ++ omap held_slot c'.1) →
  (∀ slot, occupied (aw_store c.2) slot → occupied (aw_store c'.2) slot) →
  at_most_once w0 c'.
Proof.
  intros (Hnd & Hocc & Hmono) [gone Hp] Hs. unfold at_most_once. split_and!.
  - rewrite Hp in Hnd. by apply NoDup_app in Hnd as (_ & _ & ?).
  - intros slot Hin. destruct (Hocc slot); [|auto]. rewrite Hp. apply elem_of_app. by right.
  - auto.
Qed.

Lemma held_slots_middle ts1 t ts2 :
  omap held_slot (ts1 ++ t :: ts2) ≡ₚ option_list (held_slot t) ++ omap held_slot (ts1 ++ ts2).
Proof. rewrite !omap_app. simpl. destruct (held_slot t); simpl; by rewrite <-?Permutation_middle. Qed.

Lemma write_step_once w0 ts1 ts2 x st st' w w' :
  write_step x (st, w) (st', w') → at_most_once w0 (ts1 ++ (x, st) :: ts2, w) →
  at_most_once w0 (ts1 ++ (x, st') :: ts2, w').
Proof.
  intros Hstep Hinv.
  inversion Hstep as [? ? Hr|? ? reserved Hr|reserved ? ? outcome Hc|reserved outcome ? ? Hf|st0 ?]; subst.
  - apply write_reserve_spec in Hr as (_ & Ht & Ho & _). eapply at_most_once_weaken; [exact Hinv| |done].
    exists []. simpl. by rewrite Ht, !held_slots_middle.
  - apply write_reserve_spec in Hr as (_ & Ht & Ho & _ & Hfree & Hget). destruct Hinv as (Hnd & Hocc & Hmono).
    assert (Hp : omap (effect_slot a) (aw_trace w') ++ omap held_slot (ts1 ++ (x, Held reserved) :: ts2) ≡ₚ
      write_slot a x :: omap (effect_slot a) (aw_trace w) ++ omap held_slot (ts1 ++ (x, Begin) :: ts2)).
    { rewrite Ht, !held_slots_middle. simpl. by rewrite <-Permutation_middle. }
    unfold at_most_once. simpl in *. split_and!.
    + rewrite Hp. constructor; [|done]. by intros [? _]%Hocc.
    + intros slot. rewrite Hp, elem_of_cons. intros [->|Hin].
      * split; [done|]. by intros ?%Hmono.
      * destruct (Hocc slot Hin). auto.
    + auto.
  - apply write_call_spec in Hc as (Hs & Ht). eapply at_most_once_weaken; [exact Hinv| |by simpl; rewrite Hs].
    exists []. simpl. rewrite Ht, !held_slots_middle, event_slots. simpl. by rewrite <-(assoc_L (++)).
  - apply write_finish_spec in Hf as (Ht & Ho). eapply at_most_once_weaken; [exact Hinv| |done].
    exists []. simpl. by rewrite Ht, !held_slots_middle.
  - eapply at_most_once_weaken; [exact Hinv| |done]. simpl. exists (option_list (held_slot (x, st))).
    rewrite !held_slots_middle. simpl. by rewrite !(assoc_L (++)), (comm (++) (omap _ _) (option_list _)).
Qed.

Lemma system_step_once w0 c c' : system_step c c' → at_most_once w0 c → at_most_once w0 c'.
Proof.
  intros [ts1 ts2 x st st' w w' Hstep|ts x w|ts w w' [Ht Ho]] Hinv.
  - by eapply write_step_once.
  - eapply at_most_once_weaken; [exact Hinv| |done]. by exists [].
  - eapply at_most_once_weaken; [exact Hinv| |done]. exists []. simpl. by rewrite Ht.
Qed.

Lemma system_once c0 c :
  rtc system_step c0 c → aw_trace c0.2 = [] → Forall (λ t, held_slot t = None) c0.1 → at_most_once c0.2 c.
Proof.
  intros Hsteps Ht Hts. assert (H0 : at_most_once c0.2 c0).
  { unfold at_most_once. rewrite Ht. assert (omap held_slot c0.1 = []) as ->.
    { clear -Hts. induction Hts as [|t ts Hh _ IH]; [done|]. simpl. by rewrite Hh. }
    split_and!; [constructor| |done]. intros slot Hin. by apply elem_of_nil in Hin. }
  revert H0. generalize c0.2 as w0. clear Ht Hts.
  induction Hsteps as [|c0 c1 c2 Hstep _ IH]; intros w0 Hinv; [done|]. eapply IH, system_step_once; eauto.
Qed.

(** C3: however deploy and rollback activities interleave on any number of workers, crash
    and are retried from any point, and whatever else happens to the store as long as executions are
    not deleted, the executor is called at most once per adapter and idempotency key, and never for
    a slot that was occupied from the start. *)
Theorem activities_write_once c0 c :
  rtc system_step c0 c → aw_trace c0.2 = [] → Forall (λ t, t.2 = Begin) c0.1 →
  let slots := omap (effect_slot a) (aw_trace c.2) in
  NoDup slots ∧ ∀ slot, slot ∈ slots → ¬ occupied (aw_store c0.2) slot.
Proof.
  intros Hsteps Ht Hts.
  destruct (system_once c0 c Hsteps Ht) as (Hnd & Hocc & _).
  { eapply Forall_impl; [exact Hts|]. intros [x st] Hst. simpl in Hst. by rewrite Hst. }
  split; [by apply NoDup_app in Hnd as [? _]|].
  intros slot Hin. apply (Hocc slot), elem_of_app. by left.
Qed.

(** ** Retries *)

(** Nothing but the clock and the supply of identifiers moved. *)
Definition idle (w w' : W) : Prop :=
  aw_store w' = aw_store w ∧ aw_exec w' = aw_exec w ∧ aw_trace w' = aw_trace w.

Context `{!RetryLaws S}.

(** A slot with a succeeded execution answers from its record. *)
Lemma deploy_answers input w record :
  store_GetExecution (acts_AdapterName a) (di_IdempotencyKey input) (aw_store w) = Ok record →
  er_Status record = ExecutionSucceeded →
  ∃ w', Activities_Deploy now_at id_at nonRetryable a input w =
      (w', Ok {| dre_Execution := execution_of record (recorded_deployment record);
                 dre_Deployment := recorded_deployment record |}) ∧ idle w w'.
Proof.
  intros Hg Hst. unfold Activities_Deploy. act_eval. rewrite (reserve_execution_taken _ _ _ _ record); [|exact Hg].
  simpl. rewrite Hst, bool_decide_true by done. eexists. split; [reflexivity|]. by unfold idle.
Qed.

Lemma payload_time_text (d : details) name t :
  d !! name = Some (AString (Format t)) → 0 ≤ Year t ≤ 9999 → payload_time d name = t.
Proof. intros Hd Hy. unfold payload_time. by rewrite Hd, (Parse_Format t Hy). Qed.

(** The record of a success stands for its deployment. *)
Lemma settled_fields record stored : settled record stored →
  er_ID stored = er_ID record ∧ er_Adapter stored = er_Adapter record ∧
  er_IdempotencyKey stored = er_IdempotencyKey record ∧ er_Status stored = er_Status record ∧
  er_ExternalExecutionID stored = er_ExternalExecutionID record ∧ er_Payload stored = er_Payload record.
Proof. by intros (created & updated & ->). Qed.

Lemma recorded_succeeded record deployment t v stored :
  0 ≤ Year (dpl_StartedAt deployment) ≤ 9999 → 0 ≤ Year (dpl_FinishedAt deployment) ≤ 9999 →
  settled ((succeeded_record record deployment t) <| er_StateVersion := v |>) stored →
  er_Status stored = ExecutionSucceeded ∧ recorded_deployment stored = deployment ∧
  execution_of stored deployment = execution_of (succeeded_record record deployment t) deployment.
Proof.
  intros Hs Hf (Hid & Ha & Hk & Hst & Hex & Hp)%settled_fields. split; [exact Hst|].
  unfold recorded_deployment, execution_of. rewrite Hid, Ha, Hk, Hst, Hex, Hp. split; [|reflexivity]. simpl.
  rewrite (payload_time_text _ _ (dpl_StartedAt deployment)), (payload_time_text _ _ (dpl_FinishedAt deployment));
    [by destruct deployment|reflexivity|done|reflexivity|done].
Qed.

Lemma succeeded_textual record deployment t : textual (er_Payload (succeeded_record record deployment t)).
Proof.
  unfold textual, succeeded_record, modify. simpl. apply map_Forall_insert_2; [by eexists|].
  apply map_Forall_singleton. by eexists.
Qed.

(** A new reservation is stored. *)
Lemma deploy_reserved_stored input (w w' : W) reserved :
  deploy_reserve now_at id_at nonRetryable a input w = (w', inr reserved) →
  record_slot reserved = deploy_slot a input ∧
  ∃ stored, store_GetExecution (acts_AdapterName a) (di_IdempotencyKey input) (aw_store w') = Ok stored ∧
    er_ID reserved = er_ID stored ∧ er_RunID reserved = er_RunID stored ∧ er_Service reserved = er_Service stored ∧
    record_slot reserved = record_slot stored.
Proof.
  act_eval. destruct (store_ReserveExecution _ _ _ _) as [s [[record []]|err]] eqn:He; simpl; try discriminate.
  intros [= <- <-]. split; [by apply reserve_execution_new in He as (-> & _)|].
  apply reserve_execution_stored in He as (stored & Hg & created & updated & ->).
  - eexists. split; [exact Hg|done].
  - simpl. unfold textual. apply map_Forall_singleton. by eexists.
Qed.

(** A success leaves a succeeded record that stands for the result. *)
Lemma deploy_recorded input w w' res :
  Activities_Deploy now_at id_at nonRetryable a input w = (w', Ok res) →
  0 ≤ Year (dpl_StartedAt (dre_Deployment res)) ≤ 9999 → 0 ≤ Year (dpl_FinishedAt (dre_Deployment res)) ≤ 9999 →
  ∃ record, store_GetExecution (acts_AdapterName a) (di_IdempotencyKey input) (aw_store w') = Ok record ∧
    er_Status record = ExecutionSucceeded ∧
    res = {| dre_Execution := execution_of record (recorded_deployment record);
             dre_Deployment := recorded_deployment record |}.
Proof.
  intros (w1 & r & Hr & Hout)%st_bind_inv Hs Hf.
  destruct r as [early|reserved].
  - injection Hout as <- ->. revert Hr. act_eval.
    destruct (store_ReserveExecution _ _ _ _) as [s [[record []]|err]] eqn:He; simpl; try discriminate.
    destruct (bool_decide (er_Status record = ExecutionSucceeded)) eqn:Hb; [|discriminate].
    intros [= <- <-]. apply reserve_execution_old in He as [-> He]. exists record. simpl in *.
    split; [exact He|]. split; [by apply bool_decide_eq_true in Hb|done].
  - apply deploy_reserved_stored in Hr as (Hslot & stored & Hg & Hid & Hrun & Hsvc & Hslot'). injection Hslot as Ha Hk.
    apply st_bind_inv in Hout as (w2 & outcome & Hcall & Hfin).
    apply (write_call_spec (WDeploy input)) in Hcall as [Hstore _]. rewrite <-Hstore in Hg. revert Hfin.
    destruct outcome as [deployment|err]; act_eval; [|destruct (store_CompleteExecution _ _ _ _ _); discriminate].
    destruct (store_CompleteExecution _ _ _ _ _) as [s [[]|err]] eqn:Hc; simpl; [|discriminate].
    intros [= <- <-]. apply (complete_execution_ok _ stored) in Hc as (final & Hget & Hset);
      [|apply succeeded_textual|simpl; by rewrite Ha, Hk|done..].
    destruct (recorded_succeeded _ _ _ _ _ Hs Hf Hset) as (Hst & Hrec & Hex).
    simpl in Hget. rewrite Ha, Hk in Hget. exists final. split; [exact Hget|]. split; [done|]. by rewrite Hrec, Hex.
Qed.

(** a Deploy that succeeded can be asked for again: the second call returns the same
    execution and deployment, from the record, without calling the executor or changing the store.
    The instants of the deployment travel as RFC 3339 text, hence the years. *)
Theorem deploy_retry_idempotent input w w' res :
  Activities_Deploy now_at id_at nonRetryable a input w = (w', Ok res) →
  0 ≤ Year (dpl_StartedAt (dre_Deployment res)) ≤ 9999 → 0 ≤ Year (dpl_FinishedAt (dre_Deployment res)) ≤ 9999 →
  ∃ w'', Activities_Deploy now_at id_at nonRetryable a input w' = (w'', Ok res) ∧ idle w' w''.
Proof.
  intros Hd Hs Hf. destruct (deploy_recorded _ _ _ _ Hd Hs Hf) as (record & Hg & Hst & ->).
  by apply deploy_answers.
Qed.

Context `{!UpdateLaws S}.

Lemma act_audits_idle run intents (w w' : W) l : act_audits id_at run intents w = (w', l) → idle w w'.
Proof.
  revert w w' l. induction intents as [|intent intents IH]; intros w w' l; simpl; [by intros [= <- _]|].
  intros (w1 & event & [= <- _] & (w2 & events & Ht & [= <- _])%st_bind_inv)%st_bind_inv.
  apply IH in Ht as (? & ? & ?). by repeat split.
Qed.

(** What comes before the update moves only the clock and the identifiers. *)
Lemma PersistRun_eq input (w : W) :
  ∃ w1 audits events, idle w w1 ∧
    PersistRun now_at id_at input w = persist_update (pin_Run input) audits events w1.
Proof.
  unfold PersistRun, mbind, st_bind. destruct (act_audits _ _ _ w) as [w1 audits] eqn:Ha.
  apply act_audits_idle in Ha as (Hs & He & Ht).
  destruct (bool_decide (pin_EventType input = "")); eexists _, audits, _; (split; [|reflexivity]); by repeat split.
Qed.

Definition persisted (run : ReleaseRun) : ReleaseRun := run <| run_StateVersion := int64 (run_StateVersion run + 1) |>.

(** A successful update returns the run with its next version, and has stored it. *)
Lemma persist_update_version run audits events (w w' : W) r :
  persist_update run audits events w = (w', Ok r) → r = persisted run.
Proof.
  intros (w1 & u & Hu & Hk)%st_bind_inv. revert Hu. unfold on_durable.
  destruct (store_UpdateRunAtomic _ _ _ _ _) as [s u'] eqn:Hup. intros [= <- ->]. destruct u as [updated|err].
  - injection Hk as <- <-. by apply atomic_update_version in Hup.
  - destruct (errors_Is err _); [|discriminate]. unfold read_durable, mbind, st_bind in Hk.
    destruct (store_GetRun _ _) as [current|]; [|discriminate].
    destruct (bool_decide (current = _)) eqn:Hb; [|discriminate]. injection Hk as <- <-. by apply bool_decide_eq_true in Hb.
Qed.

Context `{!AtomicLaws S}.

Lemma persist_update_stored run audits events (w w' : W) r :
  persist_update run audits events w = (w', Ok r) → store_GetRun (run_ID run) (aw_store w') = Ok r.
Proof.
  intros (w1 & u & Hu & Hk)%st_bind_inv. revert Hu. unfold on_durable.
  destruct (store_UpdateRunAtomic _ _ _ _ _) as [s u'] eqn:Hup. intros [= <- ->]. destruct u as [updated|err].
  - injection Hk as <- <-. by apply atomic_update_ok in Hup.
  - destruct (errors_Is err _); [|discriminate]. unfold read_durable, mbind, st_bind in Hk.
    destruct (store_GetRun _ _) as [current|] eqn:Hg; [|discriminate].
    destruct (bool_decide (current = _)); [|discriminate]. by injection Hk as <- <-.
Qed.

Lemma persist_update_valid run audits events (w w' : W) r :
  persist_update run audits events w = (w', r) → durable_valid (aw_store w) → durable_valid (aw_store w').
Proof.
  intros (w1 & u & Hu & Hk)%st_bind_inv Hval. apply (atomic_update_valid run (run_StateVersion run) audits events) in Hval.
  revert Hu. unfold on_durable. destruct (store_UpdateRunAtomic _ _ _ _ _) as [s u']. intros [= <- ->].
  destruct u as [updated|err]; [by injection Hk as <- _|]. revert Hk.
  destruct (errors_Is _ _); [|by intros [= <- _]]. intros (w2 & current & [= <- <-] & Hk)%st_bind_inv.
  destruct (store_GetRun _ _); [|by injection Hk as <- _]. by destruct (bool_decide _); injection Hk as <- _.
Qed.

(** The update of a run that is stored with its next version answers with it. *)
Lemma persist_update_again run audits events (w : W) :
  durable_valid (aw_store w) → in_int64 (run_StateVersion run) → store_GetRun (run_ID run) (aw_store w) = Ok (persisted run) →
  ∃ w', persist_update run audits events w = (w', Ok (persisted run)) ∧ idle w w'.
Proof.
  intros Hval Hv Hg. destruct (atomic_update_stale run (run_StateVersion run) audits events (aw_store w) _ Hval Hg)
    as (e & Hup & Hc); [by apply int64_succ_neq|].
  unfold persist_update, on_durable, read_durable, mbind, st_bind, modify. simpl. rewrite Hup. simpl. rewrite Hc. simpl. rewrite Hg.
  rewrite bool_decide_true by done. eexists. split; [reflexivity|]. by repeat split.
Qed.

(** persisting a run twice is persisting it once: after a success the same call
    returns the same stored run and leaves store, executor and trace alone, although the version it
    expects is gone. *)
Theorem persist_retry_idempotent input (w w' : W) r :
  durable_valid (aw_store w) → in_int64 (run_StateVersion (pin_Run input)) → PersistRun now_at id_at input w = (w', Ok r) →
  ∃ w'', PersistRun now_at id_at input w' = (w'', Ok r) ∧ idle w' w''.
Proof.
  intros Hval Hv Hp. destruct (PersistRun_eq input w) as (w1 & au & ev & (Hs0 & _) & Heq). rewrite Heq in Hp.
  rewrite <-Hs0 in Hval. pose proof (persist_update_valid _ _ _ _ _ _ Hp Hval) as Hval'.
  pose proof (persist_update_stored _ _ _ _ _ _ Hp) as Hg. apply persist_update_version in Hp as ->.
  destruct (PersistRun_eq input w') as (w2 & au' & ev' & (Hs & Hx & Ht) & ->).
  destruct (persist_update_again (pin_Run input) au' ev' w2) as (w3 & -> & (Hs' & Hx' & Ht')); [by rewrite Hs|done|by rewrite Hs|].
  exists w3. split; [done|]. unfold idle. by rewrite Hs', Hx', Ht'.
Qed.
End writes.

(** ** Verification *)

Section verify.
Context {S X : Type} `{!ReleaseExecutor X} (marshal : AdapterEvidence → result error string).

(** the Verify activity accepts exactly the results whose evidence agrees with the outcome,
    is complete and carries the hash of its content; its failures are retryable exactly when the
    executor gave no result. *)
Theorem verify_accepts deployment (w : @ActWorld S X) w' out x r :
  executor_Verify deployment (aw_exec w) = (x, r) → Activities_Verify marshal deployment w = (w', out) →
  (∀ res, out = Ok res ↔ r = Ok res ∧ aev_Status (vr_Evidence res) = Outcome res ∧ complete_evidence (vr_Evidence res) ∧
     ∃ payload, marshal ((vr_Evidence res) <| aev_EvidenceHash := "" |>) = Ok payload ∧
       aev_EvidenceHash (vr_Evidence res) = sha256_ref payload) ∧
  (∀ e, out = Err e → workflow.IsClass e workflow.ErrorRetryable = negb (is_ok r)).
Proof.
  unfold Activities_Verify, act_call, mbind, st_bind, mret, st_ret. intros ->. intros [= _ <-].
  destruct r as [res|err]; [|by split; [naive_solver|intros e [= <-]]].
  destruct (bool_decide (aev_Status (vr_Evidence res) = Outcome res)) eqn:Hb; simpl.
  - apply bool_decide_eq_true in Hb. pose proof (verification_accepts marshal (vr_Evidence res)) as Hacc.
    destruct (verification_ValidateEvidence marshal (vr_Evidence res)) as [[]|err].
    + split; [|done]. intros res'. split; [|naive_solver]. intros [= <-]. by destruct Hacc as [[? ?] _].
    + split; [|by intros e [= <-]]. intros res'. split; [done|]. intros ([= <-] & _ & Hacc'). by apply Hacc in Hacc'.
  - apply bool_decide_eq_false in Hb. split; [|by intros e [= <-]]. naive_solver.
Qed.
End verify.

(** ** A worker with the in-memory store and the mock executor *)

#[local] Existing Instance canonical_order.
#[local] Instance worker_executor : ReleaseExecutor Mock := mock_executor 2000 (λ _, Ok "{}").

Definition worker : Activities := {| acts_Policy := NewMandatoryEngine "bundle"; acts_AdapterName := "mock" |}.
Definition worker_world (m : Memory) : @ActWorld Memory Mock :=
  {| aw_store := m; aw_exec := NewMock ∅; aw_ticks := 0; aw_ids := 0; aw_trace := [] |}.
Definition worker_input : DeployInput :=
  {| di_RunID := "run"; di_RequestedBy := "user"; di_AgentID := "agent"; di_Service := "auth";
     di_Environment := "staging"; di_DesiredVersion := "v2"; di_IdempotencyKey := "run/staging/auth/v2" |}.
Definition worker_clock (n : nat) : time := 1000 + Z.of_nat n.
Definition worker_ids (n : nat) : string := itoa (Z.of_nat n).
Definition wrapped (message type : string) (cause : error) : error := Errorf message (Some cause).

Definition worker_reserved := write_reserve worker_clock worker_ids wrapped worker (WDeploy worker_input) (worker_world NewMemory).
Definition worker_called := write_call (WDeploy worker_input) (fst worker_reserved).
Definition worker_deployed := Activities_Deploy worker_clock worker_ids wrapped worker worker_input (worker_world NewMemory).

(** Two workers take the same deployment, the first calls the executor. *)
Lemma activities_write_once_witness :
  NoDup (omap (effect_slot worker) (aw_trace (fst worker_called))) ∧
  aw_trace (fst worker_called) = [AEDeploy worker_input].
Proof.
  split; [|reflexivity].
  destruct (snd worker_reserved) as [reserved|] eqn:Hr; [|vm_compute in Hr; discriminate].
  refine (proj1 (activities_write_once worker_clock worker_ids wrapped worker
    ([(WDeploy worker_input, Begin); (WDeploy worker_input, Begin)], worker_world NewMemory)
    ([(WDeploy worker_input, Called reserved (snd worker_called)); (WDeploy worker_input, Begin)], fst worker_called)
    _ eq_refl _)).
  - eapply rtc_l; [|apply rtc_once].
    + apply (system_write _ _ _ _ [] [(WDeploy worker_input, Begin)]). apply step_reserved.
      change (write_reserve worker_clock worker_ids wrapped worker (WDeploy worker_input) (worker_world NewMemory))
        with worker_reserved. rewrite <-Hr. apply surjective_pairing.
    + apply (system_write _ _ _ _ [] [(WDeploy worker_input, Begin)]). apply step_called, surjective_pairing.
  - by repeat constructor.
Defined.

Definition worker_result : DeployResult :=
  match snd worker_deployed with
  | Ok res => res
  | Err _ => {| dre_Execution := execution_of (unknown_record
                  {| er_ID := ""; er_RunID := ""; er_Service := ""; er_Adapter := ""; er_IdempotencyKey := "";
                     er_Status := ""; er_ExternalExecutionID := ""; er_Payload := ∅; er_StateVersion := 0;
                     er_CreatedAt := 0; er_UpdatedAt := 0 |} 0)
                  {| dpl_ExternalID := ""; dpl_StartedAt := 0; dpl_FinishedAt := 0 |};
                dre_Deployment := {| dpl_ExternalID := ""; dpl_StartedAt := 0; dpl_FinishedAt := 0 |} |}
  end.

Lemma worker_deployed_ok : worker_deployed = (fst worker_deployed, Ok worker_result).
Proof. vm_compute. reflexivity. Qed.

Lemma deploy_retry_idempotent_witness :
  dpl_ExternalID (dre_Deployment worker_result) = "mock-auth-1" ∧
  ∃ w'', Activities_Deploy worker_clock worker_ids wrapped worker worker_input (fst worker_deployed) =
    (w'', Ok worker_result) ∧ idle (fst worker_deployed) w''.
Proof.
  split; [vm_compute; reflexivity|].
  apply (deploy_retry_idempotent worker_clock worker_ids wrapped worker worker_input (worker_world NewMemory)
    (fst worker_deployed) worker_result worker_deployed_ok); vm_compute; split; discriminate.
Defined.

Definition worker_run : ReleaseRun := Eval vm_compute in zero_ReleaseRun <| run_ID := "run" |> <| run_RequestID := "request" |>.
Definition worker_stored : @ActWorld Memory Mock := worker_world (fst (CreateRun worker_run NewMemory)).
Definition worker_persist : PersistInput := Eval vm_compute in
  {| pin_Run := worker_run <| run_Status := RunRunning |>;
     pin_Audits := [result_intent "run.start" "auth" "RUNNING" ∅]; pin_EventType := "release.run.updated" |}.
Definition worker_persisted := PersistRun worker_clock worker_ids worker_persist worker_stored.

Definition worker_saved : ReleaseRun := Eval vm_compute in persisted (pin_Run worker_persist).

Lemma worker_persisted_ok : worker_persisted = (fst worker_persisted, Ok worker_saved).
Proof. vm_compute. reflexivity. Qed.

Lemma persist_retry_idempotent_witness :
  ∃ w'', PersistRun worker_clock worker_ids worker_persist (fst worker_persisted) =
    (w'', Ok worker_saved) ∧ idle (fst worker_persisted) w''.
Proof.
  apply (persist_retry_idempotent worker_clock worker_ids worker_persist worker_stored);
    [exact I|vm_compute; split; discriminate|exact worker_persisted_ok].
Defined.

Definition worker_checked := Activities_Verify (λ _, Ok "{}") (dre_Deployment worker_result) (fst worker_deployed).

Lemma verify_accepts_witness :
  is_ok (snd worker_checked) = true ∧
  ∀ e, snd worker_checked = Err e →
    workflow.IsClass e workflow.ErrorRetryable =
    negb (is_ok (snd (executor_Verify (dre_Deployment worker_result) (aw_exec (fst worker_deployed))))).
Proof.
  split; [vm_compute; reflexivity|].
  exact (proj2 (verify_accepts (λ _, Ok "{}") (dre_Deployment worker_result) (fst worker_deployed) _ _ _ _
    (surjective_pairing _) (surjective_pairing _))).
Defined.
