(* ===== verification/Application.v ===== *)
(** * Application services (src/internal/application)

    The use cases the HTTP API and the MCP server call: planning, starting and
    controlling releases for a tenant, approvals, runner capacity, and the recovery of
    workflow starts from the outbox.  They work against the durable store and the
    workflow service; the latter is the class [WorkflowController] over the state of
    the outside, and every call to it is recorded in a trace.  The runner tables are
    the two maps of [Releases]. *)
From S2P Require Import Prelude GoStd Domain Planner Store Runner Engine Durable.
Open Scope Z_scope.

(** ** What is sent to workflows (src/internal/workflow/signals.go, client.go) *)

(** [ApprovalSignal] *)
Record ApprovalSignal := {
  sg_ApprovalID : string;
  sg_Actor : string;
  sg_Roles : list string;
  sg_Approve : bool;
  sg_Action : string;
}.

(** [ControlSignal] *)
Record ControlSignal := {
  cs_Actor : string;
  cs_Reason : string;
}.

(** [Execution] of a workflow. *)
Record WorkflowExecution := {
  we_WorkflowID : string;
  we_RunID : string;
}.

(** [WorkflowController] *)
Class WorkflowController (X : Type) := {
  workflow_StartRelease : ReleaseRun → X → X * result error WorkflowExecution;
  workflow_SignalApproval : string → ApprovalSignal → X → X * result error unit;
  workflow_Pause : string → ControlSignal → X → X * result error unit;
  workflow_Resume : string → ControlSignal → X → X * result error unit;
  workflow_Cancel : string → ControlSignal → X → X * result error unit;
}.

(** Calls of the workflow service, in order. *)
Inductive app_effect :=
| AppStart (run : ReleaseRun)
| AppApproval (workflowID : string) (signal : ApprovalSignal)
| AppControl (action workflowID : string) (signal : ControlSignal).

Module application.
Definition ErrInvalidRequest : error := Sentinel "application.ErrInvalidRequest" "invalid release request".
Definition ErrApproval : error := Sentinel "application.ErrApproval" "approval rejected".
End application.

(** A run or nil, whether it was created, an error or nil. *)
Abbreviation start_result := (option ReleaseRun * bool * option error)%type.

Definition workflowRequestedEvent : string := "release.workflow.requested".

(** [normalized] *)
Definition normalized (value fallback : string) : string := if bool_decide (value = "") then fallback else value.

Definition tenantBoundaryError : error :=
  NewReasonError ReasonTenantBoundary "tenant_id" "resource is outside the authenticated tenant" None.

(** [bindTenant]: the requested tenant after the call. *)
Definition bindTenant (authenticated requested : string) : result error string :=
  let authenticated := normalized authenticated "default" in
  if bool_decide (requested = "") then Ok authenticated
  else if negb (bool_decide (requested = authenticated)) then Err tenantBoundaryError
  else Ok requested.

(** [planTenant]: the tenant of the first step. *)
Definition planTenant (plan : ReleasePlan) : string :=
  match (phase ← plan_Phases plan; ph_Steps phase) with
  | step :: _ => normalized (sc_TenantID (ps_Scheduling step)) "default"
  | [] => "default"
  end.

(** [validateRequest] *)
Definition Releases_validateRequest (request : ReleaseRequest) : result error unit :=
  if bool_decide (req_RequestID request = "") then Err (wrap application.ErrInvalidRequest "request_id is required")
  else if bool_decide (req_ReleaseVersion request = "")
  then Err (wrap application.ErrInvalidRequest "release_version is required")
  else if bool_decide (req_RequestedBy request = "") then Err (wrap application.ErrInvalidRequest "requested_by is required")
  else if bool_decide (agent_ID (req_Agent request) = "")
  then Err (wrap application.ErrInvalidRequest "delegated_agent.id is required")
  else Ok tt.

(** The run that [start] creates. *)
Definition requested_run (request : ReleaseRequest) (plan : ReleasePlan) (runID : string) (t : time) : ReleaseRun :=
  {| run_ID := runID; run_RequestID := req_RequestID request; run_ReleaseVersion := req_ReleaseVersion request;
     run_Environment := req_Environment request; run_RequestedBy := req_RequestedBy request; run_SubjectType := "";
     run_SubjectIssuer := ""; run_UserIdentityProof := ""; run_TenantID := normalized (req_TenantID request) "default";
     run_Region := normalized (req_Region request) "global"; run_Cluster := req_Cluster request; run_RunnerGroup := "";
     run_DelegationRef := ""; run_Agent := req_Agent request; run_Plan := plan; run_Status := RunPending;
     run_PausedFrom := RunStatusNone; run_Steps := new_steps request plan; run_StateVersion := 1;
     run_WorkflowID := runID; run_TemporalRunID := ""; run_CreatedAt := t; run_UpdatedAt := t |}.

(** The first step whose approval has this id. *)
Definition find_target (approvalID : string) (run : ReleaseRun) : option Approval :=
  match list_find (λ s, ap_ID <$> st_Approval s = Some approvalID) (run_Steps run) with
  | Some (_, step) => st_Approval step
  | None => None
  end.

(** The entries [ListPendingApprovals] appends for a run. *)
Definition pending_approvals (tenant : string) (run : ReleaseRun) : list ApprovalSummary :=
  omap (λ step,
    match st_Approval step with
    | Some approval =>
        if bool_decide (ap_Status approval = ApprovalPending)
        then Some {| as_Approval := approval; as_RunID := run_ID run; as_Service := st_Service step; as_TenantID := tenant |}
        else None
    | None => None
    end) (run_Steps run).

(** The runner that [NewReleases] registers for a group. *)
Definition ready_runner (group : string) : RunnerInfo :=
  {| ri_ID := group; ri_TenantID := ""; ri_Group := group; ri_Status := RunnerReady; ri_Capacity := 20; ri_LastSeen := 0;
     ri_FrozenBy := ""; ri_FrozenAt := None |}.

(** The loops of [NewReleases] over the services and their runner groups. *)
Definition NewReleases_runners `{!MapOrder} (p : Planner) : gmap string RunnerInfo :=
  foldl (λ runners group, if bool_decide (group = "") then runners else <[group := ready_runner group]> runners) ∅
    (service ← Services p; range_values 51 (svc_RunnerGroups service)).

Section application.
Context `{!MapOrder} {S X : Type} `{!DurableStore S, !WorkflowController X}.
Context (now_at : nat → time) (id_at : nat → string) (planner : Planner).

Record AppWorld := {
  pw_store : S;
  pw_workflows : X;
  pw_runners : gmap string RunnerInfo;
  pw_frozenRunners : gmap string RunnerInfo;
  pw_ticks : nat;
  pw_ids : nat;
  pw_trace : list app_effect;
}.

#[export] Instance eta_AppWorld : Eta AppWorld := λ r,
  {| pw_store := pw_store r; pw_workflows := pw_workflows r; pw_runners := pw_runners r;
     pw_frozenRunners := pw_frozenRunners r; pw_ticks := pw_ticks r; pw_ids := pw_ids r; pw_trace := pw_trace r |}.

(** [r.now()] *)
Definition app_now : ST AppWorld time := λ w, (w <| pw_ticks ::= Datatypes.S |>, now_at (pw_ticks w)).

(** [newID] *)
Definition app_newID (prefix : string) : ST AppWorld string :=
  λ w, (w <| pw_ids ::= Datatypes.S |>, prefix +:+ "_" +:+ id_at (pw_ids w)).

Definition app_store {A} (f : S → S * A) : ST AppWorld A :=
  λ w, let '(s, a) := f (pw_store w) in (w <| pw_store := s |>, a).
Definition app_read {A} (f : S → A) : ST AppWorld A := λ w, (w, f (pw_store w)).

(** A call of the workflow service, recorded in the trace. *)
Definition app_call {A} (event : app_effect) (f : X → X * A) : ST AppWorld A :=
  λ w, let '(x, a) := f (pw_workflows w) in (w <| pw_workflows := x |> <| pw_trace ::= λ l, l ++ [event] |>, a).

(** ** releases.go *)

(** Saving a plan that was made; [None] would be an unfinished graph loop, which the planner excludes. *)
Definition save_plan (plan : option (result error ReleasePlan)) : ST AppWorld (option (result error ReleasePlan)) :=
  match plan with
  | Some (Ok plan) =>
      r ← app_store (store_SavePlan plan);
      mret (Some match r with Ok _ => Ok plan | Err err => Err err end)
  | other => mret other
  end.

(** [Releases.Plan] *)
Definition Releases_Plan (request : ReleaseRequest) : ST AppWorld (option (result error ReleasePlan)) :=
  match Releases_validateRequest request with
  | Err err => mret (Some (Err err))
  | Ok _ => t ← app_now; save_plan (Plan planner request t)
  end.

(** [Releases.PlanIntent] *)
Definition Releases_PlanIntent (intent : ReleaseIntent) : ST AppWorld (option (result error ReleasePlan)) :=
  match Releases_validateRequest (LegacyRequestFromIntent intent) with
  | Err err => mret (Some (Err err))
  | Ok _ => t ← app_now; save_plan (PlanIntent planner intent t)
  end.

(** [Releases.PlanIntentForTenant] *)
Definition PlanIntentForTenant (tenant : string) (intent : ReleaseIntent) : ST AppWorld (option (result error ReleasePlan)) :=
  match bindTenant tenant (in_TenantID intent) with
  | Err err => mret (Some (Err err))
  | Ok bound => Releases_PlanIntent (intent <| in_TenantID := bound |>)
  end.

(** [Releases.GetPlan] *)
Definition Releases_GetPlan (tenant id : string) : ST AppWorld (result error ReleasePlan) :=
  plan ← app_read (store_GetPlan id);
  mret match plan with
       | Err err => Err err
       | Ok plan =>
           if negb (bool_decide (planTenant plan = normalized tenant "default")) then Err tenantBoundaryError
           else Ok plan
       end.

(** The outbox event of a requested workflow. *)
Definition workflow_event (id runID : string) (t : time) : OutboxEvent :=
  {| ob_ID := id; ob_AggregateType := "release_run"; ob_AggregateID := runID; ob_EventType := "release.workflow.requested";
     ob_Payload := {[ "workflow_id" := AString runID ]}; ob_PayloadRun := None; ob_CreatedAt := t; ob_AvailableAt := t;
     ob_PublishedAt := None; ob_Attempts := 0 |}.

(** [Releases.start]: the stored run or nil, whether it was created, an error or nil. *)
Definition Releases_start (request : ReleaseRequest) (plan : ReleasePlan) : ST AppWorld start_result :=
  t ← app_now;
  match ValidatePlan planner plan t with
  | Err err =>
      mret (None, false, Some (Errorf ("validate release plan before workflow start: " +:+ Error err) (Some err)))
  | Ok _ =>
      t ← app_now; runID ← app_newID "run";
      let run := requested_run request plan runID t in
      auditID ← app_newID "audit";
      let audit :=
        {| ae_ID := auditID; ae_CorrelationID := run_ID run; ae_ActorType := "user"; ae_ActorID := req_RequestedBy request;
           ae_DelegatedBy := req_RequestedBy request; ae_Action := "release.start"; ae_ResourceType := "release_run";
           ae_ResourceID := run_ID run; ae_Result := "ACCEPTED";
           ae_Details := {[ "plan_hash" := AString (plan_Hash plan); "workflow_id" := AString (run_WorkflowID run) ]};
           ae_Timestamp := t |} in
      outboxID ← app_newID "workflow";
      let outbox := workflow_event outboxID (run_ID run) t in
      r ← app_store (store_CreateRunAtomic run [audit] [outbox]);
      match r with
      | Err err => mret (None, false, Some err)
      | Ok (stored, false) => mret (Some stored, false, None)
      | Ok (stored, true) =>
          r ← app_call (AppStart stored) (workflow_StartRelease stored);
          match r with
          | Err err => mret (Some stored, true, Some (Errorf ("start temporal release workflow: " +:+ Error err) (Some err)))
          | Ok _ =>
              t ← app_now;
              r ← app_store (store_MarkOutboxPublished (ob_ID outbox) t);
              match r with
              | Err err => mret (Some stored, true, Some (Errorf ("mark workflow request published: " +:+ Error err) (Some err)))
              | Ok _ => mret (Some stored, true, None)
              end
          end
      end
  end.

(** [start] of a plan that may have failed. *)
Definition start_with (request : ReleaseRequest) (plan : option (result error ReleasePlan)) :
    ST AppWorld (option start_result) :=
  match plan with
  | None => mret None
  | Some (Err err) => mret (Some (None, false, Some err))
  | Some (Ok plan) => r ← Releases_start request plan; mret (Some r)
  end.

(** [Releases.Start] *)
Definition Releases_Start (request : ReleaseRequest) : ST AppWorld (option start_result) :=
  plan ← Releases_Plan request; start_with request plan.

(** [Releases.StartIntent] *)
Definition Releases_StartIntent (intent : ReleaseIntent) : ST AppWorld (option start_result) :=
  plan ← Releases_PlanIntent intent; start_with (LegacyRequestFromIntent intent) plan.

(** [Releases.StartIntentForTenant] *)
Definition StartIntentForTenant (tenant : string) (intent : ReleaseIntent) : ST AppWorld (option start_result) :=
  match bindTenant tenant (in_TenantID intent) with
  | Err err => mret (Some (None, false, Some err))
  | Ok bound => Releases_StartIntent (intent <| in_TenantID := bound |>)
  end.

(** [Releases.Get] *)
Definition Releases_Get (id : string) : ST AppWorld (result error ReleaseRun) := app_read (store_GetRun id).

(** [Releases.GetForTenant] *)
Definition GetForTenant (tenant id : string) : ST AppWorld (result error ReleaseRun) :=
  run ← Releases_Get id;
  mret match run with
       | Err err => Err err
       | Ok run =>
           if negb (bool_decide (normalized (run_TenantID run) "default" = normalized tenant "default"))
           then Err tenantBoundaryError else Ok run
       end.

(** [Releases.Events] *)
Definition Releases_Events (id : string) : ST AppWorld (result error (list AuditEvent)) :=
  run ← app_read (store_GetRun id);
  match run with Err err => mret (Err err) | Ok _ => app_read (store_AuditEvents id) end.

(** [Releases.EventsForTenant] *)
Definition EventsForTenant (tenant id : string) : ST AppWorld (result error (list AuditEvent)) :=
  run ← GetForTenant tenant id;
  match run with Err err => mret (Err err) | Ok _ => app_read (store_AuditEvents id) end.

(** The loop body of [ListRunners]. *)
Definition runner_for (tenant : string) (frozen : gmap string RunnerInfo) (runner : RunnerInfo) : RunnerInfo :=
  default (runner <| ri_TenantID := tenant |>) (frozen !! (tenant +:+ NUL +:+ ri_ID runner)).

(** [Releases.ListRunners] *)
Definition ListRunners (tenant : string) : ST AppWorld (list RunnerInfo) := λ w,
  let tenant := normalized tenant "default" in
  (w, sort_Slice (λ a b, String.ltb (ri_ID a) (ri_ID b))
        (runner_for tenant (pw_frozenRunners w) <$> range_values 50 (pw_runners w))).

(** [Releases.RunnerCapacity] *)
Definition RunnerCapacity (tenant id : string) : ST AppWorld Z := λ w,
  let tenant := normalized tenant "default" in
  (w, match pw_frozenRunners w !! (tenant +:+ NUL +:+ id) with
      | Some frozen => ri_Capacity frozen
      | None =>
          match pw_runners w !! id with
          | Some runner => if bool_decide (ri_Status runner = RunnerReady) then ri_Capacity runner else 0
          | None => 0
          end
      end).

(** [Releases.FreezeRunner] *)
Definition FreezeRunner (tenant id actor : string) : ST AppWorld (result error RunnerInfo) :=
  if bool_decide (actor = "") then mret (Err (ErrorNew "freeze actor is required"))
  else λ w,
    match pw_runners w !! id with
    | None => (w, Err ErrNotFound)
    | Some runner =>
        let '(w, t) := app_now w in
        let runner := runner <| ri_TenantID := normalized tenant "default" |> <| ri_Status := RunnerFrozen |>
          <| ri_Capacity := 0 |> <| ri_FrozenBy := actor |> <| ri_FrozenAt := Some t |> in
        (w <| pw_frozenRunners := <[ri_TenantID runner +:+ NUL +:+ id := runner]> (pw_frozenRunners w) |>, Ok runner)
    end.

(** ** approvals.go *)

(** Sending an approval signal and reading the run again. *)
Definition signal_approval (run : ReleaseRun) (runID : string) (signal : ApprovalSignal) :
    ST AppWorld (result error ReleaseRun) :=
  r ← app_call (AppApproval (run_WorkflowID run) signal) (workflow_SignalApproval (run_WorkflowID run) signal);
  match r with Err err => mret (Err err) | Ok _ => app_read (store_GetRun runID) end.

Definition approval_error (detail : string) : error := wrap application.ErrApproval detail.

(** [Releases.DecideApproval] *)
Definition Releases_DecideApproval (runID approvalID actor : string) (roles : list string) (approve : bool) :
    ST AppWorld (result error ReleaseRun) :=
  if bool_decide (actor = "") then mret (Err (approval_error "approval actor is required")) else
  run ← app_read (store_GetRun runID);
  match run with
  | Err err => mret (Err err)
  | Ok run =>
      match find_target approvalID run with
      | None => mret (Err (approval_error "pending approval not found"))
      | Some target =>
          if negb (bool_decide (ap_Status target = ApprovalPending))
          then mret (Err (approval_error "pending approval not found"))
          else if negb (bool_decide (ap_PlanHash target = plan_Hash (run_Plan run)))
          then mret (Err (approval_error "plan changed after approval request"))
          else
            t ← app_now;
            if negb (Before t (ap_ExpiresAt target)) then mret (Err (approval_error "approval expired"))
            else if approve && bool_decide (actor = run_RequestedBy run)
            then mret (Err (approval_error "requester cannot approve their own release"))
            else if approve && negb (containsAll roles (ap_RequiredRoles target))
            then mret (Err (approval_error ("approver lacks required roles " +:+ format_slice (ap_RequiredRoles target))))
            else signal_approval run runID
                   {| sg_ApprovalID := approvalID; sg_Actor := actor; sg_Roles := roles; sg_Approve := approve;
                      sg_Action := if approve then "approve" else "deny" |}
      end
  end.

(** [Releases.DecideApprovalForTenant] *)
Definition DecideApprovalForTenant (tenant runID approvalID actor : string) (roles : list string) (approve : bool) :
    ST AppWorld (result error ReleaseRun) :=
  run ← GetForTenant tenant runID;
  match run with
  | Err err => mret (Err err)
  | Ok _ => Releases_DecideApproval runID approvalID actor roles approve
  end.

(** [Releases.RevokeApprovalForTenant] *)
Definition RevokeApprovalForTenant (tenant runID approvalID actor : string) (roles : list string) :
    ST AppWorld (result error ReleaseRun) :=
  if bool_decide (actor = "") then mret (Err (approval_error "approval actor is required")) else
  run ← GetForTenant tenant runID;
  match run with
  | Err err => mret (Err err)
  | Ok run =>
      match find_target approvalID run with
      | None => mret (Err (approval_error "only a pending approval can be revoked safely"))
      | Some target =>
          if negb (bool_decide (ap_Status target = ApprovalPending))
          then mret (Err (approval_error "only a pending approval can be revoked safely"))
          else if negb (containsAll roles (ap_RequiredRoles target))
          then mret (Err (approval_error ("revoker lacks required roles " +:+ format_slice (ap_RequiredRoles target))))
          else signal_approval run runID
                 {| sg_ApprovalID := approvalID; sg_Actor := actor; sg_Roles := roles; sg_Approve := false;
                    sg_Action := "revoke" |}
      end
  end.

(** [Releases.ListPendingApprovals] *)
Definition ListPendingApprovals (tenant : string) : ST AppWorld (result error (list ApprovalSummary)) :=
  runs ← app_read store_ListRuns;
  mret match runs with
       | Err err => Err err
       | Ok runs =>
           let tenant := normalized tenant "default" in
           Ok (run ← filter (λ run, normalized (run_TenantID run) "default" = tenant) runs; pending_approvals tenant run)
       end.

(** [Releases.control] *)
Definition Releases_control (runID actor action : string) : ST AppWorld (result error ReleaseRun) :=
  if bool_decide (actor = "") then mret (Err (Errorf "actor is required" None)) else
  run ← app_read (store_GetRun runID);
  match run with
  | Err err => mret (Err err)
  | Ok run =>
      let signal := {| cs_Actor := actor; cs_Reason := "" |} in
      let send f :=
        r ← app_call (AppControl action (run_WorkflowID run) signal) (f (run_WorkflowID run) signal);
        match r with Err err => mret (Err err) | Ok _ => app_read (store_GetRun runID) end in
      if bool_decide (action = "cancel") then send workflow_Cancel
      else if bool_decide (action = "pause") then send workflow_Pause
      else if bool_decide (action = "resume") then send workflow_Resume
      else mret (Err (Errorf ("unsupported release control action " +:+ quote action) None))
  end.

(** [Releases.Cancel], [Releases.Pause], [Releases.Resume] *)
Definition Releases_Cancel (runID actor : string) : ST AppWorld (result error ReleaseRun) :=
  Releases_control runID actor "cancel".
Definition Releases_Pause (runID actor : string) : ST AppWorld (result error ReleaseRun) :=
  Releases_control runID actor "pause".
Definition Releases_Resume (runID actor : string) : ST AppWorld (result error ReleaseRun) :=
  Releases_control runID actor "resume".

(** [Releases.ControlForTenant] *)
Definition ControlForTenant (tenant runID actor action : string) : ST AppWorld (result error ReleaseRun) :=
  run ← GetForTenant tenant runID;
  match run with
  | Err err => mret (Err err)
  | Ok _ => Releases_control runID actor action
  end.

(** ** outbox.go *)

(** The loop of [RecoverPendingWorkflows]: how many events were published, and an error or nil. *)
Fixpoint recover_loop (events : list OutboxEvent) (published : Z) : ST AppWorld (Z * option error) :=
  match events with
  | [] => mret (published, None)
  | event :: events =>
      run ← app_read (store_GetRun (ob_AggregateID event));
      match run with
      | Err err =>
          mret (published, Some (Errorf ("load outbox run " +:+ ob_AggregateID event +:+ ": " +:+ Error err) (Some err)))
      | Ok run =>
          r ← app_call (AppStart run) (workflow_StartRelease run);
          match r with
          | Err err =>
              mret (published, Some (Errorf ("publish workflow request " +:+ ob_ID event +:+ ": " +:+ Error err) (Some err)))
          | Ok _ =>
              t ← app_now;
              r ← app_store (store_MarkOutboxPublished (ob_ID event) t);
              match r with
              | Err err =>
                  mret (published, Some (Errorf ("mark workflow request " +:+ ob_ID event +:+ " published: " +:+ Error err)
                                           (Some err)))
              | Ok _ => recover_loop events (published + 1)
              end
          end
      end
  end.

(** [Releases.RecoverPendingWorkflows] *)
Definition RecoverPendingWorkflows (limit : Z) : ST AppWorld (Z * option error) :=
  events ← app_read (store_PendingOutboxByType workflowRequestedEvent limit);
  match events with
  | Err err => mret (0, Some err)
  | Ok events => recover_loop events 0
  end.

(** [Releases.RunWorkflowRecovery], ended by its context after so many ticks: the errors it reports. *)
Fixpoint RunWorkflowRecovery (ticks : nat) : ST AppWorld (list error) :=
  r ← RecoverPendingWorkflows 100;
  let reported := option_list r.2 in
  match ticks with
  | O => mret reported
  | Datatypes.S ticks => rest ← RunWorkflowRecovery ticks; mret (reported ++ rest)
  end.
End application.

(** ** Calls on behalf of a tenant *)

Definition belongs (tenant : string) (run : ReleaseRun) : Prop :=
  normalized (run_TenantID run) "default" = normalized tenant "default".

(** The calls that take an authenticated tenant and create neither a plan nor a run. *)
Inductive tenant_call :=
| TGet (id : string)
| TEvents (id : string)
| TPlan (id : string)
| TApprovals
| TControl (id actor action : string)
| TDecide (id approvalID actor : string) (roles : list string) (approve : bool)
| TRevoke (id approvalID actor : string) (roles : list string)
| TRunners
| TFreeze (id actor : string).

Inductive tenant_answer :=
| AnsRun (r : result error ReleaseRun)
| AnsEvents (r : result error (list AuditEvent))
| AnsPlan (r : result error ReleasePlan)
| AnsApprovals (r : result error (list ApprovalSummary))
| AnsRunners (runners : list RunnerInfo)
| AnsRunner (r : result error RunnerInfo).

(** The workflow a call goes to. *)
Definition effect_workflow (e : app_effect) : string :=
  match e with AppStart run => run_WorkflowID run | AppApproval id _ | AppControl _ id _ => id end.

Definition is_signal (e : app_effect) : bool := match e with AppStart _ => false | _ => true end.

(** The entry of [frozenRunners] for a runner as the tenant sees it. *)
Definition runner_key (tenant id : string) : string := normalized tenant "default" +:+ NUL +:+ id.

(** Every frozen runner is filed under the tenant it is frozen for. *)
Definition filed_by_tenant (frozen : gmap string RunnerInfo) : Prop :=
  ∀ key runner, frozen !! key = Some runner →
    no_nul (ri_TenantID runner) = true ∧ ∃ id, key = ri_TenantID runner +:+ NUL +:+ id.

Lemma runner_key_inj t1 t2 id1 id2 :
  no_nul (normalized t1 "default") = true → no_nul (normalized t2 "default") = true →
  runner_key t1 id1 = runner_key t2 id2 → normalized t1 "default" = normalized t2 "default".
Proof. intros H1 H2 Heq. by destruct (nul_join_inj _ _ _ _ H1 H2 Heq). Qed.

Section tenants.
Context `{!MapOrder} {S X : Type} `{!DurableStore S, !WorkflowController X}.
Context (now_at : nat → time).
Abbreviation W := (@AppWorld S X).

Definition run_tenant_call (tenant : string) (c : tenant_call) : ST W tenant_answer :=
  match c with
  | TGet id => r ← GetForTenant tenant id; mret (AnsRun r)
  | TEvents id => r ← EventsForTenant tenant id; mret (AnsEvents r)
  | TPlan id => r ← Releases_GetPlan tenant id; mret (AnsPlan r)
  | TApprovals => r ← ListPendingApprovals tenant; mret (AnsApprovals r)
  | TControl id actor action => r ← ControlForTenant tenant id actor action; mret (AnsRun r)
  | TDecide id approvalID actor roles approve =>
      r ← DecideApprovalForTenant now_at tenant id approvalID actor roles approve; mret (AnsRun r)
  | TRevoke id approvalID actor roles =>
      r ← RevokeApprovalForTenant tenant id approvalID actor roles; mret (AnsRun r)
  | TRunners => r ← ListRunners tenant; mret (AnsRunners r)
  | TFreeze id actor => r ← FreezeRunner now_at tenant id actor; mret (AnsRunner r)
  end.

(** A signal to the workflow of a stored run of the tenant. *)
Definition owned (tenant : string) (s : S) (e : app_effect) : Prop :=
  is_signal e = true ∧ ∃ id run, store_GetRun id s = Ok run ∧ belongs tenant run ∧ effect_workflow e = run_WorkflowID run.

(** A runner as the tenant sees it: frozen for the tenant, or registered for all and not frozen for the tenant. *)
Definition seen_runner (tenant : string) (w : W) (runner : RunnerInfo) : Prop :=
  (∃ id, pw_frozenRunners w !! runner_key tenant id = Some runner) ∨
  (∃ id registered, pw_runners w !! id = Some registered ∧
     pw_frozenRunners w !! runner_key tenant (ri_ID registered) = None ∧
     runner = registered <| ri_TenantID := normalized tenant "default" |>).

(** It carries the tenant's name. *)
Lemma seen_runner_tenant tenant w runner :
  no_nul (normalized tenant "default") = true → filed_by_tenant (pw_frozenRunners w) → seen_runner tenant w runner →
  ri_TenantID runner = normalized tenant "default".
Proof.
  intros Hnul Hfiled [[id Hid]|(id & registered & _ & _ & ->)]; [|done].
  destruct (Hfiled _ _ Hid) as (Hn & id' & Hkey). symmetry. by destruct (nul_join_inj _ _ _ _ Hnul Hn Hkey).
Qed.

(** What an answer may show, in the world after the call. *)
Definition shows (tenant : string) (w : W) (answer : tenant_answer) : Prop :=
  match answer with
  | AnsRun (Ok run) => belongs tenant run
  | AnsEvents (Ok events) =>
      ∃ id run, store_GetRun id (pw_store w) = Ok run ∧ belongs tenant run ∧ store_AuditEvents id (pw_store w) = Ok events
  | AnsPlan (Ok plan) => planTenant plan = normalized tenant "default"
  | AnsApprovals (Ok approvals) =>
      ∃ runs, store_ListRuns (pw_store w) = Ok runs ∧
        ∀ a, a ∈ approvals → ∃ run step, run ∈ runs ∧ belongs tenant run ∧ step ∈ run_Steps run ∧
          st_Approval step = Some (as_Approval a) ∧ as_RunID a = run_ID run
  | AnsRunners runners => Forall (seen_runner tenant w) runners
  | AnsRunner (Ok runner) => seen_runner tenant w runner
  | _ => True
  end.

(** Runners are registered for all tenants and frozen for this one only. *)
Definition freezes_for (tenant : string) (w w' : W) : Prop :=
  pw_runners w' = pw_runners w ∧
  (∀ key, (∀ id, key ≠ runner_key tenant id) → pw_frozenRunners w' !! key = pw_frozenRunners w !! key) ∧
  (no_nul (normalized tenant "default") = true → filed_by_tenant (pw_frozenRunners w) →
   filed_by_tenant (pw_frozenRunners w')).

Lemma freezes_for_refl tenant w : freezes_for tenant w w.
Proof. done. Qed.

(** So no other tenant's view of a runner changes. *)
Lemma freezes_for_other tenant other id w w' :
  freezes_for tenant w w' → no_nul (normalized tenant "default") = true → no_nul (normalized other "default") = true →
  normalized other "default" ≠ normalized tenant "default" →
  pw_frozenRunners w' !! runner_key other id = pw_frozenRunners w !! runner_key other id.
Proof. intros (_ & Hf & _) H1 H2 Hne. apply Hf. intros id' Heq. by apply Hne, (runner_key_inj _ _ _ _ H2 H1 Heq). Qed.

(** The store is only read, runners are frozen for the tenant only, and the calls go to the tenant's workflows. *)
Definition scoped (tenant : string) (w w' : W) : Prop :=
  pw_store w' = pw_store w ∧ freezes_for tenant w w' ∧
  ∃ evs, pw_trace w' = pw_trace w ++ evs ∧ Forall (owned tenant (pw_store w)) evs.

(** Nothing but the clock moved. *)
Definition unmoved (w w' : W) : Prop :=
  pw_store w' = pw_store w ∧ pw_workflows w' = pw_workflows w ∧ pw_trace w' = pw_trace w ∧
  pw_runners w' = pw_runners w ∧ pw_frozenRunners w' = pw_frozenRunners w.

Lemma unmoved_scoped tenant w w' : unmoved w w' → scoped tenant w w'.
Proof.
  intros (Hs & _ & Ht & Hr & Hf). split; [done|]. split; [|exists []; by rewrite app_nil_r].
  unfold freezes_for. rewrite Hr, Hf. done.
Qed.

Lemma unmoved_refl w : unmoved w w.
Proof. done. Qed.

Lemma GetForTenant_inv tenant id (w w' : W) r :
  GetForTenant tenant id w = (w', r) → w' = w ∧
  ∀ run, r = Ok run ↔ store_GetRun id (pw_store w) = Ok run ∧ belongs tenant run.
Proof.
  unfold GetForTenant, Releases_Get, app_read, mbind, st_bind, mret, st_ret, belongs. intros [= <- <-]. split; [done|].
  destruct (store_GetRun id (pw_store w)) as [run|err]; [|naive_solver].
  destruct (bool_decide (normalized (run_TenantID run) "default" = normalized tenant "default")) eqn:Hb; simpl;
    [apply bool_decide_eq_true in Hb|apply bool_decide_eq_false in Hb]; naive_solver.
Qed.

(** A signal, from a world that differs from [w] in the clock at most. *)
Definition sent (runID : string) (run : ReleaseRun) (event : app_effect) (w w' : W) (r : result error ReleaseRun) : Prop :=
  is_signal event = true ∧ effect_workflow event = run_WorkflowID run ∧ pw_store w' = pw_store w ∧
  pw_runners w' = pw_runners w ∧ pw_frozenRunners w' = pw_frozenRunners w ∧
  pw_trace w' = pw_trace w ++ [event] ∧ (∀ run', r = Ok run' → store_GetRun runID (pw_store w) = Ok run').

Lemma signal_approval_sent run runID signal w1 (w w' : W) r :
  unmoved w w1 → signal_approval run runID signal w1 = (w', r) →
  sent runID run (AppApproval (run_WorkflowID run) signal) w w' r.
Proof.
  intros (Hs & _ & Ht & Hr & Hf). unfold signal_approval, app_call, mbind, st_bind.
  destruct (workflow_SignalApproval _ _ _) as [x [[]|err]]; intros [= <- <-]; unfold sent; simpl; rewrite Hs, Ht, Hr, Hf; naive_solver.
Qed.

Lemma sent_scoped tenant runID run event w w' r :
  store_GetRun runID (pw_store w) = Ok run → belongs tenant run →
  sent runID run event w w' r → scoped tenant w w' ∧ shows tenant w' (AnsRun r).
Proof.
  intros Hg Hb (Hsig & He & Hs & Hn & Hf & Ht & Hr). split.
  - split; [done|]. split; [unfold freezes_for; by rewrite Hn, Hf|]. exists [event]. split; [done|]. constructor; [|constructor]. split; [done|]. by exists runID, run.
  - destruct r as [run'|]; [|done]. specialize (Hr run' eq_refl). rewrite Hg in Hr. by injection Hr as <-.
Qed.

(** The approval may be decided now. *)
Definition decidable_now (run : ReleaseRun) (target : Approval) (actor : string) (roles : list string) (approve : bool)
    (t : time) : Prop :=
  actor ≠ "" ∧ ap_Status target = ApprovalPending ∧ ap_PlanHash target = plan_Hash (run_Plan run) ∧
  t < ap_ExpiresAt target ∧ (approve = true → actor ≠ run_RequestedBy run ∧ ap_RequiredRoles target ⊆ roles).

Lemma containsAll_subseteq actual required : containsAll actual required = true ↔ required ⊆ actual.
Proof.
  unfold containsAll. rewrite forallb_forall. split.
  - intros Hall x Hx. specialize (Hall x). rewrite <-list_elem_of_In, bool_decide_eq_true in Hall. auto.
  - intros Hsub x Hx. apply bool_decide_eq_true, Hsub. by apply list_elem_of_In.
Qed.

Definition decision_signal (approvalID actor : string) (roles : list string) (approve : bool) : ApprovalSignal :=
  {| sg_ApprovalID := approvalID; sg_Actor := actor; sg_Roles := roles; sg_Approve := approve;
     sg_Action := if approve then "approve" else "deny" |}.

(** Either a signal is sent for a decidable approval, or the call fails. *)
Lemma DecideApproval_inv runID approvalID actor roles approve (w w' : W) r :
  Releases_DecideApproval now_at runID approvalID actor roles approve w = (w', r) →
  (∃ run target, store_GetRun runID (pw_store w) = Ok run ∧ find_target approvalID run = Some target ∧
     decidable_now run target actor roles approve (now_at (pw_ticks w)) ∧
     sent runID run (AppApproval (run_WorkflowID run) (decision_signal approvalID actor roles approve)) w w' r) ∨
  (unmoved w w' ∧ is_ok r = false ∧
   ∀ run target, store_GetRun runID (pw_store w) = Ok run → find_target approvalID run = Some target →
     ¬ decidable_now run target actor roles approve (now_at (pw_ticks w))).
Proof.
  unfold Releases_DecideApproval, decidable_now. destruct (bool_decide (actor = "")) eqn:Ha.
  { apply bool_decide_eq_true in Ha. intros [= <- <-]. right. split; [done|]. naive_solver. }
  apply bool_decide_eq_false in Ha. unfold app_read, mbind, st_bind.
  destruct (store_GetRun runID (pw_store w)) as [run|err] eqn:Hg.
  2: { intros [= <- <-]. right. split; [done|]. naive_solver. }
  destruct (find_target approvalID run) as [target|] eqn:Hf.
  2: { intros [= <- <-]. right. split; [done|]. naive_solver. }
  destruct (bool_decide (ap_Status target = ApprovalPending)) eqn:Hp; simpl.
  2: { apply bool_decide_eq_false in Hp. intros [= <- <-]. right. split; [done|]. naive_solver. }
  destruct (bool_decide (ap_PlanHash target = plan_Hash (run_Plan run))) eqn:Hh; simpl.
  2: { apply bool_decide_eq_false in Hh. intros [= <- <-]. right. split; [done|]. naive_solver. }
  apply bool_decide_eq_true in Hp, Hh. unfold Before, mret, st_ret.
  destruct (now_at (pw_ticks w) <? ap_ExpiresAt target) eqn:Ht; simpl.
  2: { apply Z.ltb_ge in Ht. intros [= <- <-]. right. split; [done|]. split; [done|]. intros ? ? [= <-]. rewrite Hf. intros [= <-] ?. lia. }
  apply Z.ltb_lt in Ht.
  destruct (approve && bool_decide (actor = run_RequestedBy run)) eqn:Hr.
  { apply andb_true_iff in Hr as [-> Hr%bool_decide_eq_true]. intros [= <- <-]. right. split; [done|]. naive_solver. }
  destruct (approve && negb (containsAll roles (ap_RequiredRoles target))) eqn:Hc.
  { apply andb_true_iff in Hc as [-> Hc%negb_true_iff]. intros [= <- <-]. right. split; [done|]. split; [done|].
    intros ? ? [= <-]. rewrite Hf. intros [= <-] (_ & _ & _ & _ & Happ). destruct (Happ eq_refl) as [_ Hsub].
    apply containsAll_subseteq in Hsub. congruence. }
  intros Hs. left. exists run, target. split; [done|]. split; [done|]. split.
  - split_and!; try done. intros ->. simpl in Hr, Hc. split; [by apply bool_decide_eq_false in Hr|].
    by apply negb_false_iff, containsAll_subseteq in Hc.
  - eapply signal_approval_sent, Hs. by repeat split.
Qed.

(** The approval may be revoked: by whoever has the required roles, while it is pending. *)
Definition revocable (tenant : string) (run : ReleaseRun) (target : Approval) (actor : string) (roles : list string) : Prop :=
  actor ≠ "" ∧ belongs tenant run ∧ ap_Status target = ApprovalPending ∧ ap_RequiredRoles target ⊆ roles.

Definition revoke_signal (approvalID actor : string) (roles : list string) : ApprovalSignal :=
  {| sg_ApprovalID := approvalID; sg_Actor := actor; sg_Roles := roles; sg_Approve := false; sg_Action := "revoke" |}.

Lemma Revoke_inv tenant runID approvalID actor roles (w w' : W) r :
  RevokeApprovalForTenant tenant runID approvalID actor roles w = (w', r) →
  (∃ run target, store_GetRun runID (pw_store w) = Ok run ∧ find_target approvalID run = Some target ∧
     revocable tenant run target actor roles ∧
     sent runID run (AppApproval (run_WorkflowID run) (revoke_signal approvalID actor roles)) w w' r) ∨
  (unmoved w w' ∧ is_ok r = false ∧
   ∀ run target, store_GetRun runID (pw_store w) = Ok run → find_target approvalID run = Some target →
     ¬ revocable tenant run target actor roles).
Proof.
  unfold RevokeApprovalForTenant, revocable. destruct (bool_decide (actor = "")) eqn:Ha.
  { apply bool_decide_eq_true in Ha. intros [= <- <-]. right. split; [done|]. naive_solver. }
  apply bool_decide_eq_false in Ha.
  intros (w1 & [run|err] & [-> Hg]%GetForTenant_inv & Hk)%st_bind_inv.
  2: { injection Hk as <- <-. right. split; [done|]. split; [done|]. intros run target Hr _ (_ & Hb & _).
       discriminate (proj2 (Hg run) (conj Hr Hb)). }
  destruct (proj1 (Hg run) eq_refl) as [Hget Hb]. revert Hk. rewrite Hget.
  destruct (find_target approvalID run) as [target|] eqn:Hf.
  2: { intros [= <- <-]. right. split; [done|]. naive_solver. }
  destruct (bool_decide (ap_Status target = ApprovalPending)) eqn:Hp; simpl.
  2: { apply bool_decide_eq_false in Hp. intros [= <- <-]. right. split; [done|]. naive_solver. }
  destruct (containsAll roles (ap_RequiredRoles target)) eqn:Hc; simpl.
  2: { intros [= <- <-]. right. split; [done|]. split; [done|].
       intros ? ? [= <-]. rewrite Hf. intros [= <-] (_ & _ & _ & Hsub%containsAll_subseteq). congruence. }
  apply bool_decide_eq_true in Hp. apply containsAll_subseteq in Hc.
  intros Hs. left. exists run, target. split_and!; try done. by eapply signal_approval_sent, Hs.
Qed.

Lemma control_inv runID actor action (w w' : W) r :
  Releases_control runID actor action w = (w', r) →
  (∃ run event, store_GetRun runID (pw_store w) = Ok run ∧ sent runID run event w w' r) ∨ unmoved w w' ∧ is_ok r = false.
Proof.
  unfold Releases_control. destruct (bool_decide (actor = "")); [intros [= <- <-]; by right|].
  unfold app_read, mbind, st_bind. destruct (store_GetRun runID (pw_store w)) as [run|err] eqn:Hg;
    [|intros [= <- <-]; by right].
  assert (∀ (f : string → ControlSignal → X → X * result error unit) w'' r', (r ← app_call (X:=X) (AppControl action (run_WorkflowID run) {| cs_Actor := actor; cs_Reason := "" |})
      (f (run_WorkflowID run) {| cs_Actor := actor; cs_Reason := "" |});
      match r with Err err => mret (Err err) | Ok _ => app_read (store_GetRun runID) end) w = (w'', r') →
    ∃ event, sent runID run event w w'' r') as Hsend.
  { intros f w'' r'. unfold app_call, app_read, mbind, st_bind. destruct (f _ _ _) as [x [[]|err]];
      intros [= <- <-]; (eexists; split_and!; [| |done|done|done|reflexivity|by intros ? [= <-]]); done. }
  destruct (bool_decide (action = "cancel")); [|destruct (bool_decide (action = "pause"));
    [|destruct (bool_decide (action = "resume")); [|intros [= <- <-]; by right]]];
    intros Hs; apply Hsend in Hs as (event & ?); left; by exists run, event.
Qed.

Lemma elem_of_pending_approvals tenant run a :
  a ∈ pending_approvals tenant run →
  ∃ step, step ∈ run_Steps run ∧ st_Approval step = Some (as_Approval a) ∧ as_RunID a = run_ID run.
Proof.
  unfold pending_approvals. intros (step & Hin & Hs)%list_elem_of_omap. exists step.
  destruct (st_Approval step) as [approval|]; [|done]. destruct (bool_decide _); [|done]. by injection Hs as <-.
Qed.

Lemma ListRunners_seen tenant (w w' : W) runners :
  ListRunners tenant w = (w', runners) → w' = w ∧ Forall (seen_runner tenant w) runners.
Proof.
  unfold ListRunners. intros [= <- <-]. split; [done|]. apply Forall_forall. intros runner.
  rewrite elem_of_sort_Slice, list_elem_of_fmap. intros (registered & -> & [id Hid]%elem_of_range_values).
  unfold runner_for, seen_runner, runner_key. destruct (pw_frozenRunners w !! _) as [frozen|] eqn:Hf; [by left; eauto|].
  right. by exists id, registered.
Qed.

Lemma FreezeRunner_seen tenant id actor (w w' : W) r :
  FreezeRunner now_at tenant id actor w = (w', r) →
  scoped tenant w w' ∧ ∀ runner, r = Ok runner → seen_runner tenant w' runner.
Proof.
  pose proof (unmoved_scoped tenant w w (unmoved_refl w)) as Hrefl.
  unfold FreezeRunner. destruct (bool_decide (actor = "")); [intros [= <- <-]; by split|].
  destruct (pw_runners w !! id) as [registered|]; [|intros [= <- <-]; by split]. cbv zeta.
  intros [= <- <-]. unfold modify; simpl. split.
  - split; [done|]. split; [|exists []; by rewrite app_nil_r]. split; [done|]. simpl. split.
    + intros key Hkey. apply lookup_insert_ne. intros Heq. by destruct (Hkey id).
    + intros Hnul Hfiled key runner. rewrite lookup_insert_Some. intros [[<- <-]|[_ Hr]]; [by eauto|by eapply Hfiled].
  - intros runner [= <-]. left. exists id. apply lookup_insert_eq.
Qed.

Lemma tenant_call_scoped tenant c (w w' : W) answer :
  run_tenant_call tenant c w = (w', answer) → scoped tenant w w' ∧ shows tenant w' answer.
Proof.
  pose proof (unmoved_scoped tenant w w (unmoved_refl w)) as Hrefl.
  destruct c as [id|id|id| |id actor action|id approvalID actor roles approve|id approvalID actor roles| |id actor];
    intros (w1 & r & Hc & [= <- <-])%st_bind_inv.
  - apply GetForTenant_inv in Hc as [-> Hg]. split; [done|]. destruct r as [run|]; [|done]. by apply Hg.
  - apply st_bind_inv in Hc as (w2 & [run|err] & [-> Hg]%GetForTenant_inv & Hk); injection Hk as <- <-; split; try done.
    destruct (proj1 (Hg run) eq_refl). destruct (store_AuditEvents id (pw_store w)) eqn:He; [|done]. by exists id, run.
  - injection Hc as <- <-. split; [done|]. destruct (store_GetPlan id (pw_store w)) as [plan|]; [|done].
    destruct (bool_decide (planTenant plan = normalized tenant "default")) eqn:Hb; [|done].
    by apply bool_decide_eq_true in Hb.
  - injection Hc as <- <-. split; [done|]. destruct (store_ListRuns (pw_store w)) as [runs|] eqn:Hl; [|done].
    exists runs. split; [done|]. intros a (run & Ha & [Hb Hin]%list_elem_of_filter)%list_elem_of_bind.
    apply elem_of_pending_approvals in Ha as (step & ? & ? & ?). by exists run, step.
  - apply st_bind_inv in Hc as (w2 & [run|err] & [-> Hg]%GetForTenant_inv & Hk); [|by injection Hk as <- <-].
    destruct (proj1 (Hg run) eq_refl) as [Hget Hb].
    apply control_inv in Hk as [(run' & event & Hg' & Hs)|[Hu Hr]].
    + rewrite Hget in Hg'. injection Hg' as <-. exact (sent_scoped _ _ _ _ _ _ _ Hget Hb Hs).
    + split; [by apply unmoved_scoped|]. by destruct r.
  - apply st_bind_inv in Hc as (w2 & [run|err] & [-> Hg]%GetForTenant_inv & Hk); [|by injection Hk as <- <-].
    destruct (proj1 (Hg run) eq_refl) as [Hget Hb].
    apply DecideApproval_inv in Hk as [(run' & target & Hg' & _ & _ & Hs)|(Hu & Hr & _)].
    + rewrite Hget in Hg'. injection Hg' as <-. by apply (sent_scoped tenant _ _ _ _ _ _ Hget Hb) in Hs.
    + split; [by apply unmoved_scoped|]. by destruct r.
  - apply Revoke_inv in Hc as [(run & target & Hget & _ & (_ & Hb & _) & Hs)|(Hu & Hr & _)].
    + exact (sent_scoped _ _ _ _ _ _ _ Hget Hb Hs).
    + split; [by apply unmoved_scoped|]. by destruct r.
  - apply ListRunners_seen in Hc as [-> Hseen]. by split.
  - apply FreezeRunner_seen in Hc as [Hs Hseen]. split; [done|]. destruct r as [runner|]; [|done]. by apply Hseen.
Qed.

(** C7: a call on behalf of a tenant for an existing run, plan or approval, or for runners ([tenant_call]: reading
    a run, its audit events, a plan or the pending approvals, controlling a run, deciding or revoking an
    approval, listing and freezing runners) reads the store only, sends signals only to workflows of
    that tenant's runs, and answers only with that tenant's runs, audit events, plans, approvals and runners as
    frozen or registered for that tenant.  It freezes runners for that tenant only: what any other tenant (names hold
    no NUL) finds frozen is as before, and the runners it shows carry the tenant's name when the frozen
    ones are filed by tenant, which the call preserves.  Planning and starting releases are not such calls. *)
Theorem tenant_isolation tenant c (w w' : W) answer :
  run_tenant_call tenant c w = (w', answer) →
  pw_store w' = pw_store w ∧ shows tenant w' answer ∧
  (∃ evs, pw_trace w' = pw_trace w ++ evs ∧ Forall (owned tenant (pw_store w)) evs) ∧
  pw_runners w' = pw_runners w ∧
  (no_nul (normalized tenant "default") = true →
   (∀ other id, no_nul (normalized other "default") = true → normalized other "default" ≠ normalized tenant "default" →
      pw_frozenRunners w' !! runner_key other id = pw_frozenRunners w !! runner_key other id) ∧
   (filed_by_tenant (pw_frozenRunners w) → filed_by_tenant (pw_frozenRunners w') ∧
      ∀ runner, seen_runner tenant w' runner → ri_TenantID runner = normalized tenant "default")).
Proof.
  intros [(Hs & Hf & He) Hshow]%tenant_call_scoped. do 3 (split; [done|]). split; [apply Hf|].
  intros Hnul. split; [intros other id Ho Hne; by apply (freezes_for_other tenant)|].
  intros Hfiled. destruct Hf as (_ & _ & Hkeep). split; [auto|].
  intros runner. apply seen_runner_tenant; auto.
Qed.

(** The call sends this signal to the workflow of the stored run when its approval is as [P] asks, and otherwise
    (no such run, no such approval, or not as [P] asks) fails without sending or changing anything. *)
Definition signals_exactly (runID approvalID : string) (P : ReleaseRun → Approval → Prop) (signal : ApprovalSignal)
    (w : W) (outcome : W * result error ReleaseRun) : Prop :=
  let '(w', r) := outcome in
  (∀ run target, store_GetRun runID (pw_store w) = Ok run → find_target approvalID run = Some target → P run target →
     pw_store w' = pw_store w ∧ pw_trace w' = pw_trace w ++ [AppApproval (run_WorkflowID run) signal]) ∧
  ((∀ run target, store_GetRun runID (pw_store w) = Ok run → find_target approvalID run = Some target → ¬ P run target) →
     unmoved w w' ∧ is_ok r = false).

Lemma signals_exactly_intro runID approvalID P signal (w w' : W) r :
  (∃ run target, store_GetRun runID (pw_store w) = Ok run ∧ find_target approvalID run = Some target ∧ P run target ∧
     sent runID run (AppApproval (run_WorkflowID run) signal) w w' r) ∨
  (unmoved w w' ∧ is_ok r = false ∧
   ∀ run target, store_GetRun runID (pw_store w) = Ok run → find_target approvalID run = Some target → ¬ P run target) →
  signals_exactly runID approvalID P signal w (w', r).
Proof.
  intros [(run & target & Hg & Hf & Hp & (_ & _ & Hs & _ & _ & Ht & _))|(Hu & Hr & Hno)].
  - split; [|intros Hno; by destruct (Hno run target)]. intros run' target'. rewrite Hg. intros [= <-] _ _. done.
  - split; [|done]. intros run target Hg Hf Hp. by destruct (Hno run target).
Qed.

(** C23: a decision about an approval reaches the workflow exactly when it may.  [DecideApproval] sends the decision when
    the run is stored and the approval is pending, was requested for the run's current plan and has not
    expired; to approve, the actor must moreover be somebody other than the requester and have every required
    role, while a denial asks neither.  [RevokeApprovalForTenant] sends the revocation when the run is stored
    and the tenant's, the approval is pending and the actor has every required role.  Both need a named actor;
    otherwise, a run or an approval that is not found included, the call fails, sends nothing and changes nothing. *)
Theorem approval_signals_guarded runID approvalID actor roles (w : W) :
  (∀ approve, signals_exactly runID approvalID
     (λ run target, decidable_now run target actor roles approve (now_at (pw_ticks w)))
     (decision_signal approvalID actor roles approve) w
     (Releases_DecideApproval now_at runID approvalID actor roles approve w)) ∧
  (∀ tenant, signals_exactly runID approvalID (λ run target, revocable tenant run target actor roles)
     (revoke_signal approvalID actor roles) w
     (RevokeApprovalForTenant tenant runID approvalID actor roles w)).
Proof.
  split.
  - intros approve. destruct (Releases_DecideApproval _ _ _ _ _ _ w) as [w' r] eqn:Hd.
    by apply signals_exactly_intro, DecideApproval_inv.
  - intros tenant. destruct (RevokeApprovalForTenant _ _ _ _ _ w) as [w' r] eqn:Hd.
    by apply signals_exactly_intro, Revoke_inv.
Qed.
End tenants.

(** ** Starting and recovering workflows, over the in-memory store *)

Section recovery.
Context `{!MapOrder} {X : Type} `{!WorkflowController X}.
Context (now_at : nat → time) (id_at : nat → string) (planner : Planner).
Abbreviation M := (@AppWorld Memory X).

(** In the states [up] the workflow service accepts starts, and stays up. *)
Definition accepting (up : X → Prop) : Prop :=
  ∀ run x, up x → up (workflow_StartRelease run x).1 ∧ is_ok (workflow_StartRelease run x).2 = true.

(** The run an event asks to start. *)
Definition event_run (m : Memory) (e : OutboxEvent) : ReleaseRun := get zero_ReleaseRun (mem_runs m) (ob_AggregateID e).

(** Every event the recovery reads has its run. *)
Definition events_have_runs (m : Memory) : Prop :=
  ∀ e, e ∈ pending_events workflowRequestedEvent m → is_Some (mem_runs m !! ob_AggregateID e).

(** One published event less. *)
Lemma MarkOutboxPublished_spec id t m :
  NoDup (ob_ID <$> mem_outbox m) → id ∈ ob_ID <$> mem_outbox m →
  ∃ m', MarkOutboxPublished id t m = (m', Ok tt) ∧ ob_ID <$> mem_outbox m' = ob_ID <$> mem_outbox m ∧
    mem_runs m' = mem_runs m ∧ mem_runByRequestID m' = mem_runByRequestID m ∧
    ∀ ty, pending_events ty m' = filter (λ e, ob_ID e ≠ id) (pending_events ty m).
Proof.
  intros Hnd Hin. destruct (mark_published_filter "" id t _ Hnd Hin) as (out & Hm & Hids & _).
  exists (m <| mem_outbox := out |>). unfold MarkOutboxPublished. rewrite Hm. split_and!; try done.
  intros ty. destruct (mark_published_filter ty id t _ Hnd Hin) as (out' & Hm' & _ & Hf).
  rewrite Hm in Hm'. injection Hm' as <-. exact Hf.
Qed.

Lemma mark_published_None id t events : mark_published id t events = None → id ∉ ob_ID <$> events.
Proof.
  induction events as [|e events IH]; csimpl; [by intros _ ?%elem_of_nil|].
  destruct (bool_decide (ob_ID e = id)) eqn:Hb; [done|]. apply bool_decide_eq_false in Hb.
  destruct (mark_published id t events); [done|]. set_solver.
Qed.

Lemma elem_of_pending_id ty m e : e ∈ pending_events ty m → ob_ID e ∈ ob_ID <$> mem_outbox m.
Proof. intros [_ Hin]%list_elem_of_filter. by apply list_elem_of_fmap_2. Qed.

(** The loop starts and publishes every event when the service accepts. *)
Lemma recover_loop_spec up events published (w : M) :
  accepting up → up (pw_workflows w) → NoDup (ob_ID <$> mem_outbox (pw_store w)) →
  Forall (λ e, ob_ID e ∈ ob_ID <$> mem_outbox (pw_store w) ∧ is_Some (mem_runs (pw_store w) !! ob_AggregateID e)) events →
  ∃ w', recover_loop now_at events published w = (w', (published + Z.of_nat (length events), None)) ∧
    (up (pw_workflows w') ∧ ob_ID <$> mem_outbox (pw_store w') = ob_ID <$> mem_outbox (pw_store w) ∧
     mem_runs (pw_store w') = mem_runs (pw_store w)) ∧
    pw_trace w' = pw_trace w ++ (AppStart ∘ event_run (pw_store w) <$> events) ∧
    ∀ ty, pending_events ty (pw_store w') =
      filter (λ e, ob_ID e ∉ ob_ID <$> events) (pending_events ty (pw_store w)).
Proof.
  intros Hacc. revert published w. induction events as [|event events IH]; intros published w Hup Hnd Hall.
  { exists w. simpl. rewrite Z.add_0_r, app_nil_r. split_and!; try done. intros ty. symmetry. apply filter_all.
    intros e _ He. by apply elem_of_nil in He. }
  apply Forall_cons in Hall as [[Hid [run Hrun]] Hall]. cbn [recover_loop].
  unfold app_read, app_call, app_store, app_now, mbind, st_bind. simpl. unfold GetRun. rewrite Hrun.
  destruct (workflow_StartRelease run (pw_workflows w)) as [x r] eqn:Hs.
  destruct (Hacc run (pw_workflows w) Hup) as [Hx Hr]. rewrite Hs in Hx, Hr. destruct r as [execution|]; [|done]. simpl.
  destruct (MarkOutboxPublished_spec (ob_ID event) (now_at (pw_ticks w)) (pw_store w) Hnd Hid)
    as (m' & Hm & Hids & Hruns & _ & Hp). unfold modify; simpl. rewrite Hm. simpl.
  match goal with |- context [recover_loop _ _ _ ?w1] => destruct (IH (published + 1) w1) as (w' & Hl & (Hup' & Hids' & Hruns') & Ht & Hp') end.
  { done. }
  { simpl. by rewrite Hids. }
  { simpl. eapply Forall_impl; [exact Hall|]. simpl. by rewrite Hids, Hruns. }
  exists w'. rewrite Hl, Ht. simpl in *. split_and!; [|done|by rewrite Hids'|by rewrite Hruns'|..].
  - do 2 f_equal. lia.
  - rewrite <-(assoc_L (++)). simpl. unfold event_run, get at 2. rewrite Hrun. simpl. do 3 f_equal.
    unfold event_run. by rewrite Hruns.
  - intros ty. rewrite Hp', Hp, list_filter_filter. apply list_filter_iff. intros e. rewrite not_elem_of_cons. tauto.
Qed.

(** The events one recovery reads. *)
Definition recovered (limit : Z) (m : Memory) : list OutboxEvent :=
  if limit <=? 0 then pending_events workflowRequestedEvent m
  else take (Z.to_nat limit) (pending_events workflowRequestedEvent m).

Lemma recover_spec up limit (w : M) :
  accepting up → up (pw_workflows w) → NoDup (ob_ID <$> mem_outbox (pw_store w)) → events_have_runs (pw_store w) →
  ∃ w', RecoverPendingWorkflows now_at limit w = (w', (Z.of_nat (length (recovered limit (pw_store w))), None)) ∧
    (up (pw_workflows w') ∧ ob_ID <$> mem_outbox (pw_store w') = ob_ID <$> mem_outbox (pw_store w) ∧
     mem_runs (pw_store w') = mem_runs (pw_store w)) ∧
    pw_trace w' = pw_trace w ++ (AppStart ∘ event_run (pw_store w) <$> recovered limit (pw_store w)) ∧
    ∀ ty, pending_events ty (pw_store w') =
      filter (λ e, ob_ID e ∉ ob_ID <$> recovered limit (pw_store w)) (pending_events ty (pw_store w)).
Proof.
  intros Hacc Hup Hnd Hruns. unfold RecoverPendingWorkflows, app_read, mbind, st_bind. simpl. unfold PendingOutboxByType.
  rewrite pendingOutbox_take. fold (recovered limit (pw_store w)). apply (recover_loop_spec up); [done..|].
  apply Forall_forall. intros e He.
  assert (e ∈ pending_events workflowRequestedEvent (pw_store w)) as Hin.
  { unfold recovered in He. destruct (limit <=? 0); [done|]. by eapply elem_of_sublist, sublist_take. }
  split; [by eapply elem_of_pending_id|by apply Hruns].
Qed.

(** Dropping what a pass published leaves the rest. *)
Lemma filter_taken n (l : list OutboxEvent) :
  NoDup (ob_ID <$> l) → filter (λ e, ob_ID e ∉ ob_ID <$> take n l) l = drop n l.
Proof.
  intros Hnd. transitivity (filter (λ e, ob_ID e ∉ ob_ID <$> take n l) (take n l ++ drop n l)); [by rewrite take_drop|].
  rewrite filter_app.
  rewrite <-(take_drop n l), fmap_app in Hnd. apply NoDup_app in Hnd as (_ & Hdis & _).
  rewrite (filter_none _ (take n l)), (filter_all _ (drop n l)); [done|..].
  - intros e He Hin. by apply (Hdis _ Hin), list_elem_of_fmap_2.
  - intros e He Hno. by apply Hno, list_elem_of_fmap_2.
Qed.

Lemma NoDup_pending ty m : NoDup (ob_ID <$> mem_outbox m) → NoDup (ob_ID <$> pending_events ty m).
Proof. intros Hnd. eapply sublist_NoDup; [exact Hnd|]. apply fmap_sublist, sublist_filter. Qed.

(** One pass of the program's recovery: at most a hundred requests. *)
Lemma recover_pass up (w : M) :
  accepting up → up (pw_workflows w) → NoDup (ob_ID <$> mem_outbox (pw_store w)) → events_have_runs (pw_store w) →
  let pending := pending_events workflowRequestedEvent (pw_store w) in
  ∃ w', RecoverPendingWorkflows now_at 100 w = (w', (Z.of_nat (length (take 100 pending)), None)) ∧
    up (pw_workflows w') ∧ NoDup (ob_ID <$> mem_outbox (pw_store w')) ∧ events_have_runs (pw_store w') ∧
    mem_runs (pw_store w') = mem_runs (pw_store w) ∧
    pw_trace w' = pw_trace w ++ (AppStart ∘ event_run (pw_store w) <$> take 100 pending) ∧
    pending_events workflowRequestedEvent (pw_store w') = drop 100 pending.
Proof.
  intros Hacc Hup Hnd Hev pending.
  destruct (recover_spec up 100 w Hacc Hup Hnd Hev) as (w' & Hr & (Hup' & Hids & Hruns) & Ht & Hp).
  change (recovered 100 (pw_store w)) with (take 100 pending) in *. specialize (Hp workflowRequestedEvent).
  rewrite (filter_taken 100) in Hp by (by apply NoDup_pending).
  exists w'. split_and!; try done; [by rewrite Hids|].
  intros e He. rewrite Hruns. apply Hev. rewrite Hp in He. by eapply elem_of_sublist, sublist_drop.
Qed.

(** Enough passes start every pending request, in order. *)
Lemma recovery_spec up ticks (w : M) :
  accepting up → up (pw_workflows w) → NoDup (ob_ID <$> mem_outbox (pw_store w)) → events_have_runs (pw_store w) →
  let pending := pending_events workflowRequestedEvent (pw_store w) in
  (length pending ≤ 100 * Datatypes.S ticks)%nat →
  ∃ w', RunWorkflowRecovery now_at ticks w = (w', []) ∧
    pw_trace w' = pw_trace w ++ (AppStart ∘ event_run (pw_store w) <$> pending) ∧
    pending_events workflowRequestedEvent (pw_store w') = [].
Proof.
  intros Hacc. revert w. induction ticks as [|ticks IH]; intros w Hup Hnd Hev pending Hlen;
    destruct (recover_pass up w Hacc Hup Hnd Hev) as (w1 & Hr & Hup1 & Hnd1 & Hev1 & Hruns & Ht1 & Hp1);
    fold pending in Hr, Ht1, Hp1; cbn [RunWorkflowRecovery]; unfold mbind at 1, st_bind at 1; rewrite Hr; simpl.
  - exists w1. rewrite take_ge in Ht1 by lia. rewrite drop_ge in Hp1 by lia. done.
  - destruct (IH w1 Hup1 Hnd1 Hev1) as (w2 & Hr2 & Ht2 & Hp2); [rewrite Hp1, length_drop; lia|].
    exists w2. unfold mbind, st_bind. rewrite Hr2. split; [done|]. split; [|done].
    rewrite Ht2, Ht1, Hp1, <-(assoc_L (++)). f_equal. unfold event_run. rewrite Hruns, <-fmap_app. by rewrite take_drop.
Qed.

(** *** Starting *)

(** A created run is stored, its event is in the outbox, and the event is unpublished unless the
    workflow was started. *)
Lemma start_created request plan (w w' : M) run err :
  Releases_start now_at id_at planner request plan w = (w', (Some run, true, err)) →
  mem_runs (pw_store w') !! run_ID run = Some run ∧
  pw_trace w' = pw_trace w ++ [AppStart run] ∧
  (err ≠ None → ∃ event, event ∈ pending_events workflowRequestedEvent (pw_store w') ∧ ob_AggregateID event = run_ID run).
Proof.
  unfold Releases_start, app_now, app_newID, mbind, st_bind. simpl.
  destruct (ValidatePlan planner plan _); [|discriminate].
  unfold app_store, modify. simpl. unfold CreateRunAtomic, appendAtomic. simpl.
  destruct (mem_runByRequestID (pw_store w) !! _); [discriminate|].
  destruct (mem_runs (pw_store w) !! _); [discriminate|]. unfold app_call, modify. simpl.
  set (stored := requested_run _ _ _ _). set (outbox := workflow_event _ _ _).
  assert (Hpend : is_pending workflowRequestedEvent outbox = true) by done.
  destruct (workflow_StartRelease stored _) as [x [execution|e]]; simpl.
  - match goal with |- context [MarkOutboxPublished ?i ?t ?m] => destruct (MarkOutboxPublished i t m) as [m' [[]|e]] eqn:Hm end;
      intros [= <- <- <-]; simpl.
    + split; [|by split]. revert Hm. unfold MarkOutboxPublished. simpl.
      destruct (mark_published _ _ _); [|discriminate]. intros [= <-]. apply lookup_insert_eq.
    + exfalso. revert Hm. unfold MarkOutboxPublished. simpl.
      match goal with |- context [mark_published ?i ?t ?l] => destruct (mark_published i t l) eqn:Hmk end; [discriminate|].
      apply mark_published_None in Hmk. intros _. apply Hmk, list_elem_of_fmap. exists outbox. set_solver.
  - intros [= <- <- <-]. simpl. split; [apply lookup_insert_eq|]. split; [done|]. intros _. exists outbox. split; [|done].
    unfold pending_events. simpl. apply list_elem_of_filter. split; [done|]. set_solver.
Qed.

(** C22: over the in-memory store, a release that was created is started even when the workflow service failed, or the
    control plane stopped, between storing the run and publishing its start: whatever [start] returned, once
    the service is in a state from which it accepts every start, the recovery loop ([RunWorkflowRecovery], a
    hundred requests a pass) after enough ticks for the requests then pending reports no error, has sent
    the start of every pending request, this run's among them if [start] reported an error, and leaves no
    request unpublished.  The hypotheses on the store are that the ids of its outbox events are distinct
    and that the run of every pending request is stored. *)
Theorem created_release_starts request plan (w w' : M) run err up x ticks :
  Releases_start now_at id_at planner request plan w = (w', (Some run, true, err)) →
  accepting up → up x → NoDup (ob_ID <$> mem_outbox (pw_store w')) → events_have_runs (pw_store w') →
  let pending := pending_events workflowRequestedEvent (pw_store w') in
  (length pending ≤ 100 * Datatypes.S ticks)%nat →
  ∃ w'', RunWorkflowRecovery now_at ticks (w' <| pw_workflows := x |>) = (w'', []) ∧
    pending_events workflowRequestedEvent (pw_store w'') = [] ∧
    pw_trace w'' = pw_trace w' ++ (AppStart ∘ event_run (pw_store w') <$> pending) ∧
    (err ≠ None → AppStart run ∈ (AppStart ∘ event_run (pw_store w') <$> pending)).
Proof.
  intros Hstart Hacc Hup Hnd Hruns pending Hlen. destruct (start_created _ _ _ _ _ _ Hstart) as (Hrun & Ht & Hev).
  destruct (recovery_spec up ticks (w' <| pw_workflows := x |>) Hacc) as (w'' & Hr & Ht' & Hp);
    [exact Hup|exact Hnd|exact Hruns|exact Hlen|].
  exists w''. split_and!; try done.
  intros Herr. destruct (Hev Herr) as (event & Hin & Hagg).
  apply list_elem_of_fmap. exists event. split; [|done]. unfold compose, event_run, get. simpl. by rewrite Hagg, Hrun.
Qed.
End recovery.

(** ** One workflow per request *)

Section requests.
Context `{!MapOrder} {X : Type} `{!WorkflowController X}.
Context (now_at : nat → time) (id_at : nat → string) (planner : Planner).
Abbreviation M := (@AppWorld Memory X).

(** Every run is filed under its request id and has its own id as workflow id. *)
Definition requests_filed (m : Memory) : Prop :=
  ∀ id run, mem_runs m !! id = Some run →
    run_WorkflowID run = id ∧ mem_runByRequestID m !! run_RequestID run = Some id.

(** The workflow of a start is the one filed for its request. *)
Definition start_filed (m : Memory) (e : app_effect) : Prop :=
  match e with
  | AppStart run => mem_runByRequestID m !! run_RequestID run = Some (run_WorkflowID run)
  | _ => True
  end.

Definition filed (w : M) : Prop := requests_filed (pw_store w) ∧ Forall (start_filed (pw_store w)) (pw_trace w).

(** What other clients of the store, the workflow among them, may do: runs keep their identities and
    requests stay filed. *)
Definition identities_kept (w w' : M) : Prop :=
  pw_trace w' = pw_trace w ∧ (requests_filed (pw_store w) → requests_filed (pw_store w')) ∧
  mem_runByRequestID (pw_store w) ⊆ mem_runByRequestID (pw_store w').

Inductive release_step : M → M → Prop :=
| release_Start request w w' r : Releases_Start now_at id_at planner request w = (w', r) → release_step w w'
| release_StartIntent tenant intent w w' r :
    StartIntentForTenant now_at id_at planner tenant intent w = (w', r) → release_step w w'
| release_PlanIntent tenant intent w w' r : PlanIntentForTenant now_at planner tenant intent w = (w', r) → release_step w w'
| release_Recover limit w w' r : RecoverPendingWorkflows now_at limit w = (w', r) → release_step w w'
| release_tenant tenant c w w' r : run_tenant_call now_at tenant c w = (w', r) → release_step w w'
| release_other w w' : identities_kept w w' → release_step w w'.

(** The run tables are as before, and what was sent was filed. *)
Definition files_kept (w w' : M) : Prop :=
  mem_runs (pw_store w') = mem_runs (pw_store w) ∧
  mem_runByRequestID (pw_store w') = mem_runByRequestID (pw_store w) ∧
  ∃ evs, pw_trace w' = pw_trace w ++ evs ∧ (requests_filed (pw_store w) → Forall (start_filed (pw_store w)) evs).

Lemma files_kept_refl w : files_kept w w.
Proof. split_and!; try done. exists []. by rewrite app_nil_r. Qed.

Lemma requests_filed_eq m m' :
  mem_runs m' = mem_runs m → mem_runByRequestID m' = mem_runByRequestID m → requests_filed m → requests_filed m'.
Proof. unfold requests_filed. by intros -> ->. Qed.

Lemma start_filed_mono m m' e : mem_runByRequestID m ⊆ mem_runByRequestID m' → start_filed m e → start_filed m' e.
Proof. destruct e; simpl; try done. intros Hsub Hl. by eapply lookup_weaken. Qed.

Lemma files_kept_trans w1 w2 w3 : files_kept w1 w2 → files_kept w2 w3 → files_kept w1 w3.
Proof.
  intros (Hr & Hq & evs & Ht & He) (Hr' & Hq' & evs' & Ht' & He'). split_and!; [by rewrite Hr'|by rewrite Hq'|].
  exists (evs ++ evs'). split; [by rewrite Ht', Ht, (assoc_L (++))|]. intros Hf. apply Forall_app. split; [auto|].
  assert (requests_filed (pw_store w2)) as Hf2 by (by eapply requests_filed_eq).
  eapply Forall_impl; [exact (He' Hf2)|]. intros e. apply start_filed_mono. by rewrite Hq.
Qed.

Lemma files_kept_filed w w' : files_kept w w' → filed w → filed w'.
Proof.
  intros (Hr & Hq & evs & Ht & He) [Hf Htr]. split; [by eapply requests_filed_eq|]. rewrite Ht.
  assert (∀ e, start_filed (pw_store w) e → start_filed (pw_store w') e) by (intros e; apply start_filed_mono; by rewrite Hq).
  apply Forall_app. split; eapply Forall_impl; eauto.
Qed.

Lemma mark_published_tables id t m m' r :
  MarkOutboxPublished id t m = (m', r) → mem_runs m' = mem_runs m ∧ mem_runByRequestID m' = mem_runByRequestID m.
Proof. unfold MarkOutboxPublished. destruct (mark_published _ _ _); by intros [= <- _]. Qed.

Lemma recover_loop_files events published (w w' : M) r :
  recover_loop now_at events published w = (w', r) → files_kept w w'.
Proof.
  revert published w. induction events as [|event events IH]; intros published w; cbn [recover_loop].
  { intros [= <- _]. apply files_kept_refl. }
  unfold app_read, app_call, app_store, app_now, mbind, st_bind. simpl. unfold GetRun.
  destruct (mem_runs (pw_store w) !! ob_AggregateID event) as [run|] eqn:Hrun; [|intros [= <- _]; apply files_kept_refl].
  assert (∀ x s t, mem_runs s = mem_runs (pw_store w) → mem_runByRequestID s = mem_runByRequestID (pw_store w) →
    files_kept w {| pw_store := s; pw_workflows := x; pw_runners := pw_runners w; pw_frozenRunners := pw_frozenRunners w;
                    pw_ticks := t; pw_ids := pw_ids w; pw_trace := pw_trace w ++ [AppStart run] |}) as Hstarted.
  { intros x s t Hs Hq. split_and!; [done..|]. exists [AppStart run]. split; [done|]. intros Hf. constructor; [|constructor].
    simpl. destruct (Hf _ _ Hrun) as [-> ?]. done. }
  destruct (workflow_StartRelease run _) as [x [execution|err]]; unfold modify; simpl.
  - destruct (MarkOutboxPublished _ _ _) as [m' [[]|err]] eqn:Hm; apply mark_published_tables in Hm as [Hr Hq]; simpl.
    + intros Hl. eapply files_kept_trans; [|by eapply IH]. by apply Hstarted.
    + intros [= <- _]. by apply Hstarted.
  - intros [= <- _]. by apply Hstarted.
Qed.

Lemma save_plan_files plan (w w' : M) r : save_plan plan w = (w', r) → files_kept w w'.
Proof.
  destruct plan as [[plan|err]|]; intros [= <- _]; try apply files_kept_refl.
  split_and!; try done. exists []. by rewrite app_nil_r.
Qed.

Lemma ticked_files (w : M) : files_kept w (w <| pw_ticks ::= Datatypes.S |>).
Proof. split_and!; try done. exists []. by rewrite app_nil_r. Qed.

Lemma plan_files intent (w w' : M) r : Releases_PlanIntent now_at planner intent w = (w', r) → files_kept w w'.
Proof.
  unfold Releases_PlanIntent. destruct (Releases_validateRequest _); [|intros [= <- _]; apply files_kept_refl].
  intros Hs%save_plan_files. eapply files_kept_trans; [apply ticked_files|exact Hs].
Qed.

Lemma plan_request_files request (w w' : M) r : Releases_Plan now_at planner request w = (w', r) → files_kept w w'.
Proof.
  unfold Releases_Plan. destruct (Releases_validateRequest _); [|intros [= <- _]; apply files_kept_refl].
  intros Hs%save_plan_files. eapply files_kept_trans; [apply ticked_files|exact Hs].
Qed.

(** Creating a run files it. *)
Lemma requests_filed_insert m run :
  mem_runByRequestID m !! run_RequestID run = None → run_WorkflowID run = run_ID run → requests_filed m →
  requests_filed (m <| mem_runs := <[run_ID run := run]> (mem_runs m) |>
                    <| mem_runByRequestID := <[run_RequestID run := run_ID run]> (mem_runByRequestID m) |>).
Proof.
  intros Hfree Hw Hf id r. unfold modify; simpl. destruct (decide (id = run_ID run)) as [->|Hne].
  - rewrite lookup_insert_eq. intros [= <-]. by rewrite lookup_insert_eq.
  - rewrite lookup_insert_ne by done. intros Hr. destruct (Hf _ _ Hr) as [? Hq]. split; [done|].
    rewrite lookup_insert_ne; [done|]. intros Heq. by rewrite Heq, Hq in Hfree.
Qed.

Lemma start_filed_step request plan (w w' : M) r :
  Releases_start now_at id_at planner request plan w = (w', r) → filed w → filed w'.
Proof.
  unfold Releases_start, app_now, app_newID, mbind, st_bind. simpl. intros Hstart [Hf Ht]. revert Hstart.
  destruct (ValidatePlan planner plan _); [|intros [= <- _]; by split].
  unfold app_store, modify. simpl. unfold CreateRunAtomic, appendAtomic. simpl.
  destruct (mem_runByRequestID (pw_store w) !! _) eqn:Hq; [intros [= <- _]; by split|].
  destruct (mem_runs (pw_store w) !! _) eqn:Hr; [intros [= <- _]; by split|]. unfold app_call, modify. simpl.
  set (stored := requested_run _ _ _ _).
  assert (Hstored : ∀ m' : Memory, mem_runs m' = <[run_ID stored := stored]> (mem_runs (pw_store w)) →
    mem_runByRequestID m' = <[run_RequestID stored := run_ID stored]> (mem_runByRequestID (pw_store w)) →
    requests_filed m' ∧ Forall (start_filed m') (pw_trace w ++ [AppStart stored])).
  { intros m' Hm Hb. split.
    - eapply requests_filed_eq; [..|by apply (requests_filed_insert (pw_store w) stored)]; done.
    - apply Forall_app. split.
      + eapply Forall_impl; [exact Ht|]. intros e. apply start_filed_mono. rewrite Hb. by apply insert_subseteq.
      + constructor; [|constructor]. simpl. rewrite Hb. apply lookup_insert_eq. }
  destruct (workflow_StartRelease stored _) as [x [execution|err]]; simpl.
  - destruct (MarkOutboxPublished _ _ _) as [m' mr] eqn:Hm. apply mark_published_tables in Hm as [Hm1 Hm2].
    destruct mr as [[]|err]; intros [= <- _]; by apply Hstored.
  - intros [= <- _]. by apply Hstored.
Qed.

Lemma start_with_filed request plan (w w' : M) r :
  start_with now_at id_at planner request plan w = (w', r) → filed w → filed w'.
Proof.
  destruct plan as [[plan|err]|]; [|by intros [= <- _]..].
  intros (w1 & r1 & Hs & [= <- _])%st_bind_inv. by eapply start_filed_step.
Qed.

Lemma release_step_filed w w' : release_step w w' → filed w → filed w'.
Proof.
  intros [request ? ? r Hs|tenant intent ? ? r Hs|tenant intent ? ? r Hs|limit ? ? r Hs|tenant c ? ? r Hs|? ? (Ht & Hf & Hq)] Hw.
  - apply st_bind_inv in Hs as (w1 & plan & Hp & Hs). eapply start_with_filed; [exact Hs|].
    eapply files_kept_filed, Hw. by eapply plan_request_files.
  - revert Hs. unfold StartIntentForTenant. destruct (bindTenant _ _); [|by intros [= <- _]].
    intros (w1 & plan & Hp & Hs)%st_bind_inv. eapply start_with_filed; [exact Hs|].
    eapply files_kept_filed, Hw. by eapply plan_files.
  - revert Hs. unfold PlanIntentForTenant. destruct (bindTenant _ _); [|by intros [= <- _]].
    intros Hp%plan_files. by eapply files_kept_filed.
  - revert Hs. unfold RecoverPendingWorkflows, app_read, mbind, st_bind. simpl.
    intros Hp%recover_loop_files. by eapply files_kept_filed.
  - apply tenant_call_scoped in Hs as [(Hs & _ & evs & Ht & Hno) _]. eapply files_kept_filed, Hw. unfold files_kept. rewrite Hs.
    split_and!; [done..|]. exists evs. split; [done|]. intros _. eapply Forall_impl; [exact Hno|].
    by intros [] [? _].
  - destruct Hw as [Hw1 Hw2]. split; [auto|]. rewrite Ht. eapply Forall_impl; [exact Hw2|]. intros e. by apply start_filed_mono.
Qed.

(** over any history of plans, starts, recoveries, tenant calls and changes by other
    clients that keep the identities of runs, a request id is only ever started as one workflow:
    whatever is sent to the workflow service again carries the same workflow id. *)
Theorem one_workflow_per_request w w' r1 r2 :
  rtc release_step w w' → requests_filed (pw_store w) → pw_trace w = [] →
  AppStart r1 ∈ pw_trace w' → AppStart r2 ∈ pw_trace w' → run_RequestID r1 = run_RequestID r2 →
  run_WorkflowID r1 = run_WorkflowID r2.
Proof.
  intros Hsteps Hf Ht H1 H2 Hreq.
  assert (filed w') as [_ Hall].
  { assert (filed w) as Hw by (split; [done|]; by rewrite Ht). clear -Hsteps Hw.
    induction Hsteps as [|w1 w2 w3 Hstep _ IH]; [done|]. by eapply IH, release_step_filed. }
  rewrite Forall_forall in Hall. pose proof (Hall _ H1) as E1. pose proof (Hall _ H2) as E2. simpl in E1, E2.
  rewrite Hreq, E2 in E1. by injection E1.
Qed.
End requests.

(** ** Examples *)

#[local] Existing Instance canonical_order.

(** A workflow service that is up or down. *)
#[local] Instance switch : WorkflowController bool := {|
  workflow_StartRelease := λ run (up : bool),
    (up, if up then Ok {| we_WorkflowID := run_WorkflowID run; we_RunID := "temporal" |} else Err (ErrorNew "unavailable"));
  workflow_SignalApproval := λ (_ : string) _ (up : bool), (up, Ok tt);
  workflow_Pause := λ (_ : string) _ (up : bool), (up, Ok tt);
  workflow_Resume := λ (_ : string) _ (up : bool), (up, Ok tt);
  workflow_Cancel := λ (_ : string) _ (up : bool), (up, Ok tt);
|}.

Definition plane_clock (n : nat) : time := 3000.
Definition plane (m : Memory) (up : bool) : @AppWorld Memory bool :=
  {| pw_store := m; pw_workflows := up; pw_runners := ∅; pw_frozenRunners := ∅; pw_ticks := 0; pw_ids := 0; pw_trace := [] |}.
Definition plane_request : ReleaseRequest := LegacyRequestFromIntent demo_intent.

(** A release is created while the service is down. *)
Definition lost_start (p : Planner) (plan : ReleasePlan) : @AppWorld Memory bool * start_result :=
  Releases_start plane_clock demo_ids p plane_request plan (plane NewMemory false).
Definition lost_error : error := Errorf "start temporal release workflow: unavailable" (Some (ErrorNew "unavailable")).

Lemma lost_start_eq p plan :
  ValidatePlan p plan 3000 = Ok tt →
  let run := requested_run plane_request plan "run_0" 3000 in
  mem_outbox (pw_store (fst (lost_start p plan))) = [workflow_event "workflow_2" "run_0" 3000; projection_event run] ∧
  mem_runs (pw_store (fst (lost_start p plan))) !! "run_0" = Some run ∧
  snd (lost_start p plan) = (Some run, true, Some lost_error).
Proof.
  intros Hv. unfold lost_start, Releases_start, app_now, mbind, st_bind. simpl.
  change (plane_clock 0) with 3000. rewrite Hv. by repeat split.
Qed.

Definition plane_lost : @AppWorld Memory bool * start_result := lost_start demo_planner demo_plan.
Definition plane_run : ReleaseRun := requested_run plane_request demo_plan "run_0" 3000.

Lemma plane_lost_eq :
  mem_outbox (pw_store (fst plane_lost)) = [workflow_event "workflow_2" "run_0" 3000; projection_event plane_run] ∧
  mem_runs (pw_store (fst plane_lost)) !! "run_0" = Some plane_run ∧
  snd plane_lost = (Some plane_run, true, Some lost_error).
Proof. exact (lost_start_eq demo_planner demo_plan demo_plan_valid). Qed.

Lemma plane_lost_run :
  Releases_start plane_clock demo_ids demo_planner plane_request demo_plan (plane NewMemory false) =
    (fst plane_lost, (Some plane_run, true, Some lost_error)).
Proof. rewrite <-(proj2 (proj2 plane_lost_eq)). apply surjective_pairing. Qed.

Lemma plane_lost_pending e :
  e ∈ pending_events workflowRequestedEvent (pw_store (fst plane_lost)) → e = workflow_event "workflow_2" "run_0" 3000.
Proof.
  unfold pending_events. rewrite (proj1 plane_lost_eq). intros [Hp He]%list_elem_of_filter.
  apply elem_of_cons in He as [->|He]; [done|]. by apply list_elem_of_singleton in He as ->.
Qed.

Lemma plane_lost_count :
  (length (pending_events workflowRequestedEvent (pw_store (fst plane_lost))) ≤ 100)%nat.
Proof.
  unfold pending_events. etrans; [apply length_filter|]. rewrite (proj1 plane_lost_eq). simpl. lia.
Qed.

Lemma created_release_starts_witness :
  ∃ w'', RunWorkflowRecovery plane_clock 0 ((fst plane_lost) <| pw_workflows := true |>) = (w'', []) ∧
    pending_events workflowRequestedEvent (pw_store w'') = [] ∧ AppStart plane_run ∈ pw_trace w''.
Proof.
  destruct (created_release_starts plane_clock demo_ids demo_planner plane_request demo_plan (plane NewMemory false)
    (fst plane_lost) plane_run _ (λ up, up = true) true 0 plane_lost_run) as (w'' & Hr & Hp & Ht & Hs);
    [by intros run x ->|done| | |exact plane_lost_count|].
  - rewrite (proj1 plane_lost_eq). apply NoDup_cons. split; [|apply NoDup_singleton].
    intros Hin%list_elem_of_singleton. discriminate Hin.
  - intros e ->%plane_lost_pending. exists plane_run. exact (proj1 (proj2 plane_lost_eq)).
  - exists w''. split; [exact Hr|]. split; [exact Hp|]. rewrite Ht. apply elem_of_app. right. by apply Hs.
Defined.

(** The release is started and recovered: both starts are of one workflow. *)
Lemma one_workflow_per_request_witness :
  ∃ w', rtc (release_step plane_clock demo_ids demo_planner) (plane NewMemory true) w' ∧
    ∀ r1 r2, AppStart r1 ∈ pw_trace w' → AppStart r2 ∈ pw_trace w' → run_RequestID r1 = run_RequestID r2 →
      run_WorkflowID r1 = run_WorkflowID r2.
Proof.
  destruct (Releases_Start plane_clock demo_ids demo_planner plane_request (plane NewMemory true)) as [w1 r1] eqn:H1.
  destruct (RecoverPendingWorkflows plane_clock 0 w1) as [w2 r2] eqn:H2.
  assert (rtc (release_step plane_clock demo_ids demo_planner) (plane NewMemory true) w2) as Hsteps.
  { eapply rtc_l; [by eapply release_Start|]. apply rtc_once. by eapply release_Recover. }
  exists w2. split; [exact Hsteps|]. intros r1' r2'.
  apply (one_workflow_per_request plane_clock demo_ids demo_planner (plane NewMemory true) w2 r1' r2' Hsteps);
    [intros id run Hrun; discriminate Hrun|reflexivity].
Defined.

(** *** Approvals *)

Definition plane_approval : Approval :=
  {| ap_ID := "approval"; ap_RequiredRoles := ["owner"]; ap_Status := ApprovalPending; ap_PlanHash := "plan";
     ap_RequestedAt := 1000; ap_ExpiresAt := 5000; ap_DecidedBy := ""; ap_DecidedAt := None |}.
Definition plane_step : ReleaseStep := Eval vm_compute in
  (new_step ∅ {| ph_Number := 1; ph_Steps := [] |} (demo_planned "auth"))
    <| st_Status := StepWaitingApproval |> <| st_Approval := Some plane_approval |>.
Definition plane_waiting : ReleaseRun := Eval vm_compute in
  zero_ReleaseRun <| run_ID := "run" |> <| run_WorkflowID := "run" |> <| run_TenantID := "acme" |>
    <| run_RequestedBy := "alice" |> <| run_Plan := zero_ReleasePlan <| plan_Hash := "plan" |> |>
    <| run_Steps := [plane_step] |>.
Definition plane_stored : @AppWorld Memory bool := plane (fst (CreateRun plane_waiting NewMemory)) true.

(** Bob, an owner, approves; the signal is sent. *)
Definition plane_decided : @AppWorld Memory bool * result error ReleaseRun :=
  Releases_DecideApproval plane_clock "run" "approval" "bob" ["owner"] true plane_stored.

Lemma approval_signals_guarded_witness :
  pw_trace (fst plane_decided) = [AppApproval "run" (decision_signal "approval" "bob" ["owner"] true)].
Proof.
  pose proof (proj1 (approval_signals_guarded plane_clock "run" "approval" "bob" ["owner"] plane_stored) true) as H.
  fold plane_decided in H. rewrite (surjective_pairing plane_decided) in H.
  apply (proj1 H plane_waiting plane_approval); [reflexivity..|].
  split; [discriminate|]. split; [reflexivity|]. split; [reflexivity|]. split; [reflexivity|].
  intros _. split; [discriminate|]. intros x Hx. exact Hx.
Defined.

(** Another tenant asks for the run and is refused. *)
Lemma tenant_isolation_witness :
  let call := run_tenant_call plane_clock "other" (TControl "run" "mallory" "cancel") plane_stored in
  snd call = AnsRun (Err tenantBoundaryError) ∧ pw_store (fst call) = pw_store plane_stored.
Proof.
  intros call. split; [vm_compute; reflexivity|].
  apply (tenant_isolation plane_clock "other" (TControl "run" "mallory" "cancel") plane_stored (fst call) (snd call)).
  apply surjective_pairing.
Defined.
