(* ===== verification/ControlPlane.v ===== *)
(** * The control plane as its clients see it (src/internal/application/interfaces.go)

    [ControlPlane] is the use-case boundary shared by the HTTP API and the MCP server.  A client
    is a program that asks for use cases and continues with their answers; what it may ask for,
    on every path, is a property of the program alone ([every]).  Running it takes an
    interpretation of the use cases: [releases] interprets them by the services of
    Application.v.

    [ValidateContract] decodes a YAML document, which is the library's: the parameter
    [decode_contract] stands for [contract.Decode]. *)
From S2P Require Import Prelude GoStd Domain Contract Planner Store Runner Engine Durable Application.
Open Scope Z_scope.

(** [ContractValidation] *)
Record ContractValidation := {
  cv_Valid : bool;
  cv_Name : string;
  cv_ContentHash : string;
}.

(** ** The use cases *)

(** The methods of [ControlPlane]; planning that does not come to an end answers [None]. *)
Inductive use_case : Type → Type :=
| UServices : use_case (list Service)
| UPlanIntent (tenant : string) (intent : ReleaseIntent) : use_case (option (result error ReleasePlan))
| UGetPlan (tenant id : string) : use_case (result error ReleasePlan)
| UStartIntent (tenant : string) (intent : ReleaseIntent) : use_case (option start_result)
| UGet (tenant id : string) : use_case (result error ReleaseRun)
| UEvents (tenant id : string) : use_case (result error (list AuditEvent))
| UControl (tenant id actor action : string) : use_case (result error ReleaseRun)
| UPendingApprovals (tenant : string) : use_case (result error (list ApprovalSummary))
| UDecideApproval (tenant runID approvalID actor : string) (roles : list string) (approve : bool) :
    use_case (result error ReleaseRun)
| URevokeApproval (tenant runID approvalID actor : string) (roles : list string) : use_case (result error ReleaseRun)
| UValidateContract (data : string) : use_case (result error ContractValidation)
| UListRunners (tenant : string) : use_case (list RunnerInfo)
| UFreezeRunner (tenant id actor : string) : use_case (result error RunnerInfo).

(** The tenant a use case is for. *)
Definition tenant_of {A} (u : use_case A) : option string :=
  match u with
  | UServices | UValidateContract _ => None
  | UPlanIntent tenant _ | UGetPlan tenant _ | UStartIntent tenant _ | UGet tenant _ | UEvents tenant _
  | UControl tenant _ _ _ | UPendingApprovals tenant | UDecideApproval tenant _ _ _ _ _ | URevokeApproval tenant _ _ _ _
  | UListRunners tenant | UFreezeRunner tenant _ _ => Some tenant
  end.

(** Who steers a release or a runner, for the use cases that do. *)
Definition actor_of {A} (u : use_case A) : option string :=
  match u with
  | UControl _ _ actor _ | UDecideApproval _ _ _ actor _ _ | URevokeApproval _ _ _ actor _ | UFreezeRunner _ _ actor => Some actor
  | _ => None
  end.

(** The roles a decision is made with. *)
Definition roles_of {A} (u : use_case A) : option (list string) :=
  match u with
  | UDecideApproval _ _ _ _ roles _ | URevokeApproval _ _ _ _ roles => Some roles
  | _ => None
  end.

(** The error an answer carries. *)
Definition failure {B} (r : result error B) : option error := match r with Ok _ => None | Err err => Some err end.

Definition error_in {A} (u : use_case A) : A → option error :=
  match u in use_case A return A → option error with
  | UServices | UListRunners _ => λ _, None
  | UPlanIntent _ _ => λ r, match r with Some r => failure r | None => None end
  | UStartIntent _ _ => λ r, match r with Some (_, _, err) => err | None => None end
  | UGetPlan _ _ => failure
  | UGet _ _ | UControl _ _ _ _ | UDecideApproval _ _ _ _ _ _ | URevokeApproval _ _ _ _ _ => failure
  | UEvents _ _ => failure
  | UPendingApprovals _ => failure
  | UValidateContract _ => failure
  | UFreezeRunner _ _ _ => failure
  end.

(** ** Clients *)

Inductive client (A : Type) : Type :=
| Return (a : A)
| Ask {X : Type} (u : use_case X) (k : X → client A).
Arguments Return {A}.
Arguments Ask {A X}.

#[export] Instance client_ret : MRet client := @Return.
#[export] Instance client_bind : MBind client := λ A B f,
  fix go (p : client A) : client B :=
    match p with
    | Return a => f a
    | Ask u k => Ask u (λ x, go (k x))
    end.

Definition ask {X} (u : use_case X) : client X := Ask u Return.

(** Every use case the client can ask for, on any path, satisfies [P]. *)
Fixpoint every {A} (P : ∀ X, use_case X → Prop) (p : client A) : Prop :=
  match p with
  | Return _ => True
  | Ask u k => P _ u ∧ ∀ x, every P (k x)
  end.

(** Every path, with the errors that were answered on it, ends in a result that satisfies [Q]. *)
Fixpoint ends_in {A} (Q : list error → A → Prop) (errs : list error) (p : client A) : Prop :=
  match p with
  | Return a => Q errs a
  | Ask u k => ∀ x, ends_in Q (errs ++ option_list (error_in u x)) (k x)
  end.

Lemma every_bind {A B} P (p : client A) (f : A → client B) : every P p → (∀ a, every P (f a)) → every P (p ≫= f).
Proof. intros Hp Hf. induction p as [a|X u k IH]; [apply Hf|]. destruct Hp as [Hu Hk]. split; [done|]. intros x. by apply IH. Qed.

Lemma every_impl {A} (P Q : ∀ X, use_case X → Prop) (p : client A) :
  (∀ X (u : use_case X), P X u → Q X u) → every P p → every Q p.
Proof. intros HPQ. induction p as [a|X u k IH]; [done|]. intros [Hu Hk]. split; [by apply HPQ|]. intros x. by apply IH. Qed.

(** ** Running a client *)

Section run.
Context {W : Type} (handle : ∀ X, use_case X → ST W X).

Fixpoint run_client {A} (p : client A) : ST W A :=
  match p with
  | Return a => mret a
  | Ask u k => λ w, let '(w, x) := handle _ u w in run_client (k x) w
  end.

(** A relation on states that every use case of the client keeps. *)
Lemma run_client_keeps {A} (P : ∀ X, use_case X → Prop) (R : W → W → Prop) `{!PreOrder R} (p : client A) w w' a :
  (∀ X (u : use_case X) w w' x, P X u → handle X u w = (w', x) → R w w') →
  every P p → run_client p w = (w', a) → R w w'.
Proof.
  intros Hh. revert w. induction p as [b|X u k IH]; intros w; simpl; [by intros _ [= <- _]|].
  intros [Hu Hk]. destruct (handle X u w) as [w1 x] eqn:H1. intros Hr.
  etrans; [by eapply Hh|]. by eapply IH.
Qed.
End run.

(** ** The services of Application.v *)

Section releases.
Context `{!MapOrder} {S X : Type} `{!DurableStore S, !WorkflowController X}.
Context (now_at : nat → time) (id_at : nat → string) (planner : Planner).
Context (decode_contract : string → result error ServiceContract).

(** [Releases.ValidateContract] *)
Definition ValidateContract (data : string) : result error ContractValidation :=
  match decode_contract data with
  | Err err => Err err
  | Ok decoded => Ok {| cv_Valid := true; cv_Name := md_Name (ct_Metadata decoded); cv_ContentHash := ct_ContentHash decoded |}
  end.

(** The interface [ControlPlane] as [Releases] implements it. *)
Definition releases (A : Type) (u : use_case A) : ST (@AppWorld S X) A :=
  match u in use_case A return ST (@AppWorld S X) A with
  | UServices => mret (Services planner)
  | UPlanIntent tenant intent => PlanIntentForTenant now_at planner tenant intent
  | UGetPlan tenant id => Releases_GetPlan tenant id
  | UStartIntent tenant intent => StartIntentForTenant now_at id_at planner tenant intent
  | UGet tenant id => GetForTenant tenant id
  | UEvents tenant id => EventsForTenant tenant id
  | UControl tenant id actor action => ControlForTenant tenant id actor action
  | UPendingApprovals tenant => ListPendingApprovals tenant
  | UDecideApproval tenant runID approvalID actor roles approve =>
      DecideApprovalForTenant now_at tenant runID approvalID actor roles approve
  | URevokeApproval tenant runID approvalID actor roles => RevokeApprovalForTenant tenant runID approvalID actor roles
  | UValidateContract data => mret (ValidateContract data)
  | UListRunners tenant => ListRunners tenant
  | UFreezeRunner tenant id actor => FreezeRunner now_at tenant id actor
  end.
End releases.
