(* ===== verification/Api.v ===== *)
(** * The HTTP API (src/internal/api/server.go)

    Routing, identity, decoding of requests, the handlers and the status of errors.  A handler is
    a client of the control plane that ends in a response, or in none when planning does not come
    to an end.

    A request is what net/http hands to the server: the method, the path in segments (decoded
    and without empty or dot segments, other paths are redirected before they reach a handler),
    the first value of each header by its name, and the body.  The value that is written as
    JSON is the body of a response; writing it out is the encoder's.  Logging is left out. *)
From S2P Require Import Prelude GoStd Sha256 Json Rfc3339 JsonDecode Domain Contract Planner Store Runner Engine Durable Application ControlPlane.
From Stdlib Require Import Ascii.
Open Scope Z_scope.

Record Request := {
  rq_Method : string;
  rq_Path : list string;
  rq_Header : gmap string string;
  rq_Body : result error string;
}.

(** [r.Header.Get] *)
Definition header (r : Request) (name : string) : string := get "" (rq_Header r) name.

(** [errorResponse] *)
Record errorResponse := {
  ef_Error : string;
  ef_ReasonCode : string;
}.

(** What is written into a response. *)
Inductive payload :=
| PText (text : string)
| PHealth
| PError (response : errorResponse)
| PServices (services : list Service)
| PPlan (plan : ReleasePlan)
| PRun (run : option ReleaseRun)
| PEvents (events : list AuditEvent)
| PApprovals (approvals : list ApprovalSummary)
| PValidation (validation : ContractValidation)
| PRunners (runners : list RunnerInfo)
| PRunner (runner : RunnerInfo).

Record Response := {
  rp_Status : Z;
  rp_Header : list (string * string);
  rp_Body : payload;
}.

#[export] Instance eta_Response : Eta Response := λ r,
  {| rp_Status := rp_Status r; rp_Header := rp_Header r; rp_Body := rp_Body r |}.

(** [writeJSON] *)
Definition writeJSON (status : Z) (value : payload) : Response :=
  {| rp_Status := status; rp_Header := [("Content-Type", "application/json")]; rp_Body := value |}.

Definition plain_error (status : Z) (text : string) : Response :=
  {| rp_Status := status; rp_Header := [("Content-Type", "text/plain; charset=utf-8")]; rp_Body := PText text |}.

(** [http.NotFound] *)
Definition NotFound : Response := plain_error 404 "404 page not found".

(** ** Identity *)

Record Principal := {
  pc_Subject : string;
  pc_TenantID : string;
  pc_Roles : list string;
}.

(** [tenantFromRequest] *)
Definition tenantFromRequest (r : Request) : string :=
  let tenant := TrimSpace (header r "X-Tenant-ID") in
  if bool_decide (tenant = "") then "default" else tenant.

(** [resolveIntentTenant] *)
Definition resolveIntentTenant (r : Request) (intent : ReleaseIntent) : string :=
  let tenant := TrimSpace (header r "X-Tenant-ID") in
  if negb (bool_decide (tenant = "")) then tenant
  else if negb (bool_decide (in_TenantID intent = "")) then in_TenantID intent
  else "default".

(** [splitHeader] *)
Definition splitHeader (value : string) : list string :=
  filter (λ part, part ≠ "") (TrimSpace <$> Split value ","%char).

(** [HeaderIdentityResolver.Resolve] *)
Definition HeaderIdentityResolver (r : Request) : result error Principal :=
  let subject := TrimSpace (header r "X-Actor-ID") in
  if bool_decide (subject = "") then Err (ErrorNew "authenticated X-Actor-ID header is required")
  else Ok {| pc_Subject := subject; pc_TenantID := tenantFromRequest r; pc_Roles := splitHeader (header r "X-Actor-Roles") |}.

(** ** Errors *)

(** The status of an error: the chain of [writeError]. *)
Definition error_status (err : error) : Z :=
  if errors_Is err "store.ErrNotFound" then 404
  else if errors_Is err "store.ErrConflict" then 409
  else if errors_Is err "application.ErrApproval" then 403
  else if errors_Is err "planner.ErrDependencyCycle" then 422
  else match ReasonOf err with
       | Some reason =>
           if bool_decide (reason = ReasonTenantBoundary) then 403
           else if bool_decide (reason ∈ [ReasonPlanExpired; ReasonPlanHashMismatch; ReasonContractChanged; ReasonProfileChanged;
                                          ReasonContextChanged; ReasonRunnerFrozen; ReasonCircuitOpen; ReasonBackpressure])
           then 409
           else 422
       | None => 400
       end.

(** [writeError] *)
Definition writeError (err : error) : Response :=
  writeJSON (error_status err) (PError {| ef_Error := Error err; ef_ReasonCode := default "" (ReasonOf err) |}).

Definition bare_error (status : Z) (text : string) : Response :=
  writeJSON status (PError {| ef_Error := text; ef_ReasonCode := "" |}).

(** ** Decoding *)

(** [http.MaxBytesReader] with a limit of one mebibyte, and [io.ReadAll]. *)
Definition body_too_large : error := ErrorNew "http: request body too large".
Definition read_body (r : Request) : result error string :=
  data ← rq_Body r;
  if Z.of_nat (String.length data) <=? 2 ^ 20 then Ok data else Err body_too_large.

Definition zero_AgentIdentity : AgentIdentity := {| agent_ID := ""; agent_Scopes := [] |}.
Definition zero_ReleaseRequest : ReleaseRequest :=
  {| req_RequestID := ""; req_ReleaseVersion := ""; req_TenantID := ""; req_Environment := ""; req_Region := "";
     req_Cluster := ""; req_RequestedBy := ""; req_Agent := zero_AgentIdentity; req_Changes := [] |}.
Definition zero_ReleaseIntent : ReleaseIntent :=
  {| in_APIVersion := ""; in_Kind := ""; in_RequestID := ""; in_ReleaseVersion := ""; in_TenantID := ""; in_Environment := "";
     in_Region := ""; in_Cluster := ""; in_RequestedBy := ""; in_Agent := zero_AgentIdentity; in_Changes := [] |}.

(** The JSON fields of [AgentIdentity], [Change], [ReleaseRequest] and [ReleaseIntent]. *)
Definition AgentIdentity_members : fields_of AgentIdentity :=
  member "id" into_string agent_ID ++ member "scopes" (into_slice into_string "") agent_Scopes.
Definition Change_members : fields_of Change :=
  member "service" into_string ch_Service ++ member "desired_version" into_string ch_DesiredVersion ++
  member "ci_success" into_bool ch_CISuccess ++ member "dependencies_healthy" into_bool ch_DependenciesHealthy ++
  member "destructive_migration" into_bool ch_DestructiveMigration ++ member "risk" into_string ch_Risk.
Definition ReleaseRequest_members : fields_of ReleaseRequest :=
  member "request_id" into_string req_RequestID ++ member "release_version" into_string req_ReleaseVersion ++
  member "tenant_id" into_string req_TenantID ++ member "environment" into_string req_Environment ++
  member "region" into_string req_Region ++ member "cluster" into_string req_Cluster ++
  member "requested_by" into_string req_RequestedBy ++
  member "delegated_agent" (into_struct true AgentIdentity_members) req_Agent ++
  member "changes" (into_slice (into_struct true Change_members) zero_Change) req_Changes.
Definition ReleaseIntent_members : fields_of ReleaseIntent :=
  member "api_version" into_string in_APIVersion ++ member "kind" into_string in_Kind ++
  member "request_id" into_string in_RequestID ++ member "release_version" into_string in_ReleaseVersion ++
  member "tenant_id" into_string in_TenantID ++ member "environment" into_string in_Environment ++
  member "region" into_string in_Region ++ member "cluster" into_string in_Cluster ++
  member "requested_by" into_string in_RequestedBy ++
  member "delegated_agent" (into_struct true AgentIdentity_members) in_Agent ++
  member "changes" (into_slice (into_struct true Change_members) zero_Change) in_Changes.

(** The discriminator of [decodeIntent]. *)
Definition api_version_of : into string := into_struct false [("api_version", into_string)].

(** A handler: a client of the control plane that ends in a response. *)
Abbreviation handler := (client (option Response)).
Definition respond (r : Response) : handler := mret (Some r).

(** [if err != nil { writeError(w, err); return }] and a value. *)
Definition answered {A} (f : A → payload) (r : result error A) : handler :=
  respond match r with Ok a => writeJSON 200 (f a) | Err err => writeError err end.

Section server.
(** [json_error]: the error of encoding/json for a text; [identity]: the [IdentityResolver]. *)
Context (json_error : string → error) (identity : Request → result error Principal).

Definition invalid_json (detail : string) : Response := bare_error 400 ("invalid JSON: " +:+ detail).

(** [decodeStrictJSON] *)
Definition decodeStrictJSON {A} (from : into A) (zero : A) (data : string) : result Response A :=
  match ('(d, rest) ← Decode data; a ← from d zero; Some (a, rest)) with
  | None => Err (invalid_json (Error (json_error data)))
  | Some (a, rest) => if at_EOF rest then Ok a else Err (invalid_json "multiple values are not allowed")
  end.

(** [decodeIntent]: the intent, or the response that was written. *)
Definition decodeIntent (r : Request) : result Response ReleaseIntent :=
  match read_body r with
  | Err err => Err (invalid_json (Error err))
  | Ok data =>
      match (d ← Unmarshal data; api_version_of d "") with
      | None => Err (invalid_json (Error (json_error data)))
      | Some version =>
          if bool_decide (version = "") then
            request ← decodeStrictJSON (into_struct true ReleaseRequest_members) zero_ReleaseRequest data;
            Ok (IntentFromLegacy request)
          else decodeStrictJSON (into_struct true ReleaseIntent_members) zero_ReleaseIntent data
      end
  end.

(** ** Handlers *)

Definition healthz : handler := respond (writeJSON 200 PHealth).

Definition listServices : handler := services ← ask UServices; respond (writeJSON 200 (PServices services)).

Definition planRelease (r : Request) : handler :=
  match decodeIntent r with
  | Err response => respond response
  | Ok intent =>
      plan ← ask (UPlanIntent (resolveIntentTenant r intent) intent);
      match plan with None => mret None | Some plan => answered PPlan plan end
  end.

Definition getPlan (r : Request) (id : string) : handler :=
  plan ← ask (UGetPlan (tenantFromRequest r) id); answered PPlan plan.

Definition startRelease (r : Request) : handler :=
  match decodeIntent r with
  | Err response => respond response
  | Ok intent =>
      started ← ask (UStartIntent (resolveIntentTenant r intent) intent);
      match started with
      | None => mret None
      | Some (_, _, Some err) => respond (writeError err)
      | Some (run, created, None) => respond (writeJSON (if (created : bool) then 201 else 200) (PRun run))
      end
  end.

Definition getRelease (r : Request) (id : string) : handler :=
  run ← ask (UGet (tenantFromRequest r) id); answered (λ run, PRun (Some run)) run.

Definition getEvents (r : Request) (id : string) : handler :=
  events ← ask (UEvents (tenantFromRequest r) id); answered PEvents events.

(** Handlers that need a principal. *)
Definition as_principal (r : Request) (k : Principal → handler) : handler :=
  match identity r with
  | Err err => respond (bare_error 401 (Error err))
  | Ok principal => k principal
  end.

Definition controlRelease (r : Request) (id action : string) : handler :=
  as_principal r (λ principal,
    run ← ask (UControl (pc_TenantID principal) id (pc_Subject principal) action);
    answered (λ run, PRun (Some run)) run).

(** [splitOperation] *)
Definition splitOperation (value : string) (allowed : list string) : option (string * string) :=
  let '(id, action, ok) := Cut value ":"%char in
  if negb ok || bool_decide (id = "") then None
  else if bool_decide (action ∈ allowed) then Some (id, action) else None.

Definition controlColonRoute (r : Request) (operation : string) : handler :=
  match splitOperation operation ["pause"; "resume"; "cancel"] with
  | None => respond NotFound
  | Some (id, action) => controlRelease r id action
  end.

(** [deprecationHeaders] come before what the handler writes. *)
Definition deprecated_response (successor : string) (response : Response) : Response :=
  response <| rp_Header ::= λ l,
    ("Deprecation", "true") :: ("Link", "<" +:+ successor +:+ ">; rel=" +:+ dquote +:+ "successor-version" +:+ dquote) :: l |>.
Definition deprecationHeaders (successor : string) (h : handler) : handler :=
  mbind (M := client) (λ response : option Response, Return (deprecated_response successor <$> response)) h.

Definition legacyControl (r : Request) (id action : string) : handler :=
  if bool_decide (action ∈ ["pause"; "resume"; "cancel"])
  then deprecationHeaders ("/v1/release-runs/{id}:" +:+ action) (controlRelease r id action)
  else respond NotFound.

Definition listApprovals (r : Request) : handler :=
  approvals ← ask (UPendingApprovals (tenantFromRequest r)); answered PApprovals approvals.

(** The decision itself, once the run is known. *)
Definition decide_on (principal : Principal) (runID approvalID action : string) : handler :=
  if bool_decide (runID = "") then respond (writeError ErrNotFound)
  else
    run ← (if bool_decide (action = "revoke")
           then ask (URevokeApproval (pc_TenantID principal) runID approvalID (pc_Subject principal) (pc_Roles principal))
           else ask (UDecideApproval (pc_TenantID principal) runID approvalID (pc_Subject principal) (pc_Roles principal)
                       (bool_decide (action = "approve"))));
    answered (λ run, PRun (Some run)) run.

(** The run of the first pending approval with this id. *)
Definition approval_run (approvalID : string) (approvals : list ApprovalSummary) : string :=
  match list_find (λ a, ap_ID (as_Approval a) = approvalID) approvals with
  | Some (_, a) => as_RunID a
  | None => ""
  end.

Definition decideApproval (r : Request) (runID approvalID action : string) : handler :=
  as_principal r (λ principal,
    if bool_decide (runID = "") then
      approvals ← ask (UPendingApprovals (pc_TenantID principal));
      match approvals with
      | Err err => respond (writeError err)
      | Ok approvals => decide_on principal (approval_run approvalID approvals) approvalID action
      end
    else decide_on principal runID approvalID action).

Definition approvalColonRoute (r : Request) (operation : string) : handler :=
  match splitOperation operation ["approve"; "deny"; "revoke"] with
  | None => respond NotFound
  | Some (id, action) => decideApproval r "" id action
  end.

Definition legacyApproval (r : Request) (id approvalID action : string) : handler :=
  if bool_decide (action ∈ ["approve"; "deny"])
  then deprecationHeaders ("/v1/approvals/{id}:" +:+ action) (decideApproval r id approvalID action)
  else respond NotFound.

Definition validateContract (r : Request) : handler :=
  match read_body r with
  | Err err => respond (bare_error 400 (Error err))
  | Ok data => validation ← ask (UValidateContract data); answered PValidation validation
  end.

Definition listRunners (r : Request) : handler :=
  runners ← ask (UListRunners (tenantFromRequest r)); respond (writeJSON 200 (PRunners runners)).

Definition runnerColonRoute (r : Request) (operation : string) : handler :=
  match splitOperation operation ["freeze"] with
  | None => respond NotFound
  | Some (id, action) =>
      if negb (bool_decide (action = "freeze")) then respond NotFound
      else as_principal r (λ principal,
        runner ← ask (UFreezeRunner (pc_TenantID principal) id (pc_Subject principal)); answered PRunner runner)
  end.

(** ** Routes *)

(** A segment of a pattern: a literal, or a wildcard for one segment that is not empty. *)
Inductive segment := Lit (s : string) | Wild.

Fixpoint match_path (pattern : list segment) (path : list string) : option (list string) :=
  match pattern, path with
  | [], [] => Some []
  | Lit s :: pattern, x :: path => if bool_decide (s = x) then match_path pattern path else None
  | Wild :: pattern, x :: path => if bool_decide (x = "") then None else (cons x) <$> match_path pattern path
  | _, _ => None
  end.

(** What a pattern is served with, given the values of its wildcards. *)
Record route := {
  rt_Method : string;
  rt_Pattern : list segment;
  rt_Serve : Request → list string → handler;
}.

Definition on0 (h : Request → handler) : Request → list string → handler := λ r _, h r.
Definition on1 (h : Request → string → handler) : Request → list string → handler :=
  λ r values, match values with [a] => h r a | _ => respond NotFound end.
Definition on2 (h : Request → string → string → handler) : Request → list string → handler :=
  λ r values, match values with [a; b] => h r a b | _ => respond NotFound end.
Definition on3 (h : Request → string → string → string → handler) : Request → list string → handler :=
  λ r values, match values with [a; b; c] => h r a b c | _ => respond NotFound end.

(** [Server.routes] *)
Definition routes : list route :=
  let handle method pattern serve := {| rt_Method := method; rt_Pattern := pattern; rt_Serve := serve |} in
  [ handle "GET" [Lit "healthz"] (on0 (λ _, healthz));
    handle "GET" [Lit "v1"; Lit "services"] (on0 (λ _, listServices));
    handle "POST" [Lit "v1"; Lit "plans"] (on0 planRelease);
    handle "GET" [Lit "v1"; Lit "plans"; Wild] (on1 getPlan);
    handle "POST" [Lit "v1"; Lit "release-runs"] (on0 startRelease);
    handle "GET" [Lit "v1"; Lit "release-runs"; Wild] (on1 getRelease);
    handle "GET" [Lit "v1"; Lit "release-runs"; Wild; Lit "events"] (on1 getEvents);
    handle "POST" [Lit "v1"; Lit "release-runs"; Wild] (on1 controlColonRoute);
    handle "GET" [Lit "v1"; Lit "approvals"] (on0 listApprovals);
    handle "POST" [Lit "v1"; Lit "approvals"; Wild] (on1 approvalColonRoute);
    handle "POST" [Lit "v1"; Lit "contracts:validate"] (on0 validateContract);
    handle "GET" [Lit "v1"; Lit "runners"] (on0 listRunners);
    handle "POST" [Lit "v1"; Lit "runners"; Wild] (on1 runnerColonRoute);
    handle "POST" [Lit "v1"; Lit "release-runs:plan"] (on0 (λ r, deprecationHeaders "/v1/plans" (planRelease r)));
    handle "POST" [Lit "v1"; Lit "release-runs"; Wild; Wild] (on2 legacyControl);
    handle "POST" [Lit "v1"; Lit "release-runs"; Wild; Lit "approvals"; Wild; Wild] (on3 legacyApproval) ].

(** A GET pattern also serves HEAD. *)
Definition method_matches (pattern method : string) : bool :=
  bool_decide (pattern = method) || (bool_decide (pattern = "GET") && bool_decide (method = "HEAD")).

Definition route_values (r : Request) (rt : route) : option (list string) :=
  if method_matches (rt_Method rt) (rq_Method r) then match_path (rt_Pattern rt) (rq_Path r) else None.

(** The handler of the mux: the route that matches, else 405 when the path has other methods, else 404. *)
Fixpoint serve_first (r : Request) (l : list route) : option handler :=
  match l with
  | [] => None
  | rt :: l => match route_values r rt with Some values => Some (rt_Serve rt r values) | None => serve_first r l end
  end.

Definition path_known (r : Request) : bool :=
  existsb (λ rt, bool_decide (is_Some (match_path (rt_Pattern rt) (rq_Path r)))) routes.

Definition ServeHTTP (r : Request) : handler :=
  match serve_first r routes with
  | Some h => h
  | None => respond (if path_known r then plain_error 405 "Method Not Allowed" else NotFound)
  end.
End server.

(** ** Properties of the handlers, whatever the control plane answers *)

(** Whoever steers a release or a runner is the principal of the request, with its tenant and roles. *)
Definition authentic (identity : Request → result error Principal) (r : Request) (X : Type) (u : use_case X) : Prop :=
  ∀ actor, actor_of u = Some actor → ∃ p, identity r = Ok p ∧ actor = pc_Subject p ∧
    tenant_of u = Some (pc_TenantID p) ∧ ∀ roles, roles_of u = Some roles → roles = pc_Roles p.

(** At most [n] use cases that steer, on any path. *)
Fixpoint steers {A} (n : nat) (p : client A) : Prop :=
  match p with
  | Return _ => True
  | Ask u k =>
      match actor_of u with
      | None => ∀ x, steers n (k x)
      | Some _ => match n with O => False | S n => ∀ x, steers n (k x) end
      end
  end.

(** On every path the first error that is answered, if any, is what the response reports. *)
Definition reported (errs : list error) (response : option Response) : Prop :=
  match errs with
  | [] => True
  | err :: _ => ∃ rp, response = Some rp ∧ rp_Status rp = error_status err ∧ rp_Body rp = rp_Body (writeError err)
  end.

(** The properties of a handler that do not depend on its answers. *)
Record disciplined (identity : Request → result error Principal) (r : Request) (h : handler) : Prop := {
  disciplined_authentic : every (authentic identity r) h;
  disciplined_once : steers 1 h;
  disciplined_reported : ends_in reported [] h;
}.

Lemma error_status_range err : 400 ≤ error_status err < 500.
Proof. unfold error_status. repeat case_match; lia. Qed.

Section disciplined.
Context (json_error : string → error) (identity : Request → result error Principal) (r : Request).

Lemma disciplined_respond rp : disciplined identity r (respond rp).
Proof. by split. Qed.

(** One use case and its answer. *)
Lemma disciplined_ask {X} (u : use_case X) (k : X → handler) :
  authentic identity r X u →
  (∀ x, ∃ response, k x = Return response ∧ reported (option_list (error_in u x)) response) →
  disciplined identity r (Ask u k).
Proof.
  intros Hu Hk. split.
  - split; [done|]. intros x. by destruct (Hk x) as (? & -> & _).
  - simpl. destruct (actor_of u); intros x; by destruct (Hk x) as (? & -> & _).
  - intros x. by destruct (Hk x) as (? & -> & Hr).
Qed.

Lemma reported_answered {A} (f : A → payload) (x : result error A) :
  ∃ response, answered f x = Return response ∧ reported (option_list (failure x)) response.
Proof. destruct x as [a|err]; eexists; (split; [done|]); [done|]. by eexists. Qed.

(** A principal who steers. *)
Lemma principal_authentic {X} (u : use_case X) p :
  identity r = Ok p → actor_of u = Some (pc_Subject p) → tenant_of u = Some (pc_TenantID p) →
  (∀ roles, roles_of u = Some roles → roles = pc_Roles p) → authentic identity r X u.
Proof. intros Hp Ha Ht Hr actor Hactor. rewrite Ha in Hactor. injection Hactor as <-. by exists p. Qed.

Lemma reader_authentic {X} (u : use_case X) : actor_of u = None → authentic identity r X u.
Proof. intros Hu actor. by rewrite Hu. Qed.

Lemma disciplined_headers successor h : disciplined identity r h → disciplined identity r (deprecationHeaders successor h).
Proof.
  intros [Ha Ho Hr]. unfold deprecationHeaders. split.
  - by apply every_bind.
  - clear -Ho. revert Ho. generalize 1%nat as n. induction h as [a|X u k IH]; intros n; [done|]. simpl.
    destruct (actor_of u); [destruct n|]; try done; intros Hk x; by apply IH.
  - clear -Hr. revert Hr. generalize (@nil error) as errs. induction h as [a|X u k IH]; intros errs; simpl.
    + unfold reported. destruct errs; [done|]. intros (rp & -> & Hs & Hb). by eexists.
    + intros Hk x. by apply IH.
Qed.

Lemma controlRelease_disciplined id action : disciplined identity r (controlRelease identity r id action).
Proof.
  unfold controlRelease, as_principal. destruct (identity r) as [p|] eqn:Hp; [|apply disciplined_respond].
  apply disciplined_ask; [by apply (principal_authentic _ p)|]. intros x. apply reported_answered.
Qed.

Lemma decide_on_disciplined p runID approvalID action :
  identity r = Ok p → disciplined identity r (decide_on p runID approvalID action).
Proof.
  intros Hp. unfold decide_on. destruct (bool_decide (runID = "")); [apply disciplined_respond|].
  destruct (bool_decide (action = "revoke"));
    (apply disciplined_ask; [apply (principal_authentic _ p); try done; by intros ? [= <-]|intros x; apply reported_answered]).
Qed.

Lemma decideApproval_disciplined runID approvalID action :
  disciplined identity r (decideApproval identity r runID approvalID action).
Proof.
  unfold decideApproval, as_principal. destruct (identity r) as [p|] eqn:Hp; [|apply disciplined_respond].
  destruct (bool_decide (runID = "")); [|by apply decide_on_disciplined].
  assert (Hd : ∀ approvals, disciplined identity r (decide_on p (approval_run approvalID approvals) approvalID action))
    by (intros; by apply decide_on_disciplined).
  split.
  - split; [by apply reader_authentic|]. intros [approvals|err]; [apply Hd|done].
  - intros [approvals|err]; [apply Hd|done].
  - intros [approvals|err]; [apply Hd|]. by eexists.
Qed.

Lemma planRelease_disciplined : disciplined identity r (planRelease json_error r).
Proof.
  unfold planRelease. destruct (decodeIntent json_error r) as [intent|]; [|apply disciplined_respond].
  apply disciplined_ask; [by apply reader_authentic|]. intros [plan|]; [apply reported_answered|by eexists].
Qed.

Lemma startRelease_disciplined : disciplined identity r (startRelease json_error r).
Proof.
  unfold startRelease. destruct (decodeIntent json_error r) as [intent|]; [|apply disciplined_respond].
  apply disciplined_ask; [by apply reader_authentic|]. intros [[[run created] [err|]]|]; eexists; (split; [done|]); try done.
  by eexists.
Qed.

Hint Resolve disciplined_respond controlRelease_disciplined decideApproval_disciplined planRelease_disciplined
  startRelease_disciplined disciplined_headers : core.

Lemma routes_disciplined rt values : rt ∈ routes json_error identity → disciplined identity r (rt_Serve rt r values).
Proof.
  intros Hin. unfold routes in Hin. repeat (apply elem_of_cons in Hin as [->|Hin]); [..|by apply elem_of_nil in Hin]; simpl.
  all: unfold on0, on1, on2, on3, healthz, listServices, getPlan, getRelease, getEvents, controlColonRoute, listApprovals,
    approvalColonRoute, validateContract, listRunners, runnerColonRoute, legacyControl, legacyApproval, as_principal.
  all: repeat (case_match; simplify_eq); auto.
  all: apply disciplined_ask; [first [by apply reader_authentic|by eapply principal_authentic]|].
  all: intros x; first [apply reported_answered|by eexists].
Qed.
End disciplined.

Lemma serve_first_route json_error identity r h :
  serve_first r (routes json_error identity) = Some h → ∃ rt values, rt ∈ routes json_error identity ∧
    route_values r rt = Some values ∧ h = rt_Serve rt r values.
Proof.
  generalize (routes json_error identity) as l. induction l as [|rt l IH]; simpl; [done|].
  destruct (route_values r rt) as [values|] eqn:Hv.
  - intros [= <-]. exists rt, values. split; [apply elem_of_cons; by left|done].
  - intros (rt' & values & Hin & ? & ?)%IH. exists rt', values. split; [apply elem_of_cons; by right|done].
Qed.

Lemma ServeHTTP_disciplined json_error identity r : disciplined identity r (ServeHTTP json_error identity r).
Proof.
  unfold ServeHTTP. destruct (serve_first _ _) as [h|] eqn:Hs; [|apply disciplined_respond].
  apply serve_first_route in Hs as (rt & values & Hin & _ & ->). by eapply routes_disciplined.
Qed.

(** C10: whatever the control plane answers, a request steers releases and runners at most once,
    and only as the principal its identity resolves to: the use case carries the principal's subject,
    tenant and roles.  A request without identity steers nothing. *)
Theorem api_steers_as_principal json_error identity r :
  every (authentic identity r) (ServeHTTP json_error identity r) ∧ steers 1 (ServeHTTP json_error identity r).
Proof. by destruct (ServeHTTP_disciplined json_error identity r). Qed.

(** an error that the control plane answers reaches the caller: whatever the route, the
    first error on a path is the one in the response, with the status of its kind, which is one of
    the client errors. *)
Theorem api_reports_errors json_error identity r :
  ends_in (λ errs response, ∀ err rest, errs = err :: rest →
    ∃ rp, response = Some rp ∧ rp_Status rp = error_status err ∧ 400 ≤ rp_Status rp < 500 ∧
      rp_Body rp = PError {| ef_Error := Error err; ef_ReasonCode := default "" (ReasonOf err) |})
    [] (ServeHTTP json_error identity r).
Proof.
  destruct (ServeHTTP_disciplined json_error identity r) as [_ _ Hr]. revert Hr. generalize (@nil error) as errs.
  induction (ServeHTTP json_error identity r) as [a|X u k IH]; intros errs; simpl.
  - unfold reported. intros Hr err rest ->. destruct Hr as (rp & -> & Hs & Hb). exists rp. split; [done|]. split; [done|].
    rewrite Hs. split; [apply error_status_range|done].
  - intros Hk x. by apply IH.
Qed.

(** ** Routes

    No two patterns match one request, so the order of registration does not matter. *)

Definition segments_clash (a b : segment) : bool :=
  match a, b with Lit s, Lit t => bool_decide (s = t) | _, _ => true end.

Fixpoint patterns_clash (p q : list segment) : bool :=
  match p, q with
  | [], [] => true
  | a :: p, b :: q => segments_clash a b && patterns_clash p q
  | _, _ => false
  end.

(** Two methods that one request can match. *)
Definition methods_clash (a b : string) : bool :=
  bool_decide (a = b) || bool_decide (a = "HEAD") || bool_decide (b = "HEAD").

Definition shape (rt : route) : string * list segment := (rt_Method rt, rt_Pattern rt).
Definition shapes_clash (a b : string * list segment) : bool := methods_clash a.1 b.1 && patterns_clash a.2 b.2.

Lemma match_path_clash p q path x y :
  match_path p path = Some x → match_path q path = Some y → patterns_clash p q = true.
Proof.
  revert q path x y. induction p as [|a p IH]; intros [|b q] [|seg path] x y; try done; try (by destruct a); try (by destruct b).
  assert (Hrest : ∀ (c : segment) l z, match_path (c :: l) (seg :: path) = Some z → ∃ z', match_path l path = Some z').
  { intros [s|] l z; simpl; case_bool_decide; try done; [eauto|]. intros (z' & ? & _)%fmap_Some. eauto. }
  intros Hx Hy. simpl. destruct (Hrest _ _ _ Hx) as [x' Hx'], (Hrest _ _ _ Hy) as [y' Hy']. rewrite (IH q path x' y' Hx' Hy').
  destruct a as [s|], b as [t|]; try done. simpl in *. case_bool_decide; [|done]. case_bool_decide; [|done]. subst.
  by rewrite bool_decide_true.
Qed.

Lemma method_matches_clash a b m : method_matches a m = true → method_matches b m = true → methods_clash a b = true.
Proof. unfold method_matches, methods_clash. repeat case_bool_decide; naive_solver. Qed.

Lemma routes_table json_error identity :
  forallb (λ p, forallb (λ q, bool_decide (p.1 = q.1) || negb (shapes_clash p.2 q.2)) (imap pair (shape <$> routes json_error identity)))
    (imap pair (shape <$> routes json_error identity)) = true.
Proof. vm_compute. reflexivity. Qed.

(** Each request has at most one route. *)
Lemma routes_unique json_error identity r i j rt1 rt2 x y :
  routes json_error identity !! i = Some rt1 → routes json_error identity !! j = Some rt2 →
  route_values r rt1 = Some x → route_values r rt2 = Some y → i = j.
Proof.
  intros Hi Hj. unfold route_values.
  destruct (method_matches (rt_Method rt1) (rq_Method r)) eqn:H1, (method_matches (rt_Method rt2) (rq_Method r)) eqn:H2; try done.
  intros Hx Hy. pose proof (match_path_clash _ _ _ _ _ Hx Hy) as Hc. pose proof (method_matches_clash _ _ _ H1 H2) as Hm.
  pose proof (routes_table json_error identity) as Ht. rewrite forallb_forall in Ht.
  assert (Hin : ∀ i rt, routes json_error identity !! i = Some rt → In (i, shape rt) (imap pair (shape <$> routes json_error identity))).
  { intros k rt Hk. apply list_elem_of_In, elem_of_lookup_imap. exists k, (shape rt). split; [done|]. by rewrite list_lookup_fmap, Hk. }
  specialize (Ht _ (Hin _ _ Hi)). rewrite forallb_forall in Ht. specialize (Ht _ (Hin _ _ Hj)). simpl in Ht.
  apply orb_true_iff in Ht as [?%bool_decide_eq_true|Ht%negb_true_iff]; [done|].
  unfold shapes_clash, shape in Ht. simpl in Ht. by rewrite Hm, Hc in Ht.
Qed.

(** ** The API over the application services *)

Section isolation.
Context `{!MapOrder} {S X : Type} `{!DurableStore S, !WorkflowController X}.
Context (now_at : nat → time) (id_at : nat → string) (planner : Planner).
Context (decode_contract : string → result error ServiceContract) (json_error : string → error).
Abbreviation W := (@AppWorld S X).
Abbreviation serve := (run_client (releases (S:=S) (X:=X) now_at id_at planner decode_contract)).

(** What a response may show to a tenant, in the world after the request. *)
Definition payload_shows (tenant : string) (w : W) (body : payload) : Prop :=
  match body with
  | PRun (Some run) => shows tenant w (AnsRun (Ok run))
  | PEvents events => shows tenant w (AnsEvents (Ok events))
  | PPlan plan => shows tenant w (AnsPlan (Ok plan))
  | PApprovals approvals => shows tenant w (AnsApprovals (Ok approvals))
  | PRunners runners => shows tenant w (AnsRunners runners)
  | PRunner runner => shows tenant w (AnsRunner (Ok runner))
  | _ => True
  end.

(** A handler that stays within a tenant. *)
Definition confined (tenant : string) (h : handler) : Prop := ∀ (w w' : W) response,
  serve h w = (w', response) →
  scoped tenant w w' ∧ ∀ rp, response = Some rp → payload_shows tenant w' (rp_Body rp).

Lemma scoped_refl tenant (w : W) : scoped tenant w w.
Proof. apply unmoved_scoped, unmoved_refl. Qed.

Lemma scoped_trans tenant (w1 w2 w3 : W) : scoped tenant w1 w2 → scoped tenant w2 w3 → scoped tenant w1 w3.
Proof.
  intros (Hs1 & (Hr1 & Hf1 & Hk1) & e1 & Ht1 & Ho1) (Hs2 & (Hr2 & Hf2 & Hk2) & e2 & Ht2 & Ho2). split; [by rewrite Hs2|]. split.
  - split; [by rewrite Hr2|]. split; [|auto]. intros key Hkey. by rewrite Hf2, Hf1.
  - exists (e1 ++ e2). rewrite Ht2, Ht1, (assoc_L (++)). split; [done|]. apply Forall_app. split; [done|]. by rewrite Hs1 in Ho2.
Qed.

Lemma confined_respond tenant rp : (∀ w, payload_shows tenant w (rp_Body rp)) → confined tenant (respond rp).
Proof. intros Hrp w w' response [= <- <-]. split; [apply scoped_refl|]. by intros ? [= <-]. Qed.

(** The use cases for a tenant that create nothing. *)
Definition reads_for (tenant : string) {A} (u : use_case A) : Prop :=
  match u with
  | UPlanIntent _ _ | UStartIntent _ _ => False
  | _ => tenant_of u = None ∨ tenant_of u = Some tenant
  end.

(** What the answer of a use case may show. *)
Definition use_shows (tenant : string) (w : W) {A} (u : use_case A) : A → Prop :=
  match u in use_case A return A → Prop with
  | UGetPlan _ _ => λ r, shows tenant w (AnsPlan r)
  | UGet _ _ | UControl _ _ _ _ | UDecideApproval _ _ _ _ _ _ | URevokeApproval _ _ _ _ _ => λ r, shows tenant w (AnsRun r)
  | UEvents _ _ => λ r, shows tenant w (AnsEvents r)
  | UPendingApprovals _ => λ r, shows tenant w (AnsApprovals r)
  | UListRunners _ => λ r, shows tenant w (AnsRunners r)
  | UFreezeRunner _ _ _ => λ r, shows tenant w (AnsRunner r)
  | _ => λ _, True
  end.

(** A use case through the call of Application.v that it is. *)
Lemma through_call {A} tenant (c : tenant_call) (f : A → tenant_answer) (call : ST W A) (w w' : W) x :
  run_tenant_call now_at tenant c = mbind (λ r, mret (f r)) call →
  call w = (w', x) → scoped tenant w w' ∧ shows tenant w' (f x).
Proof. intros Hc Hx. apply (tenant_call_scoped now_at tenant c w w' (f x)). rewrite Hc. unfold mbind, st_bind. by rewrite Hx. Qed.

Lemma releases_scoped tenant {A} (u : use_case A) (w w' : W) x :
  reads_for tenant u → releases now_at id_at planner decode_contract A u w = (w', x) →
  scoped tenant w w' ∧ use_shows tenant w' u x.
Proof.
  destruct u; simpl; intros Ht Hx; try done;
    try (destruct Ht as [Ht|Ht]; [discriminate Ht|injection Ht as ->]);
    try (injection Hx as <- <-; split; [apply scoped_refl|done]).
  - by apply (through_call tenant (TPlan id) AnsPlan _ _ _ _ eq_refl Hx).
  - by apply (through_call tenant (TGet id) AnsRun _ _ _ _ eq_refl Hx).
  - by apply (through_call tenant (TEvents id) AnsEvents _ _ _ _ eq_refl Hx).
  - by apply (through_call tenant (TControl id actor action) AnsRun _ _ _ _ eq_refl Hx).
  - by apply (through_call tenant TApprovals AnsApprovals _ _ _ _ eq_refl Hx).
  - by apply (through_call tenant (TDecide runID approvalID actor roles approve) AnsRun _ _ _ _ eq_refl Hx).
  - by apply (through_call tenant (TRevoke runID approvalID actor roles) AnsRun _ _ _ _ eq_refl Hx).
  - by apply (through_call tenant TRunners AnsRunners _ _ _ _ eq_refl Hx).
  - by apply (through_call tenant (TFreeze id actor) AnsRunner _ _ _ _ eq_refl Hx).
Qed.

(** One use case for the tenant, and what is made of its answer. *)
Lemma confined_use tenant {A} (u : use_case A) (k : A → handler) :
  reads_for tenant u →
  (∀ w x, use_shows tenant w u x →
     ∃ response, k x = Return response ∧ ∀ rp, response = Some rp → payload_shows tenant w (rp_Body rp)) →
  confined tenant (Ask u k).
Proof.
  intros Hu Hk w w' response. simpl. destruct (releases _ _ _ _ A u w) as [w1 x] eqn:H1. intros Hrest.
  destruct (releases_scoped tenant u w w1 x Hu H1) as [Hs Hx].
  destruct (Hk _ _ Hx) as (response' & Hkx & Hshow). rewrite Hkx in Hrest. by injection Hrest as <- <-.
Qed.

(** One use case for the tenant, and a confined rest. *)
Lemma confined_then tenant {A} (u : use_case A) (k : A → handler) :
  reads_for tenant u → (∀ x, confined tenant (k x)) → confined tenant (Ask u k).
Proof.
  intros Hu Hk w w' response. simpl. destruct (releases _ _ _ _ A u w) as [w1 x] eqn:H1. intros Hrest.
  destruct (releases_scoped tenant u w w1 x Hu H1) as [Hs _]. destruct (Hk _ _ _ _ Hrest) as [Hs2 Hshow].
  split; [by eapply scoped_trans|done].
Qed.

(** The answer written out. *)
Lemma confined_answered tenant {A} (u : use_case (result error A)) (f : A → payload) :
  reads_for tenant u → (∀ w a, use_shows tenant w u (Ok a) → payload_shows tenant w (f a)) →
  confined tenant (Ask u (answered f)).
Proof.
  intros Hu Hf. apply confined_use; [done|]. intros s [a|err] Hx; eexists; (split; [done|]); intros rp [= <-]; [by apply Hf|done].
Qed.

Lemma confined_headers tenant successor h : confined tenant h → confined tenant (deprecationHeaders successor h).
Proof.
  intros Hh w w' response Hr. unfold deprecationHeaders in Hr.
  assert (Hbind : ∀ (p : handler) w, serve (mbind (M := client) (λ response, Return (deprecated_response successor <$> response)) p) w =
    let '(w', response) := serve p w in (w', deprecated_response successor <$> response)).
  { clear. induction p as [a|B u k IH]; intros w; [done|]. simpl. destruct (releases _ _ _ _ B u w) as [w1 x]. apply IH. }
  rewrite Hbind in Hr. destruct (serve h w) as [w1 response1] eqn:H1. injection Hr as <- <-.
  destruct (Hh _ _ _ H1) as [Hs Hshow]. split; [done|]. intros rp Hrp. destruct response1 as [rp1|]; [|done].
  injection Hrp as <-. exact (Hshow rp1 eq_refl).
Qed.

Section confined.
Context (identity : Request → result error Principal) (r : Request).
Context (Hidentity : ∀ p, identity r = Ok p → pc_TenantID p = tenantFromRequest r).
Abbreviation tenant := (tenantFromRequest r).

Lemma as_principal_confined k : (∀ p, pc_TenantID p = tenant → confined tenant (k p)) → confined tenant (as_principal identity r k).
Proof.
  intros Hk. pose proof Hidentity as Hp. unfold as_principal. destruct (identity r) as [p|]; [by apply Hk, Hp|by apply confined_respond].
Qed.

Lemma controlRelease_confined id action : confined tenant (controlRelease identity r id action).
Proof. apply as_principal_confined. intros p Hp. apply confined_answered; [right; by rewrite <- Hp|]. by intros s run. Qed.

Lemma decide_on_confined p runID approvalID action : pc_TenantID p = tenant → confined tenant (decide_on p runID approvalID action).
Proof.
  intros Hp. unfold decide_on. destruct (bool_decide (runID = "")); [by apply confined_respond|].
  destruct (bool_decide (action = "revoke")); (apply confined_answered; [right; by rewrite <- Hp|]; by intros s run).
Qed.

Lemma decideApproval_confined runID approvalID action : confined tenant (decideApproval identity r runID approvalID action).
Proof.
  apply as_principal_confined. intros p Hp. destruct (bool_decide (runID = "")); [|by apply decide_on_confined].
  apply confined_then; [right; by rewrite <- Hp|].
  intros [approvals|err]; [by apply decide_on_confined|by apply confined_respond].
Qed.

Lemma freeze_confined id :
  confined tenant (as_principal identity r (λ principal,
    runner ← ask (UFreezeRunner (pc_TenantID principal) id (pc_Subject principal)); answered PRunner runner)).
Proof. apply as_principal_confined. intros p Hp. apply confined_answered; [right; by rewrite <- Hp|]. intros s runner Hr. by apply Hr. Qed.

(** The paths that create a plan or a run. *)
Definition creating_paths : list (list string) := [["v1"; "plans"]; ["v1"; "release-runs"]; ["v1"; "release-runs:plan"]].

Lemma match_literals (l : list string) path values : match_path (Lit <$> l) path = Some values → path = l.
Proof.
  revert path values. induction l as [|x l IH]; intros [|y path] values; simpl; try done.
  case_bool_decide; [|done]. intros H'%IH. by subst.
Qed.

Hint Resolve controlRelease_confined decideApproval_confined freeze_confined confined_headers : core.

Lemma routes_confined rt values :
  rt ∈ routes json_error identity → route_values r rt = Some values → rq_Path r ∉ creating_paths →
  confined tenant (rt_Serve rt r values).
Proof.
  intros Hin Hv Hpath. unfold route_values in Hv. destruct (method_matches _ _); [|done].
  unfold routes in Hin. repeat (apply elem_of_cons in Hin as [->|Hin]); [..|by apply elem_of_nil in Hin];
    cbn [rt_Pattern rt_Serve] in *.
  all: try (exfalso; apply Hpath; first
    [ apply (match_literals ["v1"; "plans"]) in Hv | apply (match_literals ["v1"; "release-runs"]) in Hv
    | apply (match_literals ["v1"; "release-runs:plan"]) in Hv ]; rewrite Hv; set_solver).
  all: clear Hv; unfold on0, on1, on2, on3, healthz, listServices, getPlan, getRelease, getEvents, controlColonRoute, listApprovals,
    approvalColonRoute, validateContract, listRunners, runnerColonRoute, legacyControl, legacyApproval.
  all: repeat (case_match; simplify_eq); auto; try (by apply confined_respond).
  all: first
    [ apply confined_answered; [first [by right|by left]|by intros w0 a0]
    | apply confined_use; [first [by right|by left]|]; intros w0 x Hx; eexists; (split; [done|]); by intros rp [= <-] ].
Qed.

Lemma ServeHTTP_confined : rq_Path r ∉ creating_paths → confined tenant (ServeHTTP json_error identity r).
Proof.
  intros Hpath. unfold ServeHTTP. destruct (serve_first _ _) as [h|] eqn:Hs; [|apply confined_respond; by destruct (path_known _ _ _)].
  apply serve_first_route in Hs as (rt & values & Hin & Hv & ->). by apply routes_confined.
Qed.
End confined.

(** C8: with the identity taken from the headers, a request to any path but those that
    create plans and runs leaves the store as it is, signals only workflows of the runs of the
    tenant its header names, and the response shows only runs, audit events, plans and approvals of that
    tenant and runners as frozen or registered for that tenant.  It freezes runners for that tenant only:
    what any other tenant (names hold no NUL) finds frozen is as before, and the runners that can be shown
    carry the tenant's name when the frozen ones are filed by tenant, which the request preserves. *)
Theorem api_isolation r (w w' : W) response :
  rq_Path r ∉ creating_paths → serve (ServeHTTP json_error HeaderIdentityResolver r) w = (w', response) →
  pw_store w' = pw_store w ∧
  (∃ evs, pw_trace w' = pw_trace w ++ evs ∧ Forall (owned (tenantFromRequest r) (pw_store w)) evs) ∧
  (∀ rp, response = Some rp → payload_shows (tenantFromRequest r) w' (rp_Body rp)) ∧
  pw_runners w' = pw_runners w ∧
  (no_nul (normalized (tenantFromRequest r) "default") = true →
   (∀ other id, no_nul (normalized other "default") = true →
      normalized other "default" ≠ normalized (tenantFromRequest r) "default" →
      pw_frozenRunners w' !! runner_key other id = pw_frozenRunners w !! runner_key other id) ∧
   (filed_by_tenant (pw_frozenRunners w) → filed_by_tenant (pw_frozenRunners w') ∧
      ∀ runner, seen_runner (tenantFromRequest r) w' runner →
        ri_TenantID runner = normalized (tenantFromRequest r) "default")).
Proof.
  intros Hpath Hs. apply ServeHTTP_confined in Hs as [(Hst & Hf & He) Hshow]; [| |done].
  2: { intros p. unfold HeaderIdentityResolver. case_bool_decide; [done|]. by intros [= <-]. }
  do 3 (split; [done|]). split; [apply Hf|]. intros Hnul.
  split; [intros other id Ho Hne; by apply (freezes_for_other (tenantFromRequest r))|].
  intros Hfiled. destruct Hf as (_ & _ & Hkeep). split; [auto|]. intros runner. apply seen_runner_tenant; auto.
Qed.
End isolation.

#[local] Existing Instance canonical_order.
#[local] Existing Instance switch.

(** A request of another tenant to cancel the stored run is refused. *)
Definition foreign_cancel : Request :=
  {| rq_Method := "POST"; rq_Path := ["v1"; "release-runs"; "run:cancel"];
     rq_Header := {[ "X-Actor-ID" := "mallory"; "X-Tenant-ID" := "other" ]}; rq_Body := Ok "" |}.

Definition no_json (text : string) : error := ErrorNew text.
Definition no_contract (data : string) : result error ServiceContract := Err (ErrorNew data).

Definition foreign_cancelled : @AppWorld Memory bool * option Response :=
  run_client (releases plane_clock demo_ids demo_planner no_contract)
    (ServeHTTP no_json HeaderIdentityResolver foreign_cancel) plane_stored.

Lemma api_isolation_witness :
  (rp_Status <$> snd foreign_cancelled) = Some 403 ∧ pw_store (fst foreign_cancelled) = pw_store plane_stored.
Proof.
  split; [vm_compute; reflexivity|].
  apply (api_isolation plane_clock demo_ids demo_planner no_contract no_json foreign_cancel plane_stored
    (fst foreign_cancelled) (snd foreign_cancelled)); [vm_compute; set_solver|apply surjective_pairing].
Defined.
