(* ===== verification/Cli.v ===== *)
(** * The command line client (src/cmd/themisyctl/main.go)

    Each command is one request to the HTTP API.  [run] is modelled from the parsed flags on, over the
    outgoing HTTP of Http.v.  Its requests are followed into the server of Api.v: what the mux hands to
    the handlers is the path cut at its slashes, with each part unescaped.

    Parameters: reading files, the error of a URL that does not parse ([url_error]) and the indentation
    of the answer ([pretty], which fails on an answer that is no JSON). *)
From S2P Require Import Prelude GoStd Sha256 Json Rfc3339 JsonDecode Http Domain Contract Planner Store Runner Engine Durable Application ControlPlane Api.
From Stdlib Require Import Ascii.
Open Scope Z_scope.

(** [client], with the flags in place. *)
Record CLI := {
  cl_baseURL : string;
  cl_tenant : string;
  cl_actor : string;
  cl_roles : string;
}.

(** [strings.TrimRight(server, "/")] *)
Fixpoint drop_slashes (s : string) : string :=
  match s with
  | String c r => match drop_slashes r with EmptyString => if Ascii.eqb c "/" then EmptyString else String c EmptyString | t => String c t end
  | EmptyString => EmptyString
  end.

(** The client of [run]: the flags, which default to the environment. *)
Definition new_client (server tenant actor roles : string) : CLI :=
  {| cl_baseURL := drop_slashes server; cl_tenant := tenant; cl_actor := actor; cl_roles := roles |}.

(** [requiresOneArgument] *)
Definition requiresOneArgument (command : string) : bool :=
  bool_decide (command ∈ ["plan"; "get-plan"; "start"; "status"; "events"; "pause"; "resume"; "cancel"; "approve"; "deny"; "revoke";
                          "freeze-runner"; "validate-contract"]).

(** The switch of [run]: method, path, whether the body is the file that the argument names, and whether the
    command needs an actor. *)
Record api_call := {
  ac_Method : string;
  ac_Path : string;
  ac_File : bool;
  ac_Authenticated : bool;
}.

Definition GET (path : string) : api_call := {| ac_Method := "GET"; ac_Path := path; ac_File := false; ac_Authenticated := false |}.
Definition POST_file (path : string) : api_call := {| ac_Method := "POST"; ac_Path := path; ac_File := true; ac_Authenticated := false |}.
Definition POST_as (path : string) : api_call := {| ac_Method := "POST"; ac_Path := path; ac_File := false; ac_Authenticated := true |}.

Definition command_call (command value : string) : option api_call :=
  if bool_decide (command = "services") then Some (GET "/v1/services")
  else if bool_decide (command = "plan") then Some (POST_file "/v1/plans")
  else if bool_decide (command = "get-plan") then Some (GET ("/v1/plans/" +:+ PathEscape value))
  else if bool_decide (command = "start") then Some (POST_file "/v1/release-runs")
  else if bool_decide (command = "status") then Some (GET ("/v1/release-runs/" +:+ PathEscape value))
  else if bool_decide (command = "events") then Some (GET ("/v1/release-runs/" +:+ PathEscape value +:+ "/events"))
  else if bool_decide (command ∈ ["pause"; "resume"; "cancel"]) then Some (POST_as ("/v1/release-runs/" +:+ PathEscape value +:+ ":" +:+ command))
  else if bool_decide (command = "approvals") then Some (GET "/v1/approvals")
  else if bool_decide (command ∈ ["approve"; "deny"; "revoke"]) then Some (POST_as ("/v1/approvals/" +:+ PathEscape value +:+ ":" +:+ command))
  else if bool_decide (command = "runners") then Some (GET "/v1/runners")
  else if bool_decide (command = "freeze-runner") then Some (POST_as ("/v1/runners/" +:+ PathEscape value +:+ ":freeze"))
  else if bool_decide (command = "validate-contract") then Some (POST_file "/v1/contracts:validate")
  else None.

(** The request of [client.request]. *)
Definition cli_request (c : CLI) (call : api_call) (body : string) : HTTPRequest :=
  {| hq_Method := ac_Method call; hq_URL := cl_baseURL c +:+ ac_Path call;
     hq_Header := [("Accept", "application/json"); ("X-Tenant-ID", cl_tenant c)] ++
       (if bool_decide (body = "") then [] else [("Content-Type", "application/json")]) ++
       (if ac_Authenticated call then [("X-Actor-ID", cl_actor c); ("X-Actor-Roles", cl_roles c)] else []);
     hq_Body := body |}.

Section cli.
Context {X : Type} (client : HTTPDoer X).
Context (ReadFile : string → result error string) (url_error : string → option error) (status_text : Z → string).
Context (broken : error) (pretty : string → result error string).
Abbreviation W := (HTTPWorld X).

(** [client.request] *)
Definition cli_send (c : CLI) (call : api_call) (body : string) : ST W (result error string) :=
  match url_error (cl_baseURL c +:+ ac_Path call) with
  | Some err => mret (Err err)
  | None =>
      if ac_Authenticated call && bool_decide (TrimSpace (cl_actor c) = "")
      then mret (Err (ErrorNew "-actor or THEMISY_ACTOR_ID is required for this command"))
      else
        response ← http_Do client (cli_request c call body);
        mret match response with
             | Err err => Err err
             | Ok response =>
                 let data := limited (2 ^ 22) (hp_Body response) in
                 if hb_Broken data then Err broken
                 else if (hp_StatusCode response <? 200) || (300 <=? hp_StatusCode response)
                 then Err (Errorf ("Themisy control plane returned " +:+ status_text (hp_StatusCode response) +:+ ": " +:+
                                   TrimSpace (hb_Data data)) None)
                 else Ok (hb_Data data)
             end
  end.

(** [client.fileRequest] *)
Definition cli_call (c : CLI) (call : api_call) (value : string) : ST W (result error string) :=
  if ac_File call then
    match ReadFile value with
    | Err err => mret (Err (Errorf ("read " +:+ value +:+ ": " +:+ Error err) (Some err)))
    | Ok data => cli_send c call data
    end
  else cli_send c call "".

(** [run], after the flags; the result is what is written to the standard output. *)
Definition cli_run (c : CLI) (args : list string) : ST W (result error string) :=
  match args with
  | [] => mret (Err (ErrorNew "command is required: services, plan, get-plan, start, status, events, pause, resume, cancel, approvals, approve, deny, revoke, runners, freeze-runner, validate-contract"))
  | command :: values =>
      if requiresOneArgument command && negb (bool_decide (length values = 1%nat))
      then mret (Err (Errorf (command +:+ " requires exactly one argument") None))
      else match command_call command (default "" (head values)) with
           | None => mret (Err (Errorf ("unknown command " +:+ quote command) None))
           | Some call =>
               data ← cli_call c call (default "" (head values));
               mret (match data with Err err => Err err | Ok data => pretty data end)
           end
  end.
End cli.

(** ** What the server receives *)

(** [url.PathUnescape] *)
Fixpoint PathUnescape (s : string) : option string :=
  match s with
  | EmptyString => Some EmptyString
  | String c r =>
      if Ascii.eqb c "%" then
        match r with
        | String a (String b r') =>
            hi ← hex_value a; lo ← hex_value b; rest ← PathUnescape r'; Some (String (ascii_of_N (hi * 16 + lo)) rest)
        | _ => None
        end
      else rest ← PathUnescape r; Some (String c rest)
  end.

(** The request as the mux hands it to the handlers; a path with a query, a fragment, or an empty or dot segment is
    served otherwise. *)
Definition received (base : string) (q : HTTPRequest) : option Request :=
  path ← strip base (hq_URL q);
  path ← strip "/" path;
  if string_forall (λ c, negb (Ascii.eqb c "?") && negb (Ascii.eqb c "#")) path then
    segments ← mapM PathUnescape (Split path "/"%char);
    if forallb (λ s, negb (bool_decide (s ∈ [""; "."; ".."]))) segments
    then Some {| rq_Method := hq_Method q; rq_Path := segments; rq_Header := list_to_map (hq_Header q); rq_Body := Ok (hq_Body q) |}
    else None
  else None.

(** *** Escaping *)

Definition path_char (c : ascii) : bool := unreserved c || bool_decide (c ∈ ["$"; "&"; "+"; "="; ":"; "@"]%char).

(** Of each byte: its escape is read back as the byte, and holds none of the bytes that end a segment. *)
Definition segment_char (c : ascii) : bool := negb (Ascii.eqb c "/") && (negb (Ascii.eqb c "?") && negb (Ascii.eqb c "#")).
Definition escape_char (c : ascii) : string :=
  if path_char c then String c EmptyString else if Ascii.eqb c " " then "%20" else percent c.

Lemma PathEscape_cons c s : PathEscape (String c s) = escape_char c +:+ PathEscape s.
Proof. done. Qed.

Lemma all_bytes (p : ascii → bool) : forallb p (ascii_of_nat <$> seq 0 256) = true → ∀ c, p c = true.
Proof.
  intros Hall c. rewrite forallb_forall in Hall. apply Hall. rewrite <- list_elem_of_In. apply list_elem_of_fmap.
  exists (nat_of_ascii c). rewrite ascii_nat_embedding. split; [done|]. apply elem_of_seq.
  pose proof (nat_ascii_bounded c). lia.
Qed.

Lemma escape_char_kept c : string_forall segment_char (escape_char c) = true.
Proof. revert c. apply all_bytes. by vm_compute. Qed.

(** A byte that stays is not the percent sign; another becomes three bytes. *)
Definition escapes_well (c : ascii) : bool :=
  match escape_char c with
  | String d EmptyString => Ascii.eqb d c && negb (Ascii.eqb d "%")
  | String p (String a (String b EmptyString)) =>
      Ascii.eqb p "%" && match hex_value a, hex_value b with Some hi, Some lo => Ascii.eqb (ascii_of_N (hi * 16 + lo)) c | _, _ => false end
  | _ => false
  end.
Lemma escape_char_well c : escapes_well c = true.
Proof. revert c. apply all_bytes. by vm_compute. Qed.

Lemma PathUnescape_char c s : PathUnescape (escape_char c +:+ s) = String c <$> PathUnescape s.
Proof.
  pose proof (escape_char_well c) as Hc. unfold escapes_well in Hc.
  destruct (escape_char c) as [|p [|a [|b [|]]]]; try discriminate Hc.
  - apply andb_prop in Hc as [->%Ascii.eqb_eq Hp%negb_true_iff]. rewrite app_cons. cbn [PathUnescape]. rewrite Hp. done.
  - apply andb_prop in Hc as [Hp Hc]. rewrite !app_cons. cbn [PathUnescape]. rewrite Hp.
    destruct (hex_value a) as [hi|], (hex_value b) as [lo|]; try discriminate Hc. apply Ascii.eqb_eq in Hc. cbn [mbind option_bind].
    rewrite Hc. done.
Qed.

Lemma PathUnescape_app s t : PathUnescape (PathEscape s +:+ t) = (λ t, s +:+ t) <$> PathUnescape t.
Proof.
  induction s as [|c s IH].
  - change (PathEscape "" +:+ t) with t. by destruct (PathUnescape t).
  - rewrite PathEscape_cons, <- app_assoc_string, PathUnescape_char, IH. by destruct (PathUnescape t).
Qed.

(** [url.PathUnescape] undoes [url.PathEscape]. *)
Lemma PathUnescape_Escape s : PathUnescape (PathEscape s) = Some s.
Proof. rewrite <- (app_empty_r (PathEscape s)), PathUnescape_app. simpl. by rewrite app_empty_r. Qed.

Lemma PathEscape_kept s : string_forall segment_char (PathEscape s) = true.
Proof.
  induction s as [|c s IH]; [done|]. by rewrite PathEscape_cons, string_forall_app, escape_char_kept, IH.
Qed.

(** *** Requests *)

(** A segment of a path as it is sent and as it arrives. *)
Record carried (sent arrived : string) : Prop := {
  carried_kept : string_forall segment_char sent = true;
  carried_value : PathUnescape sent = Some arrived;
  carried_plain : arrived ∉ [""; "."; ".."];
}.

Lemma segment_lacks s : string_forall segment_char s = true → lacks "/" s = true.
Proof. apply string_forall_impl. unfold segment_char. by intros c [? _]%andb_prop. Qed.

Lemma segment_no_query s :
  string_forall segment_char s = true → string_forall (λ c, negb (Ascii.eqb c "?") && negb (Ascii.eqb c "#")) s = true.
Proof. apply string_forall_impl. unfold segment_char. by intros c [_ ?]%andb_prop. Qed.

Lemma Split_Join l : l ≠ [] → Forall (λ s, lacks "/" s = true) l → Split (Join l "/") "/" = l.
Proof.
  induction l as [|s [|t l] IH]; intros ? Hl; [done| |].
  - apply Split_lacks. by inversion Hl.
  - apply Forall_cons in Hl as [Hs Hl]. change (Join (s :: t :: l) "/") with (s +:+ "/" +:+ Join (t :: l) "/").
    rewrite (Split_sep "/") by done. by rewrite IH.
Qed.

Lemma Join_no_query l : Forall (λ s, string_forall segment_char s = true) l →
  string_forall (λ c, negb (Ascii.eqb c "?") && negb (Ascii.eqb c "#")) (Join l "/") = true.
Proof.
  induction l as [|s [|t l] IH]; intros Hl; [done| |].
  - apply segment_no_query. by inversion Hl.
  - apply Forall_cons in Hl as [Hs Hl]. change (Join (s :: t :: l) "/") with (s +:+ "/" +:+ Join (t :: l) "/").
    rewrite !string_forall_app. rewrite segment_no_query by done. by rewrite IH.
Qed.

Lemma received_segments base q path segments :
  hq_URL q = base +:+ "/" +:+ Join path "/" → path ≠ [] → Forall2 carried path segments →
  received base q = Some {| rq_Method := hq_Method q; rq_Path := segments; rq_Header := list_to_map (hq_Header q); rq_Body := Ok (hq_Body q) |}.
Proof.
  intros Hurl Hne Hc. unfold received. rewrite Hurl, strip_app. cbn [mbind option_bind]. rewrite (strip_app "/"). cbn [mbind option_bind].
  assert (Hk : Forall (λ s, string_forall segment_char s = true) path).
  { clear -Hc. induction Hc as [|s t l k [] _ IH]; by constructor. }
  rewrite Join_no_query by done. rewrite Split_Join by (done || exact (Forall_impl _ _ _ Hk segment_lacks)).
  assert (Hm : mapM PathUnescape path = Some segments).
  { apply mapM_Some. clear -Hc. induction Hc as [|s t l k [] _ IH]; by constructor. }
  rewrite Hm. cbn [mbind option_bind]. replace (forallb _ segments) with true; [done|].
  symmetry. apply forallb_forall. intros s [i Hi]%list_elem_of_In%list_elem_of_lookup.
  destruct (Forall2_lookup_r _ _ _ _ _ Hc Hi) as (t & _ & []). by rewrite bool_decide_eq_false_2.
Qed.

Lemma carried_id value : value ∉ [""; "."; ".."] → carried (PathEscape value) value.
Proof. intros Hv. split; [apply PathEscape_kept|apply PathUnescape_Escape|done]. Qed.

(** An operation that is appended to an id. *)
Lemma carried_operation value operation :
  value ≠ "" → string_forall unreserved operation = true → carried (PathEscape value +:+ ":" +:+ operation) (value +:+ ":" +:+ operation).
Proof.
  intros Hv Ho. assert (He : ":" +:+ operation = PathEscape (":" +:+ operation)).
  { change (":" +:+ operation = ":" +:+ PathEscape operation). by rewrite PathEscape_id. }
  split.
  - rewrite He, string_forall_app, !PathEscape_kept. done.
  - rewrite PathUnescape_app, He at 1. by rewrite PathUnescape_Escape.
  - destruct value as [|a [|b [|c value]]]; [done|..]; rewrite !app_cons;
      try change ("" +:+ ":" +:+ operation) with (String ":" operation); set_solver.
Qed.

Lemma carried_literal s : string_forall unreserved s = true → s ∉ [""; "."; ".."] → carried s s.
Proof. intros Hs. rewrite <- (PathEscape_id s Hs) at 2. apply carried_id. Qed.

(** The principal that the server makes of the client's headers. *)
Definition cli_tenant (c : CLI) : string := if bool_decide (TrimSpace (cl_tenant c) = "") then "default" else TrimSpace (cl_tenant c).
Definition cli_principal (c : CLI) : Principal :=
  {| pc_Subject := TrimSpace (cl_actor c); pc_TenantID := cli_tenant c; pc_Roles := splitHeader (cl_roles c) |}.

Section reaches.
Context {X : Type} (client : HTTPDoer X).
Context (ReadFile : string → result error string) (url_error : string → option error) (status_text : Z → string).
Context (broken : error) (pretty : string → result error string) (json_error : string → error).
Abbreviation run_cli := (cli_run client ReadFile url_error status_text broken pretty).
Abbreviation serve_request := (ServeHTTP json_error HeaderIdentityResolver).

(** The command with this argument sends one request, which the server serves with this handler; the URL of the
    server is one that [http.NewRequest] accepts. *)
Definition arrives (c : CLI) (command value : string) (h : handler) : Prop :=
  ∀ call, command_call command value = Some call → url_error (cl_baseURL c +:+ ac_Path call) = None →
  ∃ q r, (∀ w, hw_sent (run_cli c [command; value] w).1 = hw_sent w ++ [q]) ∧
         received (cl_baseURL c) q = Some r ∧ serve_request r = h.

Lemma cli_send_sent c call body w :
  url_error (cl_baseURL c +:+ ac_Path call) = None → ac_Authenticated call && bool_decide (TrimSpace (cl_actor c) = "") = false →
  hw_sent (cli_send client url_error status_text broken c call body w).1 = hw_sent w ++ [cli_request c call body].
Proof.
  intros Hu Ha. unfold cli_send. rewrite Hu, Ha. unfold mbind, st_bind, http_Do.
  by destruct (client (cli_request c call body) (hw_net w)) as [x [response|err]].
Qed.

Lemma cli_run_sent c command value call w :
  requiresOneArgument command = true → command_call command value = Some call → ac_File call = false →
  hw_sent (run_cli c [command; value] w).1 = hw_sent (cli_send client url_error status_text broken c call "" w).1.
Proof.
  intros Hr Hc Hf. unfold cli_run. rewrite Hr. cbn [length head default andb negb]. rewrite bool_decide_eq_true_2 by done. cbn [negb].
  cbn [from_option id]. rewrite Hc. unfold cli_call. rewrite Hf. unfold mbind, st_bind.
  by destruct (cli_send _ _ _ _ _ _ _ _).
Qed.

(** What is left to show of a command: the segments of its path, and the handler that they select. *)
Lemma arrives_intro c command value call path segments h :
  requiresOneArgument command = true → command_call command value = Some call → ac_File call = false →
  ac_Authenticated call && bool_decide (TrimSpace (cl_actor c) = "") = false →
  ac_Path call = "/" +:+ Join path "/" → path ≠ [] → Forall2 carried path segments →
  serve_request {| rq_Method := ac_Method call; rq_Path := segments; rq_Header := list_to_map (hq_Header (cli_request c call ""));
                   rq_Body := Ok "" |} = h →
  arrives c command value h.
Proof.
  intros Hr Hc Hf Ha Hp Hne Hs Hh call' Hc' Hu. rewrite Hc in Hc'. injection Hc' as <-.
  eexists (cli_request c call ""), _. split; [|split; [|exact Hh]].
  - intros w. by rewrite (cli_run_sent c command value call), cli_send_sent.
  - refine (received_segments (cl_baseURL c) (cli_request c call "") path segments _ Hne Hs). cbn [hq_URL cli_request]. by rewrite Hp.
Qed.

(** *** Routing *)

(** The headers of [cli_request] are distinct, so that each arrives. *)
Lemma header_arrives c call body m path data :
  let r := {| rq_Method := m; rq_Path := path; rq_Header := list_to_map (hq_Header (cli_request c call body)); rq_Body := data |} in
  header r "X-Tenant-ID" = cl_tenant c ∧
  (ac_Authenticated call = true → header r "X-Actor-ID" = cl_actor c ∧ header r "X-Actor-Roles" = cl_roles c).
Proof.
  unfold header, get, cli_request. cbn [rq_Header hq_Header].
  assert (∀ k v, (k, v) ∈ hq_Header (cli_request c call body) →
            (list_to_map (hq_Header (cli_request c call body)) : gmap string string) !! k = Some v) as Hl.
  { intros k v Hk. apply elem_of_list_to_map; [|done]. unfold cli_request. cbn [hq_Header].
    destruct (bool_decide (body = "")), (ac_Authenticated call); cbn [app fmap list_fmap fst]; compute_done. }
  unfold cli_request in Hl. cbn [hq_Header] in Hl. split; [|intros Ha; rewrite Ha in *; split].
  all: erewrite Hl; [done|]; destruct (bool_decide (body = "")); set_solver.
Qed.

Lemma tenant_arrives c call body m path data :
  tenantFromRequest {| rq_Method := m; rq_Path := path; rq_Header := list_to_map (hq_Header (cli_request c call body)); rq_Body := data |} =
  cli_tenant c.
Proof.
  unfold tenantFromRequest. destruct (header_arrives c call body m path data) as [-> _]. done.
Qed.


Lemma identity_arrives c call body m path data :
  ac_Authenticated call = true → TrimSpace (cl_actor c) ≠ "" →
  HeaderIdentityResolver {| rq_Method := m; rq_Path := path; rq_Header := list_to_map (hq_Header (cli_request c call body)); rq_Body := data |} =
  Ok (cli_principal c).
Proof.
  intros Ha Hs. unfold HeaderIdentityResolver. rewrite tenant_arrives.
  destruct (header_arrives c call body m path data) as [_ Hh]. destruct (Hh Ha) as [-> ->]. by rewrite bool_decide_eq_false_2.
Qed.

Ltac route Hm Hp Hv :=
  unfold ServeHTTP, routes; cbn [serve_first rt_Method rt_Pattern rt_Serve]; unfold route_values, method_matches;
  cbn [rt_Method rt_Pattern rt_Serve]; rewrite Hm, Hp; cbn [match_path]; rewrite ?(bool_decide_eq_false_2 _ Hv); reflexivity.

Section route.
Context (r : Request) (x : string).
Hypothesis Hx : x ≠ "".

Lemma serve_get_plan : rq_Method r = "GET" → rq_Path r = ["v1"; "plans"; x] → serve_request r = getPlan r x.
Proof. intros Hm Hp. route Hm Hp Hx. Qed.
Lemma serve_status : rq_Method r = "GET" → rq_Path r = ["v1"; "release-runs"; x] → serve_request r = getRelease r x.
Proof. intros Hm Hp. route Hm Hp Hx. Qed.
Lemma serve_events : rq_Method r = "GET" → rq_Path r = ["v1"; "release-runs"; x; "events"] → serve_request r = getEvents r x.
Proof. intros Hm Hp. route Hm Hp Hx. Qed.
Lemma serve_control :
  rq_Method r = "POST" → rq_Path r = ["v1"; "release-runs"; x] → serve_request r = controlColonRoute HeaderIdentityResolver r x.
Proof. intros Hm Hp. route Hm Hp Hx. Qed.
Lemma serve_approval :
  rq_Method r = "POST" → rq_Path r = ["v1"; "approvals"; x] → serve_request r = approvalColonRoute HeaderIdentityResolver r x.
Proof. intros Hm Hp. route Hm Hp Hx. Qed.
Lemma serve_runner :
  rq_Method r = "POST" → rq_Path r = ["v1"; "runners"; x] → serve_request r = runnerColonRoute HeaderIdentityResolver r x.
Proof. intros Hm Hp. route Hm Hp Hx. Qed.
End route.

(** *** Commands *)

Lemma splitOperation_of id operation allowed :
  id ≠ "" → lacks ":" id = true → operation ∈ allowed → splitOperation (id +:+ ":" +:+ operation) allowed = Some (id, operation).
Proof.
  intros Hid Hl Ho. unfold splitOperation. rewrite (Cut_sep ":") by done. cbn [negb orb].
  by rewrite bool_decide_eq_false_2, bool_decide_eq_true_2.
Qed.

Lemma operation_some (id operation : string) : id +:+ ":" +:+ operation ≠ "".
Proof. by destruct id. Qed.

(** The words of the API's paths. *)
Lemma carried_words : Forall (λ s, carried s s) ["v1"; "plans"; "release-runs"; "approvals"; "runners"; "events"].
Proof. repeat constructor; (apply carried_literal || idtac); set_solver. Qed.

Ltac words := repeat (constructor; [first [apply (proj1 (Forall_forall _ _) carried_words); set_solver | done]|]); try constructor.

Section command.
Context (c : CLI) (value : string).
Hypothesis Hvalue : value ∉ [""; "."; ".."].

Lemma value_some : value ≠ "".
Proof. intros ->. set_solver. Qed.

Lemma get_plan_arrives : arrives c "get-plan" value (plan ← ask (UGetPlan (cli_tenant c) value); answered PPlan plan).
Proof.
  pose proof (carried_id value Hvalue) as Hc.
  eapply (arrives_intro _ _ _ _ ["v1"; "plans"; PathEscape value] ["v1"; "plans"; value]); try reflexivity; [done|words|].
  rewrite (serve_get_plan _ value) by (done || apply value_some). unfold getPlan. by rewrite tenant_arrives.
Qed.

Lemma status_arrives :
  arrives c "status" value (run ← ask (UGet (cli_tenant c) value); answered (λ run, PRun (Some run)) run).
Proof.
  pose proof (carried_id value Hvalue) as Hc.
  eapply (arrives_intro _ _ _ _ ["v1"; "release-runs"; PathEscape value] ["v1"; "release-runs"; value]); try reflexivity; [done|words|].
  rewrite (serve_status _ value) by (done || apply value_some). unfold getRelease. by rewrite tenant_arrives.
Qed.

Lemma events_arrives :
  arrives c "events" value (events ← ask (UEvents (cli_tenant c) value); answered PEvents events).
Proof.
  pose proof (carried_id value Hvalue) as Hc.
  eapply (arrives_intro _ _ _ _ ["v1"; "release-runs"; PathEscape value; "events"] ["v1"; "release-runs"; value; "events"]);
    try reflexivity; [done|words|].
  rewrite (serve_events _ value) by (done || apply value_some). unfold getEvents. by rewrite tenant_arrives.
Qed.

(** **** Operations *)

Hypothesis Hactor : TrimSpace (cl_actor c) ≠ "".
Hypothesis Hcolon : lacks ":" value = true.

Lemma operation_arrives command noun operation h :
  noun ∈ ["release-runs"; "approvals"; "runners"] → requiresOneArgument command = true → string_forall unreserved operation = true →
  command_call command value = Some (POST_as (("/v1/" +:+ noun +:+ "/") +:+ PathEscape value +:+ ":" +:+ operation)) →
  (∀ r, rq_Method r = "POST" → rq_Path r = ["v1"; noun; value +:+ ":" +:+ operation] →
        HeaderIdentityResolver r = Ok (cli_principal c) → serve_request r = h) →
  arrives c command value h.
Proof.
  intros Hn Hone Ho Hcall Hserve. pose proof (carried_operation _ _ value_some Ho) as Hc.
  eapply (arrives_intro _ _ _ _ ["v1"; noun; PathEscape value +:+ ":" +:+ operation] ["v1"; noun; value +:+ ":" +:+ operation]);
    [exact Hone|exact Hcall|reflexivity| | |done|words|].
  - by rewrite bool_decide_eq_false_2.
  - cbn [ac_Path POST_as]. set_unfold in Hn. by destruct_or! Hn; subst noun.
  - apply Hserve; [done..|]. by apply identity_arrives.
Qed.

Lemma control_arrives action : action ∈ ["pause"; "resume"; "cancel"] →
  arrives c action value
    (run ← ask (UControl (cli_tenant c) value (TrimSpace (cl_actor c)) action); answered (λ run, PRun (Some run)) run).
Proof.
  intros Ha. apply (operation_arrives action "release-runs" action); [set_solver| | | |].
  1-3: by set_unfold in Ha; destruct_or! Ha; subst action.
  intros r Hm Hp Hi. rewrite (serve_control r (value +:+ ":" +:+ action)) by (done || apply operation_some).
  unfold controlColonRoute. rewrite splitOperation_of by (done || apply value_some).
  unfold controlRelease, as_principal. by rewrite Hi.
Qed.

(** A decision on the pending approval with this id, as the principal of the headers. *)
Definition decision (action : string) : handler :=
  approvals ← ask (UPendingApprovals (cli_tenant c));
  match approvals with
  | Err err => respond (writeError err)
  | Ok approvals => decide_on (cli_principal c) (approval_run value approvals) value action
  end.

Lemma decision_arrives action : action ∈ ["approve"; "deny"; "revoke"] → arrives c action value (decision action).
Proof.
  intros Ha. apply (operation_arrives action "approvals" action); [set_solver| | | |].
  1-3: by set_unfold in Ha; destruct_or! Ha; subst action.
  intros r Hm Hp Hi. rewrite (serve_approval r (value +:+ ":" +:+ action)) by (done || apply operation_some).
  unfold approvalColonRoute. rewrite splitOperation_of by (done || apply value_some).
  unfold decideApproval, as_principal. by rewrite Hi.
Qed.

Lemma freeze_arrives :
  arrives c "freeze-runner" value
    (runner ← ask (UFreezeRunner (cli_tenant c) value (TrimSpace (cl_actor c))); answered PRunner runner).
Proof.
  apply (operation_arrives "freeze-runner" "runners" "freeze"); [set_solver|done..|].
  intros r Hm Hp Hi. rewrite (serve_runner r (value +:+ ":" +:+ "freeze")) by (done || apply operation_some).
  unfold runnerColonRoute. rewrite splitOperation_of by (done || apply value_some || set_solver).
  rewrite bool_decide_eq_true_2 by done. cbn [negb]. unfold as_principal. by rewrite Hi.
Qed.
End command.

(** Without an actor, an operation is refused before a request is sent. *)
Lemma cli_needs_actor c command value call w :
  requiresOneArgument command = true → command_call command value = Some call → ac_Authenticated call = true →
  TrimSpace (cl_actor c) = "" → hw_sent (run_cli c [command; value] w).1 = hw_sent w.
Proof.
  intros Hone Hc Ha Hs. rewrite (cli_run_sent c command value call) by (done || by unfold command_call in Hc; repeat case_bool_decide; simplify_eq).
  unfold cli_send. rewrite Ha, (bool_decide_eq_true_2 _ Hs). by destruct (url_error _).
Qed.

(** C37: each command of the client that names an id other than the empty one, "." and ".." reaches the use case it is
    for.  The request that [run] sends is served as the read of that plan, run or event list for the tenant of the
    flags, and, for an actor that is not blank and an id without a colon, as the pause, resume or cancel of that run,
    the decision on that approval, or the freeze of that runner, by the principal of the flags: whatever other bytes
    the id holds, escaping carries it to the handler unchanged. *)
Theorem cli_reaches_use_case c value :
  value ∉ [""; "."; ".."] →
  arrives c "get-plan" value (plan ← ask (UGetPlan (cli_tenant c) value); answered PPlan plan) ∧
  arrives c "status" value (run ← ask (UGet (cli_tenant c) value); answered (λ run, PRun (Some run)) run) ∧
  arrives c "events" value (events ← ask (UEvents (cli_tenant c) value); answered PEvents events) ∧
  (TrimSpace (cl_actor c) ≠ "" → lacks ":" value = true →
   (∀ action, action ∈ ["pause"; "resume"; "cancel"] →
      arrives c action value
        (run ← ask (UControl (cli_tenant c) value (TrimSpace (cl_actor c)) action); answered (λ run, PRun (Some run)) run)) ∧
   (∀ action, action ∈ ["approve"; "deny"; "revoke"] → arrives c action value (decision c value action)) ∧
   arrives c "freeze-runner" value
     (runner ← ask (UFreezeRunner (cli_tenant c) value (TrimSpace (cl_actor c))); answered PRunner runner)).
Proof.
  intros Hv. split_and!; [by apply get_plan_arrives|by apply status_arrives|by apply events_arrives|].
  intros Ha Hl. split_and!; [intros; by apply control_arrives|intros; by apply decision_arrives|by apply freeze_arrives].
Qed.
End reaches.

(** *** Examples *)

Definition operator_client : CLI := new_client "http://localhost:8080/" "tenant-a" "alice" "approver, operator".
Definition silent : HTTPDoer unit := λ _ x, (x, Ok {| hp_StatusCode := 200; hp_Body := {| hb_Data := "{}"; hb_Broken := false |} |}).
Definition no_file (name : string) : result error string := Err (ErrorNew name).
Definition any_url (u : string) : option error := None.
Definition code_text (status : Z) : string := itoa status.
Definition idle : HTTPWorld unit := {| hw_net := (); hw_ticks := 0; hw_sent := [] |}.

(** An id with a slash and a space. *)
Lemma cli_reaches_use_case_witness :
  ("run/1 a" ∉ [""; "."; ".."]) ∧
  hw_sent (cli_run silent no_file any_url code_text (ErrorNew "eof") Ok operator_client ["pause"; "run/1 a"] idle).1 =
    [cli_request operator_client (POST_as "/v1/release-runs/run%2F1%20a:pause") ""] ∧
  arrives silent no_file any_url code_text (ErrorNew "eof") Ok no_json operator_client "pause" "run/1 a"
    (run ← ask (UControl "tenant-a" "run/1 a" "alice" "pause"); answered (λ run, PRun (Some run)) run).
Proof.
  assert (H : "run/1 a" ∉ [""; "."; ".."]) by set_solver. split; [exact H|]. split; [by vm_compute|].
  destruct (cli_reaches_use_case silent no_file any_url code_text (ErrorNew "eof") Ok no_json operator_client "run/1 a" H)
    as (_ & _ & _ & Hops).
  destruct Hops as (Hc & _); [by vm_compute|by vm_compute|]. apply (Hc "pause"). set_solver.
Defined.

(** An id with a colon does not arrive: the server cuts the operation off at the first colon. *)
Lemma cli_colon_lost : ∃ r,
  received "http://localhost:8080" (cli_request operator_client (POST_as ("/v1/runners/" +:+ PathEscape "eu:west" +:+ ":freeze")) "") = Some r ∧
  ServeHTTP no_json HeaderIdentityResolver r = respond NotFound.
Proof. eexists. split; [by vm_compute|]. done. Qed.
