(* ===== verification/Mcp.v ===== *)
(** * The MCP server (src/internal/mcp/server.go, tools.go)

    The tools that agents call: JSON-RPC over HTTP, the guards of [ServeHTTP], the three methods
    and the ten tools.  A tool is a client of the control plane (ControlPlane.v).

    [json.RawMessage] is the document it holds, or [None] when it is empty.  Parameters: the errors
    of encoding/json by the target and the value they are about ([value_error]) or by the text
    ([json_error]), the error of a body that breaks off ([broken_body]), the host of a URL
    ([url_Host], [url.Parse]), [EqualFold] with Unicode's tables, [marshal] ([json.Marshal] of a
    result) and the explainer of the server. *)
From S2P Require Import Prelude GoStd Sha256 Json Rfc3339 JsonDecode JsonAny Domain Contract Planner Store Runner Engine Durable Application ControlPlane Api.
From Stdlib Require Import Ascii.
Open Scope Z_scope.

(** ** Identity *)

(** [HeaderPrincipalResolver.Resolve] *)
Definition HeaderPrincipalResolver (r : Request) : result error Principal :=
  let subject := TrimSpace (header r "X-Actor-ID") in
  let tenant := TrimSpace (header r "X-Tenant-ID") in
  if bool_decide (tenant = "") then Err (ErrorNew "authenticated X-Tenant-ID header is required")
  else Ok {| pc_Subject := subject; pc_TenantID := tenant; pc_Roles := splitHeader (header r "X-Actor-Roles") |}.

(** [Server]; a nil explainer or resolver is [None]. *)
Record Server := {
  sv_principal : Principal;
  sv_explainer : option (ReleasePlan → result error string);
  sv_resolver : option (Request → result error Principal);
}.

#[export] Instance eta_Server : Eta Server := λ r,
  {| sv_principal := sv_principal r; sv_explainer := sv_explainer r; sv_resolver := sv_resolver r |}.

Definition zero_Principal : Principal := {| pc_Subject := ""; pc_TenantID := ""; pc_Roles := [] |}.

(** [NewHTTP] *)
Definition NewHTTP (resolver : option (Request → result error Principal)) (explainer : option (ReleasePlan → result error string)) : Server :=
  {| sv_principal := zero_Principal; sv_explainer := explainer; sv_resolver := resolver |}.

(** [New] *)
Definition NewServer (principal : Principal) (explainer : option (ReleasePlan → result error string)) : Server :=
  {| sv_principal :=
       if bool_decide (pc_TenantID principal = "")
       then {| pc_Subject := pc_Subject principal; pc_TenantID := "default"; pc_Roles := pc_Roles principal |}
       else principal;
     sv_explainer := explainer; sv_resolver := None |}.

(** ** Messages *)

(** [request] *)
Record request := {
  ms_JSONRPC : string;
  ms_ID : option document;
  ms_Method : string;
  ms_Params : option document;
}.

#[export] Instance eta_request : Eta request := λ r,
  {| ms_JSONRPC := ms_JSONRPC r; ms_ID := ms_ID r; ms_Method := ms_Method r; ms_Params := ms_Params r |}.

Definition zero_request : request := {| ms_JSONRPC := ""; ms_ID := None; ms_Method := ""; ms_Params := None |}.

Definition request_members : fields_of request :=
  member "jsonrpc" into_string ms_JSONRPC ++ member "id" into_raw ms_ID ++
  member "method" into_string ms_Method ++ member "params" into_raw ms_Params.

(** [rpcError] *)
Record rpcError := {
  re_Code : Z;
  re_Message : string;
}.

(** [callParams] *)
Record callParams := {
  cp_Name : string;
  cp_Arguments : option document;
}.

#[export] Instance eta_callParams : Eta callParams := λ r, {| cp_Name := cp_Name r; cp_Arguments := cp_Arguments r |}.

Definition callParams_members : fields_of callParams :=
  member "name" into_string cp_Name ++ member "arguments" into_raw cp_Arguments.

(** A reason of a plan; its source is the system. *)
Record planReason := {
  pr_code : string;
  pr_service : option string;
}.

(** The values of the maps that tools return. *)
Inductive structured :=
| SServices (services : list Service)
| SService (service : Service)
| SPlan (plan : ReleasePlan)
| SExplained (plan : ReleasePlan) (system_reasons : list planReason) (ai_explanation : option string)
| SStarted (run : option ReleaseRun) (created : bool)
| SRun (run : ReleaseRun)
| SApprovals (approvals : list ApprovalSummary)
| SIncident (run : ReleaseRun) (events : list AuditEvent)
| SError (error : string) (reason_code : option string).

(** [callResult]; its content is one text. *)
Record callResult := {
  cr_Content : string;
  cr_StructuredContent : structured;
  cr_IsError : bool;
}.

(** ** Tools (tools.go) *)

(** [stringSchema], and the schema of an object. *)
Inductive property_schema := stringSchema | anyObject.

Record object_schema := {
  os_properties : list (string * property_schema);
  os_required : list string;
}.

Record Tool := {
  tl_Name : string;
  tl_Description : string;
  tl_InputSchema : object_schema;
}.

(** [objectSchema]: no additional properties. *)
Definition objectSchema (properties : list (string * property_schema)) (required : list string) : object_schema :=
  {| os_properties := properties; os_required := required |}.

(** [tool] *)
Definition tool (name description : string) (input : object_schema) : Tool :=
  {| tl_Name := name; tl_Description := description; tl_InputSchema := input |}.

(** The variable [tools]. *)
Definition tools : list Tool :=
  [ tool "list_services" "List services in the trusted contract catalog." (objectSchema [] []);
    tool "get_service_context" "Get contract-derived context for one service." (objectSchema [("service", stringSchema)] ["service"]);
    tool "plan_release" "Create a canonical plan from a structured ReleaseIntent; does not execute." (objectSchema [("intent", anyObject)] ["intent"]);
    tool "explain_release_plan" "Return system reason codes separately from an optional AI-generated explanation." (objectSchema [("plan_id", stringSchema)] ["plan_id"]);
    tool "start_release" "Start a durable release from a structured ReleaseIntent." (objectSchema [("intent", anyObject)] ["intent"]);
    tool "get_release_status" "Get the current durable release projection." (objectSchema [("run_id", stringSchema)] ["run_id"]);
    tool "pause_release" "Pause a release at the durable workflow boundary." (objectSchema [("run_id", stringSchema)] ["run_id"]);
    tool "cancel_release" "Cancel a release and prevent pending downstream dispatch." (objectSchema [("run_id", stringSchema)] ["run_id"]);
    tool "list_pending_approvals" "List pending approvals for the authenticated tenant." (objectSchema [] []);
    tool "get_incident_context" "Get a release and its append-only audit events for incident response." (objectSchema [("run_id", stringSchema)] ["run_id"]) ].

(** The parameters of [initialize]. *)
Record initializeParams := {
  ip_ProtocolVersion : string;
  ip_Capabilities : option (list (string * document));
  ip_ClientInfo : option (list (string * document));
}.

#[export] Instance eta_initializeParams : Eta initializeParams := λ r,
  {| ip_ProtocolVersion := ip_ProtocolVersion r; ip_Capabilities := ip_Capabilities r; ip_ClientInfo := ip_ClientInfo r |}.

Definition initializeParams_members : fields_of initializeParams :=
  member "protocolVersion" into_string ip_ProtocolVersion ++ member "capabilities" into_any_map ip_Capabilities ++
  member "clientInfo" into_any_map ip_ClientInfo.

(** [serviceArgument], [planArgument] and [runArgument] are a struct with one string, [intentArgument] one with
    a raw value: the field itself stands for the struct. *)
Definition string_argument (name : string) : fields_of string := [(name, into_string)].
Definition raw_argument (name : string) : fields_of (option document) := [(name, into_raw)].

(** [planReasons] *)
Definition step_reasons (step : PlanStep) : list planReason :=
  (if bool_decide (ps_Dependencies step = []) then [] else [{| pr_code := "DEPENDENCY_ORDER"; pr_service := Some (ps_Service step) |}]) ++
  (if ps_VerificationRequired step then [{| pr_code := "VERIFICATION_REQUIRED"; pr_service := Some (ps_Service step) |}] else []).
Definition planReasons (plan : ReleasePlan) : list planReason :=
  {| pr_code := "PLAN_HASH_PINNED"; pr_service := None |} ::
  (phase ← plan_Phases plan; step ← ph_Steps phase; step_reasons step).

(** [invalidParams] *)
Definition invalidParams (err : error) : rpcError :=
  {| re_Code := -32602; re_Message := "invalid params: " +:+ Error err |}.

(** [supportedProtocol] *)
Definition ProtocolVersion : string := "2025-11-25".
Definition supportedProtocol (version : string) : bool :=
  bool_decide (version ∈ ["2025-03-26"; "2025-06-18"; ProtocolVersion]).

(** ** HTTP *)

(** A request with the host it was sent to ([r.Host]). *)
Record HostRequest := {
  hr_Request : Request;
  hr_Host : string;
}.

(** The results of the methods. *)
Inductive rpc_result :=
| RInitialize
| RTools (tools : list Tool)
| RCall (result : callResult).

(** [response]; what is not set is [None]. *)
Record response := {
  rs_ID : option document;
  rs_Result : option rpc_result;
  rs_Error : option rpcError;
}.

Inductive mcp_body :=
| MText (text : string)
| MEmpty
| MRPC (message : response).

Record mcp_reply := {
  mr_Status : Z;
  mr_Header : list (string * string);
  mr_Body : mcp_body;
}.

Definition mcp_error (status : Z) (text : string) : mcp_reply :=
  {| mr_Status := status; mr_Header := [("Content-Type", "text/plain; charset=utf-8")]; mr_Body := MText text |}.

(** [writeRPC] *)
Definition writeRPC (status : Z) (message : response) : mcp_reply :=
  {| mr_Status := status; mr_Header := [("Content-Type", "application/json")]; mr_Body := MRPC message |}.

Definition rpc_failure (id : option document) (code : Z) (message : string) : mcp_reply :=
  writeRPC 400 {| rs_ID := id; rs_Result := None; rs_Error := Some {| re_Code := code; re_Message := message |} |}.

(** What a client ends in, made into something else. *)
Definition made_into {A B} (f : A → B) (p : client (option A)) : client (option B) :=
  mbind (M := client) (λ a, Return (f <$> a)) p.

(** A tool: a client of the control plane that ends in a value or an error, or in nothing when planning does
    not come to an end. *)
Abbreviation tool_call := (client (option (result error structured))).

Section server.
Context (json_error : string → error) (value_error : string → document → error) (broken_body : Request → error).
Context (url_Host : string → option string) (EqualFold : string → string → bool) (marshal : structured → string).

(** [decodeStrict] of a body. *)
Definition decodeStrict {A} (target : string) (from : into A) (zero : A) (r : Request) : result error A :=
  match read_body r with
  | Err _ => Err (broken_body r)
  | Ok data =>
      match Decode data with
      | None => Err (json_error data)
      | Some (d, rest) =>
          match from d zero with
          | None => Err (value_error target d)
          | Some a => if at_EOF rest then Ok a else Err (ErrorNew "multiple JSON values are not allowed")
          end
      end
  end.

(** [decodeRaw] *)
Definition io_EOF : error := Sentinel "io.EOF" "EOF".
Definition decodeRaw {A} (target : string) (from : into A) (zero : A) (data : option document) : result error A :=
  match data with
  | None => Err io_EOF
  | Some d => match from d zero with None => Err (value_error target d) | Some a => Ok a end
  end.

(** [decodeRequired] *)
Definition missing_argument : error := ErrorNew "required structured argument is missing".
Definition decodeRequired {A} (target : string) (from : into A) (zero : A) (valid : A → bool) (data : option document) : result error A :=
  a ← decodeRaw target from zero data;
  if valid a then Ok a else Err missing_argument.

Definition decode_string (target name : string) (data : option document) : result error string :=
  decodeRequired target (into_struct true (string_argument name)) "" (λ s, negb (bool_decide (s = ""))) data.

(** [decodeIntentArgument] *)
Definition intent_error (err : error) : error := Errorf ("invalid structured intent: " +:+ Error err) (Some err).
Definition decodeIntentArgument (arguments : option document) : result error ReleaseIntent :=
  intent ← decodeRequired "intentArgument" (into_struct true (raw_argument "intent")) None
             (λ intent, bool_decide (is_Some intent)) arguments;
  match decodeRaw "ReleaseIntent" (into_struct true ReleaseIntent_members) zero_ReleaseIntent intent with
  | Err err => Err (intent_error err)
  | Ok intent => Ok intent
  end.

(** ** The tools *)

Definition refuse (err : error) : tool_call := mret (Some (Err err)).
Definition return_value {A} (f : A → structured) (r : result error A) : tool_call :=
  mret (Some (a ← r; Ok (f a))).

(** [err := decode...; if err != nil { return nil, err }] *)
Definition decoded {A} (r : result error A) (k : A → tool_call) : tool_call :=
  match r with Err err => refuse err | Ok a => k a end.

(** [runResult] *)
Definition runResult (arguments : option document) (operation : string → use_case (result error ReleaseRun)) : tool_call :=
  decoded (decode_string "runArgument" "run_id" arguments) (λ runID, run ← ask (operation runID); return_value SRun run).

(** [decodeRaw(arguments, &struct{}{})] *)
Definition no_arguments (arguments : option document) : result error unit :=
  decodeRaw "struct {}" (into_struct true []) () arguments.

Definition explained (sv : Server) (plan : ReleasePlan) : result error structured :=
  match sv_explainer sv with
  | None => Ok (SExplained plan (planReasons plan) None)
  | Some explain => explanation ← explain plan; Ok (SExplained plan (planReasons plan) (Some explanation))
  end.

Definition unknown_tool (name : string) : error := Errorf ("unknown or prohibited tool " +:+ quote name) None.

(** [Server.Call] *)
Definition Call (sv : Server) (name : string) (arguments : option document) : tool_call :=
  let arguments := Some (default (DObject []) arguments) in
  let tenant := pc_TenantID (sv_principal sv) in
  let subject := pc_Subject (sv_principal sv) in
  if bool_decide (name = "list_services") then
    decoded (no_arguments arguments) (λ _, services ← ask UServices; mret (Some (Ok (SServices services))))
  else if bool_decide (name = "get_service_context") then
    decoded (decode_string "serviceArgument" "service" arguments) (λ service,
      services ← ask UServices;
      match list_find (λ s, svc_Name s = service) services with
      | Some (_, s) => mret (Some (Ok (SService s)))
      | None => refuse (Errorf ("service " +:+ quote service +:+ " not found") None)
      end)
  else if bool_decide (name = "plan_release") then
    decoded (decodeIntentArgument arguments) (λ intent,
      plan ← ask (UPlanIntent tenant intent);
      match plan with None => mret None | Some plan => return_value SPlan plan end)
  else if bool_decide (name = "explain_release_plan") then
    decoded (decode_string "planArgument" "plan_id" arguments) (λ planID,
      plan ← ask (UGetPlan tenant planID);
      mret (Some (plan ← plan; explained sv plan)))
  else if bool_decide (name = "start_release") then
    decoded (decodeIntentArgument arguments) (λ intent,
      started ← ask (UStartIntent tenant intent);
      match started with
      | None => mret None
      | Some (_, _, Some err) => refuse err
      | Some (run, created, None) => mret (Some (Ok (SStarted run created)))
      end)
  else if bool_decide (name = "get_release_status") then runResult arguments (λ runID, UGet tenant runID)
  else if bool_decide (name = "pause_release") then runResult arguments (λ runID, UControl tenant runID subject "pause")
  else if bool_decide (name = "cancel_release") then runResult arguments (λ runID, UControl tenant runID subject "cancel")
  else if bool_decide (name = "list_pending_approvals") then
    decoded (no_arguments arguments) (λ _, approvals ← ask (UPendingApprovals tenant); return_value SApprovals approvals)
  else if bool_decide (name = "get_incident_context") then
    decoded (decode_string "runArgument" "run_id" arguments) (λ runID,
      run ← ask (UGet tenant runID);
      decoded run (λ run, events ← ask (UEvents tenant runID); return_value (SIncident run) events))
  else refuse (unknown_tool name).

(** [successResult] and [errorResult] *)
Definition successResult (value : structured) : callResult :=
  {| cr_Content := marshal value; cr_StructuredContent := value; cr_IsError := false |}.
Definition errorResult (err : error) : callResult :=
  let value := SError (Error err) (ReasonOf err) in
  {| cr_Content := marshal value; cr_StructuredContent := value; cr_IsError := true |}.

Definition call_result (r : result error structured) : callResult :=
  match r with Ok value => successResult value | Err err => errorResult err end.

(** ** Methods *)

Definition decode_callParams (params : option document) : result error callParams :=
  decodeRaw "callParams" (into_struct true callParams_members) {| cp_Name := ""; cp_Arguments := None |} params.

Definition rpc_return (r : result rpcError rpc_result) : client (option (result rpcError rpc_result)) := Return (Some r).
Definition rpc_called (r : result error structured) : result rpcError rpc_result := Ok (RCall (call_result r)).

(** [Server.handle] *)
Definition handle (sv : Server) (message : request) : client (option (result rpcError rpc_result)) :=
  if bool_decide (ms_Method message = "initialize") then
    rpc_return (match decodeRaw "initialize" (into_struct true initializeParams_members)
                       {| ip_ProtocolVersion := ""; ip_Capabilities := None; ip_ClientInfo := None |} (ms_Params message) with
               | Err err => Err (invalidParams err)
               | Ok _ => Ok RInitialize
               end)
  else if bool_decide (ms_Method message = "tools/list") then rpc_return (Ok (RTools tools))
  else if bool_decide (ms_Method message = "tools/call") then
    match decode_callParams (ms_Params message) with
    | Err err => rpc_return (Err (invalidParams err))
    | Ok params =>
        if bool_decide (cp_Name params = "") then rpc_return (Err (invalidParams (ErrorNew "tool name is required")))
        else
          made_into rpc_called (Call sv (cp_Name params) (cp_Arguments params))
    end
  else rpc_return (Err {| re_Code := -32601; re_Message := "method not found" |}).

(** ** The HTTP handler *)

(** [sameOrigin] *)
Definition sameOrigin (hr : HostRequest) : bool :=
  let origin := header (hr_Request hr) "Origin" in
  if bool_decide (origin = "") then true
  else match url_Host origin with Some host => EqualFold host (hr_Host hr) | None => false end.

(** The principal of a request. *)
Definition principal_of (sv : Server) (r : Request) : result error Principal :=
  match sv_resolver sv with Some resolve => resolve r | None => Ok (sv_principal sv) end.

(** The [Mcp-Name] header of a tool call differs from its name. *)
Definition name_differs (r : Request) (message : request) : bool :=
  let name := header r "Mcp-Name" in
  bool_decide (ms_Method message = "tools/call") && negb (bool_decide (name = "")) &&
  match decode_callParams (ms_Params message) with
  | Err _ => true
  | Ok params => negb (bool_decide (cp_Name params = name))
  end.

Definition rpc_reply (id : option document) (r : result rpcError rpc_result) : mcp_reply :=
  writeRPC 200 match r with
               | Ok value => {| rs_ID := id; rs_Result := Some value; rs_Error := None |}
               | Err err => {| rs_ID := id; rs_Result := None; rs_Error := Some err |}
               end.

(** From the message to the reply. *)
Definition serve_message (sv : Server) (r : Request) (message : request) : client (option mcp_reply) :=
  let mirrored := header r "Mcp-Method" in
  if negb (bool_decide (ms_JSONRPC message = "2.0")) || bool_decide (ms_Method message = "")
  then mret (Some (rpc_failure (ms_ID message) (-32600) "invalid JSON-RPC request"))
  else if negb (bool_decide (mirrored = "")) && negb (bool_decide (mirrored = ms_Method message))
  then mret (Some (rpc_failure (ms_ID message) (-32600) "Mcp-Method header does not match request"))
  else if name_differs r message
  then mret (Some (rpc_failure (ms_ID message) (-32600) "Mcp-Name header does not match request"))
  else if bool_decide (ms_ID message = None)
  then mret (Some {| mr_Status := 202; mr_Header := []; mr_Body := MEmpty |})
  else made_into (rpc_reply (ms_ID message)) (handle sv message).

(** [Server.ServeHTTP] *)
Definition mcp_ServeHTTP (sv : Server) (hr : HostRequest) : client (option mcp_reply) :=
  let r := hr_Request hr in
  let version := header r "MCP-Protocol-Version" in
  if negb (bool_decide (rq_Method r = "POST")) then
    mret (Some {| mr_Status := 405; mr_Header := [("Allow", "POST"); ("Content-Type", "text/plain; charset=utf-8")]; mr_Body := MText "MCP uses POST" |})
  else if negb (sameOrigin hr) then mret (Some (mcp_error 403 "origin is not allowed"))
  else if negb (bool_decide (version = "")) && negb (supportedProtocol version)
  then mret (Some (mcp_error 400 "unsupported MCP protocol version"))
  else
    match principal_of sv r with
    | Err err => mret (Some (mcp_error 401 (Error err)))
    | Ok principal =>
        match decodeStrict "request" (into_struct true request_members) zero_request r with
        | Err err => mret (Some (rpc_failure None (-32700) ("parse error: " +:+ Error err)))
        | Ok message => serve_message (sv <| sv_principal := principal |>) r message
        end
    end.
End server.

(** ** What agents can do *)

(** The use cases open to agents: all but approving, denying and revoking, resuming, freezing and
    validating contracts, and only as the principal. *)
Definition permitted (p : Principal) (X : Type) (u : use_case X) : Prop :=
  match u with
  | UServices => True
  | UPlanIntent tenant _ | UGetPlan tenant _ | UStartIntent tenant _ | UGet tenant _ | UEvents tenant _
  | UPendingApprovals tenant => tenant = pc_TenantID p
  | UControl tenant _ actor action => tenant = pc_TenantID p ∧ actor = pc_Subject p ∧ action ∈ ["pause"; "cancel"]
  | UDecideApproval _ _ _ _ _ _ | URevokeApproval _ _ _ _ _ | UValidateContract _ | UListRunners _ | UFreezeRunner _ _ _ => False
  end.

(** The first error that is answered on a path is what the call ends in. *)
Definition refused (errs : list error) (r : option (result error structured)) : Prop :=
  match errs with [] => True | err :: _ => r = Some (Err err) end.

Lemma every_made_into {A B} P (f : A → B) (p : client (option A)) : every P p → every P (made_into f p).
Proof. intros Hp. by apply every_bind. Qed.

Lemma ends_in_made_into {A B} (Q : list error → option B → Prop) (f : A → B) (p : client (option A)) errs :
  ends_in (λ errs a, Q errs (f <$> a)) errs p → ends_in Q errs (made_into f p).
Proof. revert errs. induction p as [a|X u k IH]; intros errs; [done|]. intros Hk x. apply (IH x), Hk. Qed.

Lemma ends_in_impl {A} (Q R : list error → A → Prop) (p : client A) errs :
  (∀ errs a, Q errs a → R errs a) → ends_in Q errs p → ends_in R errs p.
Proof. intros HQ. revert errs. induction p as [a|X u k IH]; intros errs; [apply HQ|]. intros Hk x. apply IH, Hk. Qed.

(** Arguments that a schema admits. *)
Definition conforms_property (schema : property_schema) (d : document) : bool :=
  match schema, d with
  | stringSchema, DString _ value => negb (bool_decide (value = ""))
  | anyObject, DObject _ => true
  | _, _ => false
  end.

Definition admitted_member (schema : object_schema) (kv : string * document) : bool :=
  existsb (λ ks, bool_decide (ks.1 = kv.1) && conforms_property ks.2 kv.2) (os_properties schema).

Definition conforms (schema : object_schema) (d : document) : bool :=
  match d with
  | DObject members =>
      bool_decide (NoDup members.*1) && forallb (admitted_member schema) members &&
      forallb (λ name, bool_decide (name ∈ members.*1)) (os_required schema)
  | _ => false
  end.

(** The arguments of a tool with at most one property. *)
Definition property_value (d : document) : option (string * document) :=
  match d with DObject [kv] => Some kv | _ => None end.

Lemma conforms_none d : conforms (objectSchema [] []) d = true → d = DObject [].
Proof. destruct d as [| | | | |members]; try done. destruct members; [done|]. simpl. by rewrite andb_false_r. Qed.

Lemma conforms_one name schema d :
  conforms (objectSchema [(name, schema)] [name]) d = true → ∃ value, d = DObject [(name, value)] ∧ conforms_property schema value = true.
Proof.
  destruct d as [| | | | |members]; try done. unfold conforms, admitted_member. simpl. intros H.
  apply andb_prop in H as [H Hreq]. apply andb_prop in H as [Hnd Hall]. apply bool_decide_eq_true in Hnd.
  rewrite andb_true_r in Hreq. apply bool_decide_eq_true in Hreq.
  assert (Hkey : ∀ kv, kv ∈ members → kv.1 = name ∧ conforms_property schema kv.2 = true).
  { intros kv Hin. rewrite forallb_forall in Hall. specialize (Hall kv (proj1 (list_elem_of_In _ _) Hin)).
    rewrite orb_false_r in Hall. apply andb_prop in Hall as [->%bool_decide_eq_true ?]. done. }
  destruct members as [|[k1 v1] [|[k2 v2] members]]; [by apply elem_of_nil in Hreq| |exfalso].
  - destruct (Hkey (k1, v1)) as [Hk Hv]; [by apply elem_of_cons; left|]. simpl in *. subst. eauto.
  - destruct (Hkey (k1, v1)) as [Hk1 _]; [by apply elem_of_cons; left|].
    destruct (Hkey (k2, v2)) as [Hk2 _]; [apply elem_of_cons; right; by apply elem_of_cons; left|].
    simpl in *. subst. apply NoDup_cons in Hnd as [Hnot _]. apply Hnot. apply elem_of_cons. by left.
Qed.

Section properties.
Context (json_error : string → error) (value_error : string → document → error) (broken_body : Request → error).
Context (url_Host : string → option string) (EqualFold : string → string → bool) (marshal : structured → string).
Abbreviation Call := (Call value_error).
Abbreviation handle := (handle value_error marshal).
Abbreviation serve_message := (serve_message value_error marshal).
Abbreviation mcp_ServeHTTP := (mcp_ServeHTTP json_error value_error broken_body url_Host EqualFold marshal).

(** A tool that decodes its arguments and is disciplined after that. *)
Record tame (p : Principal) (c : tool_call) : Prop := {
  tame_permitted : every (permitted p) c;
  tame_refused : ends_in refused [] c;
}.

Lemma tame_refuse p err : tame p (refuse err).
Proof. by split. Qed.

Lemma tame_decoded {A} p (r : result error A) k : (∀ a, tame p (k a)) → tame p (decoded r k).
Proof. intros Hk. destruct r as [a|err]; [apply Hk|apply tame_refuse]. Qed.

(** One use case and its answer. *)
Lemma tame_ask {X} p (u : use_case X) (k : X → tool_call) :
  permitted p X u → (∀ x, ∃ r, k x = Return r ∧ refused (option_list (error_in u x)) r) → tame p (Ask u k).
Proof.
  intros Hu Hk. split; [split; [done|]|]; intros x; destruct (Hk x) as (r & Hr & Href); by rewrite Hr.
Qed.

Lemma return_value_refused {A} (f : A → structured) (x : result error A) :
  ∃ r, return_value f x = Return r ∧ refused (option_list (failure x)) r.
Proof. destruct x as [a|err]; by eexists. Qed.

Lemma runResult_tame p arguments operation :
  (∀ id, permitted p _ (operation id)) → (∀ id x, error_in (operation id) x = failure x) →
  tame p (runResult value_error arguments operation).
Proof.
  intros Hp He. apply tame_decoded. intros id. apply tame_ask; [done|]. intros x. rewrite He. apply return_value_refused.
Qed.

Lemma Call_tame sv name arguments : tame (sv_principal sv) (Call sv name arguments).
Proof.
  unfold Mcp.Call. repeat case_bool_decide; try apply tame_refuse; try (by apply runResult_tame; intros; simpl; set_solver).
  all: apply tame_decoded; intros a.
  - apply tame_ask; [done|]. intros x. by eexists.
  - apply tame_ask; [done|]. intros x. destruct (list_find _ x) as [[??]|]; by eexists.
  - apply tame_ask; [done|]. intros [plan|]; [apply return_value_refused|by eexists].
  - apply tame_ask; [done|]. intros [plan|err]; by eexists.
  - apply tame_ask; [done|]. intros [[[run created] [err|]]|]; by eexists.
  - apply tame_ask; [done|]. intros x. apply return_value_refused.
  - split.
    + split; [done|]. intros [run|err]; [|done]. split; [done|]. by intros x.
    + intros [run|err]; [|done]. intros [events|err]; by simpl.
Qed.

(** A message that gets as far as a tool: what the server demands of it and of the headers that mirror it. *)
Record admitted_message (r : Request) (message : request) : Prop := {
  am_version : ms_JSONRPC message = "2.0";
  am_method : ms_Method message = "tools/call";
  am_mirrored : header r "Mcp-Method" = "" ∨ header r "Mcp-Method" = ms_Method message;
  am_answered : ms_ID message ≠ None;
  am_params : ∃ params, decode_callParams value_error (ms_Params message) = Ok params ∧ cp_Name params ≠ "" ∧
    (header r "Mcp-Name" = "" ∨ header r "Mcp-Name" = cp_Name params);
}.

(** A request that gets as far as a tool. *)
Record admitted (sv : Server) (hr : HostRequest) (p : Principal) : Prop := {
  ad_method : rq_Method (hr_Request hr) = "POST";
  ad_origin : sameOrigin url_Host EqualFold hr = true;
  ad_protocol : header (hr_Request hr) "MCP-Protocol-Version" = "" ∨
    header (hr_Request hr) "MCP-Protocol-Version" ∈ ["2025-03-26"; "2025-06-18"; "2025-11-25"];
  ad_principal : principal_of sv (hr_Request hr) = Ok p;
  ad_message : ∃ message, decodeStrict json_error value_error broken_body "request" (into_struct true request_members) zero_request
    (hr_Request hr) = Ok message ∧ admitted_message (hr_Request hr) message;
}.

Lemma handle_permitted sv message :
  every (λ X u, (ms_Method message = "tools/call" ∧
                 ∃ params, decode_callParams value_error (ms_Params message) = Ok params ∧ cp_Name params ≠ "") ∧
                permitted (sv_principal sv) X u) (handle sv message).
Proof.
  unfold Mcp.handle. repeat case_bool_decide; try done. destruct (decode_callParams _ _) as [params|]; [|done].
  case_bool_decide; [done|]. apply every_made_into. eapply every_impl; [|apply Call_tame]. naive_solver.
Qed.

Lemma serve_message_permitted sv r message :
  every (λ X u, admitted_message r message ∧ permitted (sv_principal sv) X u) (serve_message sv r message).
Proof.
  unfold Mcp.serve_message. destruct (negb _ || _) eqn:Hv; [done|]. destruct (negb _ && _) eqn:Hm; [done|].
  destruct (name_differs _ _ _) eqn:Hn; [done|]. destruct (bool_decide (ms_ID message = None)) eqn:Hid; [done|].
  apply bool_decide_eq_false in Hid. apply orb_false_iff in Hv as [Hv%negb_false_iff%bool_decide_eq_true _].
  apply andb_false_iff in Hm. rewrite !negb_false_iff, !bool_decide_eq_true in Hm.
  apply every_made_into. eapply every_impl; [|apply handle_permitted]. simpl.
  intros X u [(Hcall & params & Hp & Hname) Hu]. split; [|done]. split; [done..|]. exists params. split; [done|]. split; [done|].
  unfold name_differs in Hn. rewrite Hp, (bool_decide_eq_true_2 _ Hcall) in Hn. cbn [andb] in Hn.
  apply andb_false_iff in Hn. rewrite !negb_false_iff, !bool_decide_eq_true in Hn. destruct Hn as [?|?]; [by left|by right].
Qed.

(** C9: whatever the control plane answers and whatever tool an agent calls, the server asks
    only for use cases of the tenant of the request's principal; it steers releases only by pausing
    and cancelling them, as the subject of that principal, and never decides or revokes an approval,
    resumes a release or freezes a runner.  It asks for nothing at all unless the request passed every
    guard: a POST from its own origin, in a supported protocol version if it names one, with a
    principal, whose JSON-RPC 2.0 message calls a named tool and expects an answer, and agrees with the
    headers that mirror its method and name. *)
Theorem mcp_authority sv hr :
  every (λ X u, ∃ p, admitted sv hr p ∧ permitted p X u) (mcp_ServeHTTP sv hr).
Proof.
  unfold Mcp.mcp_ServeHTTP. case_bool_decide as Hpost; [|done]. simpl. destruct (sameOrigin _ _ hr) eqn:Horigin; [|done]. simpl.
  destruct (negb _ && _) eqn:Hversion; [done|]. destruct (principal_of sv (hr_Request hr)) as [p|] eqn:Hp; [|done].
  destruct (decodeStrict _ _ _ _ _ _ _) as [message|] eqn:Hm; [|done].
  apply andb_false_iff in Hversion. unfold supportedProtocol in Hversion. rewrite !negb_false_iff, !bool_decide_eq_true in Hversion.
  eapply every_impl; [|apply serve_message_permitted]. simpl. intros X u [Ham Hu]. exists p. split; [|done].
  split; [done..|]. by exists message.
Qed.

(** an error that the control plane answers to a tool is returned to the agent as the
    result of the call, marked as an error, with the text of the first error and its reason code. *)
Theorem mcp_reports_errors sv hr :
  ends_in (λ errs reply, ∀ err rest, errs = err :: rest →
    ∃ id, reply = Some (writeRPC 200 {| rs_ID := id; rs_Result := Some (RCall (errorResult marshal err)); rs_Error := None |}))
    [] (mcp_ServeHTTP sv hr).
Proof.
  unfold Mcp.mcp_ServeHTTP, Mcp.serve_message, Mcp.handle. repeat (case_match; try done).
  apply ends_in_made_into, ends_in_made_into. eapply ends_in_impl; [|apply Call_tame].
  simpl. intros errs r Hr err rest ->. rewrite Hr. by eexists.
Qed.

(** *** The list of tools *)

(** A call that gets to the control plane. *)
Definition asks {A} (p : client A) : Prop := match p with Ask _ _ => True | Return _ => False end.

Lemma string_argument_asks name target d (k : string → tool_call) :
  conforms (objectSchema [(name, stringSchema)] [name]) d = true → (∀ s, asks (k s)) →
  asks (decoded (decode_string value_error target name (Some d)) k).
Proof.
  intros (value & -> & Hv)%conforms_one Hk. destruct value as [| | |raw value| |]; try done. simpl in Hv.
  unfold decode_string, decodeRequired, decodeRaw. simpl. unfold find_member. simpl. rewrite String.eqb_refl. simpl.
  rewrite Hv. apply Hk.
Qed.

Lemma no_arguments_asks d (k : unit → tool_call) :
  conforms (objectSchema [] []) d = true → (∀ x, asks (k x)) → asks (decoded (no_arguments value_error (Some d)) k).
Proof. intros ->%conforms_none Hk. apply Hk. Qed.

(** Arguments whose intent, if they have one, is a release intent without unknown fields. *)
Definition intent_decodes (d : document) : Prop :=
  ∀ value, d = DObject [("intent", value)] → is_Some (into_struct true ReleaseIntent_members value zero_ReleaseIntent).

(** A call with these arguments gets to the control plane exactly when their intent decodes; otherwise it is refused as
    an invalid intent. *)
Definition accepted_by_intent (d : document) (c : tool_call) : Prop :=
  (intent_decodes d → asks c) ∧
  (¬ intent_decodes d → ∃ value, d = DObject [("intent", value)] ∧ c = refuse (intent_error (value_error "ReleaseIntent" value))).

Lemma intent_argument_asks d (k : ReleaseIntent → tool_call) :
  conforms (objectSchema [("intent", anyObject)] ["intent"]) d = true → (∀ x, asks (k x)) →
  accepted_by_intent d (decoded (decodeIntentArgument value_error (Some d)) k).
Proof.
  intros (value & -> & _)%conforms_one Hk. unfold accepted_by_intent, intent_decodes, decodeIntentArgument. cbn -[ReleaseIntent_members].
  destruct (into_struct true ReleaseIntent_members value zero_ReleaseIntent) as [intent|] eqn:Hd.
  - split; [intros _; apply Hk|]. intros []. intros ? [= <-]. by rewrite Hd.
  - split; [|intros _; by exists value]. intros Hi. destruct (Hi value eq_refl) as [x Hx]. by rewrite Hd in Hx.
Qed.

(** Arguments without an intent are accepted as they are. *)
Lemma other_argument_asks name d (c : tool_call) : name ≠ "intent" →
  d = DObject [] ∨ (∃ value, d = DObject [(name, value)]) → asks c → accepted_by_intent d c.
Proof.
  intros Hname Hd Hc. split; [done|]. intros []. intros value ->. destruct Hd as [?|[? ?]]; congruence.
Qed.

Lemma conforming_asks sv t d : t ∈ tools → conforms (tl_InputSchema t) d = true →
  accepted_by_intent d (Call sv (tl_Name t) (Some d)).
Proof.
  intros Hin. unfold tools in Hin. repeat (apply elem_of_cons in Hin as [->|Hin]); [..|by apply elem_of_nil in Hin];
    cbn [tl_InputSchema tl_Name tool]; intros Hd.
  all: try (by apply intent_argument_asks).
  all: try (by apply (other_argument_asks "none"); [done|left; by apply conforms_none|apply no_arguments_asks]).
  all: eapply other_argument_asks; [|right; destruct (conforms_one _ _ _ Hd) as (value & -> & _); by eexists|by eapply string_argument_asks]; done.
Qed.

Lemma unlisted_refused sv name arguments : name ∉ tl_Name <$> tools → Call sv name arguments = refuse (unknown_tool name).
Proof.
  intros Hname. unfold Mcp.Call. repeat (case_bool_decide; [subst; exfalso; apply Hname; by apply (bool_decide_unpack _)|]). done.
Qed.

(** An example of the arguments of a tool. *)
Definition sample_arguments (t : Tool) : document :=
  DObject ((λ name, (name, if bool_decide (name = "intent") then DObject [] else DString "x" "x")) <$> os_required (tl_InputSchema t)).

Lemma listed_asks sv name : name ∈ tl_Name <$> tools → ∃ arguments, asks (Call sv name (Some arguments)).
Proof.
  intros (t & -> & Hin)%list_elem_of_fmap. exists (sample_arguments t).
  unfold tools in Hin. repeat (apply elem_of_cons in Hin as [->|Hin]); [..|by apply elem_of_nil in Hin]; exact I.
Qed.

(** C40: the list of tools is exact.  A name is listed exactly when a call of it can reach the control
    plane, and any other name is refused as unknown.  Arguments that the listed schema of a tool admits
    reach the control plane exactly when the intent among them, if the tool takes one, is a release intent
    without unknown fields, which the schema does not describe; otherwise the call is refused as an invalid
    intent. *)
Theorem mcp_tools_exact sv :
  (∀ name, name ∈ tl_Name <$> tools ↔ ∃ arguments, asks (Call sv name (Some arguments))) ∧
  (∀ name arguments, name ∉ tl_Name <$> tools → Call sv name arguments = refuse (unknown_tool name)) ∧
  (∀ t d, t ∈ tools → conforms (tl_InputSchema t) d = true → accepted_by_intent d (Call sv (tl_Name t) (Some d))).
Proof.
  split; [|split; [apply unlisted_refused|apply conforming_asks]].
  intros name. split; [apply listed_asks|]. intros [arguments Ha]. destruct (decide (name ∈ tl_Name <$> tools)); [done|].
  by rewrite unlisted_refused in Ha.
Qed.
End properties.

(** An agent pauses a run: the message of the example is decoded and the pause is asked for. *)
Example mcp_pause json_error value_error broken_body url_Host EqualFold marshal :
  let body := quoted "{'jsonrpc':'2.0','id':1,'method':'tools/call','params':{'name':'pause_release','arguments':{'run_id':'r1'}}}" in
  let r := {| rq_Method := "POST"; rq_Path := ["mcp"]; rq_Header := {[ "X-Actor-ID" := "agent"; "X-Tenant-ID" := "acme" ]}; rq_Body := Ok body |} in
  ∃ k, mcp_ServeHTTP json_error value_error broken_body url_Host EqualFold marshal (NewHTTP (Some HeaderPrincipalResolver) None)
    {| hr_Request := r; hr_Host := "host" |} = Ask (UControl "acme" "r1" "agent" "pause") k.
Proof. eexists. vm_compute. reflexivity. Qed.
