(* ===== verification/Ui.v ===== *)
(** * The safety console (src/internal/ui/server.go, viewmodel.go)

    The pages where people see releases and decide on approvals.  A request is what net/http hands
    to the server: that of Api.v, the cookie with the token, the form as [ParseForm] leaves it
    (the first value of each field) and whether the connection is encrypted.  A page is the value its
    template is executed with; rendering it is html/template's, and so are static files
    the file server's.  [secret] is the key the server draws when it starts, [verifier] its
    [IdentityVerifier]. *)
From S2P Require Import Prelude GoStd Sha256 Base64 Domain Planner Store Runner Engine Durable Application ControlPlane Api.
From Stdlib Require Import Ascii.
Open Scope Z_scope.

(** ** Message authentication (crypto/hmac with sha256.New) *)

Definition block_size : nat := 64.

(** The key in a block: hashed when it is longer. *)
Definition hmac_key (key : string) : list Z :=
  let key := if (block_size <? String.length key)%nat then Sum256 key else string_bytes key in
  key ++ replicate (block_size - length key) 0.

Definition hmac_pad (byte : Z) (key : string) : string := bytes_string (Z.lxor byte <$> hmac_key key).

Definition hmac_sha256 (key message : string) : string :=
  bytes_string (Sum256 (hmac_pad 92 key +:+ bytes_string (Sum256 (hmac_pad 54 key +:+ message)))).

#[global] Arguments hmac_sha256 : simpl never.

(** ** Requests and replies *)

Record UIRequest := {
  ur_Request : Request;
  ur_Cookie : option string;
  ur_Form : result error (gmap string string);
  ur_TLS : bool;
}.

(** [Identity] *)
Record UIdentity := {
  ui_Subject : string;
  ui_TenantID : string;
  ui_Roles : list string;
}.

(** [runView] and [approvalView] *)
Inductive view :=
| approvalView (Title : string) (Approvals : list ApprovalSummary) (CSRFToken : string)
| runView (Title : string) (Run : ReleaseRun) (Events : list AuditEvent).

(** The cookie of the token: under /ui/, hidden from scripts and sent on the same site only. *)
Record csrf_cookie := {
  ck_Value : string;
  ck_Secure : bool;
}.

Inductive ui_reply :=
| UText (status : Z) (text : string)
| UPage (cookie : option csrf_cookie) (page : view)
| URedirect (location : string)
| UStatic (path : list string).

Definition ui_NotFound : ui_reply := UText 404 "404 page not found".

(** [HeaderIdentityVerifier.Verify] *)
Definition HeaderIdentityVerifier (r : UIRequest) : result error UIdentity :=
  let subject := TrimSpace (header (ur_Request r) "X-Actor-ID") in
  let tenant := TrimSpace (header (ur_Request r) "X-Tenant-ID") in
  if bool_decide (subject = "") || bool_decide (tenant = "")
  then Err (ErrorNew "authenticated actor and tenant are required")
  else Ok {| ui_Subject := subject; ui_TenantID := tenant; ui_Roles := splitHeader (header (ur_Request r) "X-Actor-Roles") |}.

(** [splitOperation] *)
Definition ui_splitOperation (value : string) : option (string * string) :=
  let '(id, action, ok) := Cut value ":"%char in
  if negb ok || bool_decide (id = "") ||
     (negb (bool_decide (action = "approve")) && negb (bool_decide (action = "deny")) && negb (bool_decide (action = "revoke")))
  then None else Some (id, action).

Abbreviation ui_handler := (client ui_reply).

Section server.
Context (secret : string) (verifier : UIRequest → result error UIdentity).

(** [Server.csrfToken] *)
Definition csrfToken (identity : UIdentity) : string :=
  EncodeToString64 (hmac_sha256 secret (ui_Subject identity +:+ NUL +:+ ui_TenantID identity)).

(** [Server.validCSRF] *)
Definition validCSRF (r : UIRequest) (identity : UIdentity) : bool :=
  match ur_Cookie r with
  | None => false
  | Some cookie =>
      let want := csrfToken identity in
      bool_decide (cookie = want) &&
      bool_decide (get "" (match ur_Form r with Ok form => form | Err _ => ∅ end) "csrf_token" = want)
  end.

(** [Server.verified] *)
Definition verified (r : UIRequest) (k : UIdentity → ui_handler) : ui_handler :=
  match verifier r with
  | Err err => mret (UText 401 (Error err))
  | Ok identity =>
      if bool_decide (ui_Subject identity = "") || bool_decide (ui_TenantID identity = "")
      then mret (UText 401 "identity verifier returned an incomplete identity")
      else k identity
  end.

(** [if err != nil { http.Error(w, err.Error(), status); return }] *)
Definition or_error {A} (status : Z) (r : result error A) (k : A → ui_handler) : ui_handler :=
  match r with Err err => mret (UText status (Error err)) | Ok a => k a end.

(** [Server.approvals] *)
Definition ui_approvals (r : UIRequest) : ui_handler :=
  verified r (λ identity,
    approvals ← ask (UPendingApprovals (ui_TenantID identity));
    or_error 500 approvals (λ approvals,
      let token := csrfToken identity in
      mret (UPage (Some {| ck_Value := token; ck_Secure := ur_TLS r |}) (approvalView "Approvals" approvals token)))).

(** [Server.run] *)
Definition ui_run (r : UIRequest) (id : string) : ui_handler :=
  verified r (λ identity,
    run ← ask (UGet (ui_TenantID identity) id);
    or_error 404 run (λ run,
      events ← ask (UEvents (ui_TenantID identity) (run_ID run));
      or_error 500 events (λ events, mret (UPage None (runView ("Release " +:+ run_ID run) run events))))).

(** [Server.decide] *)
Definition ui_decide (r : UIRequest) (operation : string) : ui_handler :=
  verified r (λ identity,
    match ui_splitOperation operation with
    | None => mret ui_NotFound
    | Some (id, action) =>
        if bool_decide (is_Some (failure (ur_Form r))) || negb (validCSRF r identity)
        then mret (UText 403 "invalid CSRF token")
        else
          approvals ← ask (UPendingApprovals (ui_TenantID identity));
          or_error 500 approvals (λ approvals,
            let runID := approval_run id approvals in
            if bool_decide (runID = "") then mret ui_NotFound
            else
              result ← (if bool_decide (action = "revoke")
                        then ask (URevokeApproval (ui_TenantID identity) runID id (ui_Subject identity) (ui_Roles identity))
                        else ask (UDecideApproval (ui_TenantID identity) runID id (ui_Subject identity) (ui_Roles identity)
                                    (bool_decide (action = "approve"))));
              or_error 403 result (λ _, mret (URedirect "/ui/approvals")))
    end).

(** The routes of [New], a GET pattern also for HEAD, and the answers of the mux to other requests. *)
Definition ui_page (r : UIRequest) (method : string) (h : ui_handler) : ui_handler :=
  if method_matches method (rq_Method (ur_Request r)) then h else mret (UText 405 "Method Not Allowed").

Definition ui_ServeHTTP (r : UIRequest) : ui_handler :=
  let path := rq_Path (ur_Request r) in
  match match_path [Lit "ui"; Lit "approvals"] path with
  | Some _ => ui_page r "GET" (ui_approvals r)
  | None =>
  match match_path [Lit "ui"; Lit "approvals"; Wild] path with
  | Some values => ui_page r "POST" (ui_decide r (default "" (head values)))
  | None =>
  match match_path [Lit "ui"; Lit "release-runs"; Wild] path with
  | Some values => ui_page r "GET" (ui_run r (default "" (head values)))
  | None =>
  match path with
  | ui :: static :: rest =>
      if bool_decide (ui = "ui") && bool_decide (static = "static") then ui_page r "GET" (mret (UStatic rest))
      else mret ui_NotFound
  | _ => mret ui_NotFound
  end end end end.
End server.

#[global] Arguments csrfToken : simpl never.

(** ** The token *)

Lemma hmac_jefe :
  EncodeToString (string_bytes (hmac_sha256 "Jefe" "what do ya want for nothing?")) =
  "5bdcc146bf60754e6a042426089575c75a003f089d2739839dec58b964ec3843".
Proof. vm_compute. reflexivity. Qed.

Lemma string_bytes_bytes l : Forall is_byte l → string_bytes (bytes_string l) = l.
Proof.
  unfold string_bytes, bytes_string. rewrite String.list_ascii_of_string_of_list_ascii. intros Hl. rewrite <- list_fmap_compose.
  induction Hl as [|z l Hz Hl IH]; [done|]. rewrite fmap_cons, IH. f_equal. unfold compose.
  unfold is_byte in Hz. rewrite nat_ascii_embedding by lia. lia.
Qed.

Lemma bytes_Sum256_inj x y : bytes_string (Sum256 x) = bytes_string (Sum256 y) → x = y ∨ collision.
Proof.
  intros Heq. apply (f_equal string_bytes) in Heq. rewrite !string_bytes_bytes in Heq by apply Sum256_digest.
  destruct (decide (x = y)); [by left|right]. by exists x, y.
Qed.

Lemma hmac_inj key x y : hmac_sha256 key x = hmac_sha256 key y → x = y ∨ collision.
Proof.
  unfold hmac_sha256. intros [Heq%(inj (String.append _))|?]%bytes_Sum256_inj; [|by right].
  apply bytes_Sum256_inj in Heq as [Heq%(inj (String.append _))|?]; [by left|by right].
Qed.

Lemma csrfToken_inj secret i j :
  no_nul (ui_Subject i) = true → no_nul (ui_Subject j) = true → csrfToken secret i = csrfToken secret j →
  ui_Subject i = ui_Subject j ∧ ui_TenantID i = ui_TenantID j ∨ collision.
Proof.
  unfold csrfToken. intros Hi Hj Heq. apply (f_equal DecodeString64) in Heq. rewrite !Decode_Encode64 in Heq.
  injection Heq as [Heq|?]%hmac_inj; [left|by right]. by apply nul_join_inj.
Qed.

(** ** What the console asks for *)

Section properties.
Context (secret : string) (verifier : UIRequest → result error UIdentity) (r : UIRequest).

(** Who steers has a complete verified identity, and brings its token in the cookie and in the form. *)
Definition console_authentic (X : Type) (u : use_case X) : Prop :=
  ∃ i, verifier r = Ok i ∧ ui_Subject i ≠ "" ∧ ui_TenantID i ≠ "" ∧ tenant_of u = Some (ui_TenantID i) ∧
  ∀ actor, actor_of u = Some actor →
    actor = ui_Subject i ∧ roles_of u = Some (ui_Roles i) ∧ rq_Method (ur_Request r) = "POST" ∧
    ur_Cookie r = Some (csrfToken secret i) ∧
    ∃ form, ur_Form r = Ok form ∧ form !! "csrf_token" = Some (csrfToken secret i).

Lemma csrfToken_nonempty i : csrfToken secret i ≠ "".
Proof.
  unfold csrfToken. apply EncodeToString64_nonempty. unfold hmac_sha256. intros Hnil. apply (f_equal (length ∘ string_bytes)) in Hnil.
  unfold compose in Hnil. rewrite string_bytes_bytes in Hnil by apply Sum256_digest. by rewrite (proj1 (Sum256_digest _)) in Hnil.
Qed.

Lemma validCSRF_inv i : bool_decide (is_Some (failure (ur_Form r))) || negb (validCSRF secret r i) = false →
  ur_Cookie r = Some (csrfToken secret i) ∧ ∃ form, ur_Form r = Ok form ∧ form !! "csrf_token" = Some (csrfToken secret i).
Proof.
  unfold validCSRF. destruct (ur_Form r) as [form|]; [|done]. simpl.
  destruct (ur_Cookie r) as [cookie|]; [|done]. intros H%negb_false_iff. apply andb_prop in H as [->%bool_decide_eq_true H%bool_decide_eq_true].
  split; [done|]. exists form. split; [done|]. unfold get in H. destruct (form !! "csrf_token") as [v|]; simpl in H; [by subst|].
  by destruct (csrfToken_nonempty i).
Qed.

Lemma verified_authentic k :
  (∀ i, verifier r = Ok i → ui_Subject i ≠ "" → ui_TenantID i ≠ "" → every console_authentic (k i)) →
  every console_authentic (verified verifier r k).
Proof.
  intros Hk. unfold verified. destruct (verifier r) as [i|]; [|done].
  do 2 (case_bool_decide; [done|]). by apply Hk.
Qed.

Lemma reads_authentic i {X} (u : use_case X) :
  verifier r = Ok i → ui_Subject i ≠ "" → ui_TenantID i ≠ "" → tenant_of u = Some (ui_TenantID i) → actor_of u = None →
  console_authentic X u.
Proof. intros ???? Ha. exists i. do 4 (split; [done|]). by rewrite Ha. Qed.

Lemma ui_decide_authentic operation : rq_Method (ur_Request r) = "POST" → every console_authentic (ui_decide secret verifier r operation).
Proof.
  intros Hpost. apply verified_authentic. intros i Hi Hs Ht. destruct (ui_splitOperation operation) as [[id action]|]; [|done].
  destruct (_ || _) eqn:Hcsrf; [done|]. apply validCSRF_inv in Hcsrf as [Hc Hf].
  split; [by eapply reads_authentic|]. intros [approvals|err]; [|done]. simpl. case_bool_decide; [done|].
  case_bool_decide; (split; [|by intros [|]]); exists i; do 4 (split; [done|]); by intros ? [= <-].
Qed.

Lemma ui_ServeHTTP_authentic : every console_authentic (ui_ServeHTTP secret verifier r).
Proof.
  unfold ui_ServeHTTP, ui_page. repeat (case_match; try done).
  - apply verified_authentic. intros i Hi Hs Ht. split; [by eapply reads_authentic|]. by intros [|].
  - apply ui_decide_authentic. unfold method_matches in *. rewrite orb_false_r in *.
    by match goal with H : bool_decide _ = true |- _ => apply bool_decide_eq_true in H end.
  - apply verified_authentic. intros i Hi Hs Ht. split; [by eapply reads_authentic|]. intros [run|]; [|done].
    split; [by eapply reads_authentic|]. by intros [|].
Qed.
End properties.

(** C11: whatever the control plane answers, the console asks it only on behalf of the tenant of a
    complete verified identity, and decides on an approval only for a POST that brings the token of that
    very subject and tenant, in the cookie and in the form; a token of another subject or tenant is
    never accepted, unless SHA-256 has a collision. *)
Theorem console_decides_with_token secret verifier r :
  every (λ X u, console_authentic secret verifier r X u ∧
    ∀ i j, verifier r = Ok i → actor_of u ≠ None → no_nul (ui_Subject i) = true → no_nul (ui_Subject j) = true →
      ur_Cookie r = Some (csrfToken secret j) → ui_Subject j = ui_Subject i ∧ ui_TenantID j = ui_TenantID i ∨ collision)
    (ui_ServeHTTP secret verifier r).
Proof.
  eapply every_impl; [|apply ui_ServeHTTP_authentic]. intros X u Hu. split; [done|].
  intros i j Hi Ha Hni Hnj Hj. destruct Hu as (i' & Hi' & _ & _ & _ & Hactor). rewrite Hi in Hi'. injection Hi' as <-.
  destruct (actor_of u) as [actor|]; [|done]. destruct (Hactor actor eq_refl) as (_ & _ & _ & Hc & _).
  rewrite Hc in Hj. injection Hj as Hj. by apply (csrfToken_inj secret).
Qed.

(** The token of the page of approvals gets past the check when the same identity posts it back. *)
Lemma console_token_accepted secret i r form :
  ur_Cookie r = Some (csrfToken secret i) → ur_Form r = Ok form → form !! "csrf_token" = Some (csrfToken secret i) →
  bool_decide (is_Some (failure (ur_Form r))) || negb (validCSRF secret r i) = false.
Proof.
  intros Hc Hf Ht. unfold validCSRF, get. rewrite Hc, Hf, Ht. clear. generalize (csrfToken secret i). intros t. simpl. by rewrite bool_decide_true.

Qed.

(** Ann approves on the console: the pending approvals of her tenant are asked for, and then the decision. *)
Definition ann : UIdentity := {| ui_Subject := "ann"; ui_TenantID := "acme"; ui_Roles := ["owner"] |}.
Definition ann_approves (secret : string) : UIRequest :=
  {| ur_Request := {| rq_Method := "POST"; rq_Path := ["ui"; "approvals"; "a1:approve"];
       rq_Header := {[ "X-Actor-ID" := "ann"; "X-Tenant-ID" := "acme"; "X-Actor-Roles" := "owner" ]}; rq_Body := Ok "" |};
     ur_Cookie := Some (csrfToken secret ann); ur_Form := Ok {[ "csrf_token" := csrfToken secret ann ]}; ur_TLS := true |}.

Example console_approves secret (summary : ApprovalSummary) :
  as_RunID summary = "run" → ap_ID (as_Approval summary) = "a1" →
  ∃ k k', ui_ServeHTTP secret HeaderIdentityVerifier (ann_approves secret) = Ask (UPendingApprovals "acme") k ∧
    k (Ok [summary]) = Ask (UDecideApproval "acme" "run" "a1" "ann" ["owner"] true) k'.
Proof.
  intros Hrun Hid.
  assert (Hserve : ui_ServeHTTP secret HeaderIdentityVerifier (ann_approves secret) =
                   ui_decide secret HeaderIdentityVerifier (ann_approves secret) "a1:approve") by reflexivity.
  assert (Hann : HeaderIdentityVerifier (ann_approves secret) = Ok ann) by reflexivity.
  assert (Hop : ui_splitOperation "a1:approve" = Some ("a1", "approve")) by reflexivity.
  rewrite Hserve. unfold ui_decide, verified. rewrite Hann. cbn [bool_decide orb ui_Subject ui_TenantID ann]. rewrite Hop.
  rewrite (console_token_accepted secret ann (ann_approves secret) {[ "csrf_token" := csrfToken secret ann ]} eq_refl eq_refl (lookup_singleton_eq _ _)).
  do 2 eexists. split; [reflexivity|]. simpl. unfold approval_run. simpl. rewrite Hid. simpl. by rewrite Hrun.
Qed.
