(* ===== verification/Workflow.v ===== *)
(** * The release workflow (src/internal/workflow/release.go)

    [ReleaseWorkflow] takes a run through its steps: dependencies, policy, approval,
    scheduling, deployment, observation, verification and rollback, with pause, resume and
    cancel signals in between.

    A Temporal workflow is deterministic code whose effects are activities, timers and
    signals.  Activities, timers and the query handler are the class [ActivityClient] over
    the state of the outside; each call is recorded in the trace.  What a selector returns is
    an input: [approval_wakeup] and [resume_wakeup] list the branches that fired, so a finite
    list is a history of delivered signals, and running out of it is waiting.  Whether a poll
    finds a signal is an oracle.

    The code returns early from everywhere; [flow] has the outcomes of a piece of it: a value
    to go on with, a return from the function with a run and an error, waiting for a signal,
    or a panic (an index out of range, which [WorkflowLaws] excludes). *)
From S2P Require Import Prelude GoStd Sha256 Duration Domain Planner Budget Waves Scheduler Store Policy Executor Engine.
From S2P Require Import Durable Activities Application.
Open Scope Z_scope.

(** ** Helpers that do not call activities *)

(** [deterministicID] *)
Definition deterministicID (prefix : string) (parts : list string) : string :=
  prefix +:+ "_" +:+ EncodeToString (take 12 (Sum256 (Join parts NUL))).

(** [observationDuration] *)
Definition observationDuration (value : string) : duration :=
  match ParseDuration value with
  | Err _ => Second
  | Ok d => if d <=? 0 then Second else d
  end.

(** [audit.EvidenceDetails] *)
Definition EvidenceDetails (e : AdapterEvidence) : details :=
  {[ "status" := AString (aev_Status e); "reason_code" := AString (aev_ReasonCode e); "source" := AString (aev_Source e);
     "query_hash" := AString (aev_QueryHash e); "window_from" := ATime (ow_From (aev_Window e));
     "window_to" := ATime (ow_To (aev_Window e)); "observed_at" := ATime (aev_ObservedAt e);
     "observed_value" := AFloat (aev_ObservedValue e); "threshold" := AFloat (aev_Threshold e);
     "adapter_version" := AString (aev_AdapterVersion e); "evidence_hash" := AString (aev_EvidenceHash e) ]}.

(** The fields of a [scheduler.Blocked] in an audit detail. *)
Definition Blocked_fields (b : Blocked) : string * string * Z := (bl_Dimension b, bl_Key b, bl_Limit b).

(** The steps of a plan, phase by phase. *)
Definition plan_steps (plan : ReleasePlan) : list PlanStep := phase ← plan_Phases plan; ph_Steps phase.

(** The names of the rollout dependencies of a planned step. *)
Definition rollout_dependencies (step : PlanStep) : list string :=
  dep_Service <$> filter (λ d, dep_Service d ≠ "" ∧ EnforcesRolloutOrder (dep_Type d) = true) (ps_Dependencies step).

(** [unmetDependency]; the empty string is [None]. *)
Definition unmetDependency (plan : ReleasePlan) (service : string) (selected succeeded : gset string) : option string :=
  head (filter (λ d, d ∈ selected ∧ d ∉ succeeded)
    (step ← filter (λ s, ps_Service s = service) (plan_steps plan); rollout_dependencies step)).

(** The [scheduler.Step] of a planned step. *)
Definition scheduled_step (step : PlanStep) (dependencies : list string) : Step :=
  let s := ps_Scheduling step in
  {| ss_ID := ps_Service step; ss_Phase := ps_Phase step; ss_Tenant := sc_TenantID s; ss_Environment := sc_Environment s;
     ss_Region := sc_Region s; ss_Cluster := sc_Cluster s; ss_Team := sc_Team s; ss_RiskTier := sc_RiskTier s;
     ss_RunnerGroup := sc_RunnerGroup s; ss_FailureDomains := sc_FailureDomains s; ss_Dependencies := dependencies |}.

(** [schedulingStep] *)
Definition schedulingStep (run : ReleaseRun) (releaseStep : ReleaseStep) : Step :=
  match filter (λ s, ps_Service s = st_Service releaseStep) (plan_steps (run_Plan run)) with
  | step :: _ => scheduled_step step (rollout_dependencies step)
  | [] =>
      {| ss_ID := st_Service releaseStep; ss_Phase := st_Phase releaseStep; ss_Tenant := run_TenantID run;
         ss_Environment := run_Environment run; ss_Region := run_Region run; ss_Cluster := run_Cluster run; ss_Team := "";
         ss_RiskTier := ""; ss_RunnerGroup := ""; ss_FailureDomains := []; ss_Dependencies := [] |}
  end.

(** The loop of [assignWaves] that writes the waves into the steps: the steps after it, and an error or nil. *)
Fixpoint set_waves (planned : gset string) (waveByService : gmap string Z) (steps : list ReleaseStep) :
    list ReleaseStep * option error :=
  match steps with
  | [] => ([], None)
  | step :: rest =>
      if negb (bool_decide (st_Service step ∈ planned))
      then (steps, Some (Errorf ("release step " +:+ quote (st_Service step) +:+ " is absent from plan") None))
      else let '(rest, err) := set_waves planned waveByService rest in
           (step <| st_Wave := get 0 waveByService (st_Service step) |> :: rest, err)
  end.

(** The [scheduler.Step]s [assignWaves] builds: dependencies only on services of the run. *)
Definition wave_steps (run : ReleaseRun) : list Step :=
  let selected : gset string := list_to_set (st_Service <$> run_Steps run) in
  (λ s, scheduled_step s (filter (λ d, d ∈ selected) (rollout_dependencies s))) <$> plan_steps (run_Plan run).

(** The wave of every service. *)
Definition waveByService (waves : list Wave) : gmap string Z :=
  foldl (λ m p, <[p.1 := p.2]> m) ∅ (wave ← waves; (λ step, (ss_ID step, wv_Number wave)) <$> wv_Steps wave).

(** [assignWaves]: the run after it, and an error or nil; [None] would be an unfinished loop of
    [BuildWaves], which [BuildWaves_total] excludes. *)
Definition assignWaves `{!MapOrder} (run : ReleaseRun) : option (ReleaseRun * option error) :=
  let planned : gset string := list_to_set (ps_Service <$> plan_steps (run_Plan run)) in
  match BuildWaves (wave_steps run) DefaultLimits with
  | None => None
  | Some (Err err) => Some (run, Some (Errorf ("build safe release waves: " +:+ Error err) (Some err)))
  | Some (Ok waves) =>
      let '(steps, err) := set_waves planned (waveByService waves) (run_Steps run) in
      Some (run <| run_Steps := steps |>, err)
  end.

(** [run.Steps[index] = step] *)
Definition set_step (run : ReleaseRun) (index : nat) (step : ReleaseStep) : ReleaseRun :=
  run <| run_Steps := <[index := step]> (run_Steps run) |>.

(** [cancelDownstream(&run, from)] *)
Definition cancel_from (from : nat) (run : ReleaseRun) : ReleaseRun :=
  run <| run_Steps := take from (run_Steps run) ++ cancelDownstream (drop from (run_Steps run)) |>.

(** [step.Status = ...; run.Status = ...; cancelDownstream(&run, index+1)] *)
Definition halt_run (run : ReleaseRun) (index : nat) (step : ReleaseStep) (status : RunStatus) : ReleaseRun :=
  cancel_from (S index) ((set_step run index step) <| run_Status := status |>).

(** The loop of [cancelRun]. *)
Definition cancel_waiting (step : ReleaseStep) : ReleaseStep :=
  if bool_decide (st_Status step = StepPending) || bool_decide (st_Status step = StepWaitingApproval)
  then step <| st_Status := StepCancelled |> else step.

(** The input of the Deploy activity. *)
Definition deploy_input (run : ReleaseRun) (step : ReleaseStep) : DeployInput :=
  {| di_RunID := run_ID run; di_RequestedBy := run_RequestedBy run; di_AgentID := agent_ID (run_Agent run);
     di_Service := st_Service step; di_Environment := run_Environment run;
     di_DesiredVersion := ch_DesiredVersion (st_Change step); di_IdempotencyKey := idempotencyKey run step |}.

(** ** Interaction *)

(** What woke the selector of [awaitApproval]. *)
Inductive approval_wakeup :=
| GotApproval (signal : ApprovalSignal)
| GotPause (signal : ControlSignal)
| GotCancel (signal : ControlSignal)
| TimedOut.

(** What woke the selector of [waitForResume]. *)
Inductive resume_wakeup :=
| GotResume (signal : ControlSignal)
| GotResumeCancel (signal : ControlSignal).

(** Activities, timers and the query handler. *)
Class ActivityClient (E : Type) := {
  client_SetQueryHandler : E → E * result error unit;
  client_Sleep : duration → E → E * result error unit;
  activity_PersistRun : PersistInput → E → E * result error ReleaseRun;
  activity_EvaluateStep : ReleaseRun → ReleaseStep → E → E * result error PolicyDecision;
  activity_AcquireSchedule : string → Step → E → E * result error ScheduleResult;
  activity_CompleteSchedule : string → string → bool → E → E * result error unit;
  activity_Deploy : DeployInput → E → E * result error DeployResult;
  activity_Verify : Deployment → E → E * result error VerificationResult;
  activity_Rollback : RollbackInput → E → E * result error RollbackResult;
}.

(** The calls and the approval signals a workflow took, in order. *)
Inductive wf_effect :=
| WPersist (run : ReleaseRun) (eventType : string)
| WEvaluate (service : string) (r : result error PolicyDecision)
| WApproval (signal : ApprovalSignal)
| WAcquire (step : string) (allowed : bool)
| WComplete (step : string) (failed : bool)
| WDeploy (input : DeployInput)
| WVerify (deployment : Deployment)
| WRollback (input : RollbackInput)
| WSleep (d : duration).

Inductive flow (A : Type) :=
| Go (a : A)
| Return (run : ReleaseRun) (err : option error)
| Waiting
| Panic.
Arguments Go {A}.
Arguments Return {A}.
Arguments Waiting {A}.
Arguments Panic {A}.

Record WfWorld {E : Type} := {
  ww_env : E;
  ww_approvals : list approval_wakeup;
  ww_resumes : list resume_wakeup;
  ww_ticks : nat;
  ww_polls : nat;
  ww_trace : list wf_effect;
}.
Arguments WfWorld : clear implicits.

#[export] Instance eta_WfWorld E : Eta (WfWorld E) := λ r,
  {| ww_env := ww_env r; ww_approvals := ww_approvals r; ww_resumes := ww_resumes r; ww_ticks := ww_ticks r;
     ww_polls := ww_polls r; ww_trace := ww_trace r |}.

(** Pieces of workflow code. *)
Definition WF (E A : Type) : Type := WfWorld E → WfWorld E * flow A.

#[export] Instance wf_ret E : MRet (WF E) := λ A a w, (w, Go a).
#[export] Instance wf_bind E : MBind (WF E) := λ A B f m w,
  match m w with
  | (w, Go a) => f a w
  | (w, Return run err) => (w, Return run err)
  | (w, Waiting) => (w, Waiting)
  | (w, Panic) => (w, Panic)
  end.

Section workflow.
Context `{!MapOrder} {E : Type} `{!ActivityClient E}.
(** [workflow.Now], and whether a poll of the cancel or pause channel finds a signal. *)
Context (now_at : nat → time) (cancel_polled pause_polled : nat → bool).

Definition return_ {A} (run : ReleaseRun) (err : option error) : WF E A := λ w, (w, Return run err).
Definition waiting {A} : WF E A := λ w, (w, Waiting).
Definition panic {A} : WF E A := λ w, (w, Panic).

(** A call of a function that returns a run and an error. *)
Definition call (m : WF E ReleaseRun) : WF E (ReleaseRun * option error) := λ w,
  match m w with
  | (w, Go run) => (w, Go (run, None))
  | (w, Return run err) => (w, Go (run, err))
  | (w, Waiting) => (w, Waiting)
  | (w, Panic) => (w, Panic)
  end.

(** [if err != nil { return run, err }] *)
Definition try {A} (run : ReleaseRun) (r : result error A) : WF E A :=
  match r with Ok a => mret a | Err err => return_ run (Some err) end.

Definition wf_now : WF E time := λ w, (w <| ww_ticks ::= Datatypes.S |>, Go (now_at (ww_ticks w))).

Definition execute {A} (f : E → E * result error A) (event : result error A → wf_effect) : WF E (result error A) := λ w,
  let '(e, r) := f (ww_env w) in (w <| ww_env := e |> <| ww_trace ::= λ l, l ++ [event r] |>, Go r).

(** The wake-ups that are left. *)
Definition with_resumes {A} (f : list resume_wakeup → WF E A) : WF E A := λ w, f (ww_resumes w) w.
Definition set_resumes (l : list resume_wakeup) : WF E unit := λ w, (w <| ww_resumes := l |>, Go tt).
Definition with_approvals {A} (f : list approval_wakeup → WF E A) : WF E A := λ w, f (ww_approvals w) w.
Definition set_approvals (l : list approval_wakeup) : WF E unit := λ w, (w <| ww_approvals := l |>, Go tt).

Definition record_signal (signal : ApprovalSignal) : WF E unit :=
  λ w, (w <| ww_trace ::= λ l, l ++ [WApproval signal] |>, Go tt).

(** [run.UpdatedAt = workflow.Now(ctx).UTC()] *)
Definition touch (run : ReleaseRun) : WF E ReleaseRun := t ← wf_now; mret (run <| run_UpdatedAt := t |>).

(** [run, err = persist(...); if err != nil { return run, err }]: on an error the run is the zero value. *)
Definition persist (run : ReleaseRun) (audits : list AuditIntent) (eventType : string) : WF E ReleaseRun :=
  r ← execute (activity_PersistRun {| pin_Run := run; pin_Audits := audits; pin_EventType := eventType |})
        (λ _, WPersist run eventType);
  try zero_ReleaseRun r.

(** [return persist(...)] *)
Definition persist_and_return {A} (run : ReleaseRun) (audits : list AuditIntent) (eventType : string) : WF E A :=
  run ← persist run audits eventType; return_ run None.

Definition get_step (run : ReleaseRun) (index : nat) : WF E ReleaseStep :=
  match run_Steps run !! index with Some step => mret step | None => panic end.

Definition intent (actorType actorID action resourceType resourceID res : string) (d : details) : AuditIntent :=
  {| ai_ActorType := actorType; ai_ActorID := actorID; ai_Action := action; ai_ResourceType := resourceType;
     ai_ResourceID := resourceID; ai_Result := res; ai_Details := d |}.

(** [completeScheduling], and the return on its error. *)
Definition completeScheduling (run : ReleaseRun) (stepID : string) (failed : bool) : WF E unit :=
  r ← execute (activity_CompleteSchedule (run_ID run) stepID failed) (λ _, WComplete stepID failed); try run r.

Definition sleep (run : ReleaseRun) (d : duration) : WF E unit := r ← execute (client_Sleep d) (λ _, WSleep d); try run r.

(** [cancelRun] *)
Definition cancelRun (run : ReleaseRun) (from : nat) (actor : string) : WF E ReleaseRun :=
  run ← touch (run <| run_Status := RunCancelled |>
                   <| run_Steps := take from (run_Steps run) ++ (cancel_waiting <$> drop from (run_Steps run)) |>);
  persist run [intent "user" actor "release.cancel" "release_run" (run_ID run) "CANCELLED" ∅] "release.cancelled".

(** The loop of [waitForResume] over what wakes it. *)
Fixpoint resume_loop (wakeups : list resume_wakeup) (run : ReleaseRun) (index : nat) : WF E ReleaseRun :=
  match wakeups with
  | [] => waiting
  | wakeup :: wakeups =>
      _ ← set_resumes wakeups;
      match wakeup with
      | GotResumeCancel cancel =>
          if bool_decide (cs_Actor cancel = "") then resume_loop wakeups run index
          else cancelRun run index (cs_Actor cancel)
      | GotResume resume =>
          if bool_decide (cs_Actor resume = "") then resume_loop wakeups run index
          else
            let status := if bool_decide (run_PausedFrom run = RunStatusNone) then RunRunning else run_PausedFrom run in
            run ← touch (run <| run_Status := status |> <| run_PausedFrom := RunStatusNone |>);
            persist run [] "release.resumed"
      end
  end.

(** [waitForResume] *)
Definition waitForResume (run : ReleaseRun) (index : nat) : WF E ReleaseRun :=
  run ← touch (run <| run_PausedFrom := run_Status run |> <| run_Status := RunPaused |>);
  run ← persist run [] "release.paused";
  with_resumes (λ wakeups, resume_loop wakeups run index).

(** The action of an approval signal. *)
Definition signal_action (signal : ApprovalSignal) : string :=
  if bool_decide (sg_Action signal = "") then if sg_Approve signal then "approve" else "deny" else sg_Action signal.

(** The condition under which a signal is ignored. *)
Definition ignored (run : ReleaseRun) (approval : Approval) (signal : ApprovalSignal) : bool :=
  let action := signal_action signal in
  negb (bool_decide (sg_ApprovalID signal = ap_ID approval)) || bool_decide (sg_Actor signal = "") ||
  (bool_decide (action = "approve") && bool_decide (sg_Actor signal = run_RequestedBy run)) ||
  ((bool_decide (action = "approve") || bool_decide (action = "revoke")) &&
   negb (containsAll (sg_Roles signal) (ap_RequiredRoles approval))).

(** What [awaitApproval] does with a signal it does not ignore. *)
Definition decide_approval (run : ReleaseRun) (index : nat) (step : ReleaseStep) (approval : Approval)
    (signal : ApprovalSignal) : WF E ReleaseRun :=
  let action := signal_action signal in
  decidedAt ← wf_now;
  let decided status := approval <| ap_DecidedBy := sg_Actor signal |> <| ap_DecidedAt := Some decidedAt |>
                                 <| ap_Status := status |> in
  let audit name res := [intent "user" (sg_Actor signal) name "approval" (sg_ApprovalID signal) res ∅] in
  if bool_decide (action = "revoke") then
    persist ((halt_run run index (step <| st_Approval := Some (decided ApprovalRevoked) |> <| st_Status := StepBlocked |>)
                RunBlocked) <| run_UpdatedAt := decidedAt |>) (audit "approval.revoke" "REVOKED") "approval.revoked"
  else if negb (bool_decide (action = "approve")) then
    persist ((halt_run run index (step <| st_Approval := Some (decided ApprovalDenied) |> <| st_Status := StepBlocked |>)
                RunBlocked) <| run_UpdatedAt := decidedAt |>) (audit "approval.decide" "DENIED") "approval.denied"
  else
    persist ((set_step run index (step <| st_Approval := Some (decided ApprovalApproved) |> <| st_Status := StepPending |>))
               <| run_Status := RunRunning |> <| run_UpdatedAt := decidedAt |>)
      (audit "approval.decide" "APPROVED") "approval.approved".

(** The loop of [awaitApproval] over what wakes it; every round starts a timer and so reads the clock. *)
Fixpoint approval_loop (wakeups : list approval_wakeup) (run : ReleaseRun) (index : nat) : WF E ReleaseRun :=
  step ← get_step run index;
  match st_Approval step with
  | None => panic
  | Some approval =>
  _ ← wf_now;
  match wakeups with
  | [] => waiting
  | wakeup :: wakeups =>
      _ ← set_approvals wakeups;
      match wakeup with
      | GotCancel cancel =>
          if bool_decide (cs_Actor cancel = "") then approval_loop wakeups run index
          else cancelRun run index (cs_Actor cancel)
      | GotPause pause =>
          if bool_decide (cs_Actor pause = "") then approval_loop wakeups run index
          else
            '(run, err) ← call (waitForResume run index);
            if bool_decide (err ≠ None) || bool_decide (run_Status run = RunCancelled) then return_ run err
            else approval_loop wakeups run index
      | TimedOut =>
          run ← touch (halt_run run index
                  (step <| st_Approval := Some (approval <| ap_Status := ApprovalExpired |>) |> <| st_Status := StepBlocked |>)
                  RunBlocked);
          persist run [] "approval.expired"
      | GotApproval signal =>
          _ ← record_signal signal;
          if ignored run approval signal then approval_loop wakeups run index
          else decide_approval run index step approval signal
      end
  end end.

(** [awaitApproval] *)
Definition awaitApproval (run : ReleaseRun) (index : nat) (decision : PolicyDecision) : WF E ReleaseRun :=
  t ← wf_now;
  step ← get_step run index;
  let approval :=
    {| ap_ID := deterministicID "approval" [run_ID run; st_Service step]; ap_RequiredRoles := pd_RequiredRoles decision;
       ap_Status := ApprovalPending; ap_PlanHash := plan_Hash (run_Plan run); ap_RequestedAt := t;
       ap_ExpiresAt := Add t (24 * Hour); ap_DecidedBy := ""; ap_DecidedAt := None |} in
  run ← persist ((set_step run index (step <| st_Approval := Some approval |> <| st_Status := StepWaitingApproval |>))
                   <| run_Status := RunWaitingApproval |> <| run_UpdatedAt := t |>)
          [intent "system" "policy-engine" "approval.request" "approval" (ap_ID approval) "PENDING" ∅] "approval.requested";
  with_approvals (λ wakeups, approval_loop wakeups run index).

(** ** The body of the loop *)

(** [verificationProjection] *)
Definition verificationProjection (res : VerificationResult) (checkedAt : time) : Verification :=
  domainVerification res checkedAt.

(** Halt the run at a step, persist it and return. *)
Definition halt_and_return {A} (run : ReleaseRun) (index : nat) (step : ReleaseStep) (status : RunStatus)
    (audits : list AuditIntent) (eventType : string) : WF E A :=
  run ← touch (halt_run run index step status); persist_and_return run audits eventType.

(** The policy evaluation of a step. *)
Definition evaluate_step (run : ReleaseRun) (index : nat) (step : ReleaseStep) : WF E (ReleaseRun * PolicyDecision) :=
  r ← execute (activity_EvaluateStep run step) (WEvaluate (st_Service step));
  decision ← try run r;
  run ← touch (set_step run index (step <| st_Policy := Some decision |>));
  run ← persist run
    [intent "system" "policy-engine" "policy.evaluate" "release_step" (st_Service step)
       (Decision_string (pd_Decision decision))
       {[ "reason_code" := AString (pd_ReasonCode decision); "input_hash" := AString (pd_InputHash decision) ]}]
    "policy.evaluated";
  mret (run, decision).

(** Policy and approval. *)
Definition authorize_step (run : ReleaseRun) (index : nat) (step : ReleaseStep) : WF E ReleaseRun :=
  '(run, decision) ← evaluate_step run index step;
  step ← get_step run index;
  if bool_decide (pd_Decision decision = DecisionDeny) then
    halt_and_return run index (step <| st_Status := StepBlocked |> <| st_Failure := pd_ReasonDetail decision |>)
      RunBlocked [] "release.blocked"
  else if bool_decide (pd_Decision decision = DecisionRequireApproval) then
    '(run, err) ← call (awaitApproval run index decision);
    if bool_decide (err ≠ None) || negb (bool_decide (run_Status run = RunRunning)) then return_ run err else mret run
  else mret run.

(** The scheduler's reservation. *)
Definition acquire_step (run : ReleaseRun) (index : nat) : WF E unit :=
  step ← get_step run index;
  r ← execute (activity_AcquireSchedule (run_ID run) (schedulingStep run step))
        (λ r, WAcquire (st_Service step) match r with Ok res => sr_Allowed res | Err _ => false end);
  res ← try run r;
  if sr_Allowed res then mret tt
  else
    halt_and_return run index
      (step <| st_Status := StepBlocked |> <| st_Failure := "dispatch backpressured: " +:+ sr_Reason res |>) RunBlocked
      [intent "system" "scheduler" "dispatch.block" "release_step" (st_Service step) "BLOCKED"
         {[ "reason" := AString (sr_Reason res); "budget" := AStructs (Blocked_fields <$> sr_BlockedBy res) ]}]
      "dispatch.backpressured".

(** The deployment, up to its result. *)
Definition deploy_part (run : ReleaseRun) (index : nat) : WF E (ReleaseRun * DeployInput * DeployResult) :=
  step ← get_step run index;
  run ← touch (set_step run index (step <| st_Status := StepExecuting |>));
  run ← persist run [] "deployment.executing";
  step ← get_step run index;
  let input := deploy_input run step in
  r ← execute (activity_Deploy input) (λ _, WDeploy input);
  match r with
  | Err _ =>
      _ ← completeScheduling run (st_Service step) true;
      halt_and_return run index
        (step <| st_Status := StepUnknown |> <| st_Failure := "deployment state unknown; reconciliation required" |>)
        RunBlocked [] "deployment.unknown"
  | Ok deployed =>
      mret (set_step run index (step <| st_Execution := Some (dre_Execution deployed) |>), input, deployed)
  end.

(** The step and the run status after an automatic rollback. *)
Definition rollback_outcome (run : ReleaseRun) (index : nat) (step : ReleaseStep) (input : RollbackInput)
    (reason : string) : WF E (ReleaseStep * RunStatus) :=
  let escalated (step : ReleaseStep) failure :=
    (step <| st_Status := StepEscalated |> <| st_Failure := failure |>, RunEscalated) in
  r ← execute (activity_Rollback input) (λ _, WRollback input);
  match r with
  | Err err => mret (escalated step ("rollback failed or unknown: " +:+ Error err))
  | Ok rolledBack =>
      let step := step <| st_RollbackExecution := Some (rre_Execution rolledBack) |> in
      _ ← sleep (set_step run index step) (observationDuration (st_ObservationWindow step));
      r ← execute (activity_Verify (rre_Deployment rolledBack)) (λ _, WVerify (rre_Deployment rolledBack));
      match r with
      | Err err => mret (escalated step ("rollback verification unavailable: " +:+ Error err))
      | Ok rollbackVerification =>
          t ← wf_now;
          let step := step <| st_RollbackVerification := Some (verificationProjection rollbackVerification t) |> in
          if negb (bool_decide (Outcome rollbackVerification = VerificationPass))
          then mret (escalated step ("rollback verification did not pass: " +:+ Outcome rollbackVerification))
          else mret (step <| st_Status := StepRolledBack |> <| st_Failure := reason |>, RunFailed)
      end
  end.

(** A verification that did not pass. *)
Definition rollback_part (run : ReleaseRun) (index : nat) (step : ReleaseStep) (input : DeployInput)
    (deployed : DeployResult) (verification : VerificationResult) : WF E (ReleaseRun * string) :=
  if negb (bool_decide (st_RollbackMode step = RollbackAutomatic)) then
    _ ← completeScheduling (set_step run index step) (st_Service step) true;
    halt_and_return run index
      (step <| st_Status := StepEscalated |>
            <| st_Failure := "verification " +:+ Outcome verification +:+ "; automatic rollback is not authorized: "
                               +:+ st_RollbackMode step |>) RunEscalated
      [intent "system" "verifier" "deployment.verify" "service" (st_Service step) (Outcome verification)
         (EvidenceDetails (vr_Evidence verification))] "release.escalated"
  else
    run ← touch (set_step run index (step <| st_Status := StepRollingBack |>));
    run ← persist run [] "rollback.started";
    step ← get_step run index;
    '(step, status) ← rollback_outcome run index step {| ri_Deploy := input; ri_Deployment := dre_Deployment deployed |}
                        (vr_Reason verification);
    let run := halt_run run index step status in
    _ ← completeScheduling run (st_Service step) true;
    run ← touch run;
    persist_and_return run [] "rollback.finished".

(** From a deployment to the end of the step: the run, and the service that succeeded. *)
Definition verify_part (run : ReleaseRun) (index : nat) (input : DeployInput) (deployed : DeployResult) :
    WF E (ReleaseRun * string) :=
  step ← get_step run index;
  if negb (st_VerificationRequired step) then
    _ ← completeScheduling run (st_Service step) false;
    run ← touch (set_step run index (step <| st_Status := StepSucceeded |>));
    run ← persist run [] "step.succeeded";
    mret (run, st_Service step)
  else
    run ← touch (set_step run index (step <| st_Status := StepVerifying |>));
    run ← persist run [] "deployment.started";
    step ← get_step run index;
    _ ← sleep run (observationDuration (st_ObservationWindow step));
    r ← execute (activity_Verify (dre_Deployment deployed)) (λ _, WVerify (dre_Deployment deployed));
    match r with
    | Err err =>
        _ ← completeScheduling run (st_Service step) true;
        halt_and_return run index
          (step <| st_Status := StepBlocked |> <| st_Failure := "verification unavailable: " +:+ Error err |>)
          RunBlocked [] "verification.unavailable"
    | Ok verification =>
        t ← wf_now;
        let step := step <| st_Verification := Some (verificationProjection verification t) |> in
        if negb (bool_decide (Outcome verification = VerificationPass))
        then rollback_part run index step input deployed verification
        else
          let run := set_step run index (step <| st_Status := StepSucceeded |>) in
          _ ← completeScheduling run (st_Service step) false;
          run ← touch run;
          run ← persist run [intent "system" "verifier" "deployment.verify" "service" (st_Service step) "SUCCEEDED"
                               (EvidenceDetails (vr_Evidence verification))] "step.succeeded";
          mret (run, st_Service step)
    end.

Definition poll (oracle : nat → bool) : WF E bool := λ w, (w <| ww_polls ::= Datatypes.S |>, Go (oracle (ww_polls w))).

(** The cancel and pause signals that are there when a step begins. *)
Definition interrupt_step (run : ReleaseRun) (index : nat) : WF E ReleaseRun :=
  cancelled ← poll cancel_polled;
  if (cancelled : bool) then run ← cancelRun run index "signal"; return_ run None
  else
    paused ← poll pause_polled;
    if (paused : bool) then
      '(run, err) ← call (waitForResume run index);
      if bool_decide (err ≠ None) || bool_decide (run_Status run = RunCancelled) then return_ run err else mret run
    else mret run.

(** One iteration: the run, and the services that succeeded. *)
Definition workflow_step (selected : gset string) (index : nat) (run : ReleaseRun) (succeeded : gset string) :
    WF E (ReleaseRun * gset string) :=
  run ← interrupt_step run index;
  step ← get_step run index;
  if bool_decide (st_Status step = StepSucceeded) then mret (run, succeeded)
  else match unmetDependency (run_Plan run) (st_Service step) selected succeeded with
  | Some unmet =>
      halt_and_return run index
        (step <| st_Status := StepBlocked |> <| st_Failure := "selected dependency did not succeed: " +:+ unmet |>) RunBlocked
        [intent "system" "temporal" "dependency.block" "service" (st_Service step) "BLOCKED" ∅] "release.blocked"
  | None =>
      run ← authorize_step run index step;
      _ ← acquire_step run index;
      deployment ← deploy_part run index;
      let '(run, input, deployed) := deployment in
      '(run, service) ← verify_part run index input deployed;
      mret (run, {[ service ]} ∪ succeeded)
  end.

(** [for index := range run.Steps] *)
Fixpoint workflow_loop (selected : gset string) (indices : list nat) (run : ReleaseRun) (succeeded : gset string) :
    WF E ReleaseRun :=
  match indices with
  | [] => mret run
  | index :: indices =>
      '(run, succeeded) ← workflow_step selected index run succeeded; workflow_loop selected indices run succeeded
  end.

Definition set_query_handler (run : ReleaseRun) : WF E unit := λ w,
  let '(e, r) := client_SetQueryHandler (ww_env w) in try run r (w <| ww_env := e |>).

(** [ReleaseWorkflow] *)
Definition ReleaseWorkflow (run : ReleaseRun) : WF E ReleaseRun :=
  _ ← set_query_handler run;
  run ← touch (run <| run_Status := RunRunning |>);
  run ← persist run
    [intent "system" "temporal" "release.workflow.start" "release_run" (run_ID run) "RUNNING" ∅] "release.workflow.started";
  let selected : gset string := list_to_set (st_Service <$> run_Steps run) in
  let succeeded : gset string :=
    list_to_set (st_Service <$> filter (λ s, st_Status s = StepSucceeded) (run_Steps run)) in
  match assignWaves run with
  | None => panic
  | Some (run, Some err) => return_ run (Some err)
  | Some (run, None) =>
      run ← workflow_loop selected (seq 0 (length (run_Steps run))) run succeeded;
      run ← touch (run <| run_Status := RunSucceeded |>);
      persist_and_return run
        [intent "system" "temporal" "release.workflow.complete" "release_run" (run_ID run) "SUCCEEDED" ∅] "release.succeeded"
  end.
End workflow.

(** ** Reasoning about workflow code *)

(** The deployments, the granted reservations and the completions of a trace. *)
Definition deploys_of (evs : list wf_effect) : list DeployInput :=
  omap (λ e, match e with WDeploy input => Some input | _ => None end) evs.
Definition acquires (evs : list wf_effect) : list string :=
  omap (λ e, match e with WAcquire step true => Some step | _ => None end) evs.
Definition completes (evs : list wf_effect) : list string :=
  omap (λ e, match e with WComplete step _ => Some step | _ => None end) evs.

Lemma deploys_of_app evs evs' : deploys_of (evs ++ evs') = deploys_of evs ++ deploys_of evs'.
Proof. apply omap_app. Qed.
Lemma acquires_app evs evs' : acquires (evs ++ evs') = acquires evs ++ acquires evs'.
Proof. apply omap_app. Qed.
Lemma completes_app evs evs' : completes (evs ++ evs') = completes evs ++ completes evs'.
Proof. apply omap_app. Qed.

(** None of the three. *)
Definition plain (evs : list wf_effect) : Prop := deploys_of evs = [] ∧ acquires evs = [] ∧ completes evs = [].

Lemma plain_app evs evs' : plain evs → plain evs' → plain (evs ++ evs').
Proof. unfold plain. rewrite deploys_of_app, acquires_app, completes_app. intros (-> & -> & ->) (-> & -> & ->). done. Qed.

Lemma plain_nil : plain [].
Proof. done. Qed.

Lemma plain_persist run eventType : plain [WPersist run eventType].
Proof. done. Qed.

Create HintDb workflow.
#[export] Hint Resolve plain_app plain_nil plain_persist : workflow.

(** Every deployment of the events satisfies [G], given what came before it. *)
Definition guarded (G : list wf_effect → DeployInput → Prop) (evs : list wf_effect) : Prop :=
  ∀ pre input post, evs = pre ++ WDeploy input :: post → G pre input.

Lemma guarded_none G evs : deploys_of evs = [] → guarded G evs.
Proof.
  intros Hd pre input post ->. rewrite deploys_of_app in Hd. simpl in Hd. by apply app_nil in Hd as [_ ?].
Qed.

Lemma guarded_app G evs evs' :
  guarded G evs → guarded (λ pre, G (evs ++ pre)) evs' → guarded G (evs ++ evs').
Proof.
  intros H1 H2 pre input post Heq.
  apply app_eq_inv in Heq as [(l & -> & Hl)|(l & -> & Hl)].
  - destruct l as [|e l]; simpl in Hl.
    + specialize (H2 [] input post). simpl in H2. rewrite !app_nil_r in H2. by apply H2.
    + injection Hl as <- ->. by apply (H1 pre input l).
  - by apply (H2 l input post).
Qed.

(** How a run changes while its step [index] is worked on. *)
Record kept (index : nat) (run run' : ReleaseRun) : Prop := {
  kept_plan : run_Plan run' = run_Plan run;
  kept_requester : run_RequestedBy run' = run_RequestedBy run;
  kept_id : run_ID run' = run_ID run;
  kept_length : length (run_Steps run') = length (run_Steps run);
  kept_services : st_Service <$> run_Steps run' = st_Service <$> run_Steps run;
  kept_others : ∀ j, j ≠ index → run_Steps run' !! j = run_Steps run !! j;
}.

Lemma kept_refl index run : kept index run run.
Proof. by split. Qed.

Lemma kept_trans index r1 r2 r3 : kept index r1 r2 → kept index r2 r3 → kept index r1 r3.
Proof.
  intros [? ? ? ? ? H12] [? ? ? ? ? H23]. split; try congruence. intros j Hj. by rewrite H23, H12.
Qed.

Lemma kept_same index run run' :
  run_Plan run' = run_Plan run → run_RequestedBy run' = run_RequestedBy run → run_ID run' = run_ID run →
  run_Steps run' = run_Steps run → kept index run run'.
Proof. intros Hp Hr Hi Hs. split; try done; by rewrite Hs. Qed.

Lemma kept_touch index run t : kept index run (run <| run_UpdatedAt := t |>).
Proof. by apply kept_same. Qed.

Lemma kept_persisted index run : kept index run (persisted run).
Proof. by apply kept_same. Qed.

Lemma kept_set_step index run step step' :
  run_Steps run !! index = Some step → st_Service step' = st_Service step → kept index run (set_step run index step').
Proof.
  intros Hs Hv. split; try done; unfold set_step, modify; simpl.
  - apply length_insert.
  - rewrite list_fmap_insert. apply list_insert_id. by rewrite list_lookup_fmap, Hs, Hv.
  - intros j Hj. by apply list_lookup_insert_ne.
Qed.

Lemma lookup_set_step index run step step' :
  run_Steps run !! index = Some step → run_Steps (set_step run index step') !! index = Some step'.
Proof. intros Hs. unfold set_step, modify; simpl. apply list_lookup_insert_eq. by eapply lookup_lt_Some. Qed.

#[export] Hint Resolve kept_refl kept_trans kept_touch kept_persisted kept_set_step : workflow.

(** What the activities promise the workflow: a persisted run comes back with its next version. *)
Class WorkflowLaws (E : Type) `{!ActivityClient E} := {
  persist_law input e e' r : activity_PersistRun input e = (e', Ok r) → r = persisted (pin_Run input);
}.

Section yields.
Context {E : Type}.

(** The events of a piece of code satisfy [N] whatever its outcome, [G] with the value it goes on
    with, and [R] with the run it returns without an error; and it does not panic. *)
Definition yields {A} (m : WF E A) (N : list wf_effect → Prop) (G : list wf_effect → A → Prop)
    (R : list wf_effect → ReleaseRun → Prop) : Prop :=
  ∀ w w' out, m w = (w', out) → ∃ evs, ww_trace w' = ww_trace w ++ evs ∧ N evs ∧
    match out with
    | Go a => G evs a | Return run None => R evs run | Return _ (Some _) | Waiting => True | Panic => False
    end.

Lemma yields_ret {A} (a : A) (N : list wf_effect → Prop) (G : list wf_effect → A → Prop) R :
  N [] → G [] a → yields (mret a) N G R.
Proof. intros HN HG w w' out [= <- <-]. exists []. by rewrite app_nil_r. Qed.

Lemma yields_bind {A B} (m : WF E A) (f : A → WF E B) N1 G1 R1 N G R :
  yields m N1 G1 R1 → (∀ evs, N1 evs → N evs) → (∀ evs run, N1 evs → R1 evs run → R evs run) →
  (∀ evs a, N1 evs → G1 evs a →
     yields (f a) (λ evs', N (evs ++ evs')) (λ evs' b, G (evs ++ evs') b) (λ evs' run, R (evs ++ evs') run)) →
  yields (m ≫= f) N G R.
Proof.
  intros Hm HN HR Hf w w' out. unfold mbind, wf_bind. destruct (m w) as [w1 o] eqn:Hw.
  destruct (Hm w w1 o Hw) as (evs & Ht & HN1 & Ho). destruct o as [a|run err| |].
  - intros Hfa. destruct (Hf evs a HN1 Ho w1 w' out Hfa) as (evs' & Ht' & HN' & Ho').
    exists (evs ++ evs'). rewrite Ht', Ht, (assoc_L (++)). done.
  - intros [= <- <-]. exists evs. destruct err; auto.
  - intros [= <- <-]. exists evs. auto.
  - intros [= <- <-]. exists evs. auto.
Qed.

Lemma yields_weaken {A} (m : WF E A) (N N' : list wf_effect → Prop) (G G' : list wf_effect → A → Prop) R R' :
  yields m N G R → (∀ evs, N evs → N' evs) → (∀ evs a, N evs → G evs a → G' evs a) →
  (∀ evs run, N evs → R evs run → R' evs run) → yields m N' G' R'.
Proof.
  intros Hm HN HG HR w w' out Hw. destruct (Hm w w' out Hw) as (evs & Ht & HN1 & Ho). exists evs.
  split; [done|]. split; [auto|]. destruct out as [a|run [err|]| |]; auto.
Qed.

Lemma yields_return {A} run err (N : list wf_effect → Prop) (G : list wf_effect → A → Prop) (R : list wf_effect → ReleaseRun → Prop) :
  N [] → (err = None → R [] run) → yields (return_ run err) N G R.
Proof. intros HN HR w w' out [= <- <-]. exists []. rewrite app_nil_r. destruct err; auto. Qed.

Lemma yields_waiting {A} (N : list wf_effect → Prop) (G : list wf_effect → A → Prop) R : N [] → yields waiting N G R.
Proof. intros HN w w' out [= <- <-]. exists []. by rewrite app_nil_r. Qed.

(** A function whose result is looked at: returning without an error counts as a value. *)
Lemma yields_call (m : WF E ReleaseRun) N G R :
  yields m N G R →
  yields (call m) N (λ evs p, match p.2 with None => G evs p.1 ∨ R evs p.1 | Some _ => True end) (λ _ _, False).
Proof.
  intros Hm w w' out. unfold call. destruct (m w) as [w1 o] eqn:Hw.
  destruct (Hm w w1 o Hw) as (evs & Ht & HN1 & Ho).
  destruct o as [a|run [err|]| |]; intros [= <- <-]; exists evs; simpl; auto.
Qed.
End yields.

(** ** The pieces *)

Section pieces.
Context `{!MapOrder} {E : Type} `{!ActivityClient E, !WorkflowLaws E}.
Context (now_at : nat → time) (cancel_polled pause_polled : nat → bool).

Lemma execute_yields {A} (f : E → E * result error A) event :
  yields (execute f event) (λ evs, ∃ r, evs = [event r]) (λ evs r, evs = [event r]) (λ _ _, False).
Proof. intros w w' out. unfold execute. destruct (f (ww_env w)) as [e r]. intros [= <- <-]. exists [event r]. eauto. Qed.

(** An activity whose error ends the workflow. *)
Lemma execute_try_yields {A B} (f : E → E * result error A) event run (k : A → WF E B) N G R :
  (∀ r, N [event r]) →
  (∀ a, yields (k a) (λ evs, N (event (Ok a) :: evs)) (λ evs b, G (event (Ok a) :: evs) b) (λ evs run, R (event (Ok a) :: evs) run)) →
  yields (r ← execute f event; a ← try run r; k a) N G R.
Proof.
  intros HN Hk. eapply yields_bind; [apply execute_yields| |done|].
  - intros evs [r ->]. apply HN.
  - intros evs [a|err] _ ->; simpl; [apply Hk|]. by apply yields_return.
Qed.

Lemma touch_yields run N G R :
  N [] → (∀ t, G [] (run <| run_UpdatedAt := t |>)) → yields (E:=E) (touch now_at run) N G R.
Proof. intros HN HG w w' out [= <- <-]. exists []. rewrite app_nil_r. split; [done|]. split; [done|apply HG]. Qed.

Lemma now_yields N G R : N [] → (∀ t, G [] t) → yields (E:=E) (wf_now now_at) N G R.
Proof. intros HN HG w w' out [= <- <-]. exists []. rewrite app_nil_r. split; [done|]. split; [done|apply HG]. Qed.

Lemma get_step_then {A} run index step (f : ReleaseStep → WF E A) N G R :
  run_Steps run !! index = Some step → yields (f step) N G R → yields (s ← get_step run index; f s) N G R.
Proof. intros Hs Hf w w' out. unfold mbind, wf_bind, get_step. rewrite Hs. apply Hf. Qed.

Lemma persist_yields run audits eventType :
  yields (E:=E) (persist run audits eventType) (λ evs, evs = [WPersist run eventType])
    (λ evs r, r = persisted run) (λ _ _, False).
Proof.
  intros w w' out. unfold persist, execute, mbind, wf_bind.
  destruct (activity_PersistRun _ (ww_env w)) as [e r] eqn:Hp. destruct r as [r|err]; intros [= <- <-]; eexists;
    (split; [reflexivity|]); (split; [done|]); [by apply persist_law in Hp|done].
Qed.

(** [touch] then [persist]. *)
Lemma save_yields run (audits : ReleaseRun → list AuditIntent) eventType N G R :
  N [] → (∀ t, N [WPersist (run <| run_UpdatedAt := t |>) eventType]) →
  (∀ t, G [WPersist (run <| run_UpdatedAt := t |>) eventType] (persisted (run <| run_UpdatedAt := t |>))) →
  yields (E:=E) (run ← touch now_at run; persist run (audits run) eventType) N G R.
Proof.
  intros HN0 HN HG. eapply yields_bind.
  - apply (touch_yields run (λ evs, evs = []) (λ evs r, evs = [] ∧ ∃ t, r = run <| run_UpdatedAt := t |>) (λ _ _, False)); eauto.
  - by intros evs ->.
  - done.
  - intros evs r _ [-> [t ->]]. eapply yields_weaken; [apply persist_yields|..]; simpl.
    + intros evs ->. apply HN.
    + intros evs r -> ->. apply HG.
    + done.
Qed.

Lemma completeScheduling_yields run step failed :
  yields (E:=E) (completeScheduling run step failed) (λ evs, evs = [WComplete step failed]) (λ _ _, True) (λ _ _, False).
Proof.
  intros w w' out. unfold completeScheduling, execute, mbind, wf_bind.
  destruct (activity_CompleteSchedule _ _ _ (ww_env w)) as [e [[]|err]]; intros [= <- <-]; eexists; split; [reflexivity|done| |]; done.
Qed.

Lemma sleep_yields run d : yields (E:=E) (sleep run d) plain (λ _ _, True) (λ _ _, False).
Proof.
  intros w w' out. unfold sleep, execute, mbind, wf_bind.
  destruct (client_Sleep _ (ww_env w)) as [e [[]|err]]; intros [= <- <-]; eexists; split; [reflexivity|done| |]; done.
Qed.

(** Halting persists and returns a run with the given status. *)
Lemma halt_and_return_yields {A} run index step status audits eventType (G : list wf_effect → A → Prop) :
  yields (E:=E) (halt_and_return now_at run index step status audits eventType) plain G
    (λ evs r, run_Status r = status).
Proof.
  unfold halt_and_return, persist_and_return.
  change (yields (r ← touch now_at (halt_run run index step status); (r ← persist r audits eventType; return_ r None))
    plain G (λ evs r, run_Status r = status)).
  eapply yields_bind.
  - apply (touch_yields _ (λ evs, evs = []) (λ evs r, evs = [] ∧ run_Status r = status) (λ _ _, False)); eauto.
  - by intros evs ->.
  - done.
  - intros evs r _ [-> Hs]. simpl. eapply yields_bind; [apply persist_yields|by intros evs' ->|done|].
    intros evs' r' -> ->. by apply yields_return.
Qed.

Lemma cancelRun_yields run from actor :
  yields (E:=E) (cancelRun now_at run from actor) plain (λ _ r, run_Status r = RunCancelled) (λ _ _, False).
Proof. unfold cancelRun. apply (save_yields _ (λ run, [_])); eauto with workflow. Qed.

(** *** Pausing *)

Definition same_run (run r : ReleaseRun) : Prop :=
  run_Plan r = run_Plan run ∧ run_RequestedBy r = run_RequestedBy run ∧ run_ID r = run_ID run ∧ run_Steps r = run_Steps run.

Definition resumed (run r : ReleaseRun) : Prop := run_Status r = RunCancelled ∨ same_run run r.

Lemma resumed_trans run run' r : same_run run run' → resumed run' r → resumed run r.
Proof. unfold resumed, same_run. intros (? & ? & ? & ?) [?|(? & ? & ? & ?)]; [by left|right]. split_and!; congruence. Qed.

Lemma same_kept index run r : same_run run r → kept index run r.
Proof. intros (? & ? & ? & ?). by apply kept_same. Qed.

Lemma resume_loop_yields wakeups run index :
  yields (E:=E) (resume_loop now_at wakeups run index) plain (λ _ r, resumed run r) (λ _ _, False).
Proof.
  induction wakeups as [|wakeup wakeups IH]; simpl; [by apply yields_waiting|].
  intros w w' out Hw. change (ww_trace w) with (ww_trace (w <| ww_resumes := wakeups |>)).
  revert Hw. unfold mbind at 1, wf_bind at 1, set_resumes at 1. generalize (w <| ww_resumes := wakeups |>). clear w.
  intros w Hw. revert w w' out Hw.
  destruct wakeup as [signal|signal]; destruct (bool_decide (cs_Actor signal = "")); try exact IH.
  - change (yields (E:=E) (run ← touch now_at (run
        <| run_Status := if bool_decide (run_PausedFrom run = RunStatusNone) then RunRunning else run_PausedFrom run |>
        <| run_PausedFrom := RunStatusNone |>); persist run [] "release.resumed") plain (λ _ r, resumed run r) (λ _ _, False)).
    apply (save_yields _ (λ _, [])); eauto with workflow. intros t. by right.
  - eapply yields_weaken; [apply cancelRun_yields|done| |done]. intros evs r _ Hs. by left.
Qed.

Lemma waitForResume_yields run index :
  yields (E:=E) (waitForResume now_at run index) plain (λ _ r, resumed run r) (λ _ _, False).
Proof.
  unfold waitForResume. eapply yields_bind.
  - apply (touch_yields _ (λ evs, evs = []) (λ evs r, evs = [] ∧ same_run run r) (λ _ _, False)); [done|].
    intros t. by split.
  - by intros evs ->.
  - done.
  - intros evs r _ (-> & Hr). simpl. eapply yields_bind; [apply persist_yields|by intros evs' ->|done|].
    intros evs' r' -> ->. intros w w' out Hw. apply resume_loop_yields in Hw as (evs & Ht & Hp & Ho). exists evs.
    split; [done|]. split; [by apply plain_app|]. destruct out as [r'|? []| |]; auto.
    eapply resumed_trans, Ho. exact Hr.
Qed.

(** *** Approval *)

(** A signal that approves: for the approval, by somebody other than the requester with the roles. *)
Record approves (requester id : string) (roles : list string) (signal : ApprovalSignal) : Prop := {
  approves_id : sg_ApprovalID signal = id;
  approves_actor : sg_Actor signal ≠ "" ∧ sg_Actor signal ≠ requester;
  approves_action : signal_action signal = "approve";
  approves_roles : roles ⊆ sg_Roles signal;
}.

Lemma ignored_false run approval signal :
  ignored run approval signal = false → signal_action signal = "approve" →
  approves (run_RequestedBy run) (ap_ID approval) (ap_RequiredRoles approval) signal.
Proof.
  unfold ignored. intros Hi Ha. rewrite Ha in Hi. rewrite (bool_decide_true ("approve" = "approve")) in Hi by done.
  simpl in Hi. rewrite !orb_false_iff, !negb_false_iff, !bool_decide_eq_false, bool_decide_eq_true in Hi.
  destruct Hi as (((? & ?) & ?) & Hc). split; [done|done|done|]. by apply containsAll_subseteq.
Qed.

(** How waiting for an approval ends. *)
Definition approval_ends (index : nat) (run : ReleaseRun) (id : string) (roles : list string) (evs : list wf_effect)
    (r : ReleaseRun) : Prop :=
  run_Status r = RunBlocked ∨ run_Status r = RunCancelled ∨
  run_Status r = RunRunning ∧ kept index run r ∧
    ∃ signal, WApproval signal ∈ evs ∧ approves (run_RequestedBy run) id roles signal.

Lemma approval_ends_later index run run' id roles evs evs' r :
  kept index run run' → approval_ends index run' id roles evs' r → approval_ends index run id roles (evs ++ evs') r.
Proof.
  intros Hk [?|[?|(? & Hk' & signal & Hin & Ha)]]; [by left|by right; left|]. right. right. split; [done|].
  split; [by eapply kept_trans|]. exists signal. split; [apply elem_of_app; by right|]. by rewrite <-(kept_requester _ _ _ Hk).
Qed.

Lemma decide_approval_yields run index step approval signal :
  run_Steps run !! index = Some step → ignored run approval signal = false →
  yields (E:=E) (decide_approval now_at run index step approval signal) plain
    (λ evs r, approval_ends index run (ap_ID approval) (ap_RequiredRoles approval) (WApproval signal :: evs) r) (λ _ _, False).
Proof.
  intros Hs Hi. unfold decide_approval. eapply yields_bind.
  - apply (now_yields (λ evs, evs = []) (λ evs _, evs = []) (λ _ _, False)); done.
  - by intros evs ->.
  - done.
  - intros evs t _ ->. simpl.
    destruct (bool_decide (signal_action signal = "revoke"));
      [|destruct (bool_decide (signal_action signal = "approve")) eqn:Ha; simpl];
      (eapply yields_weaken; [apply persist_yields|by intros evs ->| |done]); intros evs r -> ->.
    + by left.
    + apply bool_decide_eq_true in Ha. right. right. split; [done|]. split.
      * eapply kept_trans; [|apply kept_persisted]. eapply kept_trans; [by eapply (kept_set_step _ _ _ (step <| st_Approval := Some
          (approval <| ap_DecidedBy := sg_Actor signal |> <| ap_DecidedAt := Some t |> <| ap_Status := ApprovalApproved |>) |>
          <| st_Status := StepPending |>))|]. by apply kept_same.
      * exists signal. split; [by left|]. by apply ignored_false.
    + by left.
Qed.

(** Code that leaves the trace alone before it goes on. *)
Lemma yields_silent {A B} (m : WF E A) (f : A → WF E B) (P : A → Prop) (N : list wf_effect → Prop) G R :
  (∀ w w' out, m w = (w', out) → ww_trace w' = ww_trace w ∧ match out with Go a => P a | Return _ None | Panic => False | _ => True end) →
  N [] → (∀ a, P a → yields (f a) N G R) → yields (m ≫= f) N G R.
Proof.
  intros Hm HN Hf. apply (yields_bind m f (λ evs, evs = []) (λ evs a, evs = [] ∧ P a) (λ _ _, False)).
  - intros w w' out Hw. destruct (Hm w w' out Hw) as [Ht Ho]. exists []. rewrite app_nil_r. split; [done|]. split; [done|].
    destruct out as [|? []| |]; auto.
  - by intros evs ->.
  - done.
  - intros evs a _ [-> Ha]. by apply Hf.
Qed.

Lemma now_silent (w w' : WfWorld E) out :
  wf_now now_at w = (w', out) → ww_trace w' = ww_trace w ∧ match out with Go _ => True | Return _ None | Panic => False | _ => True end.
Proof. by intros [= <- <-]. Qed.

Lemma touch_silent run (w w' : WfWorld E) out :
  touch now_at run w = (w', out) → ww_trace w' = ww_trace w ∧
  match out with Go r => ∃ t, r = run <| run_UpdatedAt := t |> | Return _ None | Panic => False | _ => True end.
Proof. intros [= <- <-]. eauto. Qed.

Lemma approval_loop_yields wakeups run index step approval :
  run_Steps run !! index = Some step → st_Approval step = Some approval →
  yields (E:=E) (approval_loop now_at wakeups run index) plain
    (λ evs r, approval_ends index run (ap_ID approval) (ap_RequiredRoles approval) evs r)
    (λ _ r, run_Status r = RunCancelled).
Proof.
  revert run. induction wakeups as [|wakeup wakeups IH]; intros run Hs Ha; cbn [approval_loop];
    (eapply get_step_then; [exact Hs|]); rewrite Ha;
    (eapply yields_silent; [apply now_silent|done|]); intros _ _; [by apply yields_waiting|].
  eapply (yields_silent _ _ (λ _, True)); [by intros w w' out [= <- <-]|done|]. intros _ _.
  destruct wakeup as [signal|signal|signal|].
  - apply (yields_bind _ _ (λ evs, evs = [WApproval signal]) (λ _ _, True) (λ _ _, False)).
    + intros w w' out [= <- <-]. by eexists.
    + by intros evs ->.
    + done.
    + intros evs _ -> _. destruct (ignored run approval signal) eqn:Hi.
      * eapply yields_weaken; [by apply IH|by intros evs Hp; apply (plain_app [_])| |done].
        intros evs r _ Hend. eapply (approval_ends_later _ _ _ _ _ [WApproval signal]); [apply kept_refl|exact Hend].
      * eapply yields_weaken; [by apply decide_approval_yields|by intros evs Hp; apply (plain_app [_])|done|done].
  - destruct (bool_decide (cs_Actor signal = "")); [by apply IH|].
    eapply yields_bind; [apply yields_call, waitForResume_yields|done|done|].
    intros evs [r err] Hp Hr. simpl in Hr. destruct err as [err|].
    { rewrite bool_decide_true by done. apply yields_return; [by rewrite app_nil_r|done]. }
    rewrite bool_decide_false by naive_solver. simpl. destruct Hr as [Hr|[]].
    destruct (bool_decide (run_Status r = RunCancelled)) eqn:Hc.
    { apply bool_decide_eq_true in Hc. apply yields_return; [by rewrite app_nil_r|done]. }
    apply bool_decide_eq_false in Hc. destruct Hr as [?|Hr]; [done|]. pose proof Hr as (_ & _ & _ & Hsteps).
    eapply yields_weaken; [apply (IH r); [by rewrite Hsteps|done]|..]; eauto with workflow.
    intros evs' r' _ Hend. eapply approval_ends_later, Hend. by apply same_kept.
  - destruct (bool_decide (cs_Actor signal = "")); [by apply IH|].
    eapply yields_weaken; [apply cancelRun_yields|done| |done]. intros evs r _ Hc. by right; left.
  - apply (save_yields _ (λ _, [])); eauto with workflow. intros t. by left.
Qed.

Lemma awaitApproval_yields run index step decision :
  run_Steps run !! index = Some step →
  yields (E:=E) (awaitApproval now_at run index decision) plain
    (λ evs r, approval_ends index run (deterministicID "approval" [run_ID run; st_Service step]) (pd_RequiredRoles decision) evs r)
    (λ _ r, run_Status r = RunCancelled).
Proof.
  intros Hs. unfold awaitApproval.
  eapply yields_silent; [apply now_silent|done|]. intros t _.
  eapply get_step_then; [exact Hs|].
  eapply yields_bind; [apply persist_yields|by intros evs ->|done|]. intros evs r -> ->.
  match goal with |- context [persisted ?r0] => set (waiting_run := r0) end.
  assert (Hk : kept index run (persisted waiting_run)).
  { eapply kept_trans; [|apply kept_persisted]. eapply kept_trans; [by eapply (kept_set_step index run step (step <| st_Approval := _ |> <| st_Status := StepWaitingApproval |>))|].
    by apply kept_same. }
  intros w w' out Hw. eapply approval_loop_yields in Hw as (evs & Ht & Hp & Ho).
  2: { apply (lookup_set_step index run step). exact Hs. }
  2: reflexivity.
  exists evs. split; [done|]. split; [by apply plain_app|].
  destruct out as [r|r [err|]| |]; auto. by eapply approval_ends_later.
Qed.

(** *** Policy, approval and reservation *)

(** The decision lets the service through: it allows it; or it asks for an approval and a signal gave one;
    or it is a string that is none of the three decisions, which the workflow takes for an [ALLOW]. *)
Definition clears (requester approvalID : string) (decision : PolicyDecision) (evs : list wf_effect) : Prop :=
  pd_Decision decision = DecisionAllow ∨
  (pd_Decision decision = DecisionRequireApproval ∧
   ∃ signal, WApproval signal ∈ evs ∧ approves requester approvalID (pd_RequiredRoles decision) signal) ∨
  pd_Decision decision ∉ [DecisionAllow; DecisionRequireApproval; DecisionDeny].

(** The events show that the service may be deployed. *)
Definition cleared_by (requester runID service : string) (evs : list wf_effect) : Prop :=
  ∃ decision, WEvaluate service (Ok decision) ∈ evs ∧
    clears requester (deterministicID "approval" [runID; service]) decision evs.

Lemma clears_unasked requester approvalID decision evs :
  pd_Decision decision ≠ DecisionDeny → pd_Decision decision ≠ DecisionRequireApproval →
  clears requester approvalID decision evs.
Proof.
  intros Hd Ha. destruct (decide (pd_Decision decision = DecisionAllow)); [by left|]. right; right. set_solver.
Qed.

Lemma cleared_by_subset requester runID service evs evs' :
  evs ⊆ evs' → cleared_by requester runID service evs → cleared_by requester runID service evs'.
Proof.
  intros Hsub (decision & Hin & Hc). exists decision. split; [by apply Hsub|].
  destruct Hc as [Hc|[(Hc & signal & Hs & Happ)|Hc]]; [by left| |by right; right].
  right; left. split; [done|]. exists signal. split; [by apply Hsub|done].
Qed.

Lemma evaluate_step_yields run index step :
  run_Steps run !! index = Some step →
  yields (E:=E) (evaluate_step now_at run index step) plain
    (λ evs p, kept index run p.1 ∧ WEvaluate (st_Service step) (Ok p.2) ∈ evs) (λ _ _, False).
Proof.
  intros Hs. unfold evaluate_step. apply execute_try_yields; [done|]. intros decision.
  eapply yields_silent; [apply touch_silent|done|]. intros r [t ->].
  eapply yields_bind; [apply persist_yields|by intros evs ->|done|]. intros evs r -> ->. apply yields_ret; [done|].
  split; [|by left]. cbn [fst]. eapply kept_trans; [|apply kept_persisted]. eapply kept_trans; [|apply kept_touch].
  by eapply (kept_set_step index run step).
Qed.

Lemma kept_lookup index run r step : kept index run r → run_Steps run !! index = Some step →
  ∃ step', run_Steps r !! index = Some step' ∧ st_Service step' = st_Service step.
Proof.
  intros Hk Hs. pose proof (kept_services _ _ _ Hk) as Hsv.
  assert ((st_Service <$> run_Steps r) !! index = Some (st_Service step)) as Hl
    by (by rewrite Hsv, list_lookup_fmap, Hs).
  rewrite list_lookup_fmap in Hl. destruct (run_Steps r !! index) as [step'|]; [|done]. injection Hl as Hl. eauto.
Qed.

Lemma authorize_step_yields run index step :
  run_Steps run !! index = Some step →
  yields (E:=E) (authorize_step now_at run index step) plain
    (λ evs r, kept index run r ∧ cleared_by (run_RequestedBy run) (run_ID run) (st_Service step) evs)
    (λ _ r, run_Status r ≠ RunSucceeded).
Proof.
  intros Hs. unfold authorize_step. eapply yields_bind; [by apply evaluate_step_yields|done|done|].
  intros evs [r decision] Hp [Hk Hev]. simpl in Hk, Hev.
  destruct (kept_lookup _ _ _ _ Hk Hs) as (step' & Hs' & Hsv). eapply get_step_then; [exact Hs'|].
  destruct (bool_decide (pd_Decision decision = DecisionDeny)) eqn:Hd.
  { eapply yields_weaken; [apply (halt_and_return_yields _ _ _ _ _ _ (λ _ _, False))|by intros; apply plain_app|done|].
    intros evs' r' _ Hr. by rewrite Hr. }
  apply bool_decide_eq_false in Hd.
  destruct (bool_decide (pd_Decision decision = DecisionRequireApproval)) eqn:Ha.
  2: { apply bool_decide_eq_false in Ha. apply yields_ret; rewrite app_nil_r; [done|]. split; [done|].
       exists decision. split; [done|]. by apply clears_unasked. }
  apply bool_decide_eq_true in Ha.
  eapply yields_bind; [apply yields_call, (awaitApproval_yields r index step'); exact Hs'|by intros; apply plain_app|done|].
  intros evs' [r' [err|]] Hp' Hr'; simpl in Hr'.
  { rewrite bool_decide_true by done. apply yields_return; [|done]. rewrite app_nil_r. by apply plain_app. }
  rewrite (bool_decide_false (None ≠ None)) by naive_solver. simpl.
  destruct (bool_decide (run_Status r' = RunRunning)) eqn:Hrun; simpl.
  - apply bool_decide_eq_true in Hrun.
    destruct Hr' as [[?|[?|(_ & Hk' & signal & Hin & Happ)]]|?]; [congruence..| |congruence].
    apply yields_ret; rewrite app_nil_r; [by apply plain_app|]. split; [by eapply kept_trans|]. exists decision.
    split; [apply elem_of_app; by left|]. right; left. split; [done|]. exists signal. split; [apply elem_of_app; by right|].
    by rewrite <-Hsv, <-(kept_requester _ _ _ Hk), <-(kept_id _ _ _ Hk).
  - apply yields_return; [rewrite app_nil_r; by apply plain_app|]. intros _.
    by destruct Hr' as [[Hr'|[Hr'|(Hr' & _)]]|Hr']; rewrite Hr'.
Qed.

Lemma acquire_step_yields run index step :
  run_Steps run !! index = Some step →
  yields (E:=E) (acquire_step now_at run index) (λ evs, deploys_of evs = [] ∧ completes evs = [])
    (λ evs _, evs = [WAcquire (st_Service step) true]) (λ evs r, run_Status r ≠ RunSucceeded ∧ acquires evs = []).
Proof.
  intros Hs. unfold acquire_step.
  eapply get_step_then; [exact Hs|].
  apply execute_try_yields; [done|]. intros res. destruct (sr_Allowed res) eqn:Ha.
  - by apply yields_ret.
  - eapply yields_weaken; [apply (halt_and_return_yields _ _ _ _ _ _ (λ _ _, False))|..].
    + by intros evs (Hd & _ & Hc).
    + done.
    + intros evs r (_ & Hacq & _) ->. by split.
Qed.

(** *** Deployment *)

(** The input deploys this step of this run. *)
Record deploys_step (run : ReleaseRun) (step : ReleaseStep) (input : DeployInput) : Prop := {
  deploys_service : di_Service input = st_Service step;
  deploys_run : di_RunID input = run_ID run;
  deploys_requester : di_RequestedBy input = run_RequestedBy run;
}.

Lemma deploy_part_yields run index step :
  run_Steps run !! index = Some step →
  yields (E:=E) (deploy_part now_at run index)
    (λ evs, acquires evs = [] ∧ Forall (deploys_step run step) (deploys_of evs))
    (λ evs p, kept index run p.1.1 ∧ completes evs = [])
    (λ evs r, run_Status r ≠ RunSucceeded ∧ completes evs = [st_Service step]).
Proof.
  intros Hs. unfold deploy_part.
  eapply get_step_then; [exact Hs|].
  eapply yields_silent; [apply touch_silent|done|]. intros r [t ->].
  eapply yields_bind; [apply persist_yields|by intros evs ->|done|]. intros evs r -> ->.
  match goal with |- context [persisted ?r0] => set (executing := r0) end.
  assert (Hk : kept index run (persisted executing)).
  { eapply kept_trans; [|apply kept_persisted]. eapply kept_trans; [|apply kept_touch]. by eapply (kept_set_step index run step). }
  generalize dependent executing. intros executing Hk.
  destruct (kept_lookup _ _ _ _ Hk Hs) as (step1 & Hs1 & Hsv). eapply get_step_then; [exact Hs1|].
  assert (Hd : ∀ evs, deploys_of evs = [deploy_input (persisted executing) step1] → Forall (deploys_step run step) (deploys_of evs)).
  { intros evs ->. apply Forall_singleton. split; [done|apply (kept_id _ _ _ Hk)|apply (kept_requester _ _ _ Hk)]. }
  eapply yields_bind; [apply execute_yields|..].
  - intros evs [r ->]. split; [done|]. by apply Hd.
  - done.
  - intros evs [deployed|err] _ ->.
    + apply yields_ret; [split; [done|by apply Hd]|]. split; [|done]. cbn [fst].
      eapply kept_trans; [exact Hk|]. by apply (kept_set_step _ _ step1).
    + eapply yields_bind; [apply completeScheduling_yields|..].
      * intros evs ->. split; [done|by apply Hd].
      * done.
      * intros evs [] -> _. eapply yields_weaken; [apply (halt_and_return_yields _ _ _ _ _ _ (λ _ _, False))|..].
        -- intros evs (He1 & He2 & He3). split; [by rewrite !acquires_app, He2|]. apply Hd. by rewrite !deploys_of_app, He1.
        -- done.
        -- intros evs r (He1 & He2 & He3) ->. rewrite !completes_app, He3. simpl. by rewrite Hsv.
Qed.

(** *** Rollback and verification *)

(** Events that deploy and acquire nothing. *)
Definition closing (evs : list wf_effect) : Prop := deploys_of evs = [] ∧ acquires evs = [].

Lemma closing_app evs evs' : closing evs → closing evs' → closing (evs ++ evs').
Proof. unfold closing. rewrite deploys_of_app, acquires_app. intros [-> ->] [-> ->]. done. Qed.

Lemma closing_plain evs : plain evs → closing evs.
Proof. by intros (? & ? & _). Qed.

Lemma rollback_outcome_yields run index step input reason :
  yields (E:=E) (rollback_outcome now_at run index step input reason) plain
    (λ _ p, st_Service p.1 = st_Service step ∧ p.2 ≠ RunSucceeded) (λ _ _, False).
Proof.
  unfold rollback_outcome. eapply yields_bind; [apply execute_yields|by intros evs [r ->]|done|].
  intros evs [rolledBack|err] _ ->; [|by apply yields_ret].
  eapply yields_bind; [apply sleep_yields|by intros evs Hp; apply (plain_app [_])|done|]. intros evs [] Hp _.
  eapply yields_bind; [apply execute_yields|by intros evs' [r ->]; apply (plain_app [_]), plain_app|done|].
  intros evs' [verified|err] _ ->; [|by apply yields_ret; [apply (plain_app [_]), plain_app|]].
  eapply yields_silent; [apply now_silent|by apply (plain_app [_]), plain_app|]. intros t _.
  destruct (negb _); by apply yields_ret; [apply (plain_app [_]), plain_app|].
Qed.

(** The failure of a step: the reservation is completed as failed, and the run is returned. *)
Lemma fail_yields {A} (m : WF E A) run service (G : list wf_effect → A → Prop) :
  yields m plain (λ _ _, False) (λ _ r, run_Status r ≠ RunSucceeded) →
  yields (E:=E) (_ ← completeScheduling run service true; m) closing G
    (λ evs r, run_Status r ≠ RunSucceeded ∧ completes evs = [service]).
Proof.
  intros Hm. eapply yields_bind; [apply completeScheduling_yields|by intros evs ->|done|]. intros evs [] -> _.
  eapply yields_weaken; [exact Hm|by intros evs (? & ? & _)|done|]. intros evs r (_ & _ & Hc) Hr. simpl. by rewrite Hc.
Qed.

Lemma halt_fails {A} run index step status audits eventType :
  status ≠ RunSucceeded →
  yields (E:=E) (A:=A) (halt_and_return now_at run index step status audits eventType) plain (λ _ _, False)
    (λ _ r, run_Status r ≠ RunSucceeded).
Proof. intros Hs. eapply yields_weaken; [apply (halt_and_return_yields _ _ _ _ _ _ (λ _ _, False))|done..|]. intros evs r _ ->. done. Qed.

Lemma rollback_part_yields run index step step0 input deployed verification :
  run_Steps run !! index = Some step0 → st_Service step = st_Service step0 →
  yields (E:=E) (rollback_part now_at run index step input deployed verification) closing (λ _ _, False)
    (λ evs r, run_Status r ≠ RunSucceeded ∧ completes evs = [st_Service step]).
Proof.
  intros Hs0 Hsv. unfold rollback_part. destruct (negb _); [by apply fail_yields, halt_fails|].
  eapply yields_silent; [apply touch_silent|done|]. intros r [t ->].
  eapply yields_bind; [apply persist_yields|by intros evs ->|done|]. intros evs r -> ->.
  match goal with |- context [persisted ?r0] => set (rolling := r0) end.
  assert (Hr : run_Steps (persisted rolling) !! index = Some (step <| st_Status := StepRollingBack |>)).
  { by apply (lookup_set_step index run step0). }
  generalize dependent rolling. intros rolling Hr.
  eapply get_step_then; [exact Hr|].
  eapply yields_bind; [apply rollback_outcome_yields|by intros; apply (closing_app [_]), closing_plain|done|].
  intros evs [step1 status] Hp [Hv Hst]. simpl in Hv, Hst.
  eapply yields_weaken; [apply (fail_yields (run ← touch now_at (halt_run (persisted rolling) index step1 status);
    persist_and_return run [] "rollback.finished") _ _ (λ _ _, False))|..].
  - eapply yields_silent; [apply touch_silent|done|]. intros r [t' ->]. unfold persist_and_return.
    eapply yields_bind; [apply persist_yields|by intros ? ->|done|]. intros ? ? -> ->. by apply yields_return.
  - intros evs' Hc. by apply (closing_app [_]), closing_app; [|apply closing_plain|].
  - done.
  - intros evs' r _ [Hr' Hc]. split; [done|]. destruct Hp as (_ & _ & Hc0).
    rewrite !completes_app, Hc0, Hc. simpl. by rewrite Hv.
Qed.

(** What a successful step leaves behind. *)
Record done_step (index : nat) (run : ReleaseRun) (service : string) (evs : list wf_effect) (r : ReleaseRun) : Prop := {
  done_kept : kept index run r;
  done_status : ∃ step, run_Steps r !! index = Some step ∧ st_Status step = StepSucceeded;
  done_completed : completes evs = [service];
  done_event : WComplete service false ∈ evs;
}.

(** The end of a step: it succeeded, or it failed and the run is returned. *)
Definition ends_step {A} (m : WF E A) (index : nat) (run : ReleaseRun) (service : string) (value : A → ReleaseRun * string) : Prop :=
  yields m closing (λ evs a, (value a).2 = service ∧ done_step index run service evs (value a).1)
    (λ evs r, run_Status r ≠ RunSucceeded ∧ completes evs = [service]).

(** Plain events before the end of a step do not matter. *)
Lemma ends_step_later {A} (m : WF E A) index run run' service value pre :
  plain pre → kept index run run' → ends_step m index run' service value →
  yields m (λ evs, closing (pre ++ evs))
    (λ evs a, (value a).2 = service ∧ done_step index run service (pre ++ evs) (value a).1)
    (λ evs r, run_Status r ≠ RunSucceeded ∧ completes (pre ++ evs) = [service]).
Proof.
  intros (Hd & Ha & Hc) Hk Hm. eapply yields_weaken; [exact Hm|..].
  - intros evs He. by apply closing_app.
  - intros evs a _ [Hv [Hk' Hs' Hc' He]]. split; [done|]. split; [by eapply kept_trans|done| |apply elem_of_app; by right].
    by rewrite completes_app, Hc, Hc'.
  - intros evs r _ [Hr Hc']. by rewrite completes_app, Hc, Hc'.
Qed.

Lemma fail_ends_step run0 index step status audits eventType run run' service :
  status ≠ RunSucceeded →
  ends_step (_ ← completeScheduling run service true; halt_and_return now_at run0 index step status audits eventType)
    index run' service id.
Proof. intros Hs. by apply fail_yields, halt_fails. Qed.

Lemma succeed_ends_step index run run0 service step step' audits eventType :
  run_Steps run !! index = Some step → st_Service step = service → st_Service step' = service →
  st_Status step' = StepSucceeded →
  ends_step (_ ← completeScheduling run0 service false;
             r ← touch now_at (set_step run index step');
             r ← persist r audits eventType; mret (r, service)) index run service id.
Proof.
  intros Hs Hv Hv' Hd. unfold ends_step.
  eapply yields_bind; [apply completeScheduling_yields|by intros evs ->|done|]. intros evs [] -> _.
  eapply yields_silent; [apply touch_silent|done|]. intros r [t ->].
  eapply yields_bind; [apply persist_yields|by intros ? ->|done|]. intros ? ? -> ->.
  apply yields_ret; [done|]. split; [done|]. split; cbn [fst id].
  - eapply kept_trans; [|apply kept_persisted]. eapply kept_trans; [|apply kept_touch]. apply (kept_set_step _ _ step); [done|congruence].
  - eexists. split; [by apply (lookup_set_step index run step)|done].
  - done.
  - by left.
Qed.

Lemma verify_part_yields run index step input deployed :
  run_Steps run !! index = Some step →
  ends_step (verify_part now_at run index input deployed) index run (st_Service step) id.
Proof.
  intros Hs. unfold verify_part, ends_step.
  eapply get_step_then; [exact Hs|].
  destruct (negb (st_VerificationRequired step)); [by apply (succeed_ends_step index run run _ step)|].
  eapply yields_silent; [apply touch_silent|done|]. intros r [t ->].
  eapply yields_bind; [apply persist_yields|by intros ? ->|done|]. intros ? ? -> ->.
  match goal with |- context [persisted ?r0] => set (verifying := r0) end.
  assert (Hk : kept index run (persisted verifying)).
  { eapply kept_trans; [|apply kept_persisted]. eapply kept_trans; [|apply kept_touch]. by eapply (kept_set_step index run step). }
  generalize dependent verifying. intros verifying Hk.
  destruct (kept_lookup _ _ _ _ Hk Hs) as (step1 & Hs1 & Hsv). eapply get_step_then; [exact Hs1|].
  eapply (ends_step_later _ _ _ _ _ id [WPersist _ _]); [done|exact Hk|]. unfold ends_step.
  eapply yields_bind; [apply sleep_yields|apply closing_plain|done|]. intros evs [] Hp _.
  eapply ends_step_later; [exact Hp|apply kept_refl|]. unfold ends_step.
  eapply yields_bind; [apply execute_yields|by intros evs' [r ->]|done|]. intros evs' [verified|err] _ ->; clear evs Hp.
  2: { rewrite Hsv. eapply (ends_step_later _ _ _ _ _ id [WVerify _]); [done|apply kept_refl|]. by apply fail_ends_step. }
  eapply (ends_step_later _ _ _ _ _ id [WVerify _]); [done|apply kept_refl|].
  eapply yields_silent; [apply now_silent|done|]. intros t' _.
  destruct (negb _).
  - eapply yields_weaken; [by apply (rollback_part_yields _ _ _ step1)|done|done|]. simpl. by rewrite Hsv.
  - rewrite <-Hsv. by apply (succeed_ends_step index (persisted verifying) _ _ step1).
Qed.

(** *** One iteration *)

Lemma interrupt_step_yields run index :
  yields (E:=E) (interrupt_step now_at cancel_polled pause_polled run index) plain (λ _ r, same_run run r)
    (λ _ r, run_Status r ≠ RunSucceeded).
Proof.
  unfold interrupt_step. eapply (yields_silent _ _ (λ _, True)); [by intros w w' out [= <- <-]|done|]. intros [] _.
  { eapply yields_bind; [apply cancelRun_yields|done|done|]. intros evs r Hp Hr. apply yields_return; [by rewrite app_nil_r|].
    by rewrite Hr. }
  eapply (yields_silent _ _ (λ _, True)); [by intros w w' out [= <- <-]|done|]. intros [] _; [|by apply yields_ret].
  eapply yields_bind; [apply yields_call, waitForResume_yields|done|done|]. intros evs [r [err|]] Hp Hr; simpl in Hr.
  { rewrite bool_decide_true by done. apply yields_return; [by rewrite app_nil_r|done]. }
  rewrite (bool_decide_false (None ≠ None)) by naive_solver. simpl. destruct Hr as [Hr|[]].
  destruct (bool_decide (run_Status r = RunCancelled)) eqn:Hc.
  - apply bool_decide_eq_true in Hc. apply yields_return; [by rewrite app_nil_r|]. by rewrite Hc.
  - apply bool_decide_eq_false in Hc. apply yields_ret; [by rewrite app_nil_r|]. by destruct Hr.
Qed.

(** What the events before a deployment show. *)
Record granted (run : ReleaseRun) (selected : gset string) (succeeded : string → list wf_effect → Prop)
    (pre : list wf_effect) (input : DeployInput) : Prop := {
  granted_run : di_RunID input = run_ID run;
  granted_requester : di_RequestedBy input = run_RequestedBy run;
  granted_cleared : cleared_by (run_RequestedBy run) (run_ID run) (di_Service input) pre;
  granted_reserved : WAcquire (di_Service input) true ∈ pre;
  granted_dependencies step d : step ∈ plan_steps (run_Plan run) → ps_Service step = di_Service input →
    d ∈ rollout_dependencies step → d ∈ selected → succeeded d pre;
}.

Lemma cleared_by_app requester runID service evs evs' :
  cleared_by requester runID service evs → cleared_by requester runID service (evs ++ evs').
Proof. apply cleared_by_subset. set_solver. Qed.

Lemma cleared_by_later requester runID service evs evs' :
  cleared_by requester runID service evs' → cleared_by requester runID service (evs ++ evs').
Proof. apply cleared_by_subset. set_solver. Qed.

Lemma granted_app run selected (succeeded : gset string) pre pre' input :
  granted run selected (λ d _, d ∈ succeeded) pre input → granted run selected (λ d _, d ∈ succeeded) (pre ++ pre') input.
Proof. intros [Hi Hq Hc Hr Hd]. split; [done|done|by apply cleared_by_app|apply elem_of_app; by left|exact Hd]. Qed.

(** Deployments that were granted before the events began. *)
Lemma guarded_from (G : list wf_effect → DeployInput → Prop) evs evs' :
  deploys_of evs = [] → (∀ pre pre' input, G pre input → G (pre ++ pre') input) →
  Forall (G evs) (deploys_of evs') → guarded G (evs ++ evs').
Proof.
  intros Hd HG HF. apply guarded_app; [by apply guarded_none|]. intros pre input post ->. apply HG.
  rewrite deploys_of_app in HF. apply Forall_app in HF as [_ HF]. simpl in HF. by inversion HF.
Qed.

Lemma unmetDependency_None plan service selected succeeded step d :
  unmetDependency plan service selected succeeded = None → step ∈ plan_steps plan → ps_Service step = service →
  d ∈ rollout_dependencies step → d ∈ selected → d ∈ succeeded.
Proof.
  unfold unmetDependency. intros Hh Hin Hsv Hd Hsel.
  match type of Hh with head ?l = None => assert (Hnil : l = []) by (by destruct l) end.
  destruct (decide (d ∈ succeeded)) as [|Hn]; [done|]. exfalso.
  eapply (not_elem_of_nil d). rewrite <-Hnil. apply list_elem_of_filter. split; [done|].
  apply list_elem_of_bind. exists step. split; [done|]. apply list_elem_of_filter. done.
Qed.

(** What an iteration leaves for the next one. *)
Record iterated (index : nat) (run : ReleaseRun) (succeeded : gset string) (evs : list wf_effect) (r : ReleaseRun)
    (succeeded' : gset string) : Prop := {
  it_kept : kept index run r;
  it_status : ∃ step, run_Steps r !! index = Some step ∧ st_Status step = StepSucceeded;
  it_balanced : acquires evs = completes evs;
  it_succeeded d : d ∈ succeeded' → d ∈ succeeded ∨ WComplete d false ∈ evs;
}.

Definition returned (evs : list wf_effect) (r : ReleaseRun) : Prop :=
  run_Status r ≠ RunSucceeded ∧ acquires evs = completes evs.

Lemma returned_plain evs r : plain evs → run_Status r ≠ RunSucceeded → returned evs r.
Proof. intros (_ & Ha & Hc) Hr. split; [done|]. by rewrite Ha, Hc. Qed.

(** The last part of an iteration: reserved, deployed and verified. *)
Lemma execute_part_yields selected index run step (succeeded : gset string) evs0 :
  run_Steps run !! index = Some step → plain evs0 →
  cleared_by (run_RequestedBy run) (run_ID run) (st_Service step) evs0 →
  unmetDependency (run_Plan run) (st_Service step) selected succeeded = None →
  yields (E:=E)
    (_ ← acquire_step now_at run index;
     deployment ← deploy_part now_at run index;
     let '(run, input, deployed) := deployment in
     '(run, service) ← verify_part now_at run index input deployed;
     mret (run, {[ service ]} ∪ succeeded))
    (λ evs, guarded (granted run selected (λ d _, d ∈ succeeded)) (evs0 ++ evs))
    (λ evs p, iterated index run succeeded (evs0 ++ evs) p.1 p.2) (λ evs r, returned (evs0 ++ evs) r).
Proof.
  intros Hs (Hd0 & Ha0 & Hc0) Hclr Hun.
  eapply yields_bind; [by apply acquire_step_yields|..].
  { intros evs [Hd Hc]. apply guarded_none. by rewrite deploys_of_app, Hd0. }
  { intros evs r [Hd Hc] [Hr Ha]. split; [done|]. by rewrite acquires_app, completes_app, Ha0, Hc0, Ha, Hc. }
  intros evs [] _ ->. set (evs1 := evs0 ++ [WAcquire (st_Service step) true]).
  assert (Hg : ∀ input, deploys_step run step input → granted run selected (λ d _, d ∈ succeeded) evs1 input).
  { intros input [Hv Hi Hq]. split.
    - done.
    - done.
    - rewrite Hv. by apply cleared_by_app.
    - rewrite Hv. apply elem_of_app. right. by left.
    - intros step' d Hin Hsv. rewrite Hv in Hsv. by apply (unmetDependency_None _ _ _ _ _ _ Hun Hin Hsv). }
  assert (Hd1 : deploys_of evs1 = []) by (unfold evs1; by rewrite deploys_of_app, Hd0).
  assert (Hgd : ∀ evs, Forall (deploys_step run step) (deploys_of evs) →
    guarded (granted run selected (λ d _, d ∈ succeeded)) (evs0 ++ [WAcquire (st_Service step) true] ++ evs)).
  { intros evs HF. rewrite (assoc_L (++)). apply guarded_from; [done|apply granted_app|]. by eapply Forall_impl. }
  eapply yields_bind; [by apply deploy_part_yields|..].
  { intros evs [_ HF]. by apply Hgd. }
  { intros evs r [Ha _] [Hr Hc]. split; [done|]. rewrite !acquires_app, !completes_app, Ha0, Hc0, Ha, Hc. done. }
  intros evs [[r input] deployed] [Ha HF] [Hk Hc]. cbn [fst snd] in Hk. destruct (kept_lookup _ _ _ _ Hk Hs) as (step1 & Hs1 & Hsv).
  eapply yields_bind; [apply (verify_part_yields _ _ step1); exact Hs1|..].
  { intros evs' [Hd' _]. apply Hgd. by rewrite deploys_of_app, Hd', app_nil_r. }
  { intros evs' r' [_ Ha'] [Hr' Hc']. split; [done|]. rewrite !acquires_app, !completes_app, Ha0, Hc0, Ha, Hc, Ha', Hc'.
    simpl. by rewrite Hsv. }
  intros evs' [r' service] [Hd' Ha'] [Heq [Hk' Hst Hc' He']]. simpl in Heq, Hk', Hst. subst service.
  apply yields_ret; rewrite ?app_nil_r.
  { apply Hgd. by rewrite deploys_of_app, Hd', app_nil_r. }
  split; cbn [fst snd].
  - by eapply kept_trans.
  - done.
  - rewrite !acquires_app, !completes_app, Ha0, Hc0, Ha, Hc, Ha', Hc'. simpl. by rewrite Hsv.
  - intros d [->%elem_of_singleton|Hd]%elem_of_union; [right|by left]. rewrite !elem_of_app. auto.
Qed.

Lemma granted_same run run' selected succeeded pre input :
  run_Plan run' = run_Plan run → run_RequestedBy run' = run_RequestedBy run → run_ID run' = run_ID run →
  granted run' selected succeeded pre input → granted run selected succeeded pre input.
Proof. intros Hp Hr Hi [H1 H2 H3 H4 H5]. rewrite Hi, Hr, ?Hp in *. by split. Qed.

Lemma workflow_step_yields selected index run step0 succeeded :
  run_Steps run !! index = Some step0 →
  yields (E:=E) (workflow_step now_at cancel_polled pause_polled selected index run succeeded)
    (guarded (granted run selected (λ d _, d ∈ succeeded)))
    (λ evs p, iterated index run succeeded evs p.1 p.2) returned.
Proof.
  intros Hs0. unfold workflow_step. eapply yields_bind; [apply interrupt_step_yields|..].
  { intros evs (Hd & _). by apply guarded_none. }
  { intros evs r. apply returned_plain. }
  intros evs r Hp Hr. pose proof (same_kept index _ _ Hr) as Hk.
  destruct (kept_lookup _ _ _ _ Hk Hs0) as (step & Hs & _). eapply get_step_then; [exact Hs|].
  destruct (bool_decide (st_Status step = StepSucceeded)) eqn:Hst.
  { apply bool_decide_eq_true in Hst. apply yields_ret; rewrite app_nil_r; [apply guarded_none; by destruct Hp|].
    destruct Hp as (_ & Ha & Hc). split; [done|by exists step|by rewrite Ha, Hc|by left]. }
  destruct (unmetDependency _ _ _ _) as [unmet|] eqn:Hun.
  { eapply yields_weaken; [by apply halt_fails|..].
    - intros evs' Hp'. apply guarded_none. by destruct (plain_app _ _ Hp Hp').
    - done.
    - intros evs' r' Hp' Hr'. apply returned_plain; [by apply plain_app|done]. }
  eapply yields_bind; [by apply authorize_step_yields|..].
  { intros evs' Hp'. apply guarded_none. by destruct (plain_app _ _ Hp Hp'). }
  { intros evs' r' Hp' Hr'. apply returned_plain; [by apply plain_app|done]. }
  intros evs' r' Hp' [Hk' Hcl]. destruct (kept_lookup _ _ _ _ Hk' Hs) as (step' & Hs' & Hsv').
  eapply yields_weaken.
  - eapply (execute_part_yields selected index r' step' succeeded (evs ++ evs')).
    + exact Hs'.
    + by apply plain_app.
    + apply cleared_by_later. by rewrite (kept_requester _ _ _ Hk'), (kept_id _ _ _ Hk'), Hsv'.
    + by rewrite (kept_plan _ _ _ Hk'), Hsv'.
  - intros evs1 Hg pre input post Heq. rewrite (assoc_L (++)) in Heq. specialize (Hg _ _ _ Heq).
    destruct (kept_trans _ _ _ _ Hk Hk') as [Hpl Hq Hi _ _ _]. by eapply granted_same.
  - intros evs1 p _ [Hk1 Hst1 Hb Hsu]. rewrite <-(assoc_L (++)) in Hb, Hsu.
    split; [by eapply kept_trans, kept_trans|done|done|done].
  - intros evs1 r1 _. cbv beta. by rewrite <-(assoc_L (++)).
Qed.

(** *** The loop *)

(** A service that had succeeded before, or whose reservation was completed without a failure. *)
Definition succeeded_by (succeeded : gset string) (d : string) (evs : list wf_effect) : Prop :=
  d ∈ succeeded ∨ WComplete d false ∈ evs.

Definition step_succeeded (run : ReleaseRun) (index : nat) : Prop :=
  ∃ step, run_Steps run !! index = Some step ∧ st_Status step = StepSucceeded.

(** The state of the loop before step [index]. *)
Record progressed (run0 : ReleaseRun) (selected succeeded0 : gset string) (index : nat) (evs : list wf_effect)
    (run : ReleaseRun) : Prop := {
  pr_plan : run_Plan run = run_Plan run0;
  pr_requester : run_RequestedBy run = run_RequestedBy run0;
  pr_id : run_ID run = run_ID run0;
  pr_services : st_Service <$> run_Steps run = st_Service <$> run_Steps run0;
  pr_done j : (j < index)%nat → step_succeeded run j;
  pr_balanced : acquires evs = completes evs;
  pr_guarded : guarded (granted run0 selected (succeeded_by succeeded0)) evs;
}.

Lemma guarded_progress run0 selected succeeded0 (succeeded : gset string) index evs evs' run :
  progressed run0 selected succeeded0 index evs run → (∀ d, d ∈ succeeded → succeeded_by succeeded0 d evs) →
  guarded (granted run selected (λ d _, d ∈ succeeded)) evs' →
  guarded (granted run0 selected (succeeded_by succeeded0)) (evs ++ evs').
Proof.
  intros [Hp Hq Hi _ _ _ Hg] Hs Hg'. apply guarded_app; [done|]. intros pre input post Heq.
  destruct (granted_same run0 run _ _ _ _ Hp Hq Hi (Hg' _ _ _ Heq)) as [H1 H2 H3 H4 H5]. split; [done|done|..].
  - by apply cleared_by_later.
  - apply elem_of_app. by right.
  - intros step d H6 H7 H8 H9. destruct (Hs d (H5 step d H6 H7 H8 H9)) as [?|?]; [by left|right].
    apply elem_of_app. by left.
Qed.

Lemma progressed_step run0 selected succeeded0 (succeeded succeeded' : gset string) index evs evs' run r :
  progressed run0 selected succeeded0 index evs run → (∀ d, d ∈ succeeded → succeeded_by succeeded0 d evs) →
  guarded (granted run selected (λ d _, d ∈ succeeded)) evs' → iterated index run succeeded evs' r succeeded' →
  progressed run0 selected succeeded0 (S index) (evs ++ evs') r ∧ (∀ d, d ∈ succeeded' → succeeded_by succeeded0 d (evs ++ evs')).
Proof.
  intros Hpr Hs Hg [Hk Hst Hb Hsu]. pose proof (guarded_progress _ _ _ _ _ _ _ _ Hpr Hs Hg) as Hg'.
  destruct Hpr as [Hp Hq Hi Hv Hd Hb0 _]. destruct Hk as [Hp' Hq' Hi' _ Hv' Ho]. split; [split|]; try congruence.
  - intros j Hj. destruct (decide (j = index)) as [->|Hne]; [done|]. destruct (Hd j) as (step & Hl & Hss); [lia|].
    exists step. by rewrite Ho.
  - by rewrite acquires_app, completes_app, Hb0, Hb.
  - exact Hg'.
  - intros d Hd'. destruct (Hsu d Hd') as [H1|H1]; [destruct (Hs d H1) as [?|?]; [by left|]|]; right; apply elem_of_app; auto.
Qed.

Lemma workflow_loop_yields run0 selected succeeded0 n index run succeeded evs :
  progressed run0 selected succeeded0 index evs run → (∀ d, d ∈ succeeded → succeeded_by succeeded0 d evs) →
  (index + n)%nat = length (run_Steps run0) →
  yields (E:=E) (workflow_loop now_at cancel_polled pause_polled selected (seq index n) run succeeded)
    (λ evs', guarded (granted run0 selected (succeeded_by succeeded0)) (evs ++ evs'))
    (λ evs' r, progressed run0 selected succeeded0 (index + n) (evs ++ evs') r) (λ evs' r, returned (evs ++ evs') r).
Proof.
  revert index run succeeded evs. induction n as [|n IH]; intros index run succeeded evs Hpr Hs Hlen; cbn [seq workflow_loop].
  { apply yields_ret; rewrite app_nil_r; [by apply Hpr|]. by rewrite Nat.add_0_r. }
  destruct (lookup_lt_is_Some_2 (run_Steps run) index) as [step Hstep].
  { rewrite <-(length_fmap st_Service), (pr_services _ _ _ _ _ _ Hpr), length_fmap. lia. }
  eapply yields_bind; [by eapply workflow_step_yields|..].
  - intros evs' Hg. by eapply guarded_progress.
  - intros evs' r _ [Hr Hb]. split; [done|]. by rewrite acquires_app, completes_app, (pr_balanced _ _ _ _ _ _ Hpr), Hb.
  - intros evs' [r succeeded'] Hg Hit. simpl in Hit.
    destruct (progressed_step _ _ _ _ _ _ _ _ _ _ Hpr Hs Hg Hit) as [Hpr' Hs'].
    eapply yields_weaken; [eapply (IH (S index) r succeeded' (evs ++ evs')); [done|done|lia]|..].
    + intros evs1. cbv beta. by rewrite (assoc_L (++)).
    + intros evs1 r1 _. cbv beta. by rewrite (assoc_L (++)), Nat.add_succ_r.
    + intros evs1 r1 _. cbv beta. by rewrite (assoc_L (++)).
Qed.

(** *** The whole workflow *)

Lemma set_waves_fields planned waves steps steps' err :
  set_waves planned waves steps = (steps', err) →
  st_Service <$> steps' = st_Service <$> steps ∧ st_Status <$> steps' = st_Status <$> steps.
Proof.
  revert steps' err. induction steps as [|step steps IH]; simpl; intros steps' err; [by intros [= <- <-]|].
  destruct (negb _); [by intros [= <- <-]|]. destruct (set_waves planned waves steps) as [rest e].
  intros [= <- <-]. destruct (IH rest e eq_refl) as [Hv Hs]. rewrite !fmap_cons, Hv, Hs. done.
Qed.

(** [assignWaves] finishes, and changes the waves only. *)
Lemma assignWaves_fields run :
  ∃ r err, assignWaves run = Some (r, err) ∧ run_Plan r = run_Plan run ∧ run_RequestedBy r = run_RequestedBy run ∧
    run_ID r = run_ID run ∧ st_Service <$> run_Steps r = st_Service <$> run_Steps run.
Proof.
  unfold assignWaves. destruct (BuildWaves_total (wave_steps run) DefaultLimits) as (b & -> & _). destruct b as [waves|err].
  - destruct (set_waves _ _ _) as [steps err] eqn:Hw. apply set_waves_fields in Hw as [Hv _]. by eexists _, _.
  - by eexists _, _.
Qed.

(** The services of a run, and those that had succeeded when it began. *)
Definition selected_services (run : ReleaseRun) : gset string := list_to_set (st_Service <$> run_Steps run).
Definition succeeded_services (run : ReleaseRun) : gset string :=
  list_to_set (st_Service <$> filter (λ s, st_Status s = StepSucceeded) (run_Steps run)).

(** What a workflow that ends with a run, and not with an error, has done. *)
Record finished (run : ReleaseRun) (evs : list wf_effect) (r : ReleaseRun) : Prop := {
  fin_balanced : acquires evs = completes evs;
  fin_succeeded : run_Status r = RunSucceeded →
    st_Service <$> run_Steps r = st_Service <$> run_Steps run ∧ Forall (λ s, st_Status s = StepSucceeded) (run_Steps r);
}.

Lemma progressed_all run0 selected succeeded0 index evs run :
  progressed run0 selected succeeded0 index evs run → index = length (run_Steps run0) →
  Forall (λ s, st_Status s = StepSucceeded) (run_Steps run).
Proof.
  intros [_ _ _ Hv Hd _ _] ->. apply Forall_lookup. intros j step Hj.
  destruct (Hd j) as (step' & Hl & Hst); [|by simplify_eq].
  rewrite <-(length_fmap st_Service (run_Steps run0)), <-Hv, length_fmap. by eapply lookup_lt_Some.
Qed.

Lemma finished_persisted run evs selected succeeded0 r r' e :
  progressed run selected succeeded0 (length (run_Steps run)) evs r → run_Steps r' = run_Steps r → plain [e] →
  finished run (evs ++ [e]) r'.
Proof.
  intros Hpr Hs (_ & Ha & Hc). split.
  - by rewrite acquires_app, completes_app, (pr_balanced _ _ _ _ _ _ Hpr), Ha, Hc.
  - intros _. rewrite Hs. split; [apply Hpr|]. by eapply progressed_all.
Qed.

Lemma finished_returned run evs r : returned evs r → finished run evs r.
Proof. intros [Hs Hb]. by split. Qed.

Lemma ReleaseWorkflow_yields run :
  yields (E:=E) (ReleaseWorkflow now_at cancel_polled pause_polled run)
    (guarded (granted run (selected_services run) (succeeded_by (succeeded_services run)))) (λ _ _, False) (finished run).
Proof.
  unfold ReleaseWorkflow. apply (yields_bind _ _ (λ evs, evs = []) (λ _ _, True) (λ _ _, False)); [|by intros ? ->; apply guarded_none|done|].
  { intros w w' out. unfold set_query_handler. destruct (client_SetQueryHandler _) as [e [[]|err]]; intros [= <- <-];
      exists []; by rewrite app_nil_r. }
  intros evs [] -> _. eapply yields_silent; [apply touch_silent|by apply guarded_none|]. intros r [t ->].
  eapply yields_bind; [apply persist_yields|by intros ? ->; apply guarded_none|done|]. intros ? ? -> ->.
  match goal with |- context [persisted ?r0] => set (started := r0) end.
  assert (Hst : same_run run (persisted started)) by done. destruct Hst as (Hp & Hq & Hi & Hsteps).
  change (list_to_set (st_Service <$> run_Steps (persisted started))) with (selected_services (persisted started)).
  generalize dependent started. intros started Hp Hq Hi Hsteps.
  destruct (assignWaves_fields (persisted started)) as (r & err & -> & Hp' & Hq' & Hi' & Hv').
  destruct err as [err|]; [by apply yields_return; [apply guarded_none|]|].
  unfold selected_services. rewrite Hsteps. fold (selected_services run) (succeeded_services run). rewrite Hsteps in Hv'.
  assert (Hlen : length (run_Steps r) = length (run_Steps run)) by (rewrite <-(length_fmap st_Service), Hv'; apply length_fmap).
  rewrite Hlen. eapply yields_bind.
  - apply (workflow_loop_yields run _ (succeeded_services run) _ 0 _ _ [WPersist started "release.workflow.started"]); [split|by left|done];
      [congruence..|done|by intros j Hj; lia|done|by apply guarded_none].
  - done.
  - intros evs r' _ Hr. by apply finished_returned.
  - intros evs r' Hg Hpr. eapply yields_silent; [apply touch_silent|by rewrite app_nil_r|]. intros ? [t' ->].
    unfold persist_and_return. eapply yields_bind; [apply persist_yields|..].
    + intros ? ->. by apply (guarded_app _ (_ :: evs)); [|apply guarded_none].
    + done.
    + intros ? ? -> ->. apply yields_return; rewrite app_nil_r; [by apply (guarded_app _ (_ :: evs)); [|apply guarded_none]|].
      intros _. by apply (finished_persisted run (_ :: evs) _ _ r' _ _ Hpr).
Qed.

(** ** Results *)

(** C2: every deployment a workflow asks for is one its events allow: it is for the run and its
    requester; the policy was asked about the service and either allowed it, or asked for an approval that
    somebody other than the requester, holding every required role, then gave, or answered a string that is
    none of [ALLOW], [REQUIRE_APPROVAL] and [DENY] (which the workflow does not stop); the scheduler granted
    a reservation; and every rollout dependency of the service that belongs to the release had succeeded
    before the workflow began or was completed without a failure. *)
Theorem workflow_deploys_authorized run w w' out pre input post :
  ReleaseWorkflow now_at cancel_polled pause_polled run w = (w', out) → ww_trace w = [] →
  ww_trace w' = pre ++ WDeploy input :: post →
  granted run (selected_services run) (succeeded_by (succeeded_services run)) pre input.
Proof.
  intros Hw Ht Heq. apply ReleaseWorkflow_yields in Hw as (evs & Ht' & Hg & _). rewrite Ht in Ht'. simpl in Ht'.
  apply (Hg pre input post). congruence.
Qed.

(** C20: a workflow that ends with a run and no error has completed every reservation the
    scheduler granted it, once and in order. *)
Theorem workflow_completes_reservations run w w' r :
  ReleaseWorkflow now_at cancel_polled pause_polled run w = (w', Return r None) → ww_trace w = [] →
  acquires (ww_trace w') = completes (ww_trace w').
Proof.
  intros Hw Ht. apply ReleaseWorkflow_yields in Hw as (evs & Ht' & _ & Hf). rewrite Ht in Ht'. simpl in Ht'.
  rewrite Ht'. apply Hf.
Qed.

(** C19: a release is reported as succeeded only when every one of its steps succeeded. *)
Theorem workflow_success_complete run w w' r :
  ReleaseWorkflow now_at cancel_polled pause_polled run w = (w', Return r None) → run_Status r = RunSucceeded →
  st_Service <$> run_Steps r = st_Service <$> run_Steps run ∧ Forall (λ s, st_Status s = StepSucceeded) (run_Steps r).
Proof. intros Hw Hr. apply ReleaseWorkflow_yields in Hw as (evs & _ & _ & Hf). by apply Hf. Qed.

(** C21: provided the activity [PersistRun], when it succeeds, answers with the run it was given under
    its next version ([WorkflowLaws]; [worker_laws] proves it of the repository's worker), then whatever the
    other activities answer, whether or not [PersistRun] fails, and whatever signals arrive, the workflow
    returns a run and an error or waits for the next signal: no step is indexed out of range, no approval is
    missing, and the wave loop ends. *)
Theorem workflow_returns_or_waits run w w' out :
  ReleaseWorkflow now_at cancel_polled pause_polled run w = (w', out) → out = Waiting ∨ ∃ r err, out = Return r err.
Proof.
  intros Hw. apply ReleaseWorkflow_yields in Hw as (evs & _ & _ & Ho). destruct out as [a|r err| |]; [done|by eauto|by left|done].
Qed.
End pieces.

(** ** The activities of a worker

    The worker serves the workflow with the activities of Activities.v and Scheduler.v: the
    durable store, the executor and the scheduler are its state. *)

Record Worker {S X : Type} := {
  wk_world : @ActWorld S X;
  wk_scheduling : Scheduling;
}.
Arguments Worker : clear implicits.

#[export] Instance eta_Worker S X : Eta (Worker S X) := λ r,
  {| wk_world := wk_world r; wk_scheduling := wk_scheduling r |}.

Section worker.
Context {S X : Type} `{!DurableStore S, !ReleaseExecutor X}.
Context (now_at : nat → time) (id_at : nat → string) (marshal : AdapterEvidence → result error string)
  (nonRetryable : string → string → error → error) (a : Activities).

Definition in_world {A} (m : ST (@ActWorld S X) A) (e : Worker S X) : Worker S X * A :=
  let '(w, r) := m (wk_world e) in (e <| wk_world := w |>, r).
Definition in_scheduling {A} (m : ST Scheduling A) (e : Worker S X) : Worker S X * A :=
  let '(s, r) := m (wk_scheduling e) in (e <| wk_scheduling := s |>, r).

(** The capacity [NewActivities] configures. *)
Definition default_capacity : Capacity :=
  {| cap_RunnerAvailable := 20; cap_AdapterRemaining := 20; cap_QueueDepth := 0; cap_QueueLimit := 100 |}.

Definition worker_client : ActivityClient (Worker S X) := {|
  client_SetQueryHandler := λ e, (e, Ok tt);
  client_Sleep := λ _ e, (e, Ok tt);
  activity_PersistRun := λ input, in_world (PersistRun now_at id_at input);
  activity_EvaluateStep := λ run step, in_world (d ← EvaluateStep now_at a run step; mret (Ok d));
  activity_AcquireSchedule := λ runID step, in_scheduling (AcquireSchedule runID step default_capacity);
  activity_CompleteSchedule := λ runID stepID failed,
    in_scheduling (_ ← CompleteSchedule runID stepID failed; mret (Ok tt));
  activity_Deploy := λ input, in_world (Activities_Deploy now_at id_at nonRetryable a input);
  activity_Verify := λ deployment, in_world (Activities_Verify marshal deployment);
  activity_Rollback := λ input, in_world (Activities_Rollback now_at id_at nonRetryable a input);
|}.

(** The activities keep what the workflow relies on. *)
Lemma worker_laws `{!UpdateLaws S} : @WorkflowLaws (Worker S X) worker_client.
Proof.
  split. intros input e e' r. simpl. unfold in_world. destruct (PersistRun now_at id_at input (wk_world e)) as [w out] eqn:Hp.
  intros [= _ ->]. destruct (PersistRun_eq now_at id_at input (wk_world e)) as (w1 & au & ev & _ & Heq).
  rewrite Heq in Hp. by apply persist_update_version in Hp.
Qed.
End worker.

(** ** A release of two services

    "api" depends on "auth"; both need the approval of a service owner. *)

#[local] Existing Instance canonical_order.
#[local] Instance pair_executor : ReleaseExecutor Mock := mock_executor 2000 (λ _, Ok "{}").

Definition pair_activities : Activities :=
  {| acts_Policy := fixed_policy DecisionRequireApproval ["service-owner"]; acts_AdapterName := "mock" |}.

#[local] Instance pair_client : ActivityClient (Worker Memory Mock) :=
  worker_client worker_clock worker_ids (λ _, Ok "{}") wrapped pair_activities.
#[local] Instance pair_laws : WorkflowLaws (Worker Memory Mock) :=
  worker_laws worker_clock worker_ids (λ _, Ok "{}") wrapped pair_activities.

Definition pair_planned (service : string) (dependencies : list string) : PlanStep :=
  {| ps_Service := service; ps_DesiredVersion := "v2"; ps_Phase := 0; ps_Profile := "";
     ps_Dependencies := (λ d, {| dep_Service := d; dep_Resource := ""; dep_Type := DependencyRolloutOrder; dep_Condition := "";
                                 dep_Constraint := "" |}) <$> dependencies;
     ps_RequiredCapabilities := []; ps_ContractHash := ""; ps_ProfileHash := ""; ps_ChangeHash := "";
     ps_VerificationRequired := true; ps_ObservationWindow := "1s"; ps_RollbackMode := RollbackAutomatic;
     ps_Scheduling := {| sc_TenantID := "team-a"; sc_Environment := EnvironmentStaging; sc_Region := ""; sc_Cluster := "";
                         sc_Team := ""; sc_RiskTier := ""; sc_RunnerGroup := "group"; sc_FailureDomains := [] |} |}.

Definition pair_step (service : string) : ReleaseStep :=
  {| st_Service := service; st_Phase := 0; st_Wave := 0; st_Status := StepPending; st_Change := zero_Change;
     st_Policy := None; st_Approval := None; st_Execution := None; st_Verification := None; st_VerificationRequired := true;
     st_ObservationWindow := "1s"; st_RollbackMode := RollbackAutomatic; st_RollbackExecution := None;
     st_RollbackVerification := None; st_Failure := "" |}.

Definition pair_run : ReleaseRun := Eval vm_compute in
  zero_ReleaseRun <| run_ID := "run" |> <| run_RequestID := "request" |> <| run_RequestedBy := "user" |>
    <| run_Environment := EnvironmentStaging |>
    <| run_Plan := zero_ReleasePlan <| plan_Phases :=
         [{| ph_Number := 0; ph_Steps := [pair_planned "auth" []; pair_planned "api" ["auth"]] |}] |> |>
    <| run_Steps := [pair_step "auth"; pair_step "api"] |>.

Definition pair_approval (actor service : string) : approval_wakeup :=
  GotApproval {| sg_ApprovalID := deterministicID "approval" ["run"; service]; sg_Actor := actor;
                 sg_Roles := ["service-owner"]; sg_Approve := true; sg_Action := "" |}.

(** The requester approves too; that signal is ignored. *)
Definition pair_world : WfWorld (Worker Memory Mock) :=
  {| ww_env := {| wk_world := worker_world (fst (CreateRun pair_run NewMemory)); wk_scheduling := demo_scheduling |};
     ww_approvals := [pair_approval "user" "auth"; pair_approval "owner" "auth"; pair_approval "owner" "api"];
     ww_resumes := []; ww_ticks := 0; ww_polls := 0; ww_trace := [] |}.

Definition pair_flow : WfWorld (Worker Memory Mock) * flow ReleaseRun :=
  ReleaseWorkflow worker_clock (λ _, false) (λ _, false) pair_run pair_world.
Definition pair_trace : list wf_effect := ww_trace (fst pair_flow).

(** The run a workflow returned, and whether it returned it as succeeded. *)
Definition returned_run (out : flow ReleaseRun) : ReleaseRun :=
  match out with Return r None => r | _ => zero_ReleaseRun end.
Definition returned_success (out : flow ReleaseRun) : bool :=
  match out with Return r None => bool_decide (run_Status r = RunSucceeded) | _ => false end.

Lemma returned_success_eq out :
  returned_success out = true → out = Return (returned_run out) None ∧ run_Status (returned_run out) = RunSucceeded.
Proof. by destruct out as [|r []| |]; simpl; try done; intros ?%bool_decide_eq_true. Qed.

Lemma pair_with_snd {A B} (p : A * B) b : snd p = b → p = (fst p, b).
Proof. by destruct p; simpl; intros ->. Qed.

Definition deployed_input (e : option wf_effect) : DeployInput := match e with Some (WDeploy input) => input | _ => worker_input end.
Definition is_deploy_of (service : string) (e : option wf_effect) : bool :=
  match e with Some (WDeploy input) => bool_decide (di_Service input = service) | _ => false end.

Lemma is_deploy_of_eq service (l : list wf_effect) i :
  is_deploy_of service (l !! i) = true →
  l = take i l ++ WDeploy (deployed_input (l !! i)) :: drop (S i) l ∧ di_Service (deployed_input (l !! i)) = service.
Proof.
  destruct (l !! i) as [e|] eqn:Hl; [|done]. destruct e; try done. simpl. intros ?%bool_decide_eq_true.
  split; [|done]. symmetry. by apply take_drop_middle.
Qed.

Definition pair_result : ReleaseRun := returned_run (snd pair_flow).
Definition pair_input : DeployInput := deployed_input (pair_trace !! 22%nat).

Lemma pair_deploys : is_deploy_of "api" (pair_trace !! 22%nat) = true.
Proof. vm_compute. reflexivity. Qed.

Lemma pair_success : returned_success (snd pair_flow) = true.
Proof. vm_compute. reflexivity. Qed.

Lemma pair_returns : pair_flow = (fst pair_flow, Return pair_result None).
Proof. exact (pair_with_snd _ _ (proj1 (returned_success_eq _ pair_success))). Qed.

(** The second deployment comes after the first succeeded. *)
Lemma workflow_deploys_authorized_witness :
  di_Service pair_input = "api" ∧
  granted pair_run (selected_services pair_run) (succeeded_by (succeeded_services pair_run)) (take 22 pair_trace) pair_input.
Proof.
  split; [exact (proj2 (is_deploy_of_eq _ _ _ pair_deploys))|].
  exact (workflow_deploys_authorized worker_clock (λ _, false) (λ _, false) pair_run pair_world (fst pair_flow) (snd pair_flow)
    _ _ _ (surjective_pairing _) eq_refl (proj1 (is_deploy_of_eq _ _ _ pair_deploys))).
Defined.

Lemma workflow_completes_reservations_witness : acquires pair_trace = completes pair_trace.
Proof.
  exact (workflow_completes_reservations worker_clock (λ _, false) (λ _, false) pair_run pair_world (fst pair_flow) pair_result
    pair_returns eq_refl).
Defined.

Lemma workflow_success_complete_witness :
  st_Service <$> run_Steps pair_result = ["auth"; "api"] ∧ Forall (λ s, st_Status s = StepSucceeded) (run_Steps pair_result).
Proof.
  exact (workflow_success_complete worker_clock (λ _, false) (λ _, false) pair_run pair_world (fst pair_flow) pair_result
    pair_returns (proj2 (returned_success_eq _ pair_success))).
Defined.

Lemma workflow_returns_or_waits_witness : snd pair_flow = Waiting ∨ ∃ r err, snd pair_flow = Return r err.
Proof.
  exact (workflow_returns_or_waits worker_clock (λ _, false) (λ _, false) pair_run pair_world (fst pair_flow) (snd pair_flow)
    (surjective_pairing _)).
Defined.
