(* ===== verification/Production.v ===== *)
(** * The workers over the PostgreSQL store

    The activities and the workflow are proved against the interface of the durable store;
    here they run over the PostgreSQL store with outages, which keeps the laws they rely on. *)
From S2P Require Import Prelude GoStd Domain Store Verification Runner Executor Engine Durable Postgres Activities Workflow.
Open Scope Z_scope.

Section production.
Context `{!RowOrder} (column_time : time → time).
#[local] Instance production_store : DurableStore Cluster := Cluster_store column_time.
#[local] Instance production_executions : ExecutionLaws Cluster := Cluster_ExecutionLaws column_time.
#[local] Instance production_updates : UpdateLaws Cluster := Cluster_UpdateLaws column_time.
Context {X : Type} `{!ReleaseExecutor X} (now_at : nat → time) (id_at : nat → string)
  (nonRetryable : string → string → error → error) (a : Activities).

(** C4: over the PostgreSQL store, whatever its outages: statements that fail, commits that
    are lost or whose acknowledgement is lost, and however the activities of any number of workers
    interleave, crash and are retried, the executor is called at most once per adapter and idempotency
    key; every call is of a slot that had no execution row at the start and has one from then on. *)
Theorem production_write_once c0 c :
  rtc (system_step now_at id_at nonRetryable a) c0 c → aw_trace c0.2 = [] → Forall (λ t, t.2 = Begin) c0.1 →
  let slots := omap (effect_slot a) (aw_trace c.2) in
  NoDup slots ∧
  ∀ slot, slot ∈ slots → db_executions (cl_db (aw_store c0.2)) !! slot = None ∧
    is_Some (db_executions (cl_db (aw_store c.2)) !! slot).
Proof.
  intros Hsteps Ht Hts.
  destruct (system_once now_at id_at nonRetryable a c0 c Hsteps Ht) as (Hnd & Hocc & _).
  { eapply Forall_impl; [exact Hts|]. intros [x st] Hst. simpl in Hst. by rewrite Hst. }
  split; [by apply NoDup_app in Hnd as [? _]|]. intros slot Hin.
  destruct (Hocc slot) as [Hin' Hfree]; [apply elem_of_app; by left|]. split; [|done]. by apply eq_None_not_Some.
Qed.

(** An activity that gets its reservation calls the executor. *)
Lemma reserved_calls x ts w :
  is_Some (snd (write_reserve now_at id_at nonRetryable a x w)) →
  ∃ t w', rtc (system_step now_at id_at nonRetryable a) ((x, Begin) :: ts, w) (t :: ts, w') ∧
    aw_trace w' = aw_trace w ++ [write_event x].
Proof.
  intros [reserved Hs]. destruct (write_reserve now_at id_at nonRetryable a x w) as [w1 o] eqn:Hr. simpl in Hs. subst o.
  destruct (write_call x w1) as [w2 outcome] eqn:Hc. exists (x, Called reserved outcome), w2. split.
  - apply (rtc_l _ _ ((x, Held reserved) :: ts, w1)); [|apply rtc_once].
    + by apply (system_write _ _ _ _ [] ts), step_reserved.
    + by apply (system_write _ _ _ _ [] ts), step_called.
  - destruct (write_reserve_spec now_at id_at nonRetryable a _ _ _ _ Hr) as (_ & Ht & _).
    destruct (write_call_spec _ _ _ _ Hc) as [_ Htr]. by rewrite Htr, Ht.
Qed.

(** The worker that serves the workflow's activities from this store keeps the workflow's laws. *)
Lemma production_laws `{!MapOrder} (marshal : AdapterEvidence → result error string) :
  @WorkflowLaws (Worker Cluster X) (worker_client now_at id_at marshal nonRetryable a).
Proof. apply worker_laws, _. Qed.
End production.

(** ** A deployment whose completion is lost *)

#[local] Existing Instance canonical_order.
#[local] Instance production_mock : ReleaseExecutor Mock := mock_executor 2000 (λ _, Ok "{}").
#[local] Instance production_rows : RowOrder := insertion_order.
#[local] Hint Extern 0 (DurableStore Cluster) => exact (production_store microseconds) : typeclass_instances.

(** The run is stored; the second call to the store, the completion of the execution, fails when
    it commits. *)
Definition production_cluster : Cluster :=
  {| cl_db := fst (pg_CreateRun microseconds (demo_run "run" "req") [] (empty_database 0));
     cl_faults := [[]; [None; None; None; None; Some connection_lost]] |}.
Definition production_world : @ActWorld Cluster Mock :=
  {| aw_store := production_cluster; aw_exec := NewMock ∅; aw_ticks := 0; aw_ids := 0; aw_trace := [] |}.
(** Two workers take the same deployment, the first calls the executor. *)
Lemma production_write_once_witness :
  ∃ w : @ActWorld Cluster Mock, aw_trace w = [AEDeploy worker_input] ∧ NoDup (omap (effect_slot worker) (aw_trace w)).
Proof.
  destruct (reserved_calls microseconds worker_clock worker_ids wrapped worker (Activities.WDeploy worker_input)
    [(Activities.WDeploy worker_input, Begin)] production_world) as (t & w & Hsteps & Ht).
  { by apply (bool_decide_unpack _); vm_compute. }
  exists w. split; [exact Ht|].
  apply (production_write_once microseconds worker_clock worker_ids wrapped worker _ _ Hsteps); [done|by repeat constructor].
Defined.
